(** * Obsidian-Todoist sync: a shallow embedding of the reconciliation core

  The development follows the TypeScript sources: the name sanitizer and
  the note materializer ([FileGenerator]), the frontmatter codec
  ([FrontmatterParser] and [FileGenerator.serializeFrontmatter]), the two
  state mirrors ([TodoistState], [ObsidianState]), the engine
  ([SyncEngine]) and the preview command of the plugin.  Definitions come
  first, theorems follow. *)

From Stdlib Require Import String Ascii List ZArith Lia Bool Arith.
From Stdlib Require Import DecimalString.
Import ListNotations.
Local Open Scope list_scope.
Local Open Scope string_scope.

(* ================================================================== *)
(** ** JavaScript strings

  A string is a sequence of code units; the model keeps the 8-bit range,
  one [ascii] per code unit. *)
(* ================================================================== *)

Module JsString.

Definition dquote : ascii := ascii_of_nat 34.
Definition squote : ascii := ascii_of_nat 39.
Definition backslash : ascii := ascii_of_nat 92.
Definition lf : ascii := ascii_of_nat 10.
Definition cr : ascii := ascii_of_nat 13.

Definition str1 (c : ascii) : string := String c EmptyString.

Definition isEmpty (s : string) : bool :=
  match s with EmptyString => true | String _ _ => false end.

(** WhiteSpace and LineTerminator code points below 256, as stripped by
    [String.prototype.trim]: TAB, LF, VT, FF, CR, SP, NBSP. *)
Definition isWhiteSpace (c : ascii) : bool :=
  let n := nat_of_ascii c in
  Nat.eqb n 9 || Nat.eqb n 10 || Nat.eqb n 11 || Nat.eqb n 12
|| Nat.eqb n 13 || Nat.eqb n 32 || Nat.eqb n 160.

(** [.] of a regular expression without the [s] flag: anything but a line
    terminator. *)
Definition isLineTerminator (c : ascii) : bool :=
  Ascii.eqb c lf || Ascii.eqb c cr.

Fixpoint trimStart (s : string) : string :=
  match s with
  | EmptyString => EmptyString
  | String c s' => if isWhiteSpace c then trimStart s' else s
  end.

Fixpoint trimEnd (s : string) : string :=
  match s with
  | EmptyString => EmptyString
  | String c s' =>
      let r := trimEnd s' in
      if isWhiteSpace c && isEmpty r then EmptyString else String c r
  end.

Definition trim (s : string) : string := trimEnd (trimStart s).

(** [s.substring(a, b)] for [a <= b]. *)
Definition jsSubstring (a b : nat) (s : string) : string :=
  String.substring a (b - a) s.

(** [s.substring(a)]. *)
Fixpoint dropStr (n : nat) (s : string) : string :=
  match n, s with
  | O, _ => s
  | S n', String _ s' => dropStr n' s'
  | S _, EmptyString => EmptyString
  end.

(** [s.indexOf(c)] for a one-character needle; [None] stands for -1. *)
Fixpoint indexOfChar (c : ascii) (s : string) : option nat :=
  match s with
  | EmptyString => None
  | String d s' =>
      if Ascii.eqb d c then Some O
      else match indexOfChar c s' with
           | Some n => Some (S n)
           | None => None
           end
  end.

Definition includesChar (c : ascii) (s : string) : bool :=
  match indexOfChar c s with Some _ => true | None => false end.

Definition startsWithChar (c : ascii) (s : string) : bool :=
  match s with
  | String d _ => Ascii.eqb d c
  | EmptyString => false
  end.

Fixpoint lastChar (s : string) : option ascii :=
  match s with
  | EmptyString => None
  | String c EmptyString => Some c
  | String _ s' => lastChar s'
  end.

Definition endsWithChar (c : ascii) (s : string) : bool :=
  match lastChar s with
  | Some d => Ascii.eqb d c
  | None => false
  end.

(** [s.slice(0, -1)]. *)
Fixpoint dropLast (s : string) : string :=
  match s with
  | EmptyString => EmptyString
  | String _ EmptyString => EmptyString
  | String c s' => String c (dropLast s')
  end.

(** [s.slice(1, -1)]. *)
Definition slice1m1 (s : string) : string :=
  match s with
  | EmptyString => EmptyString
  | String _ s' => dropLast s'
  end.

(** [s.lastIndexOf('/')] followed by [s.substring(0, idx)]: the part of [s]
    before its last [c], [None] when [c] does not occur. *)
Fixpoint beforeLast (c : ascii) (s : string) : option string :=
  match s with
  | EmptyString => None
  | String d s' =>
      match beforeLast c s' with
      | Some r => Some (String d r)
      | None => if Ascii.eqb d c then Some EmptyString else None
      end
  end.

(** [s.split(sep)] for a one-character separator: never empty, the empty
    string splits into one empty piece. *)
Fixpoint splitOn (sep : ascii) (s : string) : list string :=
  match s with
  | EmptyString => [EmptyString]
  | String c s' =>
      if Ascii.eqb c sep then EmptyString :: splitOn sep s'
      else match splitOn sep s' with
           | l :: ls => String c l :: ls
           | [] => [str1 c]
           end
  end.

Definition splitLines (s : string) : list string := splitOn lf s.

(** [lines.join('\n')]. *)
Fixpoint joinLines (ls : list string) : string :=
  match ls with
  | [] => EmptyString
  | [l] => l
  | l :: ls' => l ++ String lf (joinLines ls')
  end.

(** [s.replace(re, ...)] with a global regular expression none of whose
    matches is empty.  [m s] tries the expression at the start of [s] and
    answers the replacement text and the number of code units the match
    covers; scanning resumes after the match, and moves on by one code
    unit where there is none.  [skip] counts the code units of the current
    match still to pass over. *)
Fixpoint replaceFrom (m : string -> option (string * nat)) (skip : nat)
         (s : string) : string :=
  match s with
  | EmptyString => EmptyString
  | String c s' =>
      match skip with
      | S k => replaceFrom m k s'
      | O =>
          match m s with
          | Some (repl, n) => repl ++ replaceFrom m (Nat.pred n) s'
          | None => String c (replaceFrom m O s')
          end
      end
  end.

Definition replaceAll (m : string -> option (string * nat)) (s : string)
  : string := replaceFrom m O s.

(** The longest prefix of [s] whose code units satisfy [p]. *)
Fixpoint takeWhile (p : ascii -> bool) (s : string) : string :=
  match s with
  | EmptyString => EmptyString
  | String c s' => if p c then String c (takeWhile p s') else EmptyString
  end.

End JsString.

(* ================================================================== *)
(** ** Name sanitizer ([FileGenerator.sanitizeFileName]) *)
(* ================================================================== *)

Module Sanitizer.
Import JsString.

(** [/\[([^\]]+)\]\((.*?)\)/]: an opening bracket, the longest non-empty run
    of code units other than the closing bracket (the run cannot give any
    back, what follows it must be that bracket), the two code units [](],
    then as few code units as possible, none a line terminator, up to a
    closing parenthesis.  [lazyUntilParen] answers how many code units the
    lazy group takes. *)
Fixpoint lazyUntilParen (s : string) : option nat :=
  match s with
  | EmptyString => None
  | String c s' =>
      if Ascii.eqb c ")" then Some O
      else if isLineTerminator c then None
      else match lazyUntilParen s' with
           | Some n => Some (S n)
           | None => None
           end
  end.

Definition notCloseBracket (c : ascii) : bool := negb (Ascii.eqb c "]").

Definition matchMarkdownLink (s : string) : option (string * nat) :=
  match s with
  | String "[" r =>
      let text := takeWhile notCloseBracket r in
      if isEmpty text then None
      else
        match dropStr (String.length text) r with
        | String "]" (String "(" r') =>
            match lazyUntilParen r' with
            | Some n => Some (text, 1 + String.length text + 2 + n + 1)
            | None => None
            end
        | _ => None
        end
  | _ => None
  end.

(** The class of the second expression: the nine code units
    [<], [>], [:], the double quote, [/], the backslash, [|], [?] and the
    asterisk. *)
Definition isUnsafeChar (c : ascii) : bool :=
  Ascii.eqb c "<" || Ascii.eqb c ">" || Ascii.eqb c ":"
  || Ascii.eqb c dquote || Ascii.eqb c "/" || Ascii.eqb c backslash
  || Ascii.eqb c "|" || Ascii.eqb c "?" || Ascii.eqb c "*".

(** Each code unit of that class, replaced by an underscore. *)
Definition matchUnsafeChar (s : string) : option (string * nat) :=
  match s with
  | String c _ => if isUnsafeChar c then Some ("_", 1) else None
  | EmptyString => None
  end.

(** [/\./g] replaced by an underscore. *)
Definition matchDot (s : string) : option (string * nat) :=
  match s with
  | String c _ => if Ascii.eqb c "." then Some ("_", 1) else None
  | EmptyString => None
  end.

Definition isUnderscore (c : ascii) : bool := Ascii.eqb c "_".

(** [/_+/g] replaced by one underscore: the greedy run. *)
Definition matchUnderscores (s : string) : option (string * nat) :=
  let run := takeWhile isUnderscore s in
  if isEmpty run then None else Some ("_", String.length run).

Definition sanitizeFileName (name : string) : string :=
  let v := replaceAll matchMarkdownLink name in
  let v :=
    jsSubstring 0 100
      (trim (replaceAll matchDot (replaceAll matchUnsafeChar v))) in
  let v := replaceAll matchUnderscores v in
  if isEmpty v then "untitled" else v.

End Sanitizer.

(* ================================================================== *)
(** ** The seven rules of the sanitizer as the specification words them

    Each rule is a function of its own, written over the characters of the
    title without the scanning machinery of [replaceAll] and with its
    character classes spelled out here: the nine characters of rule 2,
    the blanks that rule 4 trims and the line breaks that end an address.
    [sanitizeBySpec] chains the rules in the order of the specification. *)
(* ================================================================== *)

Module NameRules.

Fixpoint mapStr (f : ascii -> ascii) (s : string) : string :=
  match s with
  | EmptyString => EmptyString
  | String c s' => String (f c) (mapStr f s')
  end.

Fixpoint dropWhile (p : ascii -> bool) (l : list ascii) : list ascii :=
  match l with
  | [] => []
  | c :: l' => if p c then dropWhile p l' else l
  end.

Fixpoint anyChar (p : ascii -> bool) (s : string) : bool :=
  match s with
  | EmptyString => false
  | String c s' => p c || anyChar p s'
  end.

(** The characters with one of the codes [codes]. *)
Definition hasCode (codes : list nat) (c : ascii) : bool :=
  existsb (Nat.eqb (nat_of_ascii c)) codes.

(** The nine characters of rule 2: less-than, greater-than, colon, double
    quote, slash, backslash, bar, question mark, asterisk. *)
Definition unsafeCodes : list nat := [60; 62; 58; 34; 47; 92; 124; 63; 42].

(** Tab, line feed, vertical tab, form feed, carriage return, space and
    the no-break space. *)
Definition blankCodes : list nat := [9; 10; 11; 12; 13; 32; 160].

(** Line feed and carriage return. *)
Definition lineBreakCodes : list nat := [10; 13].

(** The part of [s] before the first [c] and the part after it. *)
Fixpoint cutAt (c : ascii) (s : string) : option (string * string) :=
  match s with
  | EmptyString => None
  | String d s' =>
      if Ascii.eqb d c then Some (EmptyString, s')
      else match cutAt c s' with
           | Some (before, after) => Some (String d before, after)
           | None => None
           end
  end.

(** A link in front of [s]: an opening bracket, a text that is not empty,
    a closing bracket, and between parentheses an address on one line.
    The answer is the text and what follows the link. *)
Definition linkInFront (s : string) : option (string * string) :=
  match s with
  | String opening r =>
      if Ascii.eqb opening "[" then
        match cutAt "]" r with
        | Some (String t text, String paren r') =>
            if Ascii.eqb paren "(" then
              match cutAt ")" r' with
              | Some (url, rest) =>
                  if anyChar (hasCode lineBreakCodes) url then None
                  else Some (String t text, rest)
              | None => None
              end
            else None
        | _ => None
        end
      else None
  | EmptyString => None
  end.

(** Rule 1 from left to right: a link gives way to its text and the rule
    goes on behind the link.  [fuel] bounds the characters still to read. *)
Fixpoint collapseLinks (fuel : nat) (s : string) : string :=
  match fuel with
  | O => s
  | S fuel' =>
      match linkInFront s with
      | Some (text, rest) => text ++ collapseLinks fuel' rest
      | None =>
          match s with
          | EmptyString => EmptyString
          | String c s' => String c (collapseLinks fuel' s')
          end
      end
  end.

Definition ruleCollapseLinks (s : string) : string :=
  collapseLinks (String.length s) s.

Definition ruleReplaceUnsafe (s : string) : string :=
  mapStr (fun c => if hasCode unsafeCodes c then "_"%char else c) s.

Definition ruleReplaceDots (s : string) : string :=
  mapStr (fun c => if Ascii.eqb c "." then "_"%char else c) s.

Definition ruleTrim (s : string) : string :=
  string_of_list_ascii
    (rev (dropWhile (hasCode blankCodes)
            (rev (dropWhile (hasCode blankCodes)
                    (list_ascii_of_string s))))).

Definition ruleTruncate (s : string) : string :=
  string_of_list_ascii (firstn 100 (list_ascii_of_string s)).

Fixpoint ruleCollapseUnderscores (s : string) : string :=
  match s with
  | EmptyString => EmptyString
  | String c s' =>
      match s' with
      | String d _ =>
          if Ascii.eqb c "_" && Ascii.eqb d "_"
          then ruleCollapseUnderscores s'
          else String c (ruleCollapseUnderscores s')
      | EmptyString => String c EmptyString
      end
  end.

Definition ruleFallback (s : string) : string :=
  match s with EmptyString => "untitled" | _ => s end.

Definition sanitizeBySpec (title : string) : string :=
  ruleFallback
    (ruleCollapseUnderscores
       (ruleTruncate
          (ruleTrim
             (ruleReplaceDots (ruleReplaceUnsafe (ruleCollapseLinks title)))))).

(** [n] dots in front of [tail]. *)
Fixpoint dots (n : nat) (tail : string) : string :=
  match n with
  | O => tail
  | S n' => String "." (dots n' tail)
  end.

End NameRules.


(* ================================================================== *)
(** ** JavaScript values, objects and maps *)
(* ================================================================== *)

Module JsValue.
Import JsString.

(** A number as far as the program tells numbers apart: NaN, an integer
    in the range where every integer is a number of its own and prints in
    plain decimal, or another number (a fraction, an infinity, a large
    magnitude), named by its canonical rendering. *)
Inductive JsNumber : Type :=
| JNaN
| JInt (z : Z)
| JOther (repr : string).

(** The values a frontmatter property holds. *)
Inductive Value : Type :=
| VUndefined
| VNull
| VStr (s : string)
| VNum (n : JsNumber)
| VBool (b : bool)
| VArr (items : list string).

(** Number to string, as a template literal renders it. *)
Definition numberToString (n : JsNumber) : string :=
  match n with
  | JNaN => "NaN"
  | JInt z => NilZero.string_of_int (Z.to_int z)
  | JOther r => r
  end.

(** [a === b] on numbers: NaN differs from itself. *)
Definition numStrictEq (a b : JsNumber) : bool :=
  match a, b with
  | JInt x, JInt y => Z.eqb x y
  | JOther r, JOther r' => String.eqb r r'
  | _, _ => false
  end.

(** [a === b].  An array is a fresh object wherever the program meets one,
    and the program compares against primitives only: two arrays are never
    the same. *)
Definition strictEq (a b : Value) : bool :=
  match a, b with
  | VUndefined, VUndefined => true
  | VNull, VNull => true
  | VStr x, VStr y => String.eqb x y
  | VNum x, VNum y => numStrictEq x y
  | VBool x, VBool y => Bool.eqb x y
  | _, _ => false
  end.

(** SameValueZero, the key comparison of [Map]: as [===] but NaN is itself. *)
Definition sameValueZero (a b : Value) : bool :=
  match a, b with
  | VNum JNaN, VNum JNaN => true
  | _, _ => strictEq a b
  end.

(** ToBoolean. *)
Definition truthy (v : Value) : bool :=
  match v with
  | VUndefined | VNull => false
  | VStr s => negb (isEmpty s)
  | VNum JNaN => false
  | VNum (JInt z) => negb (Z.eqb z 0)
  | VNum (JOther _) => true
  | VBool b => b
  | VArr _ => true
  end.

(** [a || b]. *)
Definition orElse (a b : Value) : Value := if truthy a then a else b.

(** A plain object with string keys: its own properties in the order
    [Object.entries] walks them, the array indices first, in ascending
    order, then the other keys in the order they were added.  The program
    looks up keys that no prototype carries, so a lookup is one among the
    own properties. *)
Definition Bag : Type := list (string * Value).

Fixpoint objGet (k : string) (o : Bag) : Value :=
  match o with
  | [] => VUndefined
  | (k', v) :: o' => if String.eqb k' k then v else objGet k o'
  end.

Fixpoint objHas (k : string) (o : Bag) : bool :=
  match o with
  | [] => false
  | (k', _) :: o' => String.eqb k' k || objHas k o'
  end.

(** The array index a property key names: the canonical decimal text of
    an integer from 0 to 2^32 - 2. *)
Definition arrayIndex (k : string) : option N :=
  match k with
  | EmptyString => None
  | String c rest =>
      if Ascii.eqb c "0" && negb (isEmpty rest) then None
      else
        match NilZero.uint_of_string k with
        | Some d =>
            let n := N.of_uint d in
            if N.ltb n 4294967295 then Some n else None
        | None => None
        end
  end.

(** Whether a new key [k] is listed before the present key [k']: an array
    index comes before every larger index and before every other key. *)
Definition listedBefore (k k' : string) : bool :=
  match arrayIndex k with
  | Some i =>
      match arrayIndex k' with
      | Some i' => N.ltb i i'
      | None => true
      end
  | None => false
  end.

(** A new property takes its place in the listing. *)
Fixpoint objInsert (k : string) (v : Value) (o : Bag) : Bag :=
  match o with
  | [] => [(k, v)]
  | (k', v') :: o' =>
      if listedBefore k k' then (k, v) :: o
      else (k', v') :: objInsert k v o'
  end.

(** A present property takes the new value where it is. *)
Fixpoint objReplace (k : string) (v : Value) (o : Bag) : Bag :=
  match o with
  | [] => []
  | (k', v') :: o' =>
      if String.eqb k' k then (k', v) :: o'
      else (k', v') :: objReplace k v o'
  end.

(** [o[k] = v], for a key other than [__proto__]. *)
Definition objSet (k : string) (v : Value) (o : Bag) : Bag :=
  if objHas k o then objReplace k v o else objInsert k v o.

(** Optional typed fields written into an object literal. *)
Definition optStr (o : option string) : Value :=
  match o with Some s => VStr s | None => VUndefined end.

End JsValue.

(** [Map]: keys in insertion order, [set] on a present key replaces the
    value in place. *)
Module JsMap.

Section WithKey.
Context {K V : Type} (eqb : K -> K -> bool).

Fixpoint get (k : K) (m : list (K * V)) : option V :=
  match m with
  | [] => None
  | (k', v) :: m' => if eqb k' k then Some v else get k m'
  end.

Definition has (k : K) (m : list (K * V)) : bool :=
  match get k m with Some _ => true | None => false end.

Fixpoint set (k : K) (v : V) (m : list (K * V)) : list (K * V) :=
  match m with
  | [] => [(k, v)]
  | (k', v') :: m' =>
      if eqb k' k then (k', v) :: m' else (k', v') :: set k v m'
  end.

Fixpoint delete (k : K) (m : list (K * V)) : list (K * V) :=
  match m with
  | [] => []
  | (k', v') :: m' => if eqb k' k then m' else (k', v') :: delete k m'
  end.

(** [new Map(entries)]. *)
Definition ofEntries (es : list (K * V)) : list (K * V) :=
  fold_left (fun m e => set (fst e) (snd e) m) es [].

End WithKey.

Definition values {K V : Type} (m : list (K * V)) : list V := map snd m.
Definition keys {K V : Type} (m : list (K * V)) : list K := map fst m.
Definition size {K V : Type} (m : list (K * V)) : nat := length m.

End JsMap.

(** Maps keyed by strings (entity ids, paths) and by arbitrary values. *)
Definition StrMap (V : Type) : Type := list (string * V).
Definition ValMap (V : Type) : Type := list (JsValue.Value * V).

(* ================================================================== *)
(** ** The JavaScript runtime

    Built-ins the program calls and the repository does not define.  The
    program is embedded over an arbitrary runtime; [RefRuntime] further
    down is an executable one, for running the embedding on concrete
    inputs. *)
(* ================================================================== *)

Module Runtime.
Import JsValue.

#[warnings="-register-all"]
Inductive Json : Type :=
| JNull
| JBool (b : bool)
| JNumber (n : JsNumber)
| JString (s : string)
| JArray (items : list Json)
| JObject (props : list (string * Json)).

Record JsRuntime : Type := {
  (** [Number(s)]. *)
  Number : string -> JsNumber;
  (** [new Date(v).getTime()], [None] standing for NaN. *)
  Date_getTime : Value -> option Z;
  (** [new Date(t).toISOString()]. *)
  Date_toISOString : Z -> string;
  (** [JSON.parse(s)], [None] when it throws a SyntaxError. *)
  JSON_parse : string -> option Json;
  (** [JSON.stringify(j)]. *)
  JSON_stringify : Json -> string
}.

End Runtime.

(* ================================================================== *)
(** ** Frontmatter codec

    [FileGenerator.serializeFrontmatter] and
    [FrontmatterParser.parseFrontmatter] / [parseYaml]. *)
(* ================================================================== *)

Module Frontmatter.
Import JsString JsValue Runtime.

Definition delimiter : string := "---".

(** [/\r\n/g] to a line feed. *)
Definition matchCrLf (s : string) : option (string * nat) :=
  match s with
  | String c (String d _) =>
      if Ascii.eqb c cr && Ascii.eqb d lf then Some (str1 lf, 2) else None
  | _ => None
  end.

(** [/\r/g] to a line feed. *)
Definition matchCr (s : string) : option (string * nat) :=
  match s with
  | String c _ => if Ascii.eqb c cr then Some (str1 lf, 1) else None
  | EmptyString => None
  end.

(** [s.replace(/\n+$/, '')]: the line feeds that end the string go. *)
Fixpoint stripTrailingNewlines (s : string) : string :=
  match s with
  | EmptyString => EmptyString
  | String c s' =>
      let r := stripTrailingNewlines s' in
      if Ascii.eqb c lf && isEmpty r then EmptyString else String c r
  end.

(** The double quote, escaped with a backslash. *)
Definition matchDquote (s : string) : option (string * nat) :=
  match s with
  | String c _ =>
      if Ascii.eqb c dquote then Some (String backslash (str1 dquote), 1)
      else None
  | EmptyString => None
  end.

Definition newline : string := str1 lf.

Definition boolToString (b : bool) : string :=
  if b then "true" else "false".

Definition serializeArrayItems (items : list string) : string :=
  fold_left (fun yaml item => yaml ++ "  - " ++ item ++ newline) items
    EmptyString.

Definition serializeBlockLines (lines : list string) : string :=
  fold_left (fun yaml line => yaml ++ "  " ++ line ++ newline) lines
    EmptyString.

(** The text one property adds to the YAML under construction. *)
Definition serializeEntry (key : string) (value : Value) : string :=
  match value with
  | VUndefined | VNull => EmptyString
  | VArr items => key ++ ":" ++ newline ++ serializeArrayItems items
  | VStr s =>
      if includesChar lf s then
        let normalized :=
          stripTrailingNewlines
            (replaceAll matchCr (replaceAll matchCrLf s)) in
        key ++ ": |" ++ newline ++ serializeBlockLines (splitLines normalized)
      else if String.eqb s "true" then key ++ ": true" ++ newline
      else if String.eqb s "false" then key ++ ": false" ++ newline
      else
        let escaped := replaceAll matchDquote s in
        key ++ ": " ++ String dquote (escaped ++ str1 dquote) ++ newline
  | VNum n => key ++ ": " ++ numberToString n ++ newline
  | VBool b => key ++ ": " ++ boolToString b ++ newline
  end.

Definition serializeFrontmatter (frontmatter : Bag) : string :=
  fold_left (fun yaml kv => yaml ++ serializeEntry (fst kv) (snd kv))
    frontmatter (delimiter ++ newline)
  ++ delimiter.

(** Single and double quotes, which the parser deletes from an array item. *)
Definition matchAnyQuote (s : string) : option (string * nat) :=
  match s with
  | String c _ =>
      if Ascii.eqb c dquote || Ascii.eqb c squote
      then Some (EmptyString, 1) else None
  | EmptyString => None
  end.

Section WithRuntime.
Variable rt : JsRuntime.

Definition isNaN (n : JsNumber) : bool :=
  match n with JNaN => true | _ => false end.

(** The value [parseYaml] stores for the text after the colon. *)
Definition parseScalar (raw : string) : Value :=
  let value :=
    if (startsWithChar dquote raw && endsWithChar dquote raw)
       || (startsWithChar squote raw && endsWithChar squote raw)
    then slice1m1 raw else raw in
  if startsWithChar "[" value && endsWithChar "]" value then
    let arrayContent := trim (slice1m1 value) in
    if isEmpty arrayContent then VArr []
    else VArr (map (fun item => replaceAll matchAnyQuote (trim item))
                 (splitOn "," arrayContent))
  else if String.eqb value "true" || String.eqb value "false" then
    VBool (String.eqb value "true")
  else if negb (isNaN (Number rt value)) && negb (isEmpty value) then
    VNum (Number rt value)
  else VStr value.

(** One turn of the loop of [parseYaml].  On the object literal that
    [result] starts from, [__proto__] names the accessor of the prototype:
    an assignment to it adds no property. *)
Definition parseYamlLine (result : Bag) (line : string) : Bag :=
  let trimmed := trim line in
  if isEmpty trimmed || startsWithChar "#" trimmed then result
  else
    match indexOfChar ":" trimmed with
    | None => result
    | Some colonIndex =>
        let key := trim (jsSubstring 0 colonIndex trimmed) in
        let value := trim (dropStr (S colonIndex) trimmed) in
        if String.eqb key "__proto__" then result
        else objSet key (parseScalar value) result
    end.

Definition parseYaml (yamlContent : string) : Bag :=
  fold_left parseYamlLine (splitLines yamlContent) [].

(** The index, counted from [i], of the first line equal to the delimiter. *)
Fixpoint findDelimiter (i : nat) (lines : list string) : option nat :=
  match lines with
  | [] => None
  | l :: ls => if String.eqb l delimiter then Some i else findDelimiter (S i) ls
  end.

Definition parseFrontmatter (content : string) : option (Bag * string) :=
  match splitLines content with
  | first :: rest =>
      if negb (String.eqb first delimiter) then None
      else
        match findDelimiter 1 rest with
        | None => None
        | Some frontmatterEnd =>
            let frontmatterLines := firstn (frontmatterEnd - 1) rest in
            let bodyLines := skipn frontmatterEnd rest in
            Some (parseYaml (joinLines frontmatterLines), joinLines bodyLines)
        end
  | [] => None
  end.

End WithRuntime.

End Frontmatter.

(* ================================================================== *)
(** ** Data model ([models/types.ts])

    The records keep the fields the program reads; ordering and ownership
    bookkeeping of the remote service (child order, collapsed, user ids)
    is left out. *)
(* ================================================================== *)

Module Types.
Import JsValue.

Record TodoistDue : Type := {
  due_date : string;
  due_datetime : option string
}.

Record TodoistTask : Type := {
  task_id : string;
  task_project_id : string;
  task_content : string;
  task_description : string;
  task_priority : Z;
  task_due : option TodoistDue;
  task_parent_id : option string;
  task_section_id : option string;
  task_labels : list string;
  task_checked : bool;
  task_is_deleted : bool;
  task_date_added : string
}.

Record TodoistProject : Type := {
  project_id : string;
  project_name : string;
  project_color : string;
  project_parent_id : option string;
  project_is_deleted : bool;
  project_is_archived : bool;
  project_is_favorite : bool
}.

Record TodoistSection : Type := {
  section_id : string;
  section_name : string;
  section_project_id : string;
  section_is_deleted : bool
}.

Record TodoistLabel : Type := {
  label_id : string;
  label_name : string;
  label_color : string;
  label_is_deleted : bool
}.

Record TodoistSyncResponse : Type := {
  sync_token : string;
  full_sync : bool;
  resp_projects : list TodoistProject;
  resp_items : list TodoistTask;
  resp_sections : list TodoistSection;
  resp_labels : list TodoistLabel
}.

Record SyncState : Type := {
  syncToken : string;
  lastFullSync : Z;
  lastIncrementalSync : Z
}.

(** Notes.  What a scan reads from a document is untyped: the id, the name
    and the frontmatter are whatever the metadata cache holds. *)
Record ObsidianTaskNote : Type := {
  tn_filePath : string;
  tn_todoistId : Value;
  tn_content : string;
  tn_frontmatter : Bag;
  tn_lastModified : Z
}.

Record ObsidianProjectNote : Type := {
  pn_filePath : string;
  pn_todoistId : Value;
  pn_name : Value;
  pn_frontmatter : Bag;
  pn_lastModified : Z
}.

Record ObsidianSectionNote : Type := {
  sn_filePath : string;
  sn_todoistId : Value;
  sn_name : Value;
  sn_projectId : Value;
  sn_frontmatter : Bag;
  sn_lastModified : Z
}.

End Types.

(* ================================================================== *)
(** ** Source A: the remote state ([state/todoistState.ts]) *)
(* ================================================================== *)

Module TodoistState.
Import JsValue Runtime Types.

Record t : Type := {
  tasks : StrMap TodoistTask;
  projects : StrMap TodoistProject;
  sections : StrMap TodoistSection;
  labels : StrMap TodoistLabel;
  syncState : SyncState
}.

Definition initialSyncState : SyncState :=
  {| syncToken := "*"; lastFullSync := 0; lastIncrementalSync := 0 |}.

Definition initial : t :=
  {| tasks := []; projects := []; sections := []; labels := [];
     syncState := initialSyncState |}.

(** One turn of a [forEach] of [updateFromSync]: a deleted entity leaves
    the map, any other is stored under its id. *)
Definition replayEntity {E : Type} (id : E -> string) (deleted : E -> bool)
           (m : StrMap E) (e : E) : StrMap E :=
  if deleted e then JsMap.delete String.eqb (id e) m
  else JsMap.set String.eqb (id e) e m.

Definition replayAll {E : Type} (id : E -> string) (deleted : E -> bool)
           (m : StrMap E) (es : list E) : StrMap E :=
  fold_left (replayEntity id deleted) es m.

(** [updateFromSync], [now] being the reading of [Date.now()]. *)
Definition updateFromSync (now : Z) (r : TodoistSyncResponse) (st : t) : t :=
  let full := full_sync r in
  let clear {E} (m : StrMap E) : StrMap E := if full then [] else m in
  {| tasks :=
       replayAll task_id task_is_deleted (clear (tasks st)) (resp_items r);
     projects :=
       replayAll project_id project_is_deleted (clear (projects st))
         (resp_projects r);
     sections :=
       replayAll section_id section_is_deleted (clear (sections st))
         (resp_sections r);
     labels :=
       replayAll label_id label_is_deleted (clear (labels st))
         (resp_labels r);
     syncState :=
       {| syncToken := sync_token r;
          lastFullSync := if full then now else lastFullSync (syncState st);
          lastIncrementalSync := now |} |}.

Definition getAllTasks (st : t) : list TodoistTask :=
  filter (fun task => negb (task_is_deleted task)) (JsMap.values (tasks st)).

Definition getTask (id : string) (st : t) : option TodoistTask :=
  JsMap.get String.eqb id (tasks st).

Definition getAllProjects (st : t) : list TodoistProject :=
  filter (fun project =>
            negb (project_is_deleted project)
            && negb (project_is_archived project))
    (JsMap.values (projects st)).

Definition getProject (id : string) (st : t) : option TodoistProject :=
  JsMap.get String.eqb id (projects st).

Definition getAllSections (st : t) : list TodoistSection :=
  filter (fun section => negb (section_is_deleted section))
    (JsMap.values (sections st)).

Definition getSection (id : string) (st : t) : option TodoistSection :=
  JsMap.get String.eqb id (sections st).

Definition getAllLabels (st : t) : list TodoistLabel :=
  filter (fun label => negb (label_is_deleted label))
    (JsMap.values (labels st)).

Definition getSyncState (st : t) : SyncState := syncState st.

Definition dayMillis : Z := 24 * 60 * 60 * 1000.

Definition needsFullSync (now : Z) (st : t) : bool :=
  String.eqb (syncToken (syncState st)) "*"
  || Z.eqb (lastFullSync (syncState st)) 0
  || Z.ltb dayMillis (now - lastFullSync (syncState st)).

(** A lookup by an untyped key: a map keyed by strings holds nothing under
    a key that is not a string. *)
Definition getTaskByValue (id : Value) (st : t) : option TodoistTask :=
  match id with VStr s => getTask s st | _ => None end.

Definition getProjectByValue (id : Value) (st : t) : option TodoistProject :=
  match id with VStr s => getProject s st | _ => None end.

(** *** Persistence *)

Definition optJson (o : option string) : Json :=
  match o with Some s => JString s | None => JNull end.

Definition dueToJson (d : TodoistDue) : Json :=
  JObject [("date", JString (due_date d));
           ("datetime", optJson (due_datetime d))].

Definition taskToJson (x : TodoistTask) : Json :=
  JObject
    [("id", JString (task_id x));
     ("project_id", JString (task_project_id x));
     ("content", JString (task_content x));
     ("description", JString (task_description x));
     ("priority", JNumber (JInt (task_priority x)));
     ("due", match task_due x with Some d => dueToJson d | None => JNull end);
     ("parent_id", optJson (task_parent_id x));
     ("section_id", optJson (task_section_id x));
     ("labels", JArray (map JString (task_labels x)));
     ("checked", JBool (task_checked x));
     ("is_deleted", JBool (task_is_deleted x));
     ("date_added", JString (task_date_added x))].

Definition projectToJson (x : TodoistProject) : Json :=
  JObject
    [("id", JString (project_id x));
     ("name", JString (project_name x));
     ("color", JString (project_color x));
     ("parent_id", optJson (project_parent_id x));
     ("is_deleted", JBool (project_is_deleted x));
     ("is_archived", JBool (project_is_archived x));
     ("is_favorite", JBool (project_is_favorite x))].

Definition sectionToJson (x : TodoistSection) : Json :=
  JObject
    [("id", JString (section_id x));
     ("name", JString (section_name x));
     ("project_id", JString (section_project_id x));
     ("is_deleted", JBool (section_is_deleted x))].

Definition labelToJson (x : TodoistLabel) : Json :=
  JObject
    [("id", JString (label_id x));
     ("name", JString (label_name x));
     ("color", JString (label_color x));
     ("is_deleted", JBool (label_is_deleted x))].

Definition syncStateToJson (s : SyncState) : Json :=
  JObject
    [("syncToken", JString (syncToken s));
     ("lastFullSync", JNumber (JInt (lastFullSync s)));
     ("lastIncrementalSync", JNumber (JInt (lastIncrementalSync s)))].

(** [Array.from(map.entries())]. *)
Definition entriesToJson {E : Type} (f : E -> Json) (m : StrMap E) : Json :=
  JArray (map (fun kv => JArray [JString (fst kv); f (snd kv)]) m).

Definition stateToJson (st : t) : Json :=
  JObject
    [("tasks", entriesToJson taskToJson (tasks st));
     ("projects", entriesToJson projectToJson (projects st));
     ("sections", entriesToJson sectionToJson (sections st));
     ("labels", entriesToJson labelToJson (labels st));
     ("syncState", syncStateToJson (syncState st))].

Definition serialize (rt : JsRuntime) (st : t) : string :=
  JSON_stringify rt (stateToJson st).

(** What [deserialize] leaves in the fields: maps whose keys and values are
    whatever the text held ([None] for [undefined]), and any truthy value
    as sync bookkeeping. *)
Record Restored : Type := {
  r_tasks : list (option Json * option Json);
  r_projects : list (option Json * option Json);
  r_sections : list (option Json * option Json);
  r_labels : list (option Json * option Json);
  r_syncState : Json
}.

Definition restoredInitial : Restored :=
  {| r_tasks := []; r_projects := []; r_sections := []; r_labels := [];
     r_syncState := syncStateToJson initialSyncState |}.

(** The image of a typed state among the restored ones. *)
Definition restoredOf (st : t) : Restored :=
  let image {E} (f : E -> Json) (m : StrMap E) :=
    map (fun kv => (Some (JString (fst kv)), Some (f (snd kv)))) m in
  {| r_tasks := image taskToJson (tasks st);
     r_projects := image projectToJson (projects st);
     r_sections := image sectionToJson (sections st);
     r_labels := image labelToJson (labels st);
     r_syncState := syncStateToJson (syncState st) |}.

(** ToBoolean of a parsed value. *)
Definition jsonTruthy (j : Json) : bool :=
  match j with
  | JNull => false
  | JBool b => b
  | JNumber n => truthy (VNum n)
  | JString s => truthy (VStr s)
  | JArray _ | JObject _ => true
  end.

(** [parsed[name]] on a value that is not [null]: only an object has
    properties of these names. *)
Fixpoint lookupProp (name : string) (props : list (string * Json))
  : option Json :=
  match props with
  | [] => None
  | (k, v) :: ps => if String.eqb k name then Some v else lookupProp name ps
  end.

Definition getProp (name : string) (parsed : Json) : option Json :=
  match parsed with
  | JObject props => lookupProp name props
  | _ => None
  end.

(** SameValueZero on map keys: primitives by value, an array or an object
    is a fresh object and equals no other key. *)
Definition keyEqb (a b : option Json) : bool :=
  match a, b with
  | None, None => true
  | Some JNull, Some JNull => true
  | Some (JBool x), Some (JBool y) => Bool.eqb x y
  | Some (JNumber x), Some (JNumber y) => sameValueZero (VNum x) (VNum y)
  | Some (JString x), Some (JString y) => String.eqb x y
  | _, _ => false
  end.

(** One item of the iterable handed to [new Map]: it has to be an object,
    its properties 0 and 1 are the key and the value. *)
Definition entryOf (item : Json) : option (option Json * option Json) :=
  match item with
  | JArray items => Some (nth_error items 0, nth_error items 1)
  | JObject props => Some (lookupProp "0" props, lookupProp "1" props)
  | _ => None
  end.

Fixpoint entriesOf (items : list Json)
  : option (list (option Json * option Json)) :=
  match items with
  | [] => Some []
  | item :: rest =>
      match entryOf item, entriesOf rest with
      | Some e, Some es => Some (e :: es)
      | _, _ => None
      end
  end.

(** [new Map(field || [])], [None] when it throws a TypeError: a falsy or
    missing field gives the empty map, an array is walked, a non-empty
    string yields characters, which are no entries, and nothing else is
    iterable. *)
Definition newMap (field : option Json)
  : option (list (option Json * option Json)) :=
  match field with
  | None => Some []
  | Some j =>
      if negb (jsonTruthy j) then Some []
      else match j with
           | JArray items =>
               match entriesOf items with
               | Some es => Some (JsMap.ofEntries keyEqb es)
               | None => None
               end
           | _ => None
           end
  end.

(** [deserialize]: both the SyntaxError of [JSON.parse] and a TypeError of
    the [try] block end in the [catch] block, which resets every field. *)
Definition deserialize (rt : JsRuntime) (data : string) : Restored :=
  match JSON_parse rt data with
  | None => restoredInitial
  | Some JNull => restoredInitial
  | Some parsed =>
      match newMap (getProp "tasks" parsed),
            newMap (getProp "projects" parsed),
            newMap (getProp "sections" parsed),
            newMap (getProp "labels" parsed) with
      | Some ts, Some ps, Some ss, Some ls =>
          {| r_tasks := ts; r_projects := ps; r_sections := ss;
             r_labels := ls;
             r_syncState :=
               match getProp "syncState" parsed with
               | Some s =>
                   if jsonTruthy s then s
                   else syncStateToJson initialSyncState
               | None => syncStateToJson initialSyncState
               end |}
      | _, _, _, _ => restoredInitial
      end
  end.

End TodoistState.

(* ================================================================== *)
(** ** The vault: the document store the program is handed

    Folders and files by path, each file with its text, its modification
    time and the frontmatter the metadata cache holds for it.  File order
    is the order in which a walk of the folder tree meets the files. *)
(* ================================================================== *)

Module Vault.
Import JsString JsValue.

Record TFile : Type := {
  path : string;
  content : string;
  mtime : Z;
  cache : option Bag
}.

Record t : Type := {
  folders : list string;
  files : list TFile
}.

Definition empty : t := {| folders := []; files := [] |}.

Inductive AbstractFile : Type :=
| IsFile (f : TFile)
| IsFolder (p : string).

Fixpoint findFile (p : string) (fs : list TFile) : option TFile :=
  match fs with
  | [] => None
  | f :: fs' => if String.eqb (path f) p then Some f else findFile p fs'
  end.

Definition hasFolder (p : string) (v : t) : bool :=
  existsb (String.eqb p) (folders v).

Definition getAbstractFileByPath (p : string) (v : t) : option AbstractFile :=
  match findFile p (files v) with
  | Some f => Some (IsFile f)
  | None => if hasFolder p v then Some (IsFolder p) else None
  end.

(** The writes of the storage interface. *)
Inductive Op : Type :=
| CreateFolder (p : string)
| Create (p : string) (data : string)
| Modify (p : string) (data : string)
| Delete (p : string).

Definition addFolder (p : string) (v : t) : t :=
  {| folders := (folders v ++ [p])%list; files := files v |}.

Definition addFile (p data : string) (now : Z) (v : t) : t :=
  {| folders := folders v;
     files := (files v ++ [{| path := p; content := data; mtime := now;
                             cache := None |}])%list |}.

Definition writeFile (p data : string) (now : Z) (v : t) : t :=
  {| folders := folders v;
     files :=
       map (fun f =>
              if String.eqb (path f) p
              then {| path := p; content := data; mtime := now;
                      cache := cache f |}
              else f) (files v) |}.

Definition removeFile (p : string) (v : t) : t :=
  {| folders := folders v;
     files := filter (fun f => negb (String.eqb (path f) p)) (files v) |}.

(** The last component of a path, and its two halves around the last dot. *)
Fixpoint afterLast (c : ascii) (s : string) : string :=
  match s with
  | EmptyString => EmptyString
  | String d s' =>
      if includesChar c s' then afterLast c s'
      else if Ascii.eqb d c then s'
      else s
  end.

Definition fileName (p : string) : string := afterLast "/" p.

Definition extension (p : string) : string :=
  let name := fileName p in
  if includesChar "." name then afterLast "." name else EmptyString.

Definition basename (p : string) : string :=
  let name := fileName p in
  match beforeLast "." name with
  | Some b => b
  | None => name
  end.

(** Is [p] a path below the folder [root]? *)
Definition isBelow (root p : string) : bool :=
  String.prefix (root ++ "/") p.

End Vault.

(* ================================================================== *)
(** ** Source B: the local state ([state/obsidianState.ts]) *)
(* ================================================================== *)

Module ObsidianState.
Import JsString JsValue Types.

Record t : Type := {
  taskNotes : ValMap ObsidianTaskNote;
  projectNotes : ValMap ObsidianProjectNote;
  sectionNotes : ValMap ObsidianSectionNote;
  filePathToTodoistId : StrMap Value
}.

Definition empty : t :=
  {| taskNotes := []; projectNotes := []; sectionNotes := [];
     filePathToTodoistId := [] |}.

Definition getTaskNote (id : Value) (st : t) : option ObsidianTaskNote :=
  JsMap.get sameValueZero id (taskNotes st).

Definition getProjectNote (id : Value) (st : t) : option ObsidianProjectNote :=
  JsMap.get sameValueZero id (projectNotes st).

Definition getSectionNote (id : Value) (st : t) : option ObsidianSectionNote :=
  JsMap.get sameValueZero id (sectionNotes st).

Definition getAllTaskNotes (st : t) : list ObsidianTaskNote :=
  JsMap.values (taskNotes st).

Definition getAllProjectNotes (st : t) : list ObsidianProjectNote :=
  JsMap.values (projectNotes st).

Definition getAllSectionNotes (st : t) : list ObsidianSectionNote :=
  JsMap.values (sectionNotes st).

Definition setTaskNote (id : Value) (note : ObsidianTaskNote) (st : t) : t :=
  {| taskNotes := JsMap.set sameValueZero id note (taskNotes st);
     projectNotes := projectNotes st;
     sectionNotes := sectionNotes st;
     filePathToTodoistId :=
       JsMap.set String.eqb (tn_filePath note) id (filePathToTodoistId st) |}.

Definition setProjectNote (id : Value) (note : ObsidianProjectNote) (st : t)
  : t :=
  {| taskNotes := taskNotes st;
     projectNotes := JsMap.set sameValueZero id note (projectNotes st);
     sectionNotes := sectionNotes st;
     filePathToTodoistId :=
       JsMap.set String.eqb (pn_filePath note) id (filePathToTodoistId st) |}.

Definition setSectionNote (id : Value) (note : ObsidianSectionNote) (st : t)
  : t :=
  {| taskNotes := taskNotes st;
     projectNotes := projectNotes st;
     sectionNotes := JsMap.set sameValueZero id note (sectionNotes st);
     filePathToTodoistId :=
       JsMap.set String.eqb (sn_filePath note) id (filePathToTodoistId st) |}.

Definition getTodoistIdForPath (p : string) (st : t) : option Value :=
  JsMap.get String.eqb p (filePathToTodoistId st).

Definition removeNote (id : Value) (st : t) : t :=
  let dropPath {N} (fp : N -> string) (found : option N) (m : StrMap Value) :=
    match found with
    | Some n => JsMap.delete String.eqb (fp n) m
    | None => m
    end in
  let dropNote {N} (found : option N) (m : ValMap N) :=
    match found with
    | Some _ => JsMap.delete sameValueZero id m
    | None => m
    end in
  let tn := getTaskNote id st in
  let pn := getProjectNote id st in
  let sn := getSectionNote id st in
  {| taskNotes := dropNote tn (taskNotes st);
     projectNotes := dropNote pn (projectNotes st);
     sectionNotes := dropNote sn (sectionNotes st);
     filePathToTodoistId :=
       dropPath sn_filePath sn
         (dropPath pn_filePath pn
            (dropPath tn_filePath tn (filePathToTodoistId st))) |}.

(** [processFile]: a document without cached frontmatter or without a
    truthy [todoist_id] is left out; the type discriminator picks the map,
    a task being the default. *)
Definition processFile (file : Vault.TFile) (st : t) : t :=
  match Vault.cache file with
  | None => st
  | Some frontmatter =>
      let todoistId := objGet "todoist_id" frontmatter in
      if negb (truthy todoistId) then st
      else
        let st :=
          {| taskNotes := taskNotes st;
             projectNotes := projectNotes st;
             sectionNotes := sectionNotes st;
             filePathToTodoistId :=
               JsMap.set String.eqb (Vault.path file) todoistId
                 (filePathToTodoistId st) |} in
        let todoistType := objGet "todoist_type" frontmatter in
        let name :=
          orElse (objGet "title" frontmatter)
            (VStr (Vault.basename (Vault.path file))) in
        if strictEq todoistType (VStr "project") then
          {| taskNotes := taskNotes st;
             projectNotes :=
               JsMap.set sameValueZero todoistId
                 {| pn_filePath := Vault.path file;
                    pn_todoistId := todoistId;
                    pn_name := name;
                    pn_frontmatter := frontmatter;
                    pn_lastModified := Vault.mtime file |}
                 (projectNotes st);
             sectionNotes := sectionNotes st;
             filePathToTodoistId := filePathToTodoistId st |}
        else if strictEq todoistType (VStr "section") then
          {| taskNotes := taskNotes st;
             projectNotes := projectNotes st;
             sectionNotes :=
               JsMap.set sameValueZero todoistId
                 {| sn_filePath := Vault.path file;
                    sn_todoistId := todoistId;
                    sn_name := name;
                    sn_projectId :=
                      orElse (objGet "todoist_project" frontmatter)
                        (VStr EmptyString);
                    sn_frontmatter := frontmatter;
                    sn_lastModified := Vault.mtime file |}
                 (sectionNotes st);
             filePathToTodoistId := filePathToTodoistId st |}
        else
          {| taskNotes :=
               JsMap.set sameValueZero todoistId
                 {| tn_filePath := Vault.path file;
                    tn_todoistId := todoistId;
                    tn_content := Vault.content file;
                    tn_frontmatter := frontmatter;
                    tn_lastModified := Vault.mtime file |}
                 (taskNotes st);
             projectNotes := projectNotes st;
             sectionNotes := sectionNotes st;
             filePathToTodoistId := filePathToTodoistId st |}
  end.

(** [scanVault]: a full rebuild from the markdown files below the sync
    folder, in the order the walk of [scanFolderRecursively] meets them. *)
Definition scanVault (syncFolderPath : string) (v : Vault.t) : t :=
  match Vault.getAbstractFileByPath syncFolderPath v with
  | Some (Vault.IsFolder _) =>
      fold_left
        (fun st file =>
           if Vault.isBelow syncFolderPath (Vault.path file)
              && String.eqb (Vault.extension (Vault.path file)) "md"
           then processFile file st else st)
        (Vault.files v) empty
  | _ => empty
  end.

Definition getModifiedSince (timestamp : Z) (st : t)
  : list ObsidianTaskNote * list ObsidianProjectNote
    * list ObsidianSectionNote :=
  (filter (fun n => Z.ltb timestamp (tn_lastModified n)) (getAllTaskNotes st),
   filter (fun n => Z.ltb timestamp (pn_lastModified n))
     (getAllProjectNotes st),
   filter (fun n => Z.ltb timestamp (sn_lastModified n))
     (getAllSectionNotes st)).

End ObsidianState.

(* ================================================================== *)
(** ** The world of a run

    Everything a run reads or changes: the vault and the record of the
    writes asked of it, the remote service and the record of the calls made
    to it, the clock, and the fields of the engine.  A computation takes a
    world to an outcome and a world; a thrown error keeps the changes made
    before it. *)
(* ================================================================== *)

Module World.
Import JsString JsValue Runtime Types.

Inductive Outcome (A : Type) : Type :=
| Returns (a : A)
| Throws (message : string).
Arguments Returns {A} a.
Arguments Throws {A} message.

(** The calls of the remote client.  An update carries the changed fields. *)
Inductive ApiCall : Type :=
| CallTestConnection
| CallSync (token : string)
| CallGetProjects
| CallGetTasks
| CallGetSections
| CallGetLabels
| CallUpdateTask (id : string) (updates : Bag)
| CallCloseTask (id : string)
| CallReopenTask (id : string).

Definition isMutation (c : ApiCall) : bool :=
  match c with
  | CallUpdateTask _ _ | CallCloseTask _ | CallReopenTask _ => true
  | _ => false
  end.

(** The remote service, as the client reports it: what each request
    answers, a thrown transport error where the client lets one through. *)
Record Remote : Type := {
  answerTestConnection : bool;
  answerSync : string -> Outcome TodoistSyncResponse;
  answerGetProjects : list TodoistProject;
  answerGetTasks : list TodoistTask;
  answerGetSections : Outcome (list TodoistSection);
  answerGetLabels : Outcome (list TodoistLabel);
  answerUpdateTask : string -> Bag -> Outcome unit;
  answerCloseTask : string -> bool;
  answerReopenTask : string -> bool
}.

Record EnabledProperties : Type := {
  ep_content : bool;
  ep_dueDate : bool;
  ep_priority : bool;
  ep_labels : bool;
  ep_project : bool;
  ep_section : bool
}.

Record SyncEngineSettings : Type := {
  todoistApiToken : string;
  syncFolderPath : string;
  scopeTag : string;
  enabledProperties : EnabledProperties;
  dryRunMode : bool
}.

(** The fields of a [FileGenerator]. *)
Record Generator : Type := {
  g_syncFolderPath : string;
  g_enabledProperties : EnabledProperties;
  g_dryRun : bool
}.

(** What the reconcile step decides for an entity; the world keeps the
    verdicts in the order the reconcile calls return them. *)
Inductive Verdict : Type := Created | Updated | Skipped.
Inductive Kind : Type := KProject | KSection | KTask.

Record Decision : Type := {
  d_kind : Kind;
  d_id : string;
  d_verdict : Verdict
}.

Record t : Type := {
  (** the collaborators *)
  vault : Vault.t;
  vaultLog : list Vault.Op;
  remote : Remote;
  apiLog : list ApiCall;
  storageFails : Vault.Op -> option string;
  clock : Z;
  decisionLog : list Decision;
  (** the engine *)
  settings : SyncEngineSettings;
  todoistState : TodoistState.t;
  obsidianState : ObsidianState.t;
  fileGenerator : Generator;
  isRunning : bool;
  lastSyncTime : Z;
  pendingChanges : StrMap Z;
  isWatchingFiles : bool
}.

Definition M (A : Type) : Type := t -> Outcome A * t.

Definition ret {A : Type} (a : A) : M A := fun w => (Returns a, w).

Definition throw {A : Type} (message : string) : M A :=
  fun w => (Throws message, w).

Definition bind {A B : Type} (m : M A) (k : A -> M B) : M B :=
  fun w =>
    match m w with
    | (Returns a, w') => k a w'
    | (Throws e, w') => (Throws e, w')
    end.

(** [try { m } catch (error) { handler(error.message) }]. *)
Definition tryCatch {A : Type} (m : M A) (handler : string -> M A) : M A :=
  fun w =>
    match m w with
    | (Returns a, w') => (Returns a, w')
    | (Throws e, w') => handler e w'
    end.

(** [try { m } finally { cleanup }] for a [cleanup] that cannot throw. *)
Definition finally {A : Type} (m : M A) (cleanup : t -> t) : M A :=
  fun w => let (r, w') := m w in (r, cleanup w').

Definition gets {A : Type} (f : t -> A) : M A := fun w => (Returns (f w), w).

Definition modify (f : t -> t) : M unit := fun w => (Returns tt, f w).

Fixpoint forEach {A : Type} (xs : list A) (body : A -> M unit) : M unit :=
  match xs with
  | [] => ret tt
  | x :: xs' => bind (body x) (fun _ => forEach xs' body)
  end.

Definition when (b : bool) (m : M unit) : M unit := if b then m else ret tt.

(** Field updates. *)
Definition withVault (v : Vault.t) (w : t) : t :=
  {| vault := v; vaultLog := vaultLog w; remote := remote w;
     apiLog := apiLog w; storageFails := storageFails w; clock := clock w;
     decisionLog := decisionLog w; settings := settings w;
     todoistState := todoistState w; obsidianState := obsidianState w;
     fileGenerator := fileGenerator w; isRunning := isRunning w;
     lastSyncTime := lastSyncTime w; pendingChanges := pendingChanges w;
     isWatchingFiles := isWatchingFiles w |}.

Definition logVaultOp (op : Vault.Op) (w : t) : t :=
  {| vault := vault w; vaultLog := (vaultLog w ++ [op])%list;
     remote := remote w; apiLog := apiLog w;
     storageFails := storageFails w; clock := clock w;
     decisionLog := decisionLog w; settings := settings w;
     todoistState := todoistState w; obsidianState := obsidianState w;
     fileGenerator := fileGenerator w; isRunning := isRunning w;
     lastSyncTime := lastSyncTime w; pendingChanges := pendingChanges w;
     isWatchingFiles := isWatchingFiles w |}.

Definition logApiCall (c : ApiCall) (w : t) : t :=
  {| vault := vault w; vaultLog := vaultLog w; remote := remote w;
     apiLog := (apiLog w ++ [c])%list; storageFails := storageFails w;
     clock := clock w; decisionLog := decisionLog w;
     settings := settings w; todoistState := todoistState w;
     obsidianState := obsidianState w; fileGenerator := fileGenerator w;
     isRunning := isRunning w; lastSyncTime := lastSyncTime w;
     pendingChanges := pendingChanges w;
     isWatchingFiles := isWatchingFiles w |}.

Definition logDecision (d : Decision) (w : t) : t :=
  {| vault := vault w; vaultLog := vaultLog w; remote := remote w;
     apiLog := apiLog w; storageFails := storageFails w; clock := clock w;
     decisionLog := (decisionLog w ++ [d])%list; settings := settings w;
     todoistState := todoistState w; obsidianState := obsidianState w;
     fileGenerator := fileGenerator w; isRunning := isRunning w;
     lastSyncTime := lastSyncTime w; pendingChanges := pendingChanges w;
     isWatchingFiles := isWatchingFiles w |}.

Definition withClock (now : Z) (w : t) : t :=
  {| vault := vault w; vaultLog := vaultLog w; remote := remote w;
     apiLog := apiLog w; storageFails := storageFails w; clock := now;
     decisionLog := decisionLog w; settings := settings w;
     todoistState := todoistState w; obsidianState := obsidianState w;
     fileGenerator := fileGenerator w; isRunning := isRunning w;
     lastSyncTime := lastSyncTime w; pendingChanges := pendingChanges w;
     isWatchingFiles := isWatchingFiles w |}.

Definition withSettings (s : SyncEngineSettings) (w : t) : t :=
  {| vault := vault w; vaultLog := vaultLog w; remote := remote w;
     apiLog := apiLog w; storageFails := storageFails w; clock := clock w;
     decisionLog := decisionLog w; settings := s;
     todoistState := todoistState w; obsidianState := obsidianState w;
     fileGenerator := fileGenerator w; isRunning := isRunning w;
     lastSyncTime := lastSyncTime w; pendingChanges := pendingChanges w;
     isWatchingFiles := isWatchingFiles w |}.

Definition withTodoistState (s : TodoistState.t) (w : t) : t :=
  {| vault := vault w; vaultLog := vaultLog w; remote := remote w;
     apiLog := apiLog w; storageFails := storageFails w; clock := clock w;
     decisionLog := decisionLog w; settings := settings w;
     todoistState := s; obsidianState := obsidianState w;
     fileGenerator := fileGenerator w; isRunning := isRunning w;
     lastSyncTime := lastSyncTime w; pendingChanges := pendingChanges w;
     isWatchingFiles := isWatchingFiles w |}.

Definition withObsidianState (s : ObsidianState.t) (w : t) : t :=
  {| vault := vault w; vaultLog := vaultLog w; remote := remote w;
     apiLog := apiLog w; storageFails := storageFails w; clock := clock w;
     decisionLog := decisionLog w; settings := settings w;
     todoistState := todoistState w; obsidianState := s;
     fileGenerator := fileGenerator w; isRunning := isRunning w;
     lastSyncTime := lastSyncTime w; pendingChanges := pendingChanges w;
     isWatchingFiles := isWatchingFiles w |}.

Definition withFileGenerator (g : Generator) (w : t) : t :=
  {| vault := vault w; vaultLog := vaultLog w; remote := remote w;
     apiLog := apiLog w; storageFails := storageFails w; clock := clock w;
     decisionLog := decisionLog w; settings := settings w;
     todoistState := todoistState w; obsidianState := obsidianState w;
     fileGenerator := g; isRunning := isRunning w;
     lastSyncTime := lastSyncTime w; pendingChanges := pendingChanges w;
     isWatchingFiles := isWatchingFiles w |}.

Definition withRunning (b : bool) (w : t) : t :=
  {| vault := vault w; vaultLog := vaultLog w; remote := remote w;
     apiLog := apiLog w; storageFails := storageFails w; clock := clock w;
     decisionLog := decisionLog w; settings := settings w;
     todoistState := todoistState w; obsidianState := obsidianState w;
     fileGenerator := fileGenerator w; isRunning := b;
     lastSyncTime := lastSyncTime w; pendingChanges := pendingChanges w;
     isWatchingFiles := isWatchingFiles w |}.

Definition withLastSyncTime (now : Z) (w : t) : t :=
  {| vault := vault w; vaultLog := vaultLog w; remote := remote w;
     apiLog := apiLog w; storageFails := storageFails w; clock := clock w;
     decisionLog := decisionLog w; settings := settings w;
     todoistState := todoistState w; obsidianState := obsidianState w;
     fileGenerator := fileGenerator w; isRunning := isRunning w;
     lastSyncTime := now; pendingChanges := pendingChanges w;
     isWatchingFiles := isWatchingFiles w |}.

Definition withPendingChanges (p : StrMap Z) (w : t) : t :=
  {| vault := vault w; vaultLog := vaultLog w; remote := remote w;
     apiLog := apiLog w; storageFails := storageFails w; clock := clock w;
     decisionLog := decisionLog w; settings := settings w;
     todoistState := todoistState w; obsidianState := obsidianState w;
     fileGenerator := fileGenerator w; isRunning := isRunning w;
     lastSyncTime := lastSyncTime w; pendingChanges := p;
     isWatchingFiles := isWatchingFiles w |}.

Definition withWatching (b : bool) (w : t) : t :=
  {| vault := vault w; vaultLog := vaultLog w; remote := remote w;
     apiLog := apiLog w; storageFails := storageFails w; clock := clock w;
     decisionLog := decisionLog w; settings := settings w;
     todoistState := todoistState w; obsidianState := obsidianState w;
     fileGenerator := fileGenerator w; isRunning := isRunning w;
     lastSyncTime := lastSyncTime w; pendingChanges := pendingChanges w;
     isWatchingFiles := b |}.

(** The vault and the record of its writes, replaced together. *)
Definition withStore (v : Vault.t) (l : list Vault.Op) (w : t) : t :=
  {| vault := v; vaultLog := l; remote := remote w; apiLog := apiLog w;
     storageFails := storageFails w; clock := clock w;
     decisionLog := decisionLog w; settings := settings w;
     todoistState := todoistState w; obsidianState := obsidianState w;
     fileGenerator := fileGenerator w; isRunning := isRunning w;
     lastSyncTime := lastSyncTime w; pendingChanges := pendingChanges w;
     isWatchingFiles := isWatchingFiles w |}.

(** [Date.now()]. *)
Definition now : M Z := gets clock.

(** A write asked of the vault: recorded, then refused by the store or
    carried out. *)
Definition storageWrite (op : Vault.Op) (apply : Z -> Vault.t -> Vault.t)
  : M unit :=
  fun w =>
    let w := logVaultOp op w in
    match storageFails w op with
    | Some e => (Throws e, w)
    | None => (Returns tt, withVault (apply (clock w) (vault w)) w)
    end.

Definition getAbstractFileByPath (p : string) : M (option Vault.AbstractFile) :=
  gets (fun w => Vault.getAbstractFileByPath p (vault w)).

(** [vault.createFolder]; the store has no two entries under one path. *)
Definition createFolder (p : string) : M unit :=
  bind (getAbstractFileByPath p) (fun existing =>
  match existing with
  | Some _ =>
      bind (modify (logVaultOp (Vault.CreateFolder p))) (fun _ =>
      throw "Folder already exists.")
  | None => storageWrite (Vault.CreateFolder p) (fun _ => Vault.addFolder p)
  end).

(** [vault.create]. *)
Definition create (p data : string) : M unit :=
  bind (getAbstractFileByPath p) (fun existing =>
  match existing with
  | Some _ =>
      bind (modify (logVaultOp (Vault.Create p data))) (fun _ =>
      throw "File already exists.")
  | None =>
      storageWrite (Vault.Create p data) (fun t => Vault.addFile p data t)
  end).

(** [vault.modify]. *)
Definition modifyFile (f : Vault.TFile) (data : string) : M unit :=
  storageWrite (Vault.Modify (Vault.path f) data)
    (fun t => Vault.writeFile (Vault.path f) data t).

(** [vault.delete]. *)
Definition deleteFile (f : Vault.TFile) : M unit :=
  storageWrite (Vault.Delete (Vault.path f))
    (fun _ => Vault.removeFile (Vault.path f)).

(** A request to the remote service, recorded. *)
Definition call (c : ApiCall) : M unit := modify (logApiCall c).

Definition ofOutcome {A : Type} (o : Outcome A) : M A := fun w => (o, w).

End World.

Declare Scope world_scope.
Delimit Scope world_scope with world.
Notation "x <- m ;; k" := (World.bind m (fun x => k))
  (at level 61, m at next level, right associativity) : world_scope.
Notation "m ;;; k" := (World.bind m (fun _ => k))
  (at level 61, right associativity) : world_scope.

(* ================================================================== *)
(** ** The materializer ([obsidian/fileGenerator.ts]) *)
(* ================================================================== *)

Module FileGenerator.
Import JsString JsValue Runtime Types World Sanitizer.
Local Open Scope world_scope.

(** ToBoolean of an optional string: [undefined] and the empty string are
    falsy. *)
Definition given (o : option string) : bool :=
  match o with
  | Some s => negb (isEmpty s)
  | None => false
  end.

Definition ensureSyncFolder (g : Generator) : M unit :=
  folder <- getAbstractFileByPath (g_syncFolderPath g) ;;
  match folder with
  | None => createFolder (g_syncFolderPath g)
  | Some _ => ret tt
  end.

Definition getTaskFolderPath (g : Generator)
           (projectName sectionName : option string) : string :=
  let path := g_syncFolderPath g in
  match projectName with
  | Some p =>
      if isEmpty p then path
      else
        let path := path ++ "/" ++ sanitizeFileName p in
        match sectionName with
        | Some s =>
            if isEmpty s then path else path ++ "/" ++ sanitizeFileName s
        | None => path
        end
  | None => path
  end.

Section WithRuntime.
Variable rt : JsRuntime.

Definition buildTaskFrontmatter (g : Generator) (now : Z) (task : TodoistTask)
           (projectName sectionName : option string) : Bag :=
  let ep := g_enabledProperties g in
  let fm : Bag :=
    [("todoist_id", VStr (task_id task));
     ("todoist_type", VStr "task");
     ("sync_status", VStr "synced");
     ("last_sync", VStr (Date_toISOString rt now))] in
  let fm := if ep_content ep
            then objSet "title" (VStr (task_content task)) fm else fm in
  let fm :=
    match task_due task with
    | Some due =>
        if ep_dueDate ep then
          let fm := if isEmpty (due_date due) then fm
                    else objSet "due_date" (VStr (due_date due)) fm in
          if given (due_datetime due)
          then objSet "due_datetime" (optStr (due_datetime due)) fm else fm
        else fm
    | None => fm
    end in
  let fm := if ep_priority ep
            then objSet "priority" (VNum (JInt (task_priority task))) fm
            else fm in
  let fm := if ep_labels ep && Nat.ltb 0 (length (task_labels task))
            then objSet "labels" (VArr (task_labels task)) fm else fm in
  let fm := if ep_project ep && given projectName
            then objSet "todoist_project" (optStr projectName) fm else fm in
  let fm := if ep_section ep && given sectionName
            then objSet "todoist_section" (optStr sectionName) fm else fm in
  let fm := objSet "completed" (VBool (task_checked task)) fm in
  let fm := if isEmpty (task_description task) then fm
            else objSet "description" (VStr (task_description task)) fm in
  if given (task_parent_id task)
  then objSet "parent_task" (optStr (task_parent_id task)) fm else fm.

Definition buildProjectFrontmatter (now : Z) (project : TodoistProject) : Bag :=
  [("todoist_id", VStr (project_id project));
   ("todoist_type", VStr "project");
   ("title", VStr (project_name project));
   ("color", VStr (project_color project));
   ("parent_project",
    if given (project_parent_id project)
    then optStr (project_parent_id project) else VUndefined);
   ("is_favorite", VBool (project_is_favorite project));
   ("sync_status", VStr "synced");
   ("last_sync", VStr (Date_toISOString rt now))].

Definition buildSectionFrontmatter (now : Z) (section : TodoistSection) : Bag :=
  [("todoist_id", VStr (section_id section));
   ("todoist_type", VStr "section");
   ("title", VStr (section_name section));
   ("todoist_project", VStr (section_project_id section));
   ("sync_status", VStr "synced");
   ("last_sync", VStr (Date_toISOString rt now))].

(** [buildTaskContent], [buildProjectContent], [buildSectionContent]: the
    frontmatter and a line feed, no body. *)
Definition buildContent (frontmatter : Bag) : string :=
  Frontmatter.serializeFrontmatter frontmatter ++ Frontmatter.newline.

(** The tail the three materializers share: nothing is written under
    dry-run and the clock stamps the note; otherwise the file at the path is
    modified, or created when there is none, and its modification time
    stamps the note. *)
Definition writeNote (g : Generator) (filePath data : string) : M Z :=
  existingFile <- getAbstractFileByPath filePath ;;
  if g_dryRun g then now
  else
    match existingFile with
    | Some (Vault.IsFile f) => modifyFile f data
    | _ => create filePath data
    end ;;;
    file <- getAbstractFileByPath filePath ;;
    match file with
    | Some (Vault.IsFile f) => ret (Vault.mtime f)
    | _ => throw "Cannot read properties of null (reading 'stat')"
    end.

Definition createOrUpdateTaskNote (g : Generator) (task : TodoistTask)
           (projectName sectionName existingFilePath : option string)
  : M ObsidianTaskNote :=
  ensureSyncFolder g ;;;
  let computed :=
    let fileName :=
      sanitizeFileName
        (if isEmpty (task_content task)
         then "Task " ++ task_id task else task_content task) in
    let folderPath := getTaskFolderPath g projectName sectionName in
    (folderPath ++ "/" ++ fileName ++ ".md", folderPath) in
  let '(filePath, folderPath) :=
    match existingFilePath with
    | Some existing =>
        if isEmpty existing then computed
        else
          (existing,
           match beforeLast "/" existing with
           | Some folder => folder
           | None => g_syncFolderPath g
           end)
    | None => computed
    end in
  taskFolder <- getAbstractFileByPath folderPath ;;
  match taskFolder with
  | None => createFolder folderPath
  | Some _ => ret tt
  end ;;;
  t <- now ;;
  let frontmatter := buildTaskFrontmatter g t task projectName sectionName in
  let data := buildContent frontmatter in
  stamp <- writeNote g filePath data ;;
  ret {| tn_filePath := filePath;
         tn_todoistId := VStr (task_id task);
         tn_content := data;
         tn_frontmatter := frontmatter;
         tn_lastModified := stamp |}.

Definition createOrUpdateProjectNote (g : Generator) (project : TodoistProject)
  : M ObsidianProjectNote :=
  ensureSyncFolder g ;;;
  let fileName := sanitizeFileName (project_name project) in
  let filePath := g_syncFolderPath g ++ "/" ++ fileName ++ "/_project.md" in
  let projectFolder := g_syncFolderPath g ++ "/" ++ fileName in
  folder <- getAbstractFileByPath projectFolder ;;
  match folder with
  | None => createFolder projectFolder
  | Some _ => ret tt
  end ;;;
  t <- now ;;
  let frontmatter := buildProjectFrontmatter t project in
  let data := buildContent frontmatter in
  stamp <- writeNote g filePath data ;;
  ret {| pn_filePath := filePath;
         pn_todoistId := VStr (project_id project);
         pn_name := VStr (project_name project);
         pn_frontmatter := frontmatter;
         pn_lastModified := stamp |}.

Definition createOrUpdateSectionNote (g : Generator) (section : TodoistSection)
           (projectName : string) : M ObsidianSectionNote :=
  ensureSyncFolder g ;;;
  let projectFolderName := sanitizeFileName projectName in
  let sectionFileName := sanitizeFileName (section_name section) in
  let sectionFolder :=
    g_syncFolderPath g ++ "/" ++ projectFolderName ++ "/" ++ sectionFileName in
  let filePath := sectionFolder ++ "/_section.md" in
  folder <- getAbstractFileByPath sectionFolder ;;
  match folder with
  | None => createFolder sectionFolder
  | Some _ => ret tt
  end ;;;
  t <- now ;;
  let frontmatter := buildSectionFrontmatter t section in
  let data := buildContent frontmatter in
  stamp <- writeNote g filePath data ;;
  ret {| sn_filePath := filePath;
         sn_todoistId := VStr (section_id section);
         sn_name := VStr (section_name section);
         sn_projectId := VStr (section_project_id section);
         sn_frontmatter := frontmatter;
         sn_lastModified := stamp |}.

Definition deleteNote (g : Generator) (filePath : string) : M unit :=
  if g_dryRun g then ret tt
  else
    file <- getAbstractFileByPath filePath ;;
    match file with
    | Some (Vault.IsFile f) => deleteFile f
    | _ => ret tt
    end.

End WithRuntime.

End FileGenerator.

(* ================================================================== *)
(** ** Body-text helpers of the codec and the entity validator *)
(* ================================================================== *)

Module Extract.
Import JsString JsValue Runtime.

(** [extractCheckboxStatus]: the matches of the checkbox expression are
    three code units long and cannot overlap, so one of them holds an [x]
    exactly when the text [[x]] occurs in the body. *)
Fixpoint extractCheckboxStatus (body : string) : bool :=
  match body with
  | String "[" (String "x" (String "]" _)) => true
  | String _ rest => extractCheckboxStatus rest
  | EmptyString => false
  end.

Fixpoint dropHashes (s : string) : string :=
  match s with
  | String "#" s' => dropHashes s'
  | _ => s
  end.

(** [extractTitleFromContent]: the first line that starts with a hash mark
    once trimmed, without its heading marks. *)
Fixpoint firstHeading (lines : list string) : Value :=
  match lines with
  | [] => VNull
  | line :: rest =>
      let trimmed := trim line in
      if startsWithChar "#" trimmed
      then VStr (trim (trimStart (dropHashes trimmed)))
      else firstHeading rest
  end.

Definition extractTitleFromContent (body : string) : Value :=
  firstHeading (splitLines body).

(** What [extractTaskChanges] and [extractProjectChanges] hand over. *)
Record Changes : Type := {
  ch_frontmatter : option Bag;
  ch_completed : Value;
  ch_title : Value
}.

Definition noChanges : Changes :=
  {| ch_frontmatter := None; ch_completed := VBool false;
     ch_title := VNull |}.

Section WithRuntime.
Variable rt : JsRuntime.

Definition isInSyncScope (data : string) : bool :=
  match Frontmatter.parseFrontmatter rt data with
  | Some (fm, _) => negb (strictEq (objGet "todoist_id" fm) VUndefined)
  | None => false
  end.

Definition extractTaskChanges (data : string) : Changes :=
  match Frontmatter.parseFrontmatter rt data with
  | None => noChanges
  | Some (fm, body) =>
      if negb (truthy (objGet "todoist_id" fm))
         || strictEq (objGet "todoist_type" fm) (VStr "project")
         || strictEq (objGet "todoist_type" fm) (VStr "section")
      then noChanges
      else
        {| ch_frontmatter := Some fm;
           ch_completed := VBool (extractCheckboxStatus body);
           ch_title :=
             orElse (objGet "title" fm) (extractTitleFromContent body) |}
  end.

Definition extractProjectChanges (data : string) : Changes :=
  match Frontmatter.parseFrontmatter rt data with
  | None =>
      {| ch_frontmatter := None; ch_completed := VUndefined;
         ch_title := VNull |}
  | Some (fm, body) =>
      if negb (strictEq (objGet "todoist_type" fm) (VStr "project"))
      then {| ch_frontmatter := None; ch_completed := VUndefined;
              ch_title := VNull |}
      else
        {| ch_frontmatter := Some fm;
           ch_completed := VUndefined;
           ch_title :=
             orElse (objGet "title" fm) (extractTitleFromContent body) |}
  end.

End WithRuntime.

End Extract.

Module DataValidator.
Import JsString Types.

(** [validateTask] on a record that has all its fields: a non-empty id, a
    non-empty content, a priority from 1 to 4. *)
Definition validateTask (task : TodoistTask) : bool :=
  negb (isEmpty (task_id task))
  && negb (isEmpty (task_content task))
  && Z.leb 1 (task_priority task) && Z.leb (task_priority task) 4.

Definition filterValidTasks (tasks : list TodoistTask) : list TodoistTask :=
  filter validateTask tasks.

End DataValidator.

(* ================================================================== *)
(** ** The reconciliation engine ([sync/syncEngine.ts]) *)
(* ================================================================== *)

Module SyncEngine.
Import JsString JsValue Runtime Types World.
Local Open Scope world_scope.

Record SyncResult : Type := {
  success : bool;
  message : string
}.

Record Counts : Type := {
  c_tasks : nat;
  c_projects : nat;
  c_sections : nat
}.

(** The local [stats] of [reconcileStates]. *)
Record Stats : Type := {
  created : Counts;
  updated : Counts;
  skipped : Counts
}.

Definition noCounts : Counts :=
  {| c_tasks := 0; c_projects := 0; c_sections := 0 |}.

Definition noStats : Stats :=
  {| created := noCounts; updated := noCounts; skipped := noCounts |}.

Definition bump (k : Kind) (c : Counts) : Counts :=
  match k with
  | KTask =>
      {| c_tasks := S (c_tasks c); c_projects := c_projects c;
         c_sections := c_sections c |}
  | KProject =>
      {| c_tasks := c_tasks c; c_projects := S (c_projects c);
         c_sections := c_sections c |}
  | KSection =>
      {| c_tasks := c_tasks c; c_projects := c_projects c;
         c_sections := S (c_sections c) |}
  end.

(** [stats[result].kind++]. *)
Definition count (k : Kind) (v : Verdict) (s : Stats) : Stats :=
  match v with
  | Created =>
      {| created := bump k (created s); updated := updated s;
         skipped := skipped s |}
  | Updated =>
      {| created := created s; updated := bump k (updated s);
         skipped := skipped s |}
  | Skipped =>
      {| created := created s; updated := updated s;
         skipped := bump k (skipped s) |}
  end.

(** A reconcile call returns its verdict. *)
Definition decide (k : Kind) (id : string) (v : Verdict) : M Verdict :=
  modify (logDecision {| d_kind := k; d_id := id; d_verdict := v |}) ;;;
  ret v.

(** The private [serializeFrontmatter] of the engine, used when a note is
    stamped after a push. *)
Definition engineSerializeEntry (key : string) (value : Value) : string :=
  match value with
  | VUndefined | VNull => EmptyString
  | VArr items =>
      key ++ ":" ++ Frontmatter.newline
      ++ Frontmatter.serializeArrayItems items
  | VStr s =>
      if includesChar ":" s
      then key ++ ": " ++ String dquote (s ++ str1 dquote)
           ++ Frontmatter.newline
      else key ++ ": " ++ s ++ Frontmatter.newline
  | VNum n => key ++ ": " ++ numberToString n ++ Frontmatter.newline
  | VBool b => key ++ ": " ++ Frontmatter.boolToString b ++ Frontmatter.newline
  end.

Definition engineSerializeFrontmatter (frontmatter : Bag) : string :=
  fold_left (fun yaml kv => yaml ++ engineSerializeEntry (fst kv) (snd kv))
    frontmatter (Frontmatter.delimiter ++ Frontmatter.newline)
  ++ Frontmatter.delimiter.

Section WithRuntime.
Variable rt : JsRuntime.

(** [parseLastSyncTime]: an absent or unreadable stamp counts as time
    zero. *)
Definition parseLastSyncTime (lastSync : Value) : Z :=
  if negb (truthy lastSync) then 0%Z
  else match Date_getTime rt lastSync with
       | Some t => t
       | None => 0%Z
       end.

(** [a > b] where [a] may be NaN. *)
Definition laterThan (a : option Z) (b : Z) : bool :=
  match a with
  | Some t => Z.ltb b t
  | None => false
  end.

Definition reconcileTask (task : TodoistTask)
           (projectName sectionName : option string) : M Verdict :=
  existingNote <-
    gets (fun w => ObsidianState.getTaskNote (VStr (task_id task))
                     (obsidianState w)) ;;
  g <- gets fileGenerator ;;
  match existingNote with
  | None =>
      taskNote <-
        FileGenerator.createOrUpdateTaskNote rt g task projectName
          sectionName None ;;
      modify (fun w =>
                withObsidianState
                  (ObsidianState.setTaskNote (VStr (task_id task)) taskNote
                     (obsidianState w)) w) ;;;
      decide KTask (task_id task) Created
  | Some existing =>
      let todoistModified := Date_getTime rt (VStr (task_date_added task)) in
      let lastSync :=
        parseLastSyncTime (objGet "last_sync" (tn_frontmatter existing)) in
      if laterThan todoistModified lastSync then
        updatedNote <-
          FileGenerator.createOrUpdateTaskNote rt g task projectName
            sectionName (Some (tn_filePath existing)) ;;
        modify (fun w =>
                  withObsidianState
                    (ObsidianState.setTaskNote (VStr (task_id task))
                       updatedNote (obsidianState w)) w) ;;;
        decide KTask (task_id task) Updated
      else decide KTask (task_id task) Skipped
  end.

Definition reconcileProject (project : TodoistProject) : M Verdict :=
  existingNote <-
    gets (fun w => ObsidianState.getProjectNote (VStr (project_id project))
                     (obsidianState w)) ;;
  g <- gets fileGenerator ;;
  match existingNote with
  | None =>
      projectNote <- FileGenerator.createOrUpdateProjectNote rt g project ;;
      modify (fun w =>
                withObsidianState
                  (ObsidianState.setProjectNote (VStr (project_id project))
                     projectNote (obsidianState w)) w) ;;;
      decide KProject (project_id project) Created
  | Some existing =>
      let contentChanged :=
        negb (strictEq (pn_name existing) (VStr (project_name project)))
        || negb (strictEq (objGet "color" (pn_frontmatter existing))
                   (VStr (project_color project)))
        || negb (strictEq (objGet "is_favorite" (pn_frontmatter existing))
                   (VBool (project_is_favorite project))) in
      if contentChanged then
        updatedNote <- FileGenerator.createOrUpdateProjectNote rt g project ;;
        modify (fun w =>
                  withObsidianState
                    (ObsidianState.setProjectNote (VStr (project_id project))
                       updatedNote (obsidianState w)) w) ;;;
        decide KProject (project_id project) Updated
      else decide KProject (project_id project) Skipped
  end.

Definition reconcileSection (section : TodoistSection) (projectName : string)
  : M Verdict :=
  existingNote <-
    gets (fun w => ObsidianState.getSectionNote (VStr (section_id section))
                     (obsidianState w)) ;;
  g <- gets fileGenerator ;;
  match existingNote with
  | None =>
      sectionNote <-
        FileGenerator.createOrUpdateSectionNote rt g section projectName ;;
      modify (fun w =>
                withObsidianState
                  (ObsidianState.setSectionNote (VStr (section_id section))
                     sectionNote (obsidianState w)) w) ;;;
      decide KSection (section_id section) Created
  | Some existing =>
      let contentChanged :=
        negb (strictEq (sn_name existing) (VStr (section_name section))) in
      if contentChanged then
        updatedNote <-
          FileGenerator.createOrUpdateSectionNote rt g section projectName ;;
        modify (fun w =>
                  withObsidianState
                    (ObsidianState.setSectionNote (VStr (section_id section))
                       updatedNote (obsidianState w)) w) ;;;
        decide KSection (section_id section) Updated
      else decide KSection (section_id section) Skipped
  end.

(** The three loops of [reconcileStates], each threading the counters and
    the lookup map it fills. *)
Fixpoint reconcileProjects (todoistProjects : list TodoistProject)
         (stats : Stats) (projectMap : StrMap string)
  : M (Stats * StrMap string) :=
  match todoistProjects with
  | [] => ret (stats, projectMap)
  | project :: rest =>
      result <- reconcileProject project ;;
      reconcileProjects rest (count KProject result stats)
        (JsMap.set String.eqb (project_id project) (project_name project)
           projectMap)
  end.

Fixpoint reconcileSections (todoistSections : list TodoistSection)
         (projectMap : StrMap string) (stats : Stats)
         (sectionMap : StrMap string) : M (Stats * StrMap string) :=
  match todoistSections with
  | [] => ret (stats, sectionMap)
  | section :: rest =>
      let projectName :=
        JsMap.get String.eqb (section_project_id section) projectMap in
      match projectName with
      | Some name =>
          if isEmpty name
          then reconcileSections rest projectMap stats sectionMap
          else
            result <- reconcileSection section name ;;
            reconcileSections rest projectMap (count KSection result stats)
              (JsMap.set String.eqb (section_id section)
                 (section_name section) sectionMap)
      | None => reconcileSections rest projectMap stats sectionMap
      end
  end.

Fixpoint reconcileTasks (todoistTasks : list TodoistTask)
         (projectMap sectionMap : StrMap string) (stats : Stats) : M Stats :=
  match todoistTasks with
  | [] => ret stats
  | task :: rest =>
      let projectName :=
        JsMap.get String.eqb (task_project_id task) projectMap in
      let sectionName :=
        match task_section_id task with
        | Some sid =>
            if isEmpty sid then None
            else JsMap.get String.eqb sid sectionMap
        | None => None
        end in
      result <- reconcileTask task projectName sectionName ;;
      reconcileTasks rest projectMap sectionMap (count KTask result stats)
  end.

(** [reconcileStates]; the counters it prints are its result here. *)
Definition reconcileStates : M Stats :=
  todoistProjects <-
    gets (fun w => TodoistState.getAllProjects (todoistState w)) ;;
  r <- reconcileProjects todoistProjects noStats [] ;;
  let '(stats, projectMap) := r in
  todoistSections <-
    gets (fun w => TodoistState.getAllSections (todoistState w)) ;;
  r <- reconcileSections todoistSections projectMap stats [] ;;
  let '(stats, sectionMap) := r in
  todoistTasks <- gets (fun w => TodoistState.getAllTasks (todoistState w)) ;;
  reconcileTasks todoistTasks projectMap sectionMap stats.

(** *** Fetch and scan *)

Definition syncFromTodoist : M unit :=
  token <-
    gets (fun w => syncToken (TodoistState.getSyncState (todoistState w))) ;;
  t <- now ;;
  needsFullSync <-
    gets (fun w => TodoistState.needsFullSync t (todoistState w)) ;;
  service <- gets remote ;;
  synced <-
    tryCatch
      (if negb needsFullSync && negb (String.eqb token "*") then
         call (CallSync token) ;;;
         syncResponse <- ofOutcome (answerSync service token) ;;
         modify (fun w =>
                   withTodoistState
                     (TodoistState.updateFromSync t syncResponse
                        (todoistState w)) w) ;;;
         ret true
       else ret false)
      (fun _ => ret false) ;;
  if synced then ret tt
  else
    call CallGetProjects ;;;
    call CallGetTasks ;;;
    call CallGetSections ;;;
    call CallGetLabels ;;;
    fetchedSections <- ofOutcome (answerGetSections service) ;;
    fetchedLabels <- ofOutcome (answerGetLabels service) ;;
    let mockSyncResponse :=
      {| sync_token := "rest_" ++ numberToString (JInt t);
         full_sync := true;
         resp_projects := answerGetProjects service;
         resp_items :=
           DataValidator.filterValidTasks (answerGetTasks service);
         resp_sections := fetchedSections;
         resp_labels := fetchedLabels |} in
    modify (fun w =>
              withTodoistState
                (TodoistState.updateFromSync t mockSyncResponse
                   (todoistState w)) w).

Definition scanObsidianChanges : M unit :=
  modify (fun w =>
            withObsidianState
              (ObsidianState.scanVault (syncFolderPath (settings w))
                 (vault w)) w).

(** *** Push: local to remote *)

(** [vault.read(file)] of a file handle that may be [null]. *)
Definition readFile (file : option Vault.TFile) : M Vault.TFile :=
  match file with
  | None => throw "Cannot read properties of null (reading 'path')"
  | Some f =>
      current <- gets (fun w => Vault.findFile (Vault.path f)
                                  (Vault.files (vault w))) ;;
      match current with
      | Some c => ret c
      | None => throw "File not found"
      end
  end.

Definition updateFileSyncTimestamp (file : option Vault.TFile) : M unit :=
  tryCatch
    (current <- readFile file ;;
     match Frontmatter.parseFrontmatter rt (Vault.content current) with
     | Some (fm, body) =>
         t <- now ;;
         let fm := objSet "last_sync" (VStr (Date_toISOString rt t)) fm in
         let fm := objSet "sync_status" (VStr "synced") fm in
         let newContent :=
           engineSerializeFrontmatter fm ++ Frontmatter.newline ++ body in
         modifyFile current newContent
     | None => ret tt
     end)
    (fun _ => ret tt).

Definition syncTaskChangesToTodoist (todoistId : Value)
           (changes : Extract.Changes) (file : option Vault.TFile) : M unit :=
  existingTask <-
    gets (fun w => TodoistState.getTaskByValue todoistId (todoistState w)) ;;
  match existingTask, todoistId with
  | Some existing, VStr id =>
      tryCatch
        (dry <- gets (fun w => dryRunMode (settings w)) ;;
         service <- gets remote ;;
         let completed := Extract.ch_completed changes in
         let completionChanged :=
           negb (strictEq completed VUndefined)
           && negb (strictEq completed (VBool (task_checked existing))) in
         when (completionChanged && negb dry)
           (if truthy completed then call (CallCloseTask id)
            else call (CallReopenTask id)) ;;;
         let title := Extract.ch_title changes in
         let updates : Bag := [] in
         let updates :=
           if truthy title
              && negb (strictEq title (VStr (task_content existing)))
           then objSet "content" title updates else updates in
         let priority :=
           match Extract.ch_frontmatter changes with
           | Some fm => objGet "priority" fm
           | None => VUndefined
           end in
         let updates :=
           if negb (strictEq priority VUndefined)
              && negb (strictEq priority
                         (VNum (JInt (task_priority existing))))
           then objSet "priority" priority updates else updates in
         let hasFields := Nat.ltb 0 (length updates) in
         when (hasFields && negb dry)
           (call (CallUpdateTask id updates) ;;;
            ofOutcome (answerUpdateTask service id updates)) ;;;
         when ((completionChanged || hasFields) && negb dry)
           (updateFileSyncTimestamp file))
        (fun _ => ret tt)
  | _, _ => ret tt
  end.

Definition syncProjectChangesToTodoist (todoistId : Value)
           (changes : Extract.Changes) : M unit :=
  existingProject <-
    gets (fun w => TodoistState.getProjectByValue todoistId
                     (todoistState w)) ;;
  match existingProject, todoistId with
  | Some existing, VStr id =>
      tryCatch
        (dry <- gets (fun w => dryRunMode (settings w)) ;;
         service <- gets remote ;;
         let title := Extract.ch_title changes in
         let updates : Bag :=
           if truthy title
              && negb (strictEq title (VStr (project_name existing)))
           then [("name", title)] else [] in
         when (Nat.ltb 0 (length updates) && negb dry)
           (call (CallUpdateTask id updates) ;;;
            ofOutcome (answerUpdateTask service id updates)))
        (fun _ => ret tt)
  | _, _ => ret tt
  end.

Definition processFileChange (filePath : string) : M unit :=
  file <- getAbstractFileByPath filePath ;;
  match file with
  | Some (Vault.IsFile f) =>
      tryCatch
        (let data := Vault.content f in
         if negb (Extract.isInSyncScope rt data) then ret tt
         else
           let taskChanges := Extract.extractTaskChanges rt data in
           let taskId :=
             match Extract.ch_frontmatter taskChanges with
             | Some fm => objGet "todoist_id" fm
             | None => VUndefined
             end in
           if truthy taskId
           then syncTaskChangesToTodoist taskId taskChanges (Some f)
           else
             let projectChanges := Extract.extractProjectChanges rt data in
             let projectId :=
               match Extract.ch_frontmatter projectChanges with
               | Some fm => objGet "todoist_id" fm
               | None => VUndefined
               end in
             if truthy projectId
             then syncProjectChangesToTodoist projectId projectChanges
             else ret tt)
        (fun _ => ret tt)
  | _ => ret tt
  end.

Definition processPendingChanges : M unit :=
  pending <- gets pendingChanges ;;
  if Nat.eqb (JsMap.size pending) 0 then ret tt
  else
    forEach (JsMap.keys pending)
      (fun filePath => tryCatch (processFileChange filePath)
                         (fun _ => ret tt)) ;;;
    modify (withPendingChanges []).

Definition syncTaskToTodoist (taskNote : ObsidianTaskNote) : M bool :=
  tryCatch
    (syncTaskChangesToTodoist (tn_todoistId taskNote)
       {| Extract.ch_frontmatter := Some (tn_frontmatter taskNote);
          Extract.ch_completed := objGet "completed" (tn_frontmatter taskNote);
          Extract.ch_title := objGet "title" (tn_frontmatter taskNote) |}
       None ;;;
     ret true)
    (fun _ => ret false).

Definition syncProjectToTodoist (projectNote : ObsidianProjectNote) : M unit :=
  syncProjectChangesToTodoist (pn_todoistId projectNote)
    {| Extract.ch_frontmatter := None;
       Extract.ch_completed := VUndefined;
       Extract.ch_title := objGet "title" (pn_frontmatter projectNote) |}.

Definition syncToTodoist : M unit :=
  tryCatch
    (processPendingChanges ;;;
     modifiedNotes <-
       gets (fun w => ObsidianState.getModifiedSince (lastSyncTime w)
                        (obsidianState w)) ;;
     pending <- gets pendingChanges ;;
     let '(modifiedTasks, modifiedProjects, modifiedSections) :=
       modifiedNotes in
     if Nat.eqb (length modifiedTasks) 0
        && Nat.eqb (length modifiedProjects) 0
        && Nat.eqb (length modifiedSections) 0
        && Nat.eqb (JsMap.size pending) 0
     then ret tt
     else
       forEach modifiedTasks
         (fun taskNote => _ <- syncTaskToTodoist taskNote ;; ret tt) ;;;
       forEach modifiedProjects syncProjectToTodoist)
    (fun _ => ret tt).

(** *** Entry points *)

Definition alreadyRunning : SyncResult :=
  {| success := false; message := "Sync already in progress" |}.

Definition notConfigured : SyncResult :=
  {| success := false; message := "Todoist API token not configured" |}.

(** The frame the four entry points share: the single-flight guard, the
    flag raised for the length of the run and lowered in [finally], the
    completion time, and any error turned into a failure outcome. *)
Definition guardedRun (needsToken : bool) (steps : M unit)
           (done failed : string) : M SyncResult :=
  running <- gets isRunning ;;
  if running then ret alreadyRunning
  else
    token <- gets (fun w => todoistApiToken (settings w)) ;;
    if needsToken && isEmpty token then ret notConfigured
    else
      modify (withRunning true) ;;;
      finally
        (tryCatch
           (steps ;;;
            t <- now ;;
            modify (withLastSyncTime t) ;;;
            ret {| success := true; message := done |})
           (fun e => ret {| success := false; message := failed ++ e |}))
        (withRunning false).

Definition fetchFromTodoist : M SyncResult :=
  guardedRun true syncFromTodoist "Fetched from Todoist" "Fetch failed: ".

Definition scan : M SyncResult :=
  guardedRun false scanObsidianChanges "Scanned Obsidian" "Scan failed: ".

Definition pull : M SyncResult :=
  guardedRun true
    (syncFromTodoist ;;;
     scanObsidianChanges ;;;
     _ <- reconcileStates ;;
     ret tt)
    "Pull completed" "Pull failed: ".

Definition performSync : M SyncResult :=
  guardedRun true
    (call CallTestConnection ;;;
     connectionValid <- gets (fun w => answerTestConnection (remote w)) ;;
     (if connectionValid then ret tt
      else throw "Failed to connect to Todoist API") ;;;
     syncFromTodoist ;;;
     scanObsidianChanges ;;;
     syncToTodoist ;;;
     _ <- reconcileStates ;;
     ret tt)
    "Sync completed successfully" "Sync failed: ".

(** [scanAndSyncToTodoist]: every loaded file whose path starts with the
    sync folder path is pushed, one after the other; without the folder
    nothing is. *)
Definition scanAndSyncToTodoist : M unit :=
  root <- gets (fun w => syncFolderPath (settings w)) ;;
  syncFolder <- getAbstractFileByPath root ;;
  match syncFolder with
  | Some (Vault.IsFolder _) =>
      files <-
        gets (fun w =>
                filter (fun f => String.prefix root (Vault.path f))
                  (Vault.files (vault w))) ;;
      forEach files
        (fun file =>
           tryCatch (processFileChange (Vault.path file)) (fun _ => ret tt))
  | _ => ret tt
  end.

End WithRuntime.

(** *** Settings and file events *)

Definition generatorOf (s : SyncEngineSettings) : Generator :=
  {| g_syncFolderPath := syncFolderPath s;
     g_enabledProperties := enabledProperties s;
     g_dryRun := dryRunMode s |}.

Definition updateSettings (newSettings : SyncEngineSettings) (w : World.t)
  : World.t :=
  withFileGenerator (generatorOf newSettings) (withSettings newSettings w).

Definition onFileModified (filePath : string) (w : World.t) : World.t :=
  if negb (isWatchingFiles w) then w
  else if negb (String.prefix (syncFolderPath (settings w)) filePath) then w
  else
    withPendingChanges
      (JsMap.set String.eqb filePath (clock w) (pendingChanges w)) w.

Definition onFileDeleted (filePath : string) (w : World.t) : World.t :=
  match ObsidianState.getTodoistIdForPath filePath (obsidianState w) with
  | Some todoistId =>
      if truthy todoistId
      then withObsidianState
             (ObsidianState.removeNote todoistId (obsidianState w)) w
      else w
  | None => w
  end.

Definition startFileWatching (w : World.t) : World.t := withWatching true w.

Definition stopFileWatching (w : World.t) : World.t :=
  withPendingChanges [] (withWatching false w).

(** A freshly constructed engine over the given collaborators. *)
Definition construct (s : SyncEngineSettings) (v : Vault.t) (service : Remote)
           (fails : Vault.Op -> option string) (time : Z) : World.t :=
  {| vault := v; vaultLog := []; remote := service; apiLog := [];
     storageFails := fails; clock := time; decisionLog := [];
     settings := s; todoistState := TodoistState.initial;
     obsidianState := ObsidianState.empty;
     fileGenerator := generatorOf s;
     isRunning := false; lastSyncTime := 0; pendingChanges := [];
     isWatchingFiles := false |}.

End SyncEngine.

(* ================================================================== *)
(** ** The plugin ([main.ts])

    The command that previews a sync.  The plugin keeps the settings the
    user edits and hands the engine a copy of them at every change. *)
(* ================================================================== *)

Module Plugin.
Import JsString Runtime World SyncEngine.
Local Open Scope world_scope.

Definition withDryRunMode (dry : bool) (s : SyncEngineSettings)
  : SyncEngineSettings :=
  {| todoistApiToken := todoistApiToken s;
     syncFolderPath := syncFolderPath s;
     scopeTag := scopeTag s;
     enabledProperties := enabledProperties s;
     dryRunMode := dry |}.

(** [performDryRunSync]: dry-run mode is switched on for the length of one
    [performSync] and then put back; the result is the settings of the
    plugin after the command. *)
Definition performDryRunSync (rt : JsRuntime)
           (pluginSettings : SyncEngineSettings) : M SyncEngineSettings :=
  let originalDryRun := dryRunMode pluginSettings in
  tryCatch
    (modify (updateSettings (withDryRunMode true pluginSettings)) ;;;
     _ <- performSync rt ;;
     modify (updateSettings (withDryRunMode originalDryRun pluginSettings)) ;;;
     ret (withDryRunMode originalDryRun pluginSettings))
    (fun _ => ret (withDryRunMode true pluginSettings)).

End Plugin.

(* ================================================================== *)
(** ** An executable runtime

    [RefRuntime.runtime] computes, so that the embedding can be run on
    concrete inputs.  It reads what the examples of this development need:
    [Number] reads decimal integer literals and decimal fractions of up to
    fifteen digits, and takes any other text for NaN (longer fractions,
    exponents, a plus sign, radix prefixes and the infinities are left
    out); dates are read and printed in the one format of [toISOString],
    for the years 0000 to 9999; JSON is the standard grammar with numbers
    kept as integers where they are. *)
(* ================================================================== *)

Module RefRuntime.
Import JsString JsValue Runtime.

(** The digits of a fraction without the zeros at their end. *)
Fixpoint dropEndZeros (s : string) : string :=
  match s with
  | EmptyString => EmptyString
  | String c r =>
      let r' := dropEndZeros r in
      if Ascii.eqb c "0" && isEmpty r' then EmptyString else String c r'
  end.

Fixpoint leadingZeros (s : string) : nat :=
  match s with
  | String c r => if Ascii.eqb c "0" then S (leadingZeros r) else 0
  | EmptyString => 0
  end.

(** A text with a point: digits on one side of it at least, a minus sign
    in front at most.  The number is an integer when the fraction is all
    zeros; otherwise it is named by its rendering, which is the text
    without needless zeros as long as it has no more than fifteen digits
    and the number is not below a millionth. *)
Definition fraction (text : string) : JsNumber :=
  match indexOfChar "." text with
  | None => JNaN
  | Some i =>
      let negative := startsWithChar "-" text in
      let whole := jsSubstring (if negative then 1 else 0) i text in
      let frac := dropStr (S i) text in
      if isEmpty whole && isEmpty frac then JNaN
      else
        match NilEmpty.uint_of_string whole, NilEmpty.uint_of_string frac with
        | Some w, Some _ =>
            let n := N.of_uint w in
            let digits := NilZero.string_of_uint (N.to_uint n) in
            let rest := dropEndZeros frac in
            if isEmpty rest
            then JInt (if negative then Z.opp (Z.of_N n) else Z.of_N n)
            else if Nat.leb (String.length digits + String.length rest) 15
                    && (negb (N.eqb n 0) || Nat.leb (leadingZeros rest) 5)
            then JOther ((if negative then "-" else EmptyString)
                         ++ digits ++ "." ++ rest)
            else JNaN
        | _, _ => JNaN
        end
  end.

Definition Number (s : string) : JsNumber :=
  let text := trim s in
  if isEmpty text then JInt 0
  else match NilZero.int_of_string text with
       | Some d => JInt (Z.of_int d)
       | None => fraction text
       end.

(** **** Dates *)

Definition natOfString (s : string) : option Z :=
  match NilZero.uint_of_string s with
  | Some d => Some (Z.of_uint d)
  | None => None
  end.

Fixpoint zeros (n : nat) : string :=
  match n with
  | O => EmptyString
  | S n' => String "0" (zeros n')
  end.

(** [n] in decimal, padded with zeros to [width] digits. *)
Definition pad (width : nat) (n : Z) : string :=
  let digits := NilZero.string_of_uint (N.to_uint (Z.to_N n)) in
  zeros (width - String.length digits) ++ digits.

(** Days since 1970-01-01 to the civil date, and back. *)
Definition civilFromDays (days : Z) : Z * Z * Z :=
  let z := (days + 719468)%Z in
  let era := (z / 146097)%Z in
  let doe := (z - era * 146097)%Z in
  let yoe := ((doe - doe / 1460 + doe / 36524 - doe / 146096) / 365)%Z in
  let doy := (doe - (365 * yoe + yoe / 4 - yoe / 100))%Z in
  let mp := ((5 * doy + 2) / 153)%Z in
  let d := (doy - (153 * mp + 2) / 5 + 1)%Z in
  let m := if (mp <? 10)%Z then (mp + 3)%Z else (mp - 9)%Z in
  let y := (yoe + era * 400)%Z in
  (if (m <=? 2)%Z then (y + 1)%Z else y, m, d).

Definition daysFromCivil (y m d : Z) : Z :=
  let y := if (m <=? 2)%Z then (y - 1)%Z else y in
  let era := (y / 400)%Z in
  let yoe := (y - era * 400)%Z in
  let mp := if (2 <? m)%Z then (m - 3)%Z else (m + 9)%Z in
  let doy := ((153 * mp + 2) / 5 + d - 1)%Z in
  let doe := (yoe * 365 + yoe / 4 - yoe / 100 + doy)%Z in
  (era * 146097 + doe - 719468)%Z.

Definition dayMillis : Z := 86400000.

Definition toISOString (t : Z) : string :=
  let days := (t / dayMillis)%Z in
  let ms := (t mod dayMillis)%Z in
  let '(y, m, d) := civilFromDays days in
  pad 4 y ++ "-" ++ pad 2 m ++ "-" ++ pad 2 d ++ "T"
  ++ pad 2 (ms / 3600000) ++ ":" ++ pad 2 ((ms / 60000) mod 60) ++ ":"
  ++ pad 2 ((ms / 1000) mod 60) ++ "." ++ pad 3 (ms mod 1000) ++ "Z".

Definition field (a b : nat) (s : string) : option Z :=
  natOfString (jsSubstring a b s).

(** The time a text in the format of [toISOString] denotes. *)
Definition parseISO (s : string) : option Z :=
  match field 0 4 s, field 5 7 s, field 8 10 s,
        field 11 13 s, field 14 16 s, field 17 19 s, field 20 23 s with
  | Some y, Some m, Some d, Some hh, Some mm, Some ss, Some ms =>
      let t := (daysFromCivil y m d * dayMillis + hh * 3600000
                + mm * 60000 + ss * 1000 + ms)%Z in
      if String.eqb (toISOString t) s then Some t else None
  | _, _, _, _, _, _, _ => None
  end.

Definition Date_getTime (v : Value) : option Z :=
  match v with
  | VStr s => parseISO s
  | VNum (JInt z) => Some z
  | _ => None
  end.

(** **** JSON *)

Definition hexDigit (n : nat) : ascii :=
  match n with
  | 0 => "0" | 1 => "1" | 2 => "2" | 3 => "3" | 4 => "4" | 5 => "5"
  | 6 => "6" | 7 => "7" | 8 => "8" | 9 => "9" | 10 => "a" | 11 => "b"
  | 12 => "c" | 13 => "d" | 14 => "e" | _ => "f"
  end%char.

Definition escapeChar (c : ascii) : string :=
  let n := nat_of_ascii c in
  if Ascii.eqb c dquote then String backslash (str1 dquote)
  else if Ascii.eqb c backslash then String backslash (str1 backslash)
  else if Nat.eqb n 10 then String backslash "n"
  else if Nat.eqb n 13 then String backslash "r"
  else if Nat.eqb n 9 then String backslash "t"
  else if Nat.eqb n 8 then String backslash "b"
  else if Nat.eqb n 12 then String backslash "f"
  else if Nat.ltb n 32
  then String backslash
         ("u00" ++ String (hexDigit (n / 16)) (str1 (hexDigit (n mod 16))))
  else str1 c.

Fixpoint escapeString (s : string) : string :=
  match s with
  | EmptyString => EmptyString
  | String c s' => escapeChar c ++ escapeString s'
  end.

Definition quote (s : string) : string :=
  String dquote (escapeString s ++ str1 dquote).

Fixpoint JSON_stringify (j : Json) : string :=
  match j with
  | JNull => "null"
  | JBool b => if b then "true" else "false"
  | JNumber JNaN => "null"
  | JNumber n => numberToString n
  | JString s => quote s
  | JArray items =>
      "["
      ++ (fix go (l : list Json) : string :=
            match l with
            | [] => EmptyString
            | [x] => JSON_stringify x
            | x :: l' => JSON_stringify x ++ "," ++ go l'
            end) items
      ++ "]"
  | JObject props =>
      "{"
      ++ (fix go (l : list (string * Json)) : string :=
            match l with
            | [] => EmptyString
            | [(k, v)] => quote k ++ ":" ++ JSON_stringify v
            | (k, v) :: l' => quote k ++ ":" ++ JSON_stringify v ++ "," ++ go l'
            end) props
      ++ "}"
  end.

Definition hexValue (c : ascii) : option nat :=
  let n := nat_of_ascii c in
  if Nat.leb 48 n && Nat.leb n 57 then Some (n - 48)
  else if Nat.leb 97 n && Nat.leb n 102 then Some (n - 87)
  else if Nat.leb 65 n && Nat.leb n 70 then Some (n - 55)
  else None.

(** The text of a string literal after its opening quote, and what
    follows the closing quote. *)
Fixpoint parseStringBody (s : string) : option (string * string) :=
  let push (c : ascii) (r : option (string * string)) :=
    match r with
    | Some (text, rest) => Some (String c text, rest)
    | None => None
    end in
  match s with
  | EmptyString => None
  | String c s' =>
      if Ascii.eqb c dquote then Some (EmptyString, s')
      else if Ascii.eqb c backslash then
        match s' with
        | String "u" (String "0" (String "0" (String h (String l s'')))) =>
            match hexValue h, hexValue l with
            | Some a, Some b =>
                push (ascii_of_nat (16 * a + b)) (parseStringBody s'')
            | _, _ => None
            end
        | String e s'' =>
            if Ascii.eqb e "n" then push lf (parseStringBody s'')
            else if Ascii.eqb e "r" then push cr (parseStringBody s'')
            else if Ascii.eqb e "t"
            then push (ascii_of_nat 9) (parseStringBody s'')
            else if Ascii.eqb e "b"
            then push (ascii_of_nat 8) (parseStringBody s'')
            else if Ascii.eqb e "f"
            then push (ascii_of_nat 12) (parseStringBody s'')
            else if Ascii.eqb e dquote || Ascii.eqb e backslash
                    || Ascii.eqb e "/"
            then push e (parseStringBody s'')
            else None
        | EmptyString => None
        end
      else if Nat.ltb (nat_of_ascii c) 32 then None
      else push c (parseStringBody s')
  end.

Definition isJsonSpace (c : ascii) : bool :=
  let n := nat_of_ascii c in
  Nat.eqb n 32 || Nat.eqb n 9 || Nat.eqb n 10 || Nat.eqb n 13.

Fixpoint skipSpace (s : string) : string :=
  match s with
  | String c s' => if isJsonSpace c then skipSpace s' else s
  | EmptyString => EmptyString
  end.

Definition isNumberChar (c : ascii) : bool :=
  let n := nat_of_ascii c in
  (Nat.leb 48 n && Nat.leb n 57) || Ascii.eqb c "-" || Ascii.eqb c "+"
  || Ascii.eqb c "." || Ascii.eqb c "e" || Ascii.eqb c "E".

Definition parseNumber (s : string) : option (Json * string) :=
  let text := takeWhile isNumberChar s in
  let rest := dropStr (String.length text) s in
  let digits := if startsWithChar "-" text then dropStr 1 text else text in
  if startsWithChar "0" digits && negb (isEmpty (dropStr 1 digits)) then None
  else
    match NilZero.int_of_string text with
    | Some d => Some (JNumber (JInt (Z.of_int d)), rest)
    | None => None
    end.

Fixpoint parseValue (fuel : nat) (s : string) : option (Json * string) :=
  match fuel with
  | O => None
  | S fuel' =>
      match skipSpace s with
      | String "n" (String "u" (String "l" (String "l" rest))) =>
          Some (JNull, rest)
      | String "t" (String "r" (String "u" (String "e" rest))) =>
          Some (JBool true, rest)
      | String "f" (String "a" (String "l" (String "s" (String "e" rest)))) =>
          Some (JBool false, rest)
      | String "[" rest =>
          match skipSpace rest with
          | String "]" rest' => Some (JArray [], rest')
          | _ => parseElements fuel' rest []
          end
      | String "{" rest =>
          match skipSpace rest with
          | String "}" rest' => Some (JObject [], rest')
          | _ => parseMembers fuel' rest []
          end
      | String c rest =>
          if Ascii.eqb c dquote then
            match parseStringBody rest with
            | Some (text, rest') => Some (JString text, rest')
            | None => None
            end
          else parseNumber (String c rest)
      | EmptyString => None
      end
  end
with parseElements (fuel : nat) (s : string) (acc : list Json)
  : option (Json * string) :=
  match fuel with
  | O => None
  | S fuel' =>
      match parseValue fuel' s with
      | Some (v, rest) =>
          match skipSpace rest with
          | String "," rest' => parseElements fuel' rest' (acc ++ [v])%list
          | String "]" rest' => Some (JArray (acc ++ [v])%list, rest')
          | _ => None
          end
      | None => None
      end
  end
with parseMembers (fuel : nat) (s : string) (acc : list (string * Json))
  : option (Json * string) :=
  match fuel with
  | O => None
  | S fuel' =>
      match skipSpace s with
      | String q rest =>
          if Ascii.eqb q dquote then
            match parseStringBody rest with
            | Some (key, rest') =>
                match skipSpace rest' with
                | String ":" rest'' =>
                    match parseValue fuel' rest'' with
                    | Some (v, rest3) =>
                        let acc := JsMap.set String.eqb key v acc in
                        match skipSpace rest3 with
                        | String "," rest4 => parseMembers fuel' rest4 acc
                        | String "}" rest4 => Some (JObject acc, rest4)
                        | _ => None
                        end
                    | None => None
                    end
                | _ => None
                end
            | None => None
            end
          else None
      | EmptyString => None
      end
  end.

Definition JSON_parse (s : string) : option Json :=
  match parseValue (2 * String.length s + 2) s with
  | Some (v, rest) => if isEmpty (skipSpace rest) then Some v else None
  | None => None
  end.

Definition runtime : JsRuntime :=
  {| Runtime.Number := Number;
     Runtime.Date_getTime := Date_getTime;
     Runtime.Date_toISOString := toISOString;
     Runtime.JSON_parse := JSON_parse;
     Runtime.JSON_stringify := JSON_stringify |}.

End RefRuntime.


(* ================================================================== *)
(** ** Vocabulary of the statements *)
(* ================================================================== *)

Module Spec.
Import JsString JsValue Runtime Types.

(** [eqb] decides equality with the key [k]. *)
Definition DecidesKey {K : Type} (eqb : K -> K -> bool) (k : K) : Prop :=
  forall k', eqb k' k = true <-> k' = k.

(** A collection of Source A: no key twice, every entity under its id. *)
Definition Keyed {E : Type} (id : E -> string) (m : StrMap E) : Prop :=
  NoDup (JsMap.keys m) /\ Forall (fun kv => fst kv = id (snd kv)) m.

(** No record after [e] in the payload carries the id of [e]. *)
Definition LastOfItsId {E : Type} (id : E -> string) (e : E)
           (payload : list E) : Prop :=
  exists before after,
    payload = (before ++ e :: after)%list
    /\ Forall (fun x => id x <> id e) after.

(** The remote states a run can meet: the initial one and every replay. *)
Inductive Reachable : TodoistState.t -> Prop :=
| reach_initial : Reachable TodoistState.initial
| reach_replay (now : Z) (r : TodoistSyncResponse) (st : TodoistState.t) :
    Reachable st -> Reachable (TodoistState.updateFromSync now r st).

(** What a replay of [payload] guarantees of the accessor's [result]:
    no record marked deleted is in it; the id of such a record is in it
    only if a later record of the payload brought it back; it holds no
    deleted and no hidden entity; a live, visible record that is the last
    of its id is in it; and no id is in it twice. *)
Definition Replayed {E : Type} (id : E -> string) (deleted hidden : E -> bool)
           (payload result : list E) : Prop :=
  (forall e, In e payload -> deleted e = true -> ~ In e result)
  /\ (forall e, LastOfItsId id e payload -> deleted e = true ->
                forall x, In x result -> id x <> id e)
  /\ (forall x, In x result -> deleted x = false /\ hidden x = false)
  /\ (forall e, LastOfItsId id e payload -> deleted e = false ->
                hidden e = false -> In e result)
  /\ NoDup (map id result).

Definition never {E : Type} (_ : E) : bool := false.

(** A full snapshot whose one project is archived, not deleted. *)
Definition archivedProject : TodoistProject :=
  {| project_id := "p1"; project_name := "Archive";
     project_color := "grey"; project_parent_id := None;
     project_is_deleted := false; project_is_archived := true;
     project_is_favorite := false |}.

Definition archiveSnapshot : TodoistSyncResponse :=
  {| sync_token := "token-1"; full_sync := true;
     resp_projects := [archivedProject]; resp_items := [];
     resp_sections := []; resp_labels := [] |}.

(** An incremental payload that deletes one task and keeps another. *)
Definition keptTask : TodoistTask :=
  {| task_id := "t1"; task_project_id := "p1"; task_content := "Water";
     task_description := EmptyString; task_priority := 1;
     task_due := None; task_parent_id := None; task_section_id := None;
     task_labels := []; task_checked := false; task_is_deleted := false;
     task_date_added := "2024-01-01T00:00:00.000Z" |}.

Definition droppedTask : TodoistTask :=
  {| task_id := "t2"; task_project_id := "p1"; task_content := "Prune";
     task_description := EmptyString; task_priority := 1;
     task_due := None; task_parent_id := None; task_section_id := None;
     task_labels := []; task_checked := false; task_is_deleted := true;
     task_date_added := "2024-01-01T00:00:00.000Z" |}.

Definition mixedPayload : TodoistSyncResponse :=
  {| sync_token := "token-2"; full_sync := false;
     resp_projects := []; resp_items := [keptTask; droppedTask];
     resp_sections := []; resp_labels := [] |}.

(** The restore of a parsed value throws a TypeError: the value is [null],
    or one of the four map fields is truthy and not an array of entries. *)
Definition RestoreThrows (parsed : Json) : Prop :=
  parsed = JNull
  \/ exists name,
       In name ["tasks"; "projects"; "sections"; "labels"]
       /\ TodoistState.newMap (TodoistState.getProp name parsed) = None.

(** A text between double quotes. *)
Definition quoted (s : string) : string := String dquote (s ++ str1 dquote).

(** Valid JSON that is not the record [serialize] writes: an object with
    the sync bookkeeping and none of the four maps. *)
Definition bookkeepingOnly : string :=
  "{" ++ quoted "syncState" ++ ":{" ++ quoted "syncToken" ++ ":"
  ++ quoted "tok-9" ++ "," ++ quoted "lastFullSync" ++ ":5,"
  ++ quoted "lastIncrementalSync" ++ ":7}}".

(** Texts on which the restore resets the state. *)
Definition notJson : string := "{tasks: oops".
Definition tasksNotIterable : string := "{" ++ quoted "tasks" ++ ":5}".

(** A remote state with one project and one task, as two replays built
    it. *)
Definition gardenProject : TodoistProject :=
  {| project_id := "p1"; project_name := "Garden";
     project_color := "green"; project_parent_id := None;
     project_is_deleted := false; project_is_archived := false;
     project_is_favorite := true |}.

Definition gardenSnapshot : TodoistSyncResponse :=
  {| sync_token := "token-1"; full_sync := true;
     resp_projects := [gardenProject]; resp_items := [];
     resp_sections := []; resp_labels := [] |}.

Definition gardenState : TodoistState.t :=
  TodoistState.updateFromSync 2000 mixedPayload
    (TodoistState.updateFromSync 1000 gardenSnapshot TodoistState.initial).

(** *** Collaborators of the examples *)

Definition allProperties : World.EnabledProperties :=
  {| World.ep_content := true; World.ep_dueDate := true;
     World.ep_priority := true; World.ep_labels := true;
     World.ep_project := true; World.ep_section := true |}.

Definition plainSettings (dry : bool) : World.SyncEngineSettings :=
  {| World.todoistApiToken := "secret";
     World.syncFolderPath := "Todoist";
     World.scopeTag := "todoist";
     World.enabledProperties := allProperties;
     World.dryRunMode := dry |}.

(** A remote service that answers every request, with the given entities
    on a full fetch. *)
Definition remoteWith (ps : list TodoistProject) (ts : list TodoistTask)
           (ss : list TodoistSection) : World.Remote :=
  {| World.answerTestConnection := true;
     World.answerSync :=
       fun _ => World.Throws "incremental sync unavailable";
     World.answerGetProjects := ps;
     World.answerGetTasks := ts;
     World.answerGetSections := World.Returns ss;
     World.answerGetLabels := World.Returns [];
     World.answerUpdateTask := fun _ _ => World.Returns tt;
     World.answerCloseTask := fun _ => true;
     World.answerReopenTask := fun _ => true |}.

(** A store that carries out every write. *)
Definition neverFails (_ : Vault.Op) : option string := None.

(** A store that refuses to create folders. *)
Definition noNewFolders (op : Vault.Op) : option string :=
  match op with
  | Vault.CreateFolder _ => Some "EACCES: permission denied"
  | _ => None
  end.

(** An engine in the middle of a run. *)
Definition busyEngine : World.t :=
  World.withRunning true
    (SyncEngine.construct (plainSettings false) Vault.empty
       (remoteWith [gardenProject] [keptTask] []) neverFails 1000).

(** *** The frontmatter subset that survives a round trip *)



(** Every code unit of [s] satisfies [p]. *)
Fixpoint allChars (p : ascii -> bool) (s : string) : bool :=
  match s with
  | EmptyString => true
  | String c s' => p c && allChars p s'
  end.

(** A code unit of the text of a number: a digit, a sign, the point, the
    exponent mark or a letter of the word Infinity. *)
Definition isNumeralChar (c : ascii) : bool :=
  let n := nat_of_ascii c in
  (Nat.leb 48 n && Nat.leb n 57)
  || existsb (Ascii.eqb c) ["-"; "+"; "."; "e"; "I"; "n"; "f"; "i"; "t"; "y"]%char.

(** A number the parser reads back: any number but NaN whose text, made
    of numeral characters, the runtime reads back as that number. *)
Definition NumberOk (rt : JsRuntime) (n : JsNumber) : Prop :=
  n <> JNaN
  /\ numberToString n <> EmptyString
  /\ allChars isNumeralChar (numberToString n) = true
  /\ Number rt (numberToString n) = n.



(** The properties stand in the order in which an object lists them: none
    would be listed before one that stands before it. *)
Fixpoint listed (o : Bag) : bool :=
  match o with
  | [] => true
  | (k, _) :: o' =>
      forallb (fun kv => negb (listedBefore (fst kv) k)) o' && listed o'
  end.

(** A bag as an object holds its properties: no key twice, the keys in
    the order of an object, and none of them [__proto__]. *)
Definition IsObject (o : Bag) : Prop :=
  NoDup (map fst o) /\ listed o = true /\ ~ In "__proto__" (map fst o).



(** Bags of the examples. *)
Definition labelsBag : Bag := [("labels", VArr ["home"; "urgent"])].



Definition notSpace (c : ascii) : bool := negb (isWhiteSpace c).

Definition isDecimalChar (c : ascii) : bool :=
  let n := nat_of_ascii c in
  (Nat.leb 48 n && Nat.leb n 57) || Ascii.eqb c "-".

(** *** The reconcile step *)

(** The shape the three reconcile functions share: look the note up; with
    none, generate one, store it and answer created; with a stale one,
    generate again, store and answer updated; otherwise answer skipped. *)
Definition reconcileShape {N : Type}
           (lookup : ObsidianState.t -> option N) (stale : N -> bool)
           (generate : World.Generator -> option N -> World.M N)
           (store : N -> ObsidianState.t -> ObsidianState.t)
           (k : World.Kind) (id : string) : World.M World.Verdict :=
  World.bind (World.gets (fun w => lookup (World.obsidianState w)))
    (fun existingNote =>
  World.bind (World.gets World.fileGenerator) (fun g =>
  match existingNote with
  | None =>
      World.bind (generate g None) (fun note =>
      World.bind
        (World.modify
           (fun w => World.withObsidianState
                       (store note (World.obsidianState w)) w))
        (fun _ => SyncEngine.decide k id World.Created))
  | Some existing =>
      if stale existing then
        World.bind (generate g (Some existing)) (fun note =>
        World.bind
          (World.modify
             (fun w => World.withObsidianState
                         (store note (World.obsidianState w)) w))
          (fun _ => SyncEngine.decide k id World.Updated))
      else SyncEngine.decide k id World.Skipped
  end)).

(** When the engine takes the remote entity to differ from its note. *)
Definition taskStale (rt : JsRuntime) (task : TodoistTask)
           (existing : ObsidianTaskNote) : bool :=
  SyncEngine.laterThan (Date_getTime rt (VStr (task_date_added task)))
    (SyncEngine.parseLastSyncTime rt
       (objGet "last_sync" (tn_frontmatter existing))).

Definition projectStale (project : TodoistProject)
           (existing : ObsidianProjectNote) : bool :=
  negb (strictEq (pn_name existing) (VStr (project_name project)))
  || negb (strictEq (objGet "color" (pn_frontmatter existing))
             (VStr (project_color project)))
  || negb (strictEq (objGet "is_favorite" (pn_frontmatter existing))
             (VBool (project_is_favorite project))).

Definition sectionStale (section : TodoistSection)
           (existing : ObsidianSectionNote) : bool :=
  negb (strictEq (sn_name existing) (VStr (section_name section))).

(** A computation that touches nothing but the vault and the record of
    its writes, and whose result, when it returns one, satisfies [Q] at the
    reading of the clock. *)
Definition Materializes {A : Type} (m : World.M A) (Q : Z -> A -> Prop)
  : Prop :=
  forall w,
    (exists v ops,
        snd (m w) = World.withStore v (World.vaultLog w ++ ops)%list w)
    /\ (forall a, fst (m w) = World.Returns a -> Q (World.clock w) a).

Definition verdictOf (k : World.Kind) (id : string) (v : World.Verdict)
  : World.Decision :=
  {| World.d_kind := k; World.d_id := id; World.d_verdict := v |}.

(** *** The notes the materializer returns *)

Definition taskTitle (task : TodoistTask) : string :=
  if isEmpty (task_content task) then "Task " ++ task_id task
  else task_content task.

(** The path of a task document: the existing one when there is one. *)
Definition taskFilePath (g : World.Generator) (task : TodoistTask)
           (projectName sectionName existingFilePath : option string)
  : string :=
  if FileGenerator.given existingFilePath then
    match existingFilePath with Some p => p | None => EmptyString end
  else
    FileGenerator.getTaskFolderPath g projectName sectionName ++ "/"
    ++ Sanitizer.sanitizeFileName (taskTitle task) ++ ".md".

Definition projectFilePath (g : World.Generator) (project : TodoistProject)
  : string :=
  World.g_syncFolderPath g ++ "/"
  ++ Sanitizer.sanitizeFileName (project_name project) ++ "/_project.md".

Definition sectionFilePath (g : World.Generator) (section : TodoistSection)
           (projectName : string) : string :=
  (World.g_syncFolderPath g ++ "/" ++ Sanitizer.sanitizeFileName projectName
   ++ "/" ++ Sanitizer.sanitizeFileName (section_name section))
  ++ "/_section.md".

Definition taskNoteOf (rt : JsRuntime) (g : World.Generator) (c : Z)
           (task : TodoistTask)
           (projectName sectionName existingFilePath : option string)
           (stamp : Z) : ObsidianTaskNote :=
  let frontmatter :=
    FileGenerator.buildTaskFrontmatter rt g c task projectName sectionName in
  {| tn_filePath :=
       taskFilePath g task projectName sectionName existingFilePath;
     tn_todoistId := VStr (task_id task);
     tn_content := FileGenerator.buildContent frontmatter;
     tn_frontmatter := frontmatter;
     tn_lastModified := stamp |}.

Definition projectNoteOf (rt : JsRuntime) (g : World.Generator) (c : Z)
           (project : TodoistProject) (stamp : Z) : ObsidianProjectNote :=
  {| pn_filePath := projectFilePath g project;
     pn_todoistId := VStr (project_id project);
     pn_name := VStr (project_name project);
     pn_frontmatter := FileGenerator.buildProjectFrontmatter rt c project;
     pn_lastModified := stamp |}.

Definition sectionNoteOf (rt : JsRuntime) (g : World.Generator) (c : Z)
           (section : TodoistSection) (projectName : string) (stamp : Z)
  : ObsidianSectionNote :=
  {| sn_filePath := sectionFilePath g section projectName;
     sn_todoistId := VStr (section_id section);
     sn_name := VStr (section_name section);
     sn_projectId := VStr (section_project_id section);
     sn_frontmatter := FileGenerator.buildSectionFrontmatter rt c section;
     sn_lastModified := stamp |}.

(** *** A reconcile pass *)

Definition keyOf (d : World.Decision) : World.Kind * string :=
  (World.d_kind d, World.d_id d).

(** The lookup map the project loop leaves behind. *)
Definition projectNames (st : TodoistState.t) : StrMap string :=
  fold_left
    (fun m p => JsMap.set String.eqb (project_id p) (project_name p) m)
    (TodoistState.getAllProjects st) [].

(** The name a project id resolves to: a name in the map that is truthy. *)
Definition resolvedName (projectMap : StrMap string) (pid : string)
  : option string :=
  match JsMap.get String.eqb pid projectMap with
  | Some name => if isEmpty name then None else Some name
  | None => None
  end.

Definition isResolved (projectMap : StrMap string) (pid : string) : bool :=
  match resolvedName projectMap pid with Some _ => true | None => false end.

(** The entities a complete pass reconciles, in the order it does. *)
Definition expectedKeys (st : TodoistState.t)
  : list (World.Kind * string) :=
  (map (fun p => (World.KProject, project_id p))
     (TodoistState.getAllProjects st)
   ++ map (fun s => (World.KSection, section_id s))
        (filter (fun s => isResolved (projectNames st) (section_project_id s))
           (TodoistState.getAllSections st))
   ++ map (fun t => (World.KTask, task_id t))
        (TodoistState.getAllTasks st))%list.

(** Counting verdicts as [reconcileStates] does. *)
Definition tally (ds : list World.Decision) (s : SyncEngine.Stats)
  : SyncEngine.Stats :=
  fold_left
    (fun s d => SyncEngine.count (World.d_kind d) (World.d_verdict d) s)
    ds s.

Definition Prefix {A : Type} (l1 l2 : list A) : Prop :=
  exists rest, l2 = (l1 ++ rest)%list.

(** What no reconcile step changes. *)
Definition SameEngine (w w' : World.t) : Prop :=
  World.todoistState w' = World.todoistState w
  /\ World.fileGenerator w' = World.fileGenerator w
  /\ World.clock w' = World.clock w.

(** An entity whose note is there and not stale. *)
Definition ProjectSettled (os : ObsidianState.t) (p : TodoistProject)
  : Prop :=
  exists n, ObsidianState.getProjectNote (VStr (project_id p)) os = Some n
            /\ projectStale p n = false.

Definition SectionSettled (os : ObsidianState.t) (s : TodoistSection)
  : Prop :=
  exists n, ObsidianState.getSectionNote (VStr (section_id s)) os = Some n
            /\ sectionStale s n = false.

Definition TaskSettled (rt : JsRuntime) (os : ObsidianState.t)
           (t : TodoistTask) : Prop :=
  exists n, ObsidianState.getTaskNote (VStr (task_id t)) os = Some n
            /\ taskStale rt t n = false.

(** The runtime reads back the stamp it prints for the time [c]. *)
Definition DateFaithful (rt : JsRuntime) (c : Z) : Prop :=
  Date_toISOString rt c <> EmptyString
  /\ Date_getTime rt (VStr (Date_toISOString rt c)) = Some c.

(** The creation stamp of the task is unreadable or not later than [c]. *)
Definition NotLaterThan (rt : JsRuntime) (c : Z) (t : TodoistTask) : Prop :=
  SyncEngine.laterThan (Date_getTime rt (VStr (task_date_added t))) c = false.

(** The verdicts of a pass that skips every entity, and the world after
    them. *)
Definition appendDecisions (ds : list World.Decision) (w : World.t)
  : World.t :=
  fold_left (fun w d => World.logDecision d w) ds w.

Definition projectKey (p : TodoistProject) : World.Kind * string :=
  (World.KProject, project_id p).
Definition sectionKey (s : TodoistSection) : World.Kind * string :=
  (World.KSection, section_id s).
Definition taskKey (t : TodoistTask) : World.Kind * string :=
  (World.KTask, task_id t).

Definition projectMapAfter (ps : list TodoistProject) (pm : StrMap string)
  : StrMap string :=
  fold_left
    (fun m p => JsMap.set String.eqb (project_id p) (project_name p) m) ps pm.

Definition reconciled (pm : StrMap string) (ss : list TodoistSection)
  : list TodoistSection :=
  filter (fun s => isResolved pm (section_project_id s)) ss.

Definition sectionMapAfter (ss : list TodoistSection) (sm : StrMap string)
  : StrMap string :=
  fold_left
    (fun m s => JsMap.set String.eqb (section_id s) (section_name s) m) ss sm.

(** No two live entities of a kind share an id. *)
Definition DistinctIds (st : TodoistState.t) : Prop :=
  NoDup (map project_id (TodoistState.getAllProjects st))
  /\ NoDup (map section_id (TodoistState.getAllSections st))
  /\ NoDup (map task_id (TodoistState.getAllTasks st)).

(** Whether the local state holds a note for the entity of a verdict. *)
Definition hasNote (os : ObsidianState.t) (key : World.Kind * string)
  : bool :=
  match fst key with
  | World.KTask =>
      match ObsidianState.getTaskNote (VStr (snd key)) os with
      | Some _ => true | None => false
      end
  | World.KProject =>
      match ObsidianState.getProjectNote (VStr (snd key)) os with
      | Some _ => true | None => false
      end
  | World.KSection =>
      match ObsidianState.getSectionNote (VStr (snd key)) os with
      | Some _ => true | None => false
      end
  end.

(** The verdicts of a pass that skips all it meets. *)
Definition allSkipped (st : TodoistState.t) : list World.Decision :=
  map (fun key => verdictOf (fst key) (snd key) World.Skipped)
    (expectedKeys st).

(** Every entity the pass meets has a note that is not stale. *)
Definition AllSettled (rt : JsRuntime) (st : TodoistState.t)
           (os : ObsidianState.t) : Prop :=
  (forall p, In p (TodoistState.getAllProjects st) -> ProjectSettled os p)
  /\ (forall s, In s (reconciled (projectNames st)
                        (TodoistState.getAllSections st)) ->
                SectionSettled os s)
  /\ (forall t, In t (TodoistState.getAllTasks st) -> TaskSettled rt os t).

(** An engine that has fetched [gardenState] and scanned an empty vault. *)
Definition gardenWorld (dry : bool) (time : Z) : World.t :=
  World.withTodoistState gardenState
    (SyncEngine.construct (plainSettings dry) Vault.empty
       (remoteWith [gardenProject] [keptTask] []) neverFails time).

(** The writes of a run without the text they carry. *)
Definition outline (ops : list Vault.Op) : list Vault.Op :=
  map (fun op =>
         match op with
         | Vault.Create p _ => Vault.Create p EmptyString
         | Vault.Modify p _ => Vault.Modify p EmptyString
         | other => other
         end) ops.

(** The lookup map the section loop leaves behind. *)
Definition sectionNames (st : TodoistState.t) : StrMap string :=
  sectionMapAfter
    (reconciled (projectNames st) (TodoistState.getAllSections st)) [].

(** The section name the task loop hands to a task's step. *)
Definition sectionNameFor (sectionMap : StrMap string) (t : TodoistTask)
  : option string :=
  match task_section_id t with
  | Some sid =>
      if isEmpty sid then None else JsMap.get String.eqb sid sectionMap
  | None => None
  end.

(** A task of a project that is not in the remote state. *)
Definition orphanTask : TodoistTask :=
  {| task_id := "t7"; task_project_id := "p9"; task_content := "Stray";
     task_description := EmptyString; task_priority := 1;
     task_due := None; task_parent_id := None; task_section_id := None;
     task_labels := []; task_checked := false; task_is_deleted := false;
     task_date_added := "2024-01-01T00:00:00.000Z" |}.

Definition orphanSnapshot : TodoistSyncResponse :=
  {| sync_token := "token-7"; full_sync := true;
     resp_projects := []; resp_items := [orphanTask];
     resp_sections := []; resp_labels := [] |}.

Definition orphanState : TodoistState.t :=
  TodoistState.updateFromSync 1000 orphanSnapshot TodoistState.initial.

Definition orphanWorld : World.t :=
  World.withTodoistState orphanState
    (SyncEngine.construct (plainSettings false) Vault.empty
       (remoteWith [] [orphanTask] []) neverFails 1710000000000).

(** A fresh engine over an empty vault and a remote service that holds
    one project and its task. *)
Definition freshEngine (dry : bool) (fails : Vault.Op -> option string)
  : World.t :=
  SyncEngine.construct (plainSettings dry) Vault.empty
    (remoteWith [gardenProject] [keptTask] []) fails 1710000000000.

(** The project and the task of [gardenState] under new titles; the task
    is stamped after the first pass. *)
Definition renamedProject : TodoistProject :=
  {| project_id := "p1"; project_name := "Orchard";
     project_color := "green"; project_parent_id := None;
     project_is_deleted := false; project_is_archived := false;
     project_is_favorite := true |}.

Definition renamedTask : TodoistTask :=
  {| task_id := "t1"; task_project_id := "p1"; task_content := "Irrigate";
     task_description := EmptyString; task_priority := 1;
     task_due := None; task_parent_id := None; task_section_id := None;
     task_labels := []; task_checked := false; task_is_deleted := false;
     task_date_added := "2024-06-01T00:00:00.000Z" |}.

Definition renamedSnapshot : TodoistSyncResponse :=
  {| sync_token := "token-3"; full_sync := false;
     resp_projects := [renamedProject]; resp_items := [renamedTask];
     resp_sections := []; resp_labels := [] |}.

Definition renamedState : TodoistState.t :=
  TodoistState.updateFromSync 3000 renamedSnapshot gardenState.

(** The engine after a first pass over [gardenState], with the renamed
    entities replayed into its remote state. *)
Definition afterRename : World.t :=
  World.withTodoistState renamedState
    (snd (SyncEngine.reconcileStates RefRuntime.runtime
            (gardenWorld false 1710000000000))).

Definition renamePass : World.Outcome SyncEngine.Stats * World.t :=
  SyncEngine.reconcileStates RefRuntime.runtime afterRename.

(** *** The writes of a pass *)

Definition isFolderCreation (op : Vault.Op) : bool :=
  match op with Vault.CreateFolder _ => true | _ => false end.

Definition isDocumentWrite (op : Vault.Op) : bool :=
  match op with
  | Vault.Create _ _ | Vault.Modify _ _ => true
  | _ => false
  end.

(** The creation or the modification of the file at [p]. *)
Definition isWriteAt (p : string) (op : Vault.Op) : bool :=
  match op with
  | Vault.Create q _ | Vault.Modify q _ => String.eqb q p
  | _ => false
  end.

Definition documentWrites (ops : list Vault.Op) : list Vault.Op :=
  filter isDocumentWrite ops.

Definition OnlyFolders (ops : list Vault.Op) : Prop :=
  forallb isFolderCreation ops = true.

Definition OneWrite (p : string) (ops : list Vault.Op) : Prop :=
  exists op, ops = [op] /\ isWriteAt p op = true.

(** Folders, then the one document at [p]. *)
Definition OneDocument (p : string) (ops : list Vault.Op) : Prop :=
  exists folders op,
    ops = (folders ++ [op])%list
    /\ OnlyFolders folders /\ isWriteAt p op = true.

(** What a computation that returns has asked of the vault. *)
Definition Writes {A : Type} (m : World.M A) (P : list Vault.Op -> Prop)
  : Prop :=
  forall w a,
    fst (m w) = World.Returns a ->
    exists ops,
      World.vaultLog (snd (m w)) = (World.vaultLog w ++ ops)%list /\ P ops.

(** What a run added to the two records. *)
Definition newOps (w w' : World.t) : list Vault.Op :=
  skipn (length (World.vaultLog w)) (World.vaultLog w').

Definition newDecisions (w w' : World.t) : list World.Decision :=
  skipn (length (World.decisionLog w)) (World.decisionLog w').

Definition acted (d : World.Decision) : bool :=
  match World.d_verdict d with
  | World.Skipped => false
  | _ => true
  end.

(** What a computation has asked of the vault, however it ends: writes
    that all pass [Q]. *)
Definition Logs {A : Type} (m : World.M A) (Q : Vault.Op -> bool) : Prop :=
  forall w,
    exists ops,
      World.vaultLog (snd (m w)) = (World.vaultLog w ++ ops)%list
      /\ forallb Q ops = true.

(** *** The footprint of a computation *)

(** [after] continues [before] with entries that all pass [ok]. *)
Definition Extends {A : Type} (ok : A -> bool) (before after : list A)
  : Prop :=
  exists new, after = (before ++ new)%list /\ forallb ok new = true.

(** What a computation may do: the writes it may ask of the vault, the
    calls it may make, and whether it may replace the remote and the local
    state. *)
Record Footprint : Type := {
  okOp : Vault.Op -> bool;
  okCall : World.ApiCall -> bool;
  mayFetch : bool;
  mayScan : bool
}.

(** From [w] to [w'] within a footprint: the settings and the generator
    are the same, both records are continued with what the footprint
    allows, and a state it does not release is the same. *)
Definition Within (F : Footprint) (w w' : World.t) : Prop :=
  World.settings w' = World.settings w
  /\ World.fileGenerator w' = World.fileGenerator w
  /\ Extends (okOp F) (World.vaultLog w) (World.vaultLog w')
  /\ Extends (okCall F) (World.apiLog w) (World.apiLog w')
  /\ (mayFetch F = false -> World.todoistState w' = World.todoistState w)
  /\ (mayScan F = false -> World.obsidianState w' = World.obsidianState w).

(** [m], started in a world of [I] and however it ends, stays within
    [F]. *)
Definition Keeps {A : Type} (I : World.t -> Prop) (F : Footprint)
           (m : World.M A) : Prop :=
  forall w, I w -> Within F w (snd (m w)).

Definition AnyWorld (_ : World.t) : Prop := True.

(** Dry-run mode, in the settings and in the generator. *)
Definition DryRun (w : World.t) : Prop :=
  World.dryRunMode (World.settings w) = true
  /\ World.g_dryRun (World.fileGenerator w) = true.

Definition isRead (c : World.ApiCall) : bool := negb (World.isMutation c).

Definition isModification (op : Vault.Op) : bool :=
  match op with Vault.Modify _ _ => true | _ => false end.

Definition isDeletion (op : Vault.Op) : bool :=
  match op with Vault.Delete _ => true | _ => false end.

Definition noOp (_ : Vault.Op) : bool := false.
Definition noCall (_ : World.ApiCall) : bool := false.
Definition anyCall (_ : World.ApiCall) : bool := true.

(** A dry run: folders at most, reading calls at most. *)
Definition dryFootprint : Footprint :=
  {| okOp := isFolderCreation; okCall := isRead;
     mayFetch := true; mayScan := true |}.

(** The four steps of a run. *)
Definition fetchFootprint : Footprint :=
  {| okOp := noOp; okCall := isRead; mayFetch := true; mayScan := false |}.

Definition scanFootprint : Footprint :=
  {| okOp := noOp; okCall := noCall; mayFetch := false; mayScan := true |}.

Definition pushFootprint : Footprint :=
  {| okOp := isModification; okCall := World.isMutation;
     mayFetch := false; mayScan := false |}.

Definition reconcileFootprint : Footprint :=
  {| okOp := fun op => negb (isDeletion op); okCall := noCall;
     mayFetch := false; mayScan := true |}.

(** A whole run, in any mode. *)
Definition runFootprint : Footprint :=
  {| okOp := fun op => negb (isDeletion op); okCall := anyCall;
     mayFetch := true; mayScan := true |}.

(** [m] ends in a result, never in an error. *)
Definition NeverThrows {A : Type} (m : World.M A) : Prop :=
  forall w, exists a, fst (m w) = World.Returns a.

(** What a footprint has to allow for the steps of a run to stay within
    it: folders; the documents of a generator that is not in dry-run
    mode; the stamps and the changing calls of a push that is not in
    dry-run mode; reading calls. *)
Definition AllowsFolders (F : Footprint) : Prop :=
  forall p, okOp F (Vault.CreateFolder p) = true.

Definition AllowsWrites (F : Footprint) (g : World.Generator) : Prop :=
  World.g_dryRun g = false ->
  forall p data,
    okOp F (Vault.Create p data) = true
    /\ okOp F (Vault.Modify p data) = true.

Definition AllowsPush (F : Footprint) (dry : bool) : Prop :=
  dry = false ->
  (forall p data, okOp F (Vault.Modify p data) = true)
  /\ (forall c, World.isMutation c = true -> okCall F c = true).

Definition AllowsReads (F : Footprint) : Prop :=
  forall c, World.isMutation c = false -> okCall F c = true.

(** Nothing asked of the vault or of the service, neither state changed. *)
Definition idleFootprint : Footprint :=
  {| okOp := noOp; okCall := noCall; mayFetch := false; mayScan := false |}.

(** An entry point ends in a result and leaves the running flag as it
    found it; a success sets the time of the last sync. *)
Definition EndsCleanly (m : World.M SyncEngine.SyncResult) : Prop :=
  forall w,
    exists r,
      fst (m w) = World.Returns r
      /\ World.isRunning (snd (m w)) = World.isRunning w
      /\ (SyncEngine.success r = true ->
          World.lastSyncTime (snd (m w)) = World.clock (snd (m w))).

Definition DrySettings (w : World.t) : Prop :=
  World.dryRunMode (World.settings w) = true.

(** A fresh engine whose settings hold no API token. *)
Definition tokenlessEngine : World.t :=
  SyncEngine.construct
    {| World.todoistApiToken := EmptyString;
       World.syncFolderPath := "Todoist";
       World.scopeTag := "todoist";
       World.enabledProperties := allProperties;
       World.dryRunMode := false |}
    Vault.empty (remoteWith [gardenProject] [keptTask] []) neverFails
    1710000000000.

(** A fresh engine whose remote service refuses the connection test. *)
Definition offlineEngine : World.t :=
  SyncEngine.construct (plainSettings false) Vault.empty
    {| World.answerTestConnection := false;
       World.answerSync := fun _ => World.Throws "offline";
       World.answerGetProjects := [];
       World.answerGetTasks := [];
       World.answerGetSections := World.Throws "offline";
       World.answerGetLabels := World.Throws "offline";
       World.answerUpdateTask := fun _ _ => World.Throws "offline";
       World.answerCloseTask := fun _ => false;
       World.answerReopenTask := fun _ => false |}
    neverFails 1710000000000.

Definition scanned : SyncEngine.SyncResult :=
  {| SyncEngine.success := true; SyncEngine.message := "Scanned Obsidian" |}.

Definition connectionFailed : SyncEngine.SyncResult :=
  {| SyncEngine.success := false;
     SyncEngine.message := "Sync failed: Failed to connect to Todoist API" |}.

(** The token a fetch over the REST endpoints makes up at time [t]. *)
Definition restToken (t : Z) : string :=
  "rest_" ++ numberToString (JInt t).

(** The world [w] with its remote state replaced and its clock set. *)
Definition laterWorld (st : TodoistState.t) (time : Z) (w : World.t)
  : World.t :=
  World.withClock time (World.withTodoistState st w).

(** [m], however it ends, keeps the property [P] of the world. *)
Definition Preserves {A : Type} (P : World.t -> Prop) (m : World.M A)
  : Prop :=
  forall w, P w -> P (snd (m w)).

(** The remote state of the engine is one a run can meet. *)
Definition RemoteReachable (w : World.t) : Prop :=
  Reachable (World.todoistState w).

(** The task note [processFile] builds from a file and its cached
    frontmatter. *)
Definition taskNoteOfFile (file : Vault.TFile) (frontmatter : Bag)
  : ObsidianTaskNote :=
  {| tn_filePath := Vault.path file;
     tn_todoistId := objGet "todoist_id" frontmatter;
     tn_content := Vault.content file;
     tn_frontmatter := frontmatter;
     tn_lastModified := Vault.mtime file |}.

(** A file the scan of [root] reads: a markdown file below the folder
    whose cached frontmatter holds a truthy [todoist_id]. *)
Definition Scanned (root : string) (v : Vault.t) (file : Vault.TFile)
           (frontmatter : Bag) : Prop :=
  In file (Vault.files v)
  /\ Vault.isBelow root (Vault.path file) = true
  /\ Vault.extension (Vault.path file) = "md"
  /\ Vault.cache file = Some frontmatter
  /\ truthy (objGet "todoist_id" frontmatter) = true.

(** A vault with one task document and one plain document below the sync
    folder, and a task document outside it. *)
Definition taskCache (id : string) : Bag :=
  [("todoist_id", VStr id); ("todoist_type", VStr "task")].

Definition scanVaultExample : Vault.t :=
  {| Vault.folders := ["Todoist"];
     Vault.files :=
       [{| Vault.path := "Todoist/Water.md"; Vault.content := "body";
           Vault.mtime := 7; Vault.cache := Some (taskCache "t1") |};
        {| Vault.path := "Todoist/Readme.md"; Vault.content := "text";
           Vault.mtime := 8; Vault.cache := Some [] |};
        {| Vault.path := "Notes/Other.md"; Vault.content := "body";
           Vault.mtime := 9; Vault.cache := Some (taskCache "t9") |}] |}.

(** *** Notes the push reads *)

(** A text the push has nothing to do with: it has no frontmatter, or its
    [todoist_id] is not a string, or it is the note of a section. *)
Definition Ignored (rt : JsRuntime) (data : string) : Prop :=
  match Frontmatter.parseFrontmatter rt data with
  | None => True
  | Some (fm, _) =>
      (forall s, objGet "todoist_id" fm <> VStr s)
      \/ objGet "todoist_type" fm = VStr "section"
  end.

(** A task whose id is a decimal numeral, as the remote service names
    them, and the note the generator writes for it. *)
Definition numberedTask : TodoistTask :=
  {| task_id := "8675309"; task_project_id := "p1"; task_content := "Call";
     task_description := EmptyString; task_priority := 1;
     task_due := None; task_parent_id := None; task_section_id := None;
     task_labels := []; task_checked := false; task_is_deleted := false;
     task_date_added := "2024-01-01T00:00:00.000Z" |}.

Definition numberedNote : string :=
  FileGenerator.buildContent
    (FileGenerator.buildTaskFrontmatter RefRuntime.runtime
       (SyncEngine.generatorOf (plainSettings false)) 1710000000000
       numberedTask None None).

(** An engine that knows [numberedTask] under another title, over a vault
    that holds its note. *)
Definition vaultWith (p data : string) : Vault.t :=
  Vault.addFile p data 1710000000000 (Vault.addFolder "Todoist" Vault.empty).

Definition engineOver (v : Vault.t) (tasks : list TodoistTask) : World.t :=
  World.withTodoistState
    (TodoistState.updateFromSync 1000
       {| sync_token := "token-1"; full_sync := true;
          resp_projects := [gardenProject]; resp_items := tasks;
          resp_sections := []; resp_labels := [] |}
       TodoistState.initial)
    (SyncEngine.construct (plainSettings false) v
       (remoteWith [gardenProject] tasks []) neverFails 1710000000000).

Definition retitled (title : string) (task : TodoistTask) : TodoistTask :=
  {| task_id := task_id task; task_project_id := task_project_id task;
     task_content := title; task_description := task_description task;
     task_priority := task_priority task; task_due := task_due task;
     task_parent_id := task_parent_id task;
     task_section_id := task_section_id task;
     task_labels := task_labels task; task_checked := task_checked task;
     task_is_deleted := task_is_deleted task;
     task_date_added := task_date_added task |}.

Definition numberedWorld : World.t :=
  engineOver (vaultWith "Todoist/Call.md" numberedNote)
    [retitled "Call back" numberedTask].

(** The text is the note of a task or of an entity of no stated kind,
    under the string id [id]: what the push takes for a task note. *)
Definition TaskNoteText (rt : JsRuntime) (data : string) (fm : Bag)
           (body id : string) : Prop :=
  Frontmatter.parseFrontmatter rt data = Some (fm, body)
  /\ objGet "todoist_id" fm = VStr id
  /\ isEmpty id = false
  /\ strictEq (objGet "todoist_type" fm) (VStr "project") = false
  /\ strictEq (objGet "todoist_type" fm) (VStr "section") = false.

(** The title the push reads from a note: the property, or else the first
    heading of the body. *)
Definition noteTitle (fm : Bag) (body : string) : Value :=
  orElse (objGet "title" fm) (Extract.extractTitleFromContent body).

(** The note says of the task what the remote state says: the same
    completion, the same title or none, the same priority or none. *)
Definition InStep (task : TodoistTask) (fm : Bag) (body : string) : Prop :=
  Extract.extractCheckboxStatus body = task_checked task
  /\ (truthy (noteTitle fm body) = false
      \/ noteTitle fm body = VStr (task_content task))
  /\ (objGet "priority" fm = VUndefined
      \/ objGet "priority" fm = VNum (JInt (task_priority task))).

(** The text [updateFileSyncTimestamp] writes back. *)
Definition stamped (rt : JsRuntime) (now : Z) (fm : Bag) (body : string)
  : string :=
  SyncEngine.engineSerializeFrontmatter
    (objSet "sync_status" (VStr "synced")
       (objSet "last_sync" (VStr (Date_toISOString rt now)) fm))
  ++ Frontmatter.newline ++ body.

(** A task under an id the parser reads back as a string, its note as the
    generator writes it, and an engine that knows the task as the note has
    it. *)
Definition namedTask : TodoistTask :=
  {| task_id := "t7"; task_project_id := "p1"; task_content := "Sow";
     task_description := EmptyString; task_priority := 1;
     task_due := None; task_parent_id := None; task_section_id := None;
     task_labels := []; task_checked := false; task_is_deleted := false;
     task_date_added := "2024-01-01T00:00:00.000Z" |}.

Definition namedNote : string :=
  FileGenerator.buildContent
    (FileGenerator.buildTaskFrontmatter RefRuntime.runtime
       (SyncEngine.generatorOf (plainSettings false)) 1710000000000
       namedTask None None).

Definition namedFile : Vault.TFile :=
  {| Vault.path := "Todoist/Sow.md"; Vault.content := namedNote;
     Vault.mtime := 1710000000000; Vault.cache := None |}.

Definition inStepWorld : World.t :=
  engineOver (vaultWith "Todoist/Sow.md" namedNote) [namedTask].

(** A note of [namedTask] written by hand: two properties named by array
    indices, the larger one first, stand after the title, and a line
    names [__proto__]; what the parser reads from it, as an object lists
    it; the text the stamp writes back; and an engine that knows the task
    under another title, over a vault that holds the note. *)
Definition indexedNote : string :=
  joinLines
    ["---"; "todoist_id: t7"; "title: Sow"; "2024: plan"; "7: bed";
     "__proto__: x"; "---"; EmptyString].

Definition indexedFrontmatter : Bag :=
  [("7", VStr "bed"); ("2024", VStr "plan"); ("todoist_id", VStr "t7");
   ("title", VStr "Sow")].

Definition indexedFile : Vault.TFile :=
  {| Vault.path := "Todoist/Sow.md"; Vault.content := indexedNote;
     Vault.mtime := 1710000000000; Vault.cache := None |}.

Definition indexedStamped : string :=
  joinLines
    ["---"; "7: bed"; "2024: plan"; "todoist_id: t7"; "title: Sow";
     "last_sync: " ++ quoted "2024-03-09T16:00:00.000Z";
     "sync_status: synced"; "---"; EmptyString].

Definition indexedWorld : World.t :=
  engineOver (vaultWith "Todoist/Sow.md" indexedNote)
    [retitled "Sow beans" namedTask].

(** The note differs from the task in its title only. *)
Definition TitleEdited (task : TodoistTask) (fm : Bag) (body title : string)
  : Prop :=
  Extract.extractCheckboxStatus body = task_checked task
  /\ noteTitle fm body = VStr title
  /\ isEmpty title = false
  /\ title <> task_content task
  /\ (objGet "priority" fm = VUndefined
      \/ objGet "priority" fm = VNum (JInt (task_priority task))).

(** A code unit a sanitized name can hold: outside the unsafe class and not
    a dot. *)
Definition isFileChar (c : ascii) : bool :=
  negb (Sanitizer.isUnsafeChar c) && negb (Ascii.eqb c ".").

(** Two underscores in a row. *)
Fixpoint hasDoubleUnderscore (s : string) : bool :=
  match s with
  | String c s' =>
      (Sanitizer.isUnderscore c && startsWithChar "_" s')
      || hasDoubleUnderscore s'
  | EmptyString => false
  end.

(** A path that passes the tests of the walk of [scanFolderRecursively]
    from the folder [root]: below the folder, with the extension [md]. *)
Definition inScanScope (root p : string) : bool :=
  Vault.isBelow root p && String.eqb (Vault.extension p) "md".

(** No id is twice in a collection of the local state. *)
Definition Tidy (st : ObsidianState.t) : Prop :=
  NoDup (JsMap.keys (ObsidianState.taskNotes st))
  /\ NoDup (JsMap.keys (ObsidianState.projectNotes st))
  /\ NoDup (JsMap.keys (ObsidianState.sectionNotes st)).

(** A local state that holds one task note, and an engine over it. *)
Definition oneNoteState : ObsidianState.t :=
  ObsidianState.setTaskNote (VStr "t1")
    (taskNoteOfFile
       {| Vault.path := "Todoist/Water.md"; Vault.content := "body";
          Vault.mtime := 7; Vault.cache := None |} (taskCache "t1"))
    ObsidianState.empty.

Definition oneNoteWorld : World.t :=
  World.withObsidianState oneNoteState (freshEngine false neverFails).

(** An engine over a vault that holds one document, with a generator
    that is not in dry-run mode. *)
Definition oneFileWorld : World.t :=
  SyncEngine.construct (plainSettings false)
    (vaultWith "Todoist/Sow.md" "text")
    (remoteWith [gardenProject] [keptTask] []) neverFails 1710000000000.

(** What the parser reads from [namedNote]. *)
Definition namedFrontmatter : Bag :=
  [("todoist_id", VStr "t7"); ("todoist_type", VStr "task");
   ("sync_status", VStr "synced");
   ("last_sync", VStr "2024-03-09T16:00:00.000Z");
   ("title", VStr "Sow"); ("priority", VNum (JInt 1));
   ("completed", VBool false)].

(** A completed task, its note as the generator writes it, and an engine
    that knows the task, over a vault that holds the note. *)
Definition doneTask : TodoistTask :=
  {| task_id := "t8"; task_project_id := "p1"; task_content := "Reap";
     task_description := EmptyString; task_priority := 1;
     task_due := None; task_parent_id := None; task_section_id := None;
     task_labels := []; task_checked := true; task_is_deleted := false;
     task_date_added := "2024-01-01T00:00:00.000Z" |}.

Definition doneNote : string :=
  FileGenerator.buildContent
    (FileGenerator.buildTaskFrontmatter RefRuntime.runtime
       (SyncEngine.generatorOf (plainSettings false)) 1710000000000
       doneTask None None).

Definition doneFrontmatter : Bag :=
  [("todoist_id", VStr "t8"); ("todoist_type", VStr "task");
   ("sync_status", VStr "synced");
   ("last_sync", VStr "2024-03-09T16:00:00.000Z");
   ("title", VStr "Reap"); ("priority", VNum (JInt 1));
   ("completed", VBool true)].

Definition doneFile : Vault.TFile :=
  {| Vault.path := "Todoist/Reap.md"; Vault.content := doneNote;
     Vault.mtime := 1710000000000; Vault.cache := None |}.

Definition doneWorld : World.t :=
  engineOver (vaultWith "Todoist/Reap.md" doneNote) [doneTask].

(** The generator is the one built from the settings of the engine. *)
Definition Coherent (w : World.t) : Prop :=
  World.fileGenerator w = SyncEngine.generatorOf (World.settings w).


(** *** A pass over one project and its task, on fresh paths *)

(** The store carries out every write. *)
Definition Reliable (w : World.t) : Prop :=
  forall op, World.storageFails w op = None.

(** The world after a folder was looked up and, with nothing at its path,
    created. *)
Definition folderEnsured (p : string) (w : World.t) : World.t :=
  match Vault.getAbstractFileByPath p (World.vault w) with
  | Some _ => w
  | None =>
      World.withVault (Vault.addFolder p (World.vault w))
        (World.logVaultOp (Vault.CreateFolder p) w)
  end.

(** The world after the document at [p] was created with the text
    [data]. *)
Definition documentCreated (p data : string) (w : World.t) : World.t :=
  World.withVault
    (Vault.addFile p data (World.clock w) (World.vault w))
    (World.logVaultOp (Vault.Create p data) w).

(** The file [vault.create] leaves at [p]. *)
Definition documentAt (p data : string) (t : Z) : Vault.TFile :=
  {| Vault.path := p; Vault.content := data; Vault.mtime := t;
     Vault.cache := None |}.

(** The world after a note was generated on a fresh path: the sync folder
    and the folder of the note ensured, the document created. *)
Definition generatedAt (g : World.Generator) (folder path text : string)
           (w : World.t) : World.t :=
  documentCreated path text
    (folderEnsured folder (folderEnsured (World.g_syncFolderPath g) w)).

(** The counters of a pass that creates one project note and one task
    note. *)
Definition onePair : SyncEngine.Stats :=
  {| SyncEngine.created :=
       {| SyncEngine.c_tasks := 1; SyncEngine.c_projects := 1;
          SyncEngine.c_sections := 0 |};
     SyncEngine.updated :=
       {| SyncEngine.c_tasks := 0; SyncEngine.c_projects := 0;
          SyncEngine.c_sections := 0 |};
     SyncEngine.skipped :=
       {| SyncEngine.c_tasks := 0; SyncEngine.c_projects := 0;
          SyncEngine.c_sections := 0 |} |}.

(** The two documents of the pass over [gardenWorld], as they are
    written at the time 1710000000000. *)
Definition gardenProjectText : string :=
  joinLines
    ["---"; "todoist_id: " ++ quoted "p1";
     "todoist_type: " ++ quoted "project"; "title: " ++ quoted "Garden";
     "color: " ++ quoted "green"; "is_favorite: true";
     "sync_status: " ++ quoted "synced";
     "last_sync: " ++ quoted "2024-03-09T16:00:00.000Z"; "---";
     EmptyString].

Definition gardenTaskText : string :=
  joinLines
    ["---"; "todoist_id: " ++ quoted "t1"; "todoist_type: " ++ quoted "task";
     "sync_status: " ++ quoted "synced";
     "last_sync: " ++ quoted "2024-03-09T16:00:00.000Z";
     "title: " ++ quoted "Water"; "priority: 1";
     "todoist_project: " ++ quoted "Garden"; "completed: false"; "---";
     EmptyString].

(** A task of the project Garden whose title is the name of the project
    document, and an engine that has fetched the two and scanned an empty
    vault. *)
Definition namesakeTask : TodoistTask :=
  {| task_id := "t9"; task_project_id := "p1"; task_content := "_project";
     task_description := EmptyString; task_priority := 1;
     task_due := None; task_parent_id := None; task_section_id := None;
     task_labels := []; task_checked := false; task_is_deleted := false;
     task_date_added := "2024-01-01T00:00:00.000Z" |}.

Definition namesakeState : TodoistState.t :=
  TodoistState.updateFromSync 1000
    {| sync_token := "token-9"; full_sync := true;
       resp_projects := [gardenProject]; resp_items := [namesakeTask];
       resp_sections := []; resp_labels := [] |}
    TodoistState.initial.

Definition namesakeWorld : World.t :=
  World.withTodoistState namesakeState
    (SyncEngine.construct (plainSettings false) Vault.empty
       (remoteWith [gardenProject] [namesakeTask] []) neverFails
       1710000000000).

Definition namesakeText : string :=
  joinLines
    ["---"; "todoist_id: " ++ quoted "t9"; "todoist_type: " ++ quoted "task";
     "sync_status: " ++ quoted "synced";
     "last_sync: " ++ quoted "2024-03-09T16:00:00.000Z";
     "title: " ++ quoted "_project"; "priority: 1";
     "todoist_project: " ++ quoted "Garden"; "completed: false"; "---";
     EmptyString].

End Spec.

Import JsString JsValue Runtime Types Spec.

(* ================================================================== *)
(** * Theorems *)
(* ================================================================== *)

(** ** Strings *)

Section StringFacts.
Import JsString.

Lemma append_empty_r (s : string) : s ++ EmptyString = s.
Proof. induction s as [|c s IH]; simpl; [reflexivity | now rewrite IH]. Qed.

Lemma append_assoc (a b c : string) : (a ++ b) ++ c = a ++ (b ++ c).
Proof. induction a as [|x a IH]; simpl; [reflexivity | now rewrite IH]. Qed.

Lemma isEmpty_true (s : string) : isEmpty s = true <-> s = EmptyString.
Proof. destruct s; simpl; split; congruence. Qed.

Lemma isEmpty_false (s : string) : isEmpty s = false <-> s <> EmptyString.
Proof. destruct s; simpl; split; congruence. Qed.

Lemma list_of_string_of (l : list ascii) :
  list_ascii_of_string (string_of_list_ascii l) = l.
Proof. apply list_ascii_of_string_of_list_ascii. Qed.

Lemma string_of_list_of (s : string) :
  string_of_list_ascii (list_ascii_of_string s) = s.
Proof. apply string_of_list_ascii_of_string. Qed.

(** A skip count only drops code units. *)
Lemma replaceFrom_skip (m : string -> option (string * nat)) (s : string) :
  forall k, replaceFrom m k s = replaceFrom m 0 (dropStr k s).
Proof.
  induction s as [|c s IH]; intros [|k]; simpl; try reflexivity.
  apply IH.
Qed.

(** A one-for-one replacement is a map. *)
Lemma replaceAll_map (p : ascii -> bool) (r : ascii)
      (m : string -> option (string * nat)) :
  (forall c s, m (String c s) = if p c then Some (str1 r, 1) else None) ->
  forall s,
    replaceAll m s = NameRules.mapStr (fun c => if p c then r else c) s.
Proof.
  intros Hm s. unfold replaceAll.
  induction s as [|c s IH]; simpl; [reflexivity|].
  rewrite Hm. destruct (p c); simpl; now rewrite IH.
Qed.

End StringFacts.

(** ** The name sanitizer *)

Section SanitizerFacts.
Import JsString Sanitizer NameRules.

(** *** The character classes of the code are those of the rules *)

Lemma unsafe_class (c : ascii) : hasCode unsafeCodes c = isUnsafeChar c.
Proof. destruct c as [[|] [|] [|] [|] [|] [|] [|] [|]]; reflexivity. Qed.

Lemma blank_class (c : ascii) : hasCode blankCodes c = isWhiteSpace c.
Proof. destruct c as [[|] [|] [|] [|] [|] [|] [|] [|]]; reflexivity. Qed.

Lemma lineBreak_class (c : ascii) :
  hasCode lineBreakCodes c = isLineTerminator c.
Proof. destruct c as [[|] [|] [|] [|] [|] [|] [|] [|]]; reflexivity. Qed.

(** *** Rule 1 *)

Lemma cutAt_bracket (r : string) :
  match cutAt "]" r with
  | Some (a, b) =>
      takeWhile notCloseBracket r = a
      /\ dropStr (String.length a) r = String "]" b
  | None =>
      dropStr (String.length (takeWhile notCloseBracket r)) r = EmptyString
  end.
Proof.
  induction r as [|d r IH]; cbn [cutAt takeWhile]; [reflexivity|].
  replace (notCloseBracket d) with (negb (Ascii.eqb d "]")) by reflexivity.
  destruct (Ascii.eqb_spec d "]") as [->|Hd]; cbn [negb].
  - split; reflexivity.
  - destruct (cutAt "]" r) as [[a b]|]; cbn [String.length dropStr].
    + destruct IH as [Ha Hb]. split; [now rewrite Ha | exact Hb].
    + exact IH.
Qed.

Lemma cutAt_paren (u : string) :
  lazyUntilParen u
  = match cutAt ")" u with
    | Some (url, _) =>
        if anyChar (hasCode lineBreakCodes) url then None
        else Some (String.length url)
    | None => None
    end.
Proof.
  induction u as [|c u IH]; cbn [cutAt lazyUntilParen]; [reflexivity|].
  destruct (Ascii.eqb c ")"); [reflexivity|].
  rewrite IH. destruct (cutAt ")" u) as [[url rest]|].
  - cbn [anyChar String.length]. rewrite lineBreak_class.
    destruct (isLineTerminator c); cbn [orb]; [reflexivity|].
    now destruct (anyChar (hasCode lineBreakCodes) url).
  - now destruct (isLineTerminator c).
Qed.

Lemma cutAt_rest (c : ascii) (u before after : string) :
  cutAt c u = Some (before, after) ->
  dropStr (S (String.length before)) u = after.
Proof.
  revert before. induction u as [|d u IH]; cbn [cutAt]; intros before;
    [discriminate|].
  destruct (Ascii.eqb d c).
  - now intros [= <- <-].
  - destruct (cutAt c u) as [[b a]|]; [|discriminate].
    intros [= <- <-]. cbn [String.length dropStr]. now apply IH.
Qed.

Lemma dropStr_add (a b : nat) (s : string) :
  dropStr (a + b) s = dropStr b (dropStr a s).
Proof.
  revert s. induction a as [|a IH]; intros s; [reflexivity|].
  destruct s as [|c s]; cbn [Nat.add dropStr]; [now destruct b | apply IH].
Qed.

Lemma other_opening (c : ascii) (r : string) :
  c <> "["%char -> matchMarkdownLink (String c r) = None.
Proof.
  intros Hc.
  destruct c as [[|] [|] [|] [|] [|] [|] [|] [|]]; try reflexivity.
  now elim Hc.
Qed.

Lemma other_paren (c : ascii) (a r1 r2 : string) :
  c <> "("%char ->
  match String "]" (String c r1) with
  | String "]" (String "(" r') => Some (a, r')
  | _ => None
  end = @None (string * string).
Proof.
  intros Hc.
  destruct c as [[|] [|] [|] [|] [|] [|] [|] [|]]; try reflexivity.
  now elim Hc.
Qed.

(** Where the rule sees a link the expression matches, with the same text
    and the same remainder, and the other way round. *)
Lemma link_match (s : string) :
  match linkInFront s with
  | Some (text, rest) =>
      exists n, matchMarkdownLink s = Some (text, S n)
                /\ dropStr (S n) s = rest
  | None => matchMarkdownLink s = None
  end.
Proof.
  destruct s as [|c r]; [reflexivity|]. unfold linkInFront.
  destruct (Ascii.eqb_spec c "[") as [->|Hc]; [|now apply other_opening].
  pose proof (cutAt_bracket r) as Hcut.
  change (matchMarkdownLink (String "[" r))
    with (let text := takeWhile notCloseBracket r in
          if isEmpty text then None
          else
            match dropStr (String.length text) r with
            | String "]" (String "(" r') =>
                match lazyUntilParen r' with
                | Some n => Some (text, 1 + String.length text + 2 + n + 1)
                | None => None
                end
            | _ => None
            end).
  cbn zeta.
  destruct (cutAt "]" r) as [[a b]|].
  - destruct Hcut as [Ha Hb]. rewrite Ha, Hb.
    destruct a as [|t text]; [reflexivity|]. cbn [isEmpty].
    destruct b as [|paren r']; [reflexivity|].
    destruct (Ascii.eqb_spec paren "(") as [->|Hp].
    + rewrite cutAt_paren.
      destruct (cutAt ")" r') as [[url rest]|] eqn:Hurl; [|reflexivity].
      destruct (anyChar (hasCode lineBreakCodes) url); [reflexivity|].
      set (la := String.length (String t text)) in *.
      exists (la + 2 + String.length url + 1). split; [reflexivity|].
      replace (la + 2 + String.length url + 1)
        with (la + (2 + S (String.length url))) by lia.
      change (dropStr (S (la + (2 + S (String.length url)))) (String "[" r))
        with (dropStr (la + (2 + S (String.length url))) r).
      rewrite dropStr_add, Hb.
      exact (cutAt_rest ")" r' url rest Hurl).
    + destruct paren as [[|] [|] [|] [|] [|] [|] [|] [|]]; try reflexivity.
      now elim Hp.
  - rewrite Hcut. now destruct (isEmpty (takeWhile notCloseBracket r)).
Qed.

Lemma dropStr_length_le (k : nat) (s : string) :
  String.length (dropStr k s) <= String.length s.
Proof.
  revert s. induction k as [|k IH]; intros [|c s]; simpl; try lia.
  specialize (IH s). lia.
Qed.

Lemma collapseLinks_enough (fuel : nat) (s : string) :
  String.length s <= fuel ->
  replaceAll matchMarkdownLink s = collapseLinks fuel s.
Proof.
  revert s. induction fuel as [|fuel IH]; intros [|c s] Hle;
    cbn [String.length] in Hle; try reflexivity; try lia.
  cbn [collapseLinks]. pose proof (link_match (String c s)) as Hm.
  unfold replaceAll. cbn [replaceFrom].
  destruct (linkInFront (String c s)) as [[text rest]|].
  - destruct Hm as (n & -> & Hrest). cbn [Nat.pred dropStr] in *.
    rewrite replaceFrom_skip, Hrest. f_equal. apply IH.
    rewrite <- Hrest. pose proof (dropStr_length_le n s). lia.
  - rewrite Hm. f_equal. apply IH. lia.
Qed.

Lemma collapseLinks_rule (s : string) :
  replaceAll matchMarkdownLink s = ruleCollapseLinks s.
Proof. apply collapseLinks_enough. lia. Qed.

(** *** Rules 2 to 6 *)

Lemma replaceUnsafe_rule (s : string) :
  replaceAll matchUnsafeChar s = ruleReplaceUnsafe s.
Proof.
  unfold ruleReplaceUnsafe.
  apply (replaceAll_map (hasCode unsafeCodes) "_"%char). intros c t.
  unfold matchUnsafeChar. now rewrite unsafe_class.
Qed.

Lemma replaceDots_rule (s : string) :
  replaceAll matchDot s = ruleReplaceDots s.
Proof.
  unfold ruleReplaceDots.
  apply (replaceAll_map (fun c => Ascii.eqb c ".") "_"%char).
  intros c t. reflexivity.
Qed.

Lemma trimStart_list (s : string) :
  list_ascii_of_string (trimStart s)
  = dropWhile (hasCode blankCodes) (list_ascii_of_string s).
Proof.
  induction s as [|c s IH]; cbn [trimStart list_ascii_of_string dropWhile];
    [reflexivity|].
  rewrite blank_class. destruct (isWhiteSpace c); [exact IH | reflexivity].
Qed.

Lemma dropWhile_snoc (p : ascii -> bool) (l : list ascii) (c : ascii) :
  dropWhile p (l ++ [c])%list
  = if forallb p l then (if p c then [] else [c])
    else (dropWhile p l ++ [c])%list.
Proof.
  induction l as [|x l IH]; simpl; [reflexivity|].
  destruct (p x); simpl; [exact IH | reflexivity].
Qed.

Lemma dropWhile_nil_forallb (p : ascii -> bool) (l : list ascii) :
  dropWhile p l = [] <-> forallb p l = true.
Proof.
  induction l as [|x l IH]; simpl; [tauto|].
  destruct (p x); simpl; [exact IH | split; discriminate].
Qed.

Lemma trimEnd_list (s : string) :
  list_ascii_of_string (trimEnd s)
  = rev (dropWhile (hasCode blankCodes) (rev (list_ascii_of_string s))).
Proof.
  induction s as [|c s IH]; [reflexivity|].
  cbn [trimEnd list_ascii_of_string rev].
  rewrite dropWhile_snoc, blank_class.
  destruct (forallb (hasCode blankCodes) (rev (list_ascii_of_string s)))
    eqn:Hall.
  - apply dropWhile_nil_forallb in Hall. rewrite Hall in IH.
    cbn [rev] in IH.
    assert (Hr : trimEnd s = EmptyString).
    { rewrite <- (string_of_list_of (trimEnd s)), IH. reflexivity. }
    rewrite Hr. cbn [isEmpty]. rewrite andb_true_r.
    destruct (isWhiteSpace c); reflexivity.
  - assert (Hr : isEmpty (trimEnd s) = false).
    { apply isEmpty_false. intros E. rewrite E in IH.
      cbn [list_ascii_of_string] in IH.
      symmetry in IH. apply (f_equal (@rev ascii)) in IH.
      rewrite rev_involutive in IH. cbn [rev] in IH.
      apply dropWhile_nil_forallb in IH. congruence. }
    rewrite Hr, andb_false_r. cbn [list_ascii_of_string].
    rewrite rev_app_distr. cbn [rev app]. now rewrite IH.
Qed.

Lemma trim_rule (s : string) : trim s = ruleTrim s.
Proof.
  unfold trim, ruleTrim.
  rewrite <- (string_of_list_of (trimEnd (trimStart s))).
  now rewrite trimEnd_list, trimStart_list.
Qed.

Lemma substring_firstn (n : nat) (s : string) :
  String.substring 0 n s
  = string_of_list_ascii (firstn n (list_ascii_of_string s)).
Proof.
  revert s. induction n as [|n IH]; intros [|c s]; simpl;
    try reflexivity.
  now rewrite IH.
Qed.

Lemma truncate_rule (s : string) : jsSubstring 0 100 s = ruleTruncate s.
Proof. unfold jsSubstring, ruleTruncate. apply substring_firstn. Qed.

Lemma collapse_cons (c : ascii) (s : string) :
  ruleCollapseUnderscores (String c s)
  = if isUnderscore c && startsWithChar "_" s
    then ruleCollapseUnderscores s
    else String c (ruleCollapseUnderscores s).
Proof.
  destruct s as [|d s]; [|reflexivity].
  cbn [ruleCollapseUnderscores startsWithChar]. now rewrite andb_false_r.
Qed.

Lemma collapse_other (c : ascii) (s : string) :
  Ascii.eqb c "_" = false ->
  ruleCollapseUnderscores (String c s)
  = String c (ruleCollapseUnderscores s).
Proof.
  intros Hc. destruct s as [|d s]; [reflexivity|].
  cbn [ruleCollapseUnderscores]. now rewrite Hc.
Qed.

Lemma collapse_run (s : string) :
  ruleCollapseUnderscores (String "_" s)
  = String "_"
      (ruleCollapseUnderscores
         (dropStr (String.length (takeWhile isUnderscore s)) s)).
Proof.
  induction s as [|d s IH]; [reflexivity|].
  change (ruleCollapseUnderscores (String "_" (String d s)))
    with (if Ascii.eqb "_" "_" && Ascii.eqb d "_"
          then ruleCollapseUnderscores (String d s)
          else String "_" (ruleCollapseUnderscores (String d s))).
  cbn [takeWhile]. unfold isUnderscore at 1.
  destruct (Ascii.eqb_spec d "_") as [->|Hd]; cbn [Ascii.eqb andb].
  - cbn [String.length dropStr]. exact IH.
  - reflexivity.
Qed.

Lemma collapseUnderscores_rule (s : string) :
  replaceAll matchUnderscores s = ruleCollapseUnderscores s.
Proof.
  remember (String.length s) as n eqn:Hn.
  assert (Hle : String.length s <= n) by lia. clear Hn.
  revert s Hle. induction n as [|n IH]; intros [|c s] Hle; simpl in Hle;
    try reflexivity; try lia.
  unfold replaceAll. cbn [replaceFrom].
  unfold matchUnderscores. cbn [takeWhile].
  destruct (isUnderscore c) eqn:Hc.
  - cbn [isEmpty String.length Nat.pred].
    apply Ascii.eqb_eq in Hc. subst c.
    rewrite replaceFrom_skip, collapse_run. cbn [append]. f_equal.
    apply IH. pose proof (dropStr_length_le
      (String.length (takeWhile isUnderscore s)) s). lia.
  - cbn [isEmpty]. rewrite (collapse_other c s Hc).
    f_equal. apply IH. lia.
Qed.

Lemma sanitize_refines (name : string) :
  sanitizeFileName name = sanitizeBySpec name.
Proof.
  unfold sanitizeFileName, sanitizeBySpec.
  rewrite collapseUnderscores_rule, truncate_rule, trim_rule,
    replaceDots_rule, replaceUnsafe_rule, collapseLinks_rule.
  unfold ruleFallback.
  destruct (ruleCollapseUnderscores _); reflexivity.
Qed.

(** C9.  The sanitizer is the chain of the seven rules in the order of the
    specification: links collapsed to their text, each of the nine unsafe
    characters replaced by an underscore, each dot replaced by an
    underscore, surrounding whitespace trimmed, the result cut to 100 code
    units, runs of underscores collapsed to one, and the fallback
    ["untitled"] for an empty result.  The three examples of the
    specification evaluate as stated, and so do a title that holds every
    unsafe character outside a link, a title between blanks, a title of
    two links, and a title longer than the cut. *)
Theorem C9_sanitizer_rules_in_order :
  (forall title : string, sanitizeFileName title = sanitizeBySpec title)
  /\ sanitizeFileName "Read [Guide](https://x.y) and take notes"
     = "Read Guide and take notes"
  /\ sanitizeFileName EmptyString = "untitled"
  /\ sanitizeFileName (String "a" (dots 50 "b")) = "a_b"
  /\ sanitizeFileName
       ("a<b>c:d" ++ String dquote ("e/f" ++ String backslash "g|h?i*j"))
     = "a_b_c_d_e_f_g_h_i_j"
  /\ sanitizeFileName
       (String (ascii_of_nat 9) " Pay rent " ++ String lf (String cr " "))
     = "Pay rent"
  /\ sanitizeFileName "[A](b) or [C](d)(e)" = "A or C(e)"
  /\ sanitizeFileName "[not a link] (x) and [](y)"
     = "[not a link] (x) and [](y)"
  /\ sanitizeFileName (String " " (dots 120 "tail")) = "_"
  /\ String.length
       (sanitizeFileName
          ("x" ++ String.concat "y" (repeat "z" 120)))
     = 100.
Proof.
  split; [exact sanitize_refines|].
  repeat split; vm_compute; reflexivity.
Qed.

End SanitizerFacts.

(** ** Maps *)

Section MapFacts.
Context {K V : Type} (eqb : K -> K -> bool).

Lemma get_set_same (k : K) (v : V) (m : list (K * V)) :
  eqb k k = true -> JsMap.get eqb k (JsMap.set eqb k v m) = Some v.
Proof.
  intros Hk. induction m as [|[k' v'] m IH]; simpl.
  - now rewrite Hk.
  - destruct (eqb k' k) eqn:E; simpl; rewrite E; [reflexivity | exact IH].
Qed.

Lemma get_set_other (k k2 : K) (v : V) (m : list (K * V)) :
  DecidesKey eqb k -> eqb k k2 = false ->
  JsMap.get eqb k2 (JsMap.set eqb k v m) = JsMap.get eqb k2 m.
Proof.
  intros Hk Hne. induction m as [|[k' v'] m IH]; simpl.
  - now rewrite Hne.
  - destruct (eqb k' k) eqn:E; simpl.
    + apply Hk in E. subst k'. now rewrite Hne.
    + destruct (eqb k' k2); [reflexivity | exact IH].
Qed.

Lemma keys_set (k : K) (v : V) (m : list (K * V)) :
  JsMap.keys (JsMap.set eqb k v m)
  = if JsMap.has eqb k m then JsMap.keys m else (JsMap.keys m ++ [k])%list.
Proof.
  unfold JsMap.has. induction m as [|[k' v'] m IH]; simpl; [reflexivity|].
  destruct (eqb k' k) eqn:E; simpl; [reflexivity|].
  rewrite IH. destruct (JsMap.get eqb k m); reflexivity.
Qed.

Lemma get_none_not_in (k : K) (m : list (K * V)) :
  DecidesKey eqb k -> JsMap.get eqb k m = None -> ~ In k (JsMap.keys m).
Proof.
  intros Hk. induction m as [|[k' v'] m IH]; simpl; [tauto|].
  destruct (eqb k' k) eqn:E; [discriminate|].
  intros Hg [->|Hin]; [|now apply IH].
  assert (eqb k k = true) by now apply Hk. congruence.
Qed.

Lemma nodup_set (k : K) (v : V) (m : list (K * V)) :
  DecidesKey eqb k -> NoDup (JsMap.keys m) ->
  NoDup (JsMap.keys (JsMap.set eqb k v m)).
Proof.
  intros Hk Hnd. rewrite keys_set. unfold JsMap.has.
  destruct (JsMap.get eqb k m) eqn:G; [exact Hnd|].
  apply NoDup_app; [exact Hnd | repeat constructor; simpl; tauto |].
  intros x Hx [<-|[]]. now apply (get_none_not_in k m).
Qed.

Lemma keys_delete_incl (k : K) (m : list (K * V)) (x : K) :
  In x (JsMap.keys (JsMap.delete eqb k m)) -> In x (JsMap.keys m).
Proof.
  induction m as [|[k' v'] m IH]; simpl; [tauto|].
  destruct (eqb k' k); simpl; tauto.
Qed.

Lemma nodup_delete (k : K) (m : list (K * V)) :
  NoDup (JsMap.keys m) -> NoDup (JsMap.keys (JsMap.delete eqb k m)).
Proof.
  induction m as [|[k' v'] m IH]; simpl; intros Hnd; [constructor|].
  inversion Hnd as [|? ? Hnot Hnd']; subst.
  destruct (eqb k' k); simpl; [exact Hnd'|].
  constructor; [|now apply IH].
  intros Hin. apply Hnot. now apply keys_delete_incl in Hin.
Qed.

Lemma get_delete_same (k : K) (m : list (K * V)) :
  DecidesKey eqb k -> NoDup (JsMap.keys m) ->
  JsMap.get eqb k (JsMap.delete eqb k m) = None.
Proof.
  intros Hk. induction m as [|[k' v'] m IH]; simpl; intros Hnd;
    [reflexivity|].
  inversion Hnd as [|? ? Hnot Hnd']; subst.
  destruct (eqb k' k) eqn:E; simpl.
  - apply Hk in E. subst k'.
    destruct (JsMap.get eqb k m) eqn:G; [|reflexivity].
    exfalso. apply Hnot. clear - Hk G.
    induction m as [|[k2 v2] m IH]; simpl in *; [discriminate|].
    destruct (eqb k2 k) eqn:E2; [left; now apply Hk | right; now apply IH].
  - rewrite E. now apply IH.
Qed.

Lemma get_delete_other (k k2 : K) (m : list (K * V)) :
  DecidesKey eqb k -> eqb k k2 = false ->
  JsMap.get eqb k2 (JsMap.delete eqb k m) = JsMap.get eqb k2 m.
Proof.
  intros Hk Hne. induction m as [|[k' v'] m IH]; simpl; [reflexivity|].
  destruct (eqb k' k) eqn:E; simpl.
  - apply Hk in E. subst k'. now rewrite Hne.
  - destruct (eqb k' k2); [reflexivity | exact IH].
Qed.

Lemma get_some_in (k : K) (v : V) (m : list (K * V)) :
  JsMap.get eqb k m = Some v -> In v (JsMap.values m).
Proof.
  induction m as [|[k' v'] m IH]; simpl; [discriminate|].
  destruct (eqb k' k); [intros [= ->]; now left | intros; right; now apply IH].
Qed.

Lemma in_set_values (k : K) (v x : V) (m : list (K * V)) :
  In x (JsMap.values (JsMap.set eqb k v m)) ->
  x = v \/ In x (JsMap.values m).
Proof.
  induction m as [|[k' v'] m IH]; simpl.
  - intros [<-|[]]. now left.
  - destruct (eqb k' k); simpl; intros [<-|Hin]; auto.
    destruct (IH Hin); auto.
Qed.

Lemma in_delete_values (k : K) (x : V) (m : list (K * V)) :
  In x (JsMap.values (JsMap.delete eqb k m)) -> In x (JsMap.values m).
Proof.
  induction m as [|[k' v'] m IH]; simpl; [tauto|].
  destruct (eqb k' k); simpl; tauto.
Qed.

End MapFacts.

Lemma string_decides (k : string) : DecidesKey String.eqb k.
Proof. intros k'. apply String.eqb_eq. Qed.

(** Filtering keeps images distinct. *)
Lemma nodup_images_filter {A B : Type} (keep : A -> bool) (image : A -> B)
      (xs : list A) (Hnd : NoDup (map image xs)) :
  NoDup (map image (filter keep xs)).
Proof.
  induction xs as [|x xs IH]; simpl in *; [constructor|].
  inversion Hnd as [|? ? Hnot Hnd']; subst.
  destruct (keep x); simpl; [|now apply IH].
  constructor; [|now apply IH].
  intros Hin. apply Hnot. apply in_map_iff in Hin as (y & Hy & Hin).
  apply filter_In in Hin as [Hin _]. apply in_map_iff. eauto.
Qed.

(** ** Replay of a payload into one collection of the remote state *)

Section KeyedFacts.
Context {E : Type} (id : E -> string).

Lemma keyed_nil : Keyed id [].
Proof. split; constructor. Qed.

Lemma forall_set (k : string) (v : E) (m : StrMap E) :
  k = id v ->
  Forall (fun kv => fst kv = id (snd kv)) m ->
  Forall (fun kv => fst kv = id (snd kv)) (JsMap.set String.eqb k v m).
Proof.
  intros Hk. induction m as [|[k' v'] m IH]; simpl; intros Hall.
  - repeat constructor. exact Hk.
  - inversion Hall as [|? ? Hh Ht]; subst.
    destruct (String.eqb_spec k' (id v)) as [->|Hne].
    + constructor; [reflexivity | exact Ht].
    + constructor; [exact Hh | now apply IH].
Qed.

Lemma forall_delete (k : string) (m : StrMap E) :
  Forall (fun kv => fst kv = id (snd kv)) m ->
  Forall (fun kv => fst kv = id (snd kv)) (JsMap.delete String.eqb k m).
Proof.
  induction m as [|[k' v'] m IH]; simpl; intros Hall; [constructor|].
  inversion Hall as [|? ? Hh Ht]; subst.
  destruct (String.eqb k' k); [exact Ht | constructor; auto].
Qed.

Lemma keyed_in_get (m : StrMap E) (x : E) :
  Keyed id m -> In x (JsMap.values m) ->
  JsMap.get String.eqb (id x) m = Some x.
Proof.
  intros [Hnd Hall]. induction m as [|[k v] m IH]; simpl; [tauto|].
  inversion Hnd as [|? ? Hnot Hnd']; subst.
  inversion Hall as [|? ? Hh Ht]; subst. simpl in Hh. subst k.
  intros [->|Hin].
  - now rewrite String.eqb_refl.
  - destruct (String.eqb_spec (id v) (id x)) as [Heq|Hne]; [|now apply IH].
    exfalso. apply Hnot. rewrite Heq.
    clear - Ht Hin. unfold JsMap.keys, JsMap.values in *.
    induction m as [|[k2 v2] m IH]; simpl in *; [tauto|].
    inversion Ht as [|? ? Hh Ht']; subst. simpl in Hh.
    destruct Hin as [->|Hin]; [now left | right; now apply IH].
Qed.

Lemma keyed_ids (m : StrMap E) :
  Keyed id m -> map id (JsMap.values m) = JsMap.keys m.
Proof.
  intros [_ Hall]. unfold JsMap.values, JsMap.keys.
  induction Hall as [|[k v] m Hh _ IH]; simpl; [reflexivity|].
  simpl in Hh. now rewrite IH, Hh.
Qed.

End KeyedFacts.

Section ReplayFacts.
Import TodoistState.
Context {E : Type} (id : E -> string) (deleted : E -> bool).

Lemma replayEntity_keyed (m : StrMap E) (e : E) :
  Keyed id m -> Keyed id (replayEntity id deleted m e).
Proof.
  intros [Hnd Hall]. unfold replayEntity. destruct (deleted e); split.
  - now apply nodup_delete.
  - now apply forall_delete.
  - apply nodup_set; [apply string_decides | exact Hnd].
  - now apply forall_set.
Qed.

Lemma replayAll_keyed (es : list E) :
  forall m, Keyed id m -> Keyed id (replayAll id deleted m es).
Proof.
  unfold replayAll.
  induction es as [|e es IH]; simpl; intros m Hm; [exact Hm|].
  apply IH. now apply replayEntity_keyed.
Qed.

Lemma replayEntity_get_same (m : StrMap E) (e : E) :
  Keyed id m ->
  JsMap.get String.eqb (id e) (replayEntity id deleted m e)
  = if deleted e then None else Some e.
Proof.
  intros [Hnd _]. unfold replayEntity. destruct (deleted e).
  - apply get_delete_same; [apply string_decides | exact Hnd].
  - apply get_set_same. apply String.eqb_refl.
Qed.

Lemma replayEntity_get_other (m : StrMap E) (e : E) (k : string) :
  id e <> k ->
  JsMap.get String.eqb k (replayEntity id deleted m e)
  = JsMap.get String.eqb k m.
Proof.
  intros Hne. apply String.eqb_neq in Hne. unfold replayEntity.
  destruct (deleted e).
  - apply get_delete_other; [apply string_decides | exact Hne].
  - apply get_set_other; [apply string_decides | exact Hne].
Qed.

Lemma replayAll_get_other (es : list E) (k : string) :
  Forall (fun x => id x <> k) es ->
  forall m,
    JsMap.get String.eqb k (replayAll id deleted m es)
    = JsMap.get String.eqb k m.
Proof.
  unfold replayAll.
  induction es as [|e es IH]; simpl; intros Hall m; [reflexivity|].
  inversion Hall as [|? ? Hh Ht]; subst.
  rewrite (IH Ht). now apply replayEntity_get_other.
Qed.

(** After a replay, the last record of an id decides what the collection
    holds under that id. *)
Lemma replayAll_get_last (e : E) (payload : list E) (m : StrMap E) :
  Keyed id m -> LastOfItsId id e payload ->
  JsMap.get String.eqb (id e) (replayAll id deleted m payload)
  = if deleted e then None else Some e.
Proof.
  intros Hm (before & after & -> & Hafter).
  unfold replayAll. rewrite fold_left_app. simpl.
  fold (replayAll id deleted m before).
  fold (replayAll id deleted
          (replayEntity id deleted (replayAll id deleted m before) e) after).
  rewrite (replayAll_get_other after (id e) Hafter).
  apply replayEntity_get_same. now apply replayAll_keyed.
Qed.

(** A record marked deleted never wins a replay: nothing passes the filter
    of an accessor with the flag set. *)
Lemma filter_drops (hidden : E -> bool) (l : list E) (e : E) :
  deleted e = true ->
  ~ In e (filter (fun x => negb (deleted x) && negb (hidden x)) l).
Proof.
  intros Hd Hin. apply filter_In in Hin as [_ Hp].
  rewrite Hd in Hp. discriminate.
Qed.

End ReplayFacts.

(** ** The remote state *)

Section RemoteStateFacts.
Import TodoistState.

Lemma reachable_keyed (st : TodoistState.t) :
  Reachable st ->
  Keyed task_id (tasks st) /\ Keyed project_id (projects st)
  /\ Keyed section_id (sections st) /\ Keyed label_id (labels st).
Proof.
  induction 1 as [|now r st _ (Ht & Hp & Hs & Hl)].
  - repeat split; constructor.
  - simpl. destruct (full_sync r);
      repeat split; try (apply replayAll_keyed; try apply keyed_nil; auto).
Qed.

(** The contract of one collection, from the replay lemmas. *)
Lemma replay_contract {E : Type} (id : E -> string)
      (deleted hidden : E -> bool) (payload : list E) (m : StrMap E) :
  Keyed id m ->
  Replayed id deleted hidden payload
    (filter (fun x => negb (deleted x) && negb (hidden x))
       (JsMap.values (replayAll id deleted m payload))).
Proof.
  intros Hm.
  pose proof (replayAll_keyed id deleted payload m Hm) as Hm'.
  set (m' := replayAll id deleted m payload) in *.
  repeat split.
  - intros e _ Hd. now apply filter_drops.
  - intros e Hlast Hd x Hx Heq.
    apply filter_In in Hx as [Hx _].
    apply (keyed_in_get id m' x Hm') in Hx.
    pose proof (replayAll_get_last id deleted e payload m Hm Hlast) as Hg.
    fold m' in Hg. rewrite Hd in Hg. rewrite Heq in Hx. congruence.
  - apply filter_In in H as [_ Hp]. apply andb_prop in Hp as [Hp _].
    now destruct (deleted x).
  - apply filter_In in H as [_ Hp]. apply andb_prop in Hp as [_ Hp].
    now destruct (hidden x).
  - intros e Hlast Hd Hh.
    pose proof (replayAll_get_last id deleted e payload m Hm Hlast) as Hg.
    fold m' in Hg. rewrite Hd in Hg.
    apply filter_In. split; [now apply (get_some_in String.eqb (id e))|].
    now rewrite Hd, Hh.
  - apply nodup_images_filter. rewrite (keyed_ids id m' Hm'). apply Hm'.
Qed.

Lemma filter_never {E : Type} (deleted : E -> bool) (l : list E) :
  filter (fun x => negb (deleted x)) l
  = filter (fun x => negb (deleted x) && negb (never x)) l.
Proof. apply filter_ext. intros x. unfold never. now rewrite andb_true_r. Qed.

Lemma keyed_cleared {E : Type} (id : E -> string) (full : bool)
      (m : StrMap E) :
  Keyed id m -> Keyed id (if full then [] else m).
Proof. destruct full; [intros _; apply keyed_nil | auto]. Qed.

(** C7 (amended).  After the replay of any payload into a reachable remote
    state, for each of the four collections: no record the payload marks
    deleted is among what the accessor returns, and neither is any entity
    of its id unless a later record of the same payload carries that id;
    the accessor returns only entities that are not deleted, and for
    projects not archived either; a record that is not deleted (for a
    project: and not archived) and is the last of its id in the payload is
    returned, and no id is returned twice. *)
Theorem C7_replay_and_accessors (st : TodoistState.t) (now : Z)
        (r : TodoistSyncResponse) :
  Reachable st ->
  let st' := updateFromSync now r st in
  Replayed task_id task_is_deleted never (resp_items r) (getAllTasks st')
  /\ Replayed project_id project_is_deleted project_is_archived
       (resp_projects r) (getAllProjects st')
  /\ Replayed section_id section_is_deleted never (resp_sections r)
       (getAllSections st')
  /\ Replayed label_id label_is_deleted never (resp_labels r)
       (getAllLabels st').
Proof.
  intros Hst. destruct (reachable_keyed st Hst) as (Ht & Hp & Hs & Hl).
  unfold getAllTasks, getAllProjects, getAllSections, getAllLabels.
  simpl. rewrite !filter_never.
  split; [|split; [|split]]; apply replay_contract; now apply keyed_cleared.
Qed.

(** A mixed payload replayed into the initial state. *)
Lemma C7_replay_witness :
  Reachable initial
  /\ Replayed task_id task_is_deleted never (resp_items mixedPayload)
       (getAllTasks (updateFromSync 5 mixedPayload initial)).
Proof.
  split; [constructor|].
  apply (C7_replay_and_accessors initial 5 mixedPayload). constructor.
Defined.

(** C7 as stated fails on an archived project: it is in a full snapshot
    with its deleted flag clear, and the accessor does not return it. *)
Lemma C7_archived_counterexample :
  full_sync archiveSnapshot = true
  /\ In archivedProject (resp_projects archiveSnapshot)
  /\ project_is_deleted archivedProject = false
  /\ getAllProjects (updateFromSync 0 archiveSnapshot initial) = [].
Proof. repeat split. now left. Qed.

End RemoteStateFacts.

(** ** Persistence of the remote state *)

Section PersistenceFacts.
Import TodoistState.

Lemma entriesOf_image {E : Type} (f : E -> Json) (m : StrMap E) :
  entriesOf (map (fun kv => JArray [JString (fst kv); f (snd kv)]) m)
  = Some (map (fun kv => (Some (JString (fst kv)), Some (f (snd kv)))) m).
Proof.
  induction m as [|[k v] m IH]; simpl; [reflexivity|]. now rewrite IH.
Qed.

(** A key absent from a map is appended by [set]. *)
Lemma set_fresh {V : Type} (k : string) (v : V)
      (acc : list (option Json * V)) :
  ~ In (Some (JString k)) (JsMap.keys acc) ->
  Forall (fun kv => exists s, fst kv = Some (JString s)) acc ->
  JsMap.set keyEqb (Some (JString k)) v acc
  = (acc ++ [(Some (JString k), v)])%list.
Proof.
  induction acc as [|[k' v'] acc IH]; simpl; intros Hnot Hall;
    [reflexivity|].
  inversion Hall as [|? ? [s Hs] Ht]; subst. simpl in Hs. subst k'.
  simpl. destruct (String.eqb_spec s k) as [->|Hne].
  - exfalso. apply Hnot. now left.
  - f_equal. apply IH; [tauto | exact Ht].
Qed.

Lemma ofEntries_distinct {V : Type} (es : list (string * V)) :
  NoDup (map fst es) ->
  forall acc : list (option Json * V),
    Forall (fun kv => exists s, fst kv = Some (JString s)) acc ->
    (forall k, In k (map fst es) ->
               ~ In (Some (JString k)) (JsMap.keys acc)) ->
    fold_left (fun m e => JsMap.set keyEqb (fst e) (snd e) m)
      (map (fun kv => (Some (JString (fst kv)), snd kv)) es) acc
    = (acc ++ map (fun kv => (Some (JString (fst kv)), snd kv)) es)%list.
Proof.
  induction es as [|[k v] es IH]; simpl; intros Hnd acc Hacc Hfresh.
  - now rewrite app_nil_r.
  - inversion Hnd as [|? ? Hnot Hnd']; subst.
    rewrite set_fresh; [|apply Hfresh; now left | exact Hacc].
    rewrite IH; [now rewrite <- app_assoc | exact Hnd' | |].
    + apply Forall_app. split; [exact Hacc|]. repeat constructor.
      now exists k.
    + intros k2 Hk2 Hin. unfold JsMap.keys in Hin.
      rewrite map_app in Hin. apply in_app_or in Hin as [Hin|Hin].
      * apply (Hfresh k2); [now right | exact Hin].
      * simpl in Hin. destruct Hin as [[= ->]|[]]. contradiction.
Qed.

(** [new Map] of the entries of a collection gives the collection back. *)
Lemma newMap_entries {E : Type} (id : E -> string) (f : E -> Json)
      (m : StrMap E) :
  Keyed id m ->
  newMap (Some (entriesToJson f m))
  = Some (map (fun kv => (Some (JString (fst kv)), Some (f (snd kv)))) m).
Proof.
  intros [Hnd _]. unfold newMap, entriesToJson. simpl.
  rewrite entriesOf_image. f_equal. unfold JsMap.ofEntries.
  pose proof (ofEntries_distinct (map (fun kv => (fst kv, Some (f (snd kv)))) m))
    as H.
  rewrite !map_map in H. simpl in H.
  specialize (H Hnd [] (Forall_nil _) (fun _ _ Hin => Hin)).
  exact H.
Qed.

Lemma deserialize_serialize (rt : JsRuntime) (st : TodoistState.t) :
  Reachable st ->
  JSON_parse rt (JSON_stringify rt (stateToJson st)) = Some (stateToJson st) ->
  deserialize rt (serialize rt st) = restoredOf st.
Proof.
  intros Hst Hparse.
  destruct (reachable_keyed st Hst) as (Ht & Hp & Hs & Hl).
  unfold deserialize, serialize. rewrite Hparse.
  unfold stateToJson. cbn [getProp lookupProp String.eqb Ascii.eqb Bool.eqb].
  rewrite (newMap_entries task_id taskToJson _ Ht),
    (newMap_entries project_id projectToJson _ Hp),
    (newMap_entries section_id sectionToJson _ Hs),
    (newMap_entries label_id labelToJson _ Hl).
  reflexivity.
Qed.

Lemma deserialize_throwing (rt : JsRuntime) (data : string) (parsed : Json) :
  JSON_parse rt data = Some parsed -> RestoreThrows parsed ->
  deserialize rt data = restoredInitial.
Proof.
  intros Hparse Hthrows. unfold deserialize. rewrite Hparse.
  destruct Hthrows as [->|(name & Hin & Hnone)]; [reflexivity|].
  destruct parsed; try reflexivity.
  all: simpl in Hin;
    destruct Hin as [<-|[<-|[<-|[<-|[]]]]]; rewrite Hnone;
    repeat match goal with
           | |- context [match ?x with Some _ => _ | None => _ end] =>
               destruct x
           end; reflexivity.
Qed.

(** C10 (amended).  [deserialize] never throws: it is a total function of
    the text.  On a text that is not valid JSON, and on one whose parsed
    value makes the restore throw (the value [null], or a map field that is
    truthy and not an array of entry objects), it leaves the initial empty
    state: four empty maps, the sentinel token, both timestamps zero.  Any
    other parsed value is restored field by field, a missing or falsy map
    field as the empty map and missing or falsy bookkeeping as the initial
    one.  On the text [serialize] produces for a reachable state, in a
    runtime whose parser reads that text back, the four maps and the sync
    bookkeeping are those of the state. *)
Theorem C10_deserialize_total_and_faithful (rt : JsRuntime) :
  (forall data,
      JSON_parse rt data = None -> deserialize rt data = restoredInitial)
  /\ (forall data parsed,
         JSON_parse rt data = Some parsed -> RestoreThrows parsed ->
         deserialize rt data = restoredInitial)
  /\ (forall data parsed ts ps ss ls,
         JSON_parse rt data = Some parsed -> parsed <> JNull ->
         newMap (getProp "tasks" parsed) = Some ts ->
         newMap (getProp "projects" parsed) = Some ps ->
         newMap (getProp "sections" parsed) = Some ss ->
         newMap (getProp "labels" parsed) = Some ls ->
         deserialize rt data
         = {| r_tasks := ts; r_projects := ps; r_sections := ss;
              r_labels := ls;
              r_syncState :=
                match getProp "syncState" parsed with
                | Some s => if jsonTruthy s then s
                            else syncStateToJson initialSyncState
                | None => syncStateToJson initialSyncState
                end |})
  /\ (forall st,
         Reachable st ->
         JSON_parse rt (JSON_stringify rt (stateToJson st))
         = Some (stateToJson st) ->
         deserialize rt (serialize rt st) = restoredOf st).
Proof.
  split; [|split; [|split]].
  - intros data Hparse. unfold deserialize. now rewrite Hparse.
  - apply deserialize_throwing.
  - intros data parsed ts ps ss ls Hparse Hnn Ht Hp Hs Hl.
    unfold deserialize. rewrite Hparse, Ht, Hp, Hs, Hl.
    destruct parsed; try reflexivity. congruence.
  - apply deserialize_serialize.
Qed.

(** The executable runtime on three texts and on a state two replays
    built. *)
Lemma C10_deserialize_witness :
  deserialize RefRuntime.runtime notJson = restoredInitial
  /\ deserialize RefRuntime.runtime tasksNotIterable = restoredInitial
  /\ deserialize RefRuntime.runtime
       (serialize RefRuntime.runtime gardenState)
     = restoredOf gardenState.
Proof.
  pose proof (C10_deserialize_total_and_faithful RefRuntime.runtime)
    as (Hbad & Hthrow & _ & Hround).
  split; [|split].
  - apply Hbad. vm_compute. reflexivity.
  - apply (Hthrow _ (JObject [("tasks", JNumber (JInt 5))])).
    + vm_compute. reflexivity.
    + right. exists "tasks". split; [now left | reflexivity].
  - apply Hround.
    + unfold gardenState. do 2 constructor. constructor.
    + vm_compute. reflexivity.
Defined.

(** C10 as stated fails on valid JSON of another shape: an object with
    bookkeeping and no maps is not reset, its token is kept. *)
Lemma C10_other_shape_counterexample :
  JSON_parse RefRuntime.runtime bookkeepingOnly
  = Some (JObject
            [("syncState",
              JObject [("syncToken", JString "tok-9");
                       ("lastFullSync", JNumber (JInt 5));
                       ("lastIncrementalSync", JNumber (JInt 7))])])
  /\ r_syncState (deserialize RefRuntime.runtime bookkeepingOnly)
     = JObject [("syncToken", JString "tok-9");
                ("lastFullSync", JNumber (JInt 5));
                ("lastIncrementalSync", JNumber (JInt 7))]
  /\ r_syncState restoredInitial
     = JObject [("syncToken", JString "*");
                ("lastFullSync", JNumber (JInt 0));
                ("lastIncrementalSync", JNumber (JInt 0))].
Proof. repeat split; vm_compute; reflexivity. Qed.

End PersistenceFacts.

(** ** The single-flight guard *)

Section GuardFacts.
Import World SyncEngine.

Lemma guardedRun_busy (needsToken : bool) (steps : M unit)
      (done failed : string) (w : World.t) :
  isRunning w = true ->
  guardedRun needsToken steps done failed w = (Returns alreadyRunning, w).
Proof.
  intros Hrun. unfold guardedRun, bind, gets. now rewrite Hrun.
Qed.

(** C8.  Each of the four entry points, called while a run is in flight,
    returns the failure outcome at once and leaves the world as it found
    it: no step of the pipeline runs (no request, no write, no verdict is
    recorded), neither state changes, and nothing is put on the queue of
    pending changes or kept for later. *)
Theorem C8_single_flight_guard (rt : JsRuntime) (w : World.t) :
  isRunning w = true ->
  success alreadyRunning = false
  /\ performSync rt w = (Returns alreadyRunning, w)
  /\ fetchFromTodoist w = (Returns alreadyRunning, w)
  /\ scan w = (Returns alreadyRunning, w)
  /\ pull rt w = (Returns alreadyRunning, w).
Proof.
  intros Hrun. split; [reflexivity|].
  repeat split; now apply guardedRun_busy.
Qed.

Lemma C8_single_flight_witness :
  isRunning busyEngine = true
  /\ performSync RefRuntime.runtime busyEngine
     = (Returns alreadyRunning, busyEngine)
  /\ pull RefRuntime.runtime busyEngine = (Returns alreadyRunning, busyEngine).
Proof.
  split; [reflexivity|].
  pose proof (C8_single_flight_guard RefRuntime.runtime busyEngine eq_refl)
    as (_ & Hsync & _ & _ & Hpull).
  split; [exact Hsync | exact Hpull].
Defined.

End GuardFacts.

(** ** The frontmatter codec *)

Section CodecStrings.

Lemma includesChar_cons (c d : ascii) (s : string) :
  includesChar c (String d s) = Ascii.eqb d c || includesChar c s.
Proof.
  unfold includesChar. simpl. destruct (Ascii.eqb d c); [reflexivity|].
  now destruct (indexOfChar c s).
Qed.

Lemma includesChar_app (c : ascii) (a b : string) :
  includesChar c (a ++ b) = includesChar c a || includesChar c b.
Proof.
  induction a as [|d a IH]; [reflexivity|].
  simpl append. rewrite !includesChar_cons, IH. apply orb_assoc.
Qed.

Lemma includesChar_allChars (c : ascii) (s : string) :
  includesChar c s = false <-> allChars (fun d => negb (Ascii.eqb d c)) s = true.
Proof.
  induction s as [|d s IH]; [simpl; tauto|].
  rewrite includesChar_cons. simpl.
  destruct (Ascii.eqb d c); simpl; [split; discriminate | exact IH].
Qed.

Lemma allChars_app (p : ascii -> bool) (a b : string) :
  allChars p (a ++ b) = allChars p a && allChars p b.
Proof.
  induction a as [|c a IH]; simpl; [reflexivity|].
  now rewrite IH, andb_assoc.
Qed.

Lemma allChars_weaken (p q : ascii -> bool) (s : string) :
  (forall c, p c = true -> q c = true) ->
  allChars p s = true -> allChars q s = true.
Proof.
  intros Hpq. induction s as [|c s IH]; simpl; [reflexivity|].
  intros H. apply andb_prop in H as [Hc Hs].
  now rewrite (Hpq c Hc), IH.
Qed.

(** *** Splitting and joining lines *)


Lemma splitOn_app_sep (sep : ascii) (a b : string) :
  includesChar sep a = false ->
  splitOn sep (a ++ String sep b) = a :: splitOn sep b.
Proof.
  induction a as [|c a IH]; intros H.
  - simpl. now rewrite Ascii.eqb_refl.
  - rewrite includesChar_cons in H. apply orb_false_elim in H as [Hc Ha].
    simpl. rewrite Hc, (IH Ha). reflexivity.
Qed.



Lemma joinLines_cons (l : string) (ls : list string) :
  ls <> [] -> joinLines (l :: ls) = l ++ String lf (joinLines ls).
Proof. destruct ls; [congruence | reflexivity]. Qed.



(** *** Trimming *)




Lemma trimStart_head (c : ascii) (s : string) :
  isWhiteSpace c = false -> trimStart (String c s) = String c s.
Proof. intros H. simpl. now rewrite H. Qed.

Lemma trimEnd_nonempty (s : string) (c : ascii) :
  isWhiteSpace c = false -> isEmpty (trimEnd (s ++ str1 c)) = false.
Proof.
  intros Hc. unfold str1. induction s as [|d s IH]; simpl.
  - now rewrite Hc.
  - rewrite IH, andb_false_r. reflexivity.
Qed.

Lemma trimEnd_last (s : string) (c : ascii) :
  isWhiteSpace c = false -> trimEnd (s ++ str1 c) = s ++ str1 c.
Proof.
  intros Hc. pose proof (trimEnd_nonempty s c Hc) as Hne.
  induction s as [|d s IH]; simpl.
  - now rewrite Hc.
  - pose proof (trimEnd_nonempty s c Hc) as Hs. unfold str1 in *.
    rewrite Hs, andb_false_r. f_equal. now apply IH.
Qed.

(** A text that starts and ends with code units that are no whitespace is
    its own trim, also behind one blank. *)
Lemma trim_framed (c d : ascii) (s : string) :
  isWhiteSpace c = false -> isWhiteSpace d = false ->
  trim (String c (s ++ str1 d)) = String c (s ++ str1 d).
Proof.
  intros Hc Hd. unfold trim. rewrite trimStart_head by exact Hc.
  apply (trimEnd_last (String c s) d Hd).
Qed.

Lemma trim_single (c : ascii) :
  isWhiteSpace c = false -> trim (str1 c) = str1 c.
Proof.
  intros Hc. unfold trim, str1. cbn [trimStart]. rewrite Hc.
  cbn [trimEnd]. rewrite Hc. reflexivity.
Qed.




End CodecStrings.

Section CodecFacts.
Import Frontmatter.







(** *** Decimal texts *)

Lemma decimal_uint_chars (d : Decimal.uint) :
  allChars isDecimalChar (NilEmpty.string_of_uint d) = true.
Proof. induction d; simpl; auto. Qed.

Lemma decimal_uint_nonempty (d : Decimal.uint) :
  NilZero.string_of_uint d <> EmptyString.
Proof. destruct d; discriminate. Qed.

Lemma decimal_chars (d : Decimal.signed_int) :
  allChars isDecimalChar (NilZero.string_of_int d) = true
  /\ NilZero.string_of_int d <> EmptyString.
Proof.
  destruct d as [d|d]; simpl.
  - split; [|apply decimal_uint_nonempty].
    destruct d; try reflexivity; apply (decimal_uint_chars (_ d)).
  - split; [|discriminate].
    destruct d; try reflexivity; apply (decimal_uint_chars (_ d)).
Qed.

Lemma decimal_not_space (c : ascii) :
  isDecimalChar c = true -> notSpace c = true.
Proof.
  destruct c as [[|] [|] [|] [|] [|] [|] [|] [|]]; vm_compute; congruence.
Qed.

(** No quote, no bracket and no letter opens a decimal text. *)
Lemma decimal_head (c : ascii) (s : string) :
  isDecimalChar c = true ->
  Ascii.eqb c dquote = false /\ Ascii.eqb c squote = false
  /\ Ascii.eqb c "[" = false /\ String.eqb (String c s) "true" = false
  /\ String.eqb (String c s) "false" = false.
Proof.
  intros H. assert (Ht : Ascii.eqb c "t" = false /\ Ascii.eqb c "f" = false
                         /\ Ascii.eqb c dquote = false
                         /\ Ascii.eqb c squote = false
                         /\ Ascii.eqb c "[" = false).
  { revert H.
    destruct c as [[|] [|] [|] [|] [|] [|] [|] [|]]; vm_compute;
      intros; repeat split; congruence. }
  destruct Ht as (Ht & Hf & Hd & Hs & Hb). repeat split; auto.
  - simpl. now rewrite Ht.
  - simpl. now rewrite Hf.
Qed.

(** *** Texts of numbers *)

Lemma decimal_numeral (c : ascii) :
  isDecimalChar c = true -> isNumeralChar c = true.
Proof.
  destruct c as [[|] [|] [|] [|] [|] [|] [|] [|]]; vm_compute; congruence.
Qed.




(** An integer is read back as soon as the runtime reads its text. *)
Lemma integer_ok (rt : JsRuntime) (z : Z) :
  Number rt (numberToString (JInt z)) = JInt z -> NumberOk rt (JInt z).
Proof.
  intros H. destruct (decimal_chars (Z.to_int z)) as [Hall Hne].
  split; [discriminate|]. split; [exact Hne|]. split; [|exact H].
  apply (allChars_weaken isDecimalChar); [exact decimal_numeral | exact Hall].
Qed.

(** *** What the parser reads from a rendered scalar *)




End CodecFacts.

Section CodecRoundTrip.
Import Frontmatter.
Variable rt : JsRuntime.
















End CodecRoundTrip.

(** *** The bag the parser builds *)

Section ParsedObject.
Import Frontmatter.
Variable rt : JsRuntime.

Lemma objHas_keys_iff (k : string) (o : Bag) :
  objHas k o = true <-> In k (map fst o).
Proof.
  induction o as [|[k' v'] o IH]; cbn; [split; [discriminate | tauto]|].
  rewrite orb_true_iff, IH, String.eqb_eq. tauto.
Qed.

Lemma objReplace_keys (k : string) (v : Value) (o : Bag) :
  map fst (objReplace k v o) = map fst o.
Proof.
  induction o as [|[k' v'] o IH]; cbn; [reflexivity|].
  destruct (String.eqb k' k); cbn; [reflexivity | now rewrite IH].
Qed.

Lemma forallb_keys (f : string -> bool) (o o' : Bag) :
  map fst o = map fst o' ->
  forallb (fun kv => f (fst kv)) o = forallb (fun kv => f (fst kv)) o'.
Proof.
  revert o'. induction o as [|[k v] o IH]; intros [|[k' v'] o'] H;
    try discriminate; [reflexivity|].
  cbn in H. injection H as -> Hrest. cbn. now rewrite (IH o' Hrest).
Qed.

(** Whether a bag is listed as an object lists it hangs on its keys. *)
Lemma listed_keys (o o' : Bag) :
  map fst o = map fst o' -> listed o = listed o'.
Proof.
  revert o'. induction o as [|[k v] o IH]; intros [|[k' v'] o'] H;
    try discriminate; [reflexivity|].
  cbn in H. injection H as -> Hrest. cbn [listed].
  rewrite (IH o' Hrest). f_equal.
  exact (forallb_keys (fun key => negb (listedBefore key k')) o o' Hrest).
Qed.

Lemma objInsert_keys (k : string) (v : Value) (o : Bag) (x : string) :
  In x (map fst (objInsert k v o)) <-> x = k \/ In x (map fst o).
Proof.
  induction o as [|[k' v'] o IH]; cbn; [intuition congruence|].
  destruct (listedBefore k k'); cbn; [intuition congruence|].
  rewrite IH. intuition congruence.
Qed.

Lemma objInsert_distinct (k : string) (v : Value) (o : Bag) :
  ~ In k (map fst o) -> NoDup (map fst o) ->
  NoDup (map fst (objInsert k v o)).
Proof.
  induction o as [|[k' v'] o IH]; cbn; intros Hk Hnd.
  - constructor; [tauto | constructor].
  - destruct (listedBefore k k'); cbn.
    + constructor; [cbn; tauto | exact Hnd].
    + inversion Hnd as [|? ? Hk' Hnd']; subst. constructor.
      * rewrite objInsert_keys. intuition congruence.
      * apply IH; tauto.
Qed.

Lemma objInsert_all (f : string * Value -> bool) (k : string) (v : Value)
      (o : Bag) :
  forallb f (objInsert k v o) = f (k, v) && forallb f o.
Proof.
  induction o as [|[k' v'] o IH]; cbn; [reflexivity|].
  destruct (listedBefore k k'); cbn; [reflexivity|].
  rewrite IH. now rewrite !andb_assoc, (andb_comm (f (k', v'))).
Qed.

(** What stands behind a key that the new key precedes does not precede
    the new key. *)
Lemma listedBefore_behind (k k' y : string) :
  listedBefore k k' = true -> listedBefore y k' = false ->
  listedBefore k' k = false /\ listedBefore y k = false.
Proof.
  unfold listedBefore.
  destruct (arrayIndex k) as [i|]; [|discriminate].
  destruct (arrayIndex k') as [i'|]; destruct (arrayIndex y) as [j|];
    try discriminate; intros H1 H2; split; try reflexivity.
  - apply N.ltb_lt in H1. apply N.ltb_ge. lia.
  - apply N.ltb_lt in H1. apply N.ltb_ge in H2. apply N.ltb_ge. lia.
  - apply N.ltb_lt in H1. apply N.ltb_ge. lia.
Qed.

Lemma listedBefore_irrefl_pair (k k' : string) :
  listedBefore k k' = true -> listedBefore k' k = false.
Proof.
  unfold listedBefore.
  destruct (arrayIndex k) as [i|]; [|discriminate].
  destruct (arrayIndex k') as [i'|]; [|reflexivity].
  intros H. apply N.ltb_lt in H. apply N.ltb_ge. lia.
Qed.

Lemma objInsert_listed (k : string) (v : Value) (o : Bag) :
  listed o = true -> listed (objInsert k v o) = true.
Proof.
  induction o as [|[k' v'] o IH]; [reflexivity|].
  cbn [listed objInsert]. intros H. apply andb_prop in H as [Hk' Ho].
  destruct (listedBefore k k') eqn:Hb.
  - cbn [listed forallb fst]. rewrite Hk', Ho.
    rewrite (listedBefore_irrefl_pair k k' Hb). cbn [negb andb].
    rewrite andb_true_r. apply forallb_forall. intros y Hy.
    rewrite forallb_forall in Hk'. specialize (Hk' y Hy).
    apply negb_true_iff in Hk'. apply negb_true_iff.
    now destruct (listedBefore_behind k k' (fst y) Hb Hk').
  - cbn [listed]. rewrite objInsert_all. cbn [fst].
    now rewrite Hb, Hk', (IH Ho).
Qed.

(** An assignment keeps a bag what an object is: no key twice, the keys
    listed as an object lists them. *)
Lemma objSet_object (k : string) (v : Value) (o : Bag) :
  NoDup (map fst o) -> listed o = true ->
  NoDup (map fst (objSet k v o)) /\ listed (objSet k v o) = true.
Proof.
  intros Hnd Hl. unfold objSet. destruct (objHas k o) eqn:Hhas.
  - rewrite objReplace_keys.
    now rewrite (listed_keys _ o (objReplace_keys k v o)).
  - split; [|now apply objInsert_listed].
    apply objInsert_distinct; [|exact Hnd].
    rewrite <- objHas_keys_iff. congruence.
Qed.

Lemma objSet_keys (k : string) (v : Value) (o : Bag) (x : string) :
  In x (map fst (objSet k v o)) -> x = k \/ In x (map fst o).
Proof.
  unfold objSet. destruct (objHas k o).
  - rewrite objReplace_keys. tauto.
  - apply objInsert_keys.
Qed.

Lemma parseYamlLine_object (o : Bag) (line : string) :
  IsObject o -> IsObject (parseYamlLine rt o line).
Proof.
  intros (Hnd & Hl & Hp). unfold parseYamlLine.
  destruct (isEmpty (trim line) || startsWithChar "#" (trim line));
    [now repeat split|].
  destruct (indexOfChar ":" (trim line)) as [i|]; [|now repeat split].
  destruct (String.eqb_spec (trim (jsSubstring 0 i (trim line))) "__proto__")
    as [_|Hk]; [now repeat split|].
  destruct (objSet_object (trim (jsSubstring 0 i (trim line)))
              (parseScalar rt (trim (dropStr (S i) (trim line))))
              o Hnd Hl) as [Hnd' Hl'].
  split; [exact Hnd'|]. split; [exact Hl'|].
  intros Hin. apply objSet_keys in Hin. destruct Hin as [Hin|Hin];
    [now apply Hk | now apply Hp].
Qed.

(** Whatever the text, what [parseYaml] returns is listed as the object
    it builds: no key twice, array indices first and in ascending order,
    no property named [__proto__]. *)
Lemma parseYaml_object (yamlContent : string) :
  IsObject (parseYaml rt yamlContent).
Proof.
  unfold parseYaml.
  assert (H0 : IsObject []) by (repeat split; [constructor | tauto]).
  revert H0. generalize (@nil (string * Value)).
  induction (splitLines yamlContent) as [|l ls IH]; intros acc Hacc;
    [exact Hacc|].
  cbn [fold_left]. apply IH. now apply parseYamlLine_object.
Qed.

End ParsedObject.

Section CodecClaims.
Import Frontmatter.




(** A string array is written as a block list, which the parser does not
    read: under every runtime it comes back as the empty string. *)
Lemma array_lost_in_any_runtime (rt : JsRuntime) :
  parseFrontmatter rt (serializeFrontmatter labelsBag)
  = Some ([("labels", VStr EmptyString)], EmptyString).
Proof.
  destruct rt as [number ? ? ? ?]. vm_compute.
  destruct (number EmptyString); reflexivity.
Qed.

End CodecClaims.

(** ** Computations over the world *)

Section WorldFacts.
Import World.

Lemma withStore_same (w : World.t) : withStore (vault w) (vaultLog w) w = w.
Proof. now destruct w. Qed.

Lemma withStore_twice (v v' : Vault.t) (l l' : list Vault.Op) (w : World.t) :
  withStore v l (withStore v' l' w) = withStore v l w.
Proof. reflexivity. Qed.

Lemma bind_cases {A B : Type} (m : M A) (k : A -> M B) (w : World.t) :
  (exists a w1, m w = (Returns a, w1) /\ bind m k w = k a w1)
  \/ (exists e w1, m w = (Throws e, w1) /\ bind m k w = (Throws e, w1)).
Proof.
  unfold bind. destruct (m w) as [[a|e] w1]; [left | right]; eauto.
Qed.

Lemma mat_ret {A : Type} (a : A) (Q : Z -> A -> Prop) :
  (forall c, Q c a) -> Materializes (ret a) Q.
Proof.
  intros HQ w. split.
  - exists (vault w), []. simpl. now rewrite app_nil_r, withStore_same.
  - intros b [= <-]. apply HQ.
Qed.

Lemma mat_throw {A : Type} (e : string) (Q : Z -> A -> Prop) :
  Materializes (throw e) Q.
Proof.
  intros w. split.
  - exists (vault w), []. simpl. now rewrite app_nil_r, withStore_same.
  - discriminate.
Qed.

Lemma mat_gets {A : Type} (f : World.t -> A) (Q : Z -> A -> Prop) :
  (forall w, Q (clock w) (f w)) -> Materializes (gets f) Q.
Proof.
  intros HQ w. split.
  - exists (vault w), []. simpl. now rewrite app_nil_r, withStore_same.
  - intros b [= <-]. apply HQ.
Qed.

Lemma mat_weaken {A : Type} (m : M A) (Q Q' : Z -> A -> Prop) :
  (forall c a, Q c a -> Q' c a) -> Materializes m Q -> Materializes m Q'.
Proof.
  intros HQ Hm w. destruct (Hm w) as [Hs Hr]. split; [exact Hs|].
  intros a Ha. apply HQ, Hr, Ha.
Qed.

Lemma mat_bind {A B : Type} (m : M A) (k : A -> M B)
      (Q1 : Z -> A -> Prop) (Q2 : Z -> B -> Prop) :
  Materializes m Q1 ->
  (forall a, Materializes (k a) (fun c b => Q1 c a -> Q2 c b)) ->
  Materializes (bind m k) Q2.
Proof.
  intros Hm Hk w. destruct (Hm w) as [(v & ops & Hs) Hr].
  destruct (bind_cases m k w) as [(a & w1 & Hmw & Hb)|(e & w1 & Hmw & Hb)];
    rewrite Hb; rewrite Hmw in Hs, Hr; simpl in Hs.
  - destruct (Hk a w1) as [(v' & ops' & Hs') Hr']. subst w1. split.
    + exists v', (ops ++ ops')%list. rewrite Hs'. simpl.
      now rewrite app_assoc.
    + intros b Hb'. apply (Hr' b Hb'). now apply Hr.
  - split; [|discriminate]. exists v, ops. exact Hs.
Qed.

(** Binding a computation whose result does not matter. *)
Lemma mat_seq {A B : Type} (m : M A) (k : A -> M B) (Q : Z -> B -> Prop) :
  Materializes m (fun _ _ => True) ->
  (forall a, Materializes (k a) Q) ->
  Materializes (bind m k) Q.
Proof.
  intros Hm Hk. apply (mat_bind m k (fun _ _ => True) Q Hm).
  intros a. apply (mat_weaken (k a) Q); [auto | apply Hk].
Qed.

Lemma mat_storageWrite (op : Vault.Op) (apply : Z -> Vault.t -> Vault.t) :
  Materializes (storageWrite op apply) (fun _ _ => True).
Proof.
  intros w. split; [|auto]. unfold storageWrite. simpl.
  destruct (storageFails w op).
  - now exists (vault w), [op].
  - now exists (apply (clock w) (vault w)), [op].
Qed.

Lemma mat_lookup (p : string) :
  Materializes (getAbstractFileByPath p) (fun _ _ => True).
Proof. apply mat_gets. auto. Qed.

Lemma mat_createFolder (p : string) :
  Materializes (createFolder p) (fun _ _ => True).
Proof.
  unfold createFolder. apply mat_seq; [apply mat_lookup|].
  intros [existing|]; [|apply mat_storageWrite].
  apply mat_seq; [|intros; apply mat_throw].
  intros w. split; [|auto]. now exists (vault w), [Vault.CreateFolder p].
Qed.

Lemma mat_create (p data : string) :
  Materializes (create p data) (fun _ _ => True).
Proof.
  unfold create. apply mat_seq; [apply mat_lookup|].
  intros [existing|]; [|apply mat_storageWrite].
  apply mat_seq; [|intros; apply mat_throw].
  intros w. split; [|auto]. now exists (vault w), [Vault.Create p data].
Qed.

Lemma mat_now : Materializes now (fun c t => t = c).
Proof. apply mat_gets. reflexivity. Qed.

End WorldFacts.

(** ** The materializer *)

Section GeneratorFacts.
Import World FileGenerator.
Variable rt : JsRuntime.

Lemma mat_ensure (p : string) (folder : option Vault.AbstractFile) :
  Materializes
    (match folder with
     | None => createFolder p
     | Some _ => ret tt
     end)
    (fun _ _ => True).
Proof. destruct folder; [apply mat_ret; auto | apply mat_createFolder]. Qed.

Lemma mat_ensureSyncFolder (g : Generator) :
  Materializes (ensureSyncFolder g) (fun _ _ => True).
Proof.
  unfold ensureSyncFolder. apply mat_seq; [apply mat_lookup|].
  intros folder. apply mat_ensure.
Qed.

Lemma mat_writeNote (g : Generator) (p data : string) :
  Materializes (writeNote g p data) (fun _ _ => True).
Proof.
  unfold writeNote. apply mat_seq; [apply mat_lookup|].
  intros existing. destruct (g_dryRun g).
  - apply (mat_weaken now (fun c t => t = c)); [auto | apply mat_now].
  - apply mat_seq.
    + destruct existing as [[f|q]|];
        [apply mat_storageWrite | apply mat_create | apply mat_create].
    + intros _. apply mat_seq; [apply mat_lookup|].
      intros [[f|q]|]; [apply mat_ret; auto | apply mat_throw
                        | apply mat_throw].
Qed.

(** The part the three materializers run after the folders are there. *)
Ltac materialize_tail :=
  apply mat_seq; [apply mat_lookup|]; intros ?;
  apply mat_seq; [apply mat_ensure|]; intros _;
  apply (mat_bind _ _ (fun c t => t = c)); [apply mat_now|]; intros ?;
  apply (mat_bind _ _ (fun _ _ => True)); [apply mat_writeNote|];
  intros ?stamp; apply mat_ret; intros ? _ ->; now exists stamp.

Lemma mat_projectNote (g : Generator) (project : TodoistProject) :
  Materializes (createOrUpdateProjectNote rt g project)
    (fun c n => exists stamp, n = projectNoteOf rt g c project stamp).
Proof.
  unfold createOrUpdateProjectNote.
  apply mat_seq; [apply mat_ensureSyncFolder|]. intros _.
  materialize_tail.
Qed.

Lemma mat_sectionNote (g : Generator) (section : TodoistSection)
      (projectName : string) :
  Materializes (createOrUpdateSectionNote rt g section projectName)
    (fun c n => exists stamp,
         n = sectionNoteOf rt g c section projectName stamp).
Proof.
  unfold createOrUpdateSectionNote.
  apply mat_seq; [apply mat_ensureSyncFolder|]. intros _.
  materialize_tail.
Qed.

Lemma mat_taskNote (g : Generator) (task : TodoistTask)
      (projectName sectionName existingFilePath : option string) :
  Materializes
    (createOrUpdateTaskNote rt g task projectName sectionName
       existingFilePath)
    (fun c n => exists stamp,
         n = taskNoteOf rt g c task projectName sectionName
               existingFilePath stamp).
Proof.
  unfold createOrUpdateTaskNote, taskNoteOf, taskFilePath, taskTitle, given.
  apply mat_seq; [apply mat_ensureSyncFolder|]. intros _.
  destruct existingFilePath as [existing|];
    [destruct (isEmpty existing)|]; cbn [negb]; materialize_tail.
Qed.

End GeneratorFacts.

(** ** One reconcile step *)

Section ShapeFacts.
Import World SyncEngine.
Context {N : Type}
        (lookup : ObsidianState.t -> option N) (stale : N -> bool)
        (generate : Generator -> option N -> M N)
        (store : N -> ObsidianState.t -> ObsidianState.t)
        (k : Kind) (id : string)
        (Q : Generator -> option N -> Z -> N -> Prop).
Hypothesis generate_materializes :
  forall g o, Materializes (generate g o) (Q g o).

Abbreviation step := (reconcileShape lookup stale generate store k id).

(** A note that is there and not stale: the step answers skipped and
    changes nothing but the list of verdicts. *)
Lemma shape_skip (w : World.t) (existing : N) :
  lookup (obsidianState w) = Some existing -> stale existing = false ->
  step w = (Returns Skipped, logDecision (verdictOf k id Skipped) w).
Proof.
  intros Hl Hs. unfold reconcileShape, bind, gets. simpl.
  now rewrite Hl, Hs.
Qed.

(** Every outcome of a step.  A thrown error leaves all but the vault and
    its record as they were.  A verdict is recorded once; skipped goes with
    an unchanged local state and a note that is not stale; created and
    updated go with a generated note stored in the local state, created
    exactly when there was no note. *)
Lemma shape_outcome (w : World.t) :
  exists v ops,
    match fst (step w) with
    | Throws _ => snd (step w) = withStore v (vaultLog w ++ ops)%list w
    | Returns verdict =>
        exists os',
          snd (step w)
          = logDecision (verdictOf k id verdict)
              (withObsidianState os'
                 (withStore v (vaultLog w ++ ops)%list w))
          /\ ((verdict = Skipped /\ os' = obsidianState w
               /\ exists n, lookup (obsidianState w) = Some n
                            /\ stale n = false)
              \/ (verdict <> Skipped
                  /\ (verdict = Created <-> lookup (obsidianState w) = None)
                  /\ exists note,
                       Q (fileGenerator w) (lookup (obsidianState w))
                         (clock w) note
                       /\ os' = store note (obsidianState w)))
    end.
Proof.
  destruct (lookup (obsidianState w)) as [existing|] eqn:Hl.
  - destruct (stale existing) eqn:Hs.
    + (* updated *)
      destruct (generate_materializes (fileGenerator w) (Some existing) w)
        as [(v & ops & Hsnd) Hret].
      exists v, ops. unfold reconcileShape, bind, gets. simpl.
      rewrite Hl, Hs.
      destruct (generate (fileGenerator w) (Some existing) w)
        as [[note|e] w1] eqn:Hg; simpl in *; subst w1; [|reflexivity].
      exists (store note (obsidianState w)). split; [reflexivity|].
      right. split; [discriminate|]. split; [split; discriminate|].
      exists note. split; [now apply Hret | reflexivity].
    + (* skipped *)
      exists (vault w), []. rewrite (shape_skip w existing Hl Hs). simpl.
      exists (obsidianState w). split.
      * rewrite app_nil_r. now destruct w.
      * left. repeat split. now exists existing.
  - (* created *)
    destruct (generate_materializes (fileGenerator w) None w)
      as [(v & ops & Hsnd) Hret].
    exists v, ops. unfold reconcileShape, bind, gets. simpl. rewrite Hl.
    destruct (generate (fileGenerator w) None w) as [[note|e] w1] eqn:Hg;
      simpl in *; subst w1; [|reflexivity].
    exists (store note (obsidianState w)). split; [reflexivity|].
    right. split; [discriminate|]. split; [tauto|].
    exists note. split; [now apply Hret | reflexivity].
Qed.

(** Without a note the only verdict is created. *)
Lemma shape_created (w : World.t) (verdict : Verdict) :
  lookup (obsidianState w) = None ->
  fst (step w) = Returns verdict -> verdict = Created.
Proof.
  intros Hl. unfold reconcileShape, bind, gets. simpl. rewrite Hl.
  destruct (generate (fileGenerator w) None w) as [[note|e] w1]; simpl;
    congruence.
Qed.

End ShapeFacts.

Section ReconcileShapes.
Import World SyncEngine.
Variable rt : JsRuntime.

Lemma reconcileTask_shape (task : TodoistTask)
      (projectName sectionName : option string) :
  reconcileTask rt task projectName sectionName
  = reconcileShape
      (ObsidianState.getTaskNote (VStr (task_id task)))
      (taskStale rt task)
      (fun g o =>
         FileGenerator.createOrUpdateTaskNote rt g task projectName
           sectionName (option_map tn_filePath o))
      (ObsidianState.setTaskNote (VStr (task_id task)))
      KTask (task_id task).
Proof. reflexivity. Qed.

Lemma reconcileProject_shape (project : TodoistProject) :
  reconcileProject rt project
  = reconcileShape
      (ObsidianState.getProjectNote (VStr (project_id project)))
      (projectStale project)
      (fun g _ => FileGenerator.createOrUpdateProjectNote rt g project)
      (ObsidianState.setProjectNote (VStr (project_id project)))
      KProject (project_id project).
Proof. reflexivity. Qed.

Lemma reconcileSection_shape (section : TodoistSection)
      (projectName : string) :
  reconcileSection rt section projectName
  = reconcileShape
      (ObsidianState.getSectionNote (VStr (section_id section)))
      (sectionStale section)
      (fun g _ =>
         FileGenerator.createOrUpdateSectionNote rt g section projectName)
      (ObsidianState.setSectionNote (VStr (section_id section)))
      KSection (section_id section).
Proof. reflexivity. Qed.

End ReconcileShapes.

(** ** The three reconcile steps *)

Section StepFacts.
Import World SyncEngine.
Variable rt : JsRuntime.

Lemma value_key_decides (id : string) : DecidesKey sameValueZero (VStr id).
Proof.
  intros k'. destruct k' as [| |s|[|z|r]|b|l]; simpl; try (split; congruence).
  rewrite String.eqb_eq. split; congruence.
Qed.

Lemma value_key_refl (id : string) : sameValueZero (VStr id) (VStr id) = true.
Proof. simpl. apply String.eqb_refl. Qed.

Lemma value_key_neq (a b : string) :
  a <> b -> sameValueZero (VStr a) (VStr b) = false.
Proof. intros H. simpl. now apply String.eqb_neq. Qed.

Lemma objGet_objSet_other (k k' : string) (v : Value) (o : Bag) :
  k' <> k -> objGet k (objSet k' v o) = objGet k o.
Proof.
  intros Hne. apply String.eqb_neq in Hne. unfold objSet.
  destruct (objHas k' o).
  - induction o as [|[k2 v2] o IH]; simpl; [reflexivity|].
    destruct (String.eqb_spec k2 k') as [->|Hk]; simpl.
    + now rewrite Hne.
    + destruct (String.eqb k2 k); [reflexivity | exact IH].
  - induction o as [|[k2 v2] o IH]; simpl; [now rewrite Hne|].
    destruct (listedBefore k' k2); simpl.
    + now rewrite Hne.
    + destruct (String.eqb k2 k); [reflexivity | exact IH].
Qed.

(** The stamp of a generated task note is the reading of the clock. *)
Lemma task_frontmatter_stamp (g : Generator) (c : Z) (task : TodoistTask)
      (projectName sectionName : option string) :
  objGet "last_sync"
    (FileGenerator.buildTaskFrontmatter rt g c task projectName sectionName)
  = VStr (Date_toISOString rt c).
Proof.
  unfold FileGenerator.buildTaskFrontmatter.
  repeat match goal with
         | |- context [if ?b then _ else _] => destruct b
         | |- context [match ?x with Some _ => _ | None => _ end] =>
             destruct x
         | |- objGet _ (objSet _ _ _) = _ =>
             rewrite objGet_objSet_other by discriminate
         end; reflexivity.
Qed.

Lemma generated_task_fresh (g : Generator) (c : Z) (task : TodoistTask)
      (projectName sectionName existing : option string) (stamp : Z) :
  DateFaithful rt c -> NotLaterThan rt c task ->
  taskStale rt task
    (taskNoteOf rt g c task projectName sectionName existing stamp) = false.
Proof.
  intros [Hne Hread] Hlate. unfold taskStale, taskNoteOf. cbn [tn_frontmatter].
  rewrite task_frontmatter_stamp. unfold parseLastSyncTime. simpl truthy.
  apply isEmpty_false in Hne. rewrite Hne. cbn [negb]. rewrite Hread.
  exact Hlate.
Qed.

Lemma generated_project_fresh (g : Generator) (c : Z)
      (project : TodoistProject) (stamp : Z) :
  projectStale project (projectNoteOf rt g c project stamp) = false.
Proof.
  unfold projectStale, projectNoteOf. simpl.
  rewrite !String.eqb_refl, Bool.eqb_reflx. reflexivity.
Qed.

Lemma generated_section_fresh (g : Generator) (c : Z)
      (section : TodoistSection) (projectName : string) (stamp : Z) :
  sectionStale section (sectionNoteOf rt g c section projectName stamp)
  = false.
Proof.
  unfold sectionStale, sectionNoteOf. simpl. now rewrite String.eqb_refl.
Qed.

(** What a project step does. *)
Lemma project_step (project : TodoistProject) (w : World.t) :
  let res := reconcileProject rt project w in
  SameEngine w (snd res)
  /\ ObsidianState.taskNotes (obsidianState (snd res))
     = ObsidianState.taskNotes (obsidianState w)
  /\ ObsidianState.sectionNotes (obsidianState (snd res))
     = ObsidianState.sectionNotes (obsidianState w)
  /\ (forall q, q <> project_id project ->
                ObsidianState.getProjectNote (VStr q)
                  (obsidianState (snd res))
                = ObsidianState.getProjectNote (VStr q) (obsidianState w))
  /\ match fst res with
     | Throws _ => decisionLog (snd res) = decisionLog w
     | Returns v =>
         decisionLog (snd res)
         = (decisionLog w ++ [verdictOf KProject (project_id project) v])%list
         /\ ProjectSettled (obsidianState (snd res)) project
     end.
Proof.
  intros res. subst res. rewrite reconcileProject_shape.
  destruct (shape_outcome
              (ObsidianState.getProjectNote (VStr (project_id project)))
              (projectStale project)
              (fun g _ => FileGenerator.createOrUpdateProjectNote rt g project)
              (ObsidianState.setProjectNote (VStr (project_id project)))
              KProject (project_id project)
              (fun g _ c n => exists stamp,
                   n = projectNoteOf rt g c project stamp)
              (fun g _ => mat_projectNote rt g project) w)
    as (v & ops & H).
  destruct (fst (reconcileShape _ _ _ _ _ _ w)) as [verdict|e].
  - destruct H as (os' & -> & Hcase). cbn.
    destruct Hcase as [(-> & -> & n & Hl & Hs)
                      |(_ & _ & note & (stamp & ->) & ->)].
    + repeat split; auto. now exists n.
    + repeat split; auto.
      * intros q Hq. unfold ObsidianState.getProjectNote. cbn.
        apply get_set_other; [apply value_key_decides|].
        apply value_key_neq. congruence.
      * eexists. split.
        -- unfold ObsidianState.getProjectNote. cbn.
           apply get_set_same, value_key_refl.
        -- apply generated_project_fresh.
  - rewrite H. cbn. repeat split; auto.
Qed.

(** What a section step does. *)
Lemma section_step (section : TodoistSection) (projectName : string)
      (w : World.t) :
  let res := reconcileSection rt section projectName w in
  SameEngine w (snd res)
  /\ ObsidianState.taskNotes (obsidianState (snd res))
     = ObsidianState.taskNotes (obsidianState w)
  /\ ObsidianState.projectNotes (obsidianState (snd res))
     = ObsidianState.projectNotes (obsidianState w)
  /\ (forall q, q <> section_id section ->
                ObsidianState.getSectionNote (VStr q)
                  (obsidianState (snd res))
                = ObsidianState.getSectionNote (VStr q) (obsidianState w))
  /\ match fst res with
     | Throws _ => decisionLog (snd res) = decisionLog w
     | Returns v =>
         decisionLog (snd res)
         = (decisionLog w ++ [verdictOf KSection (section_id section) v])%list
         /\ SectionSettled (obsidianState (snd res)) section
     end.
Proof.
  intros res. subst res. rewrite reconcileSection_shape.
  destruct (shape_outcome
              (ObsidianState.getSectionNote (VStr (section_id section)))
              (sectionStale section)
              (fun g _ =>
                 FileGenerator.createOrUpdateSectionNote rt g section
                   projectName)
              (ObsidianState.setSectionNote (VStr (section_id section)))
              KSection (section_id section)
              (fun g _ c n => exists stamp,
                   n = sectionNoteOf rt g c section projectName stamp)
              (fun g _ => mat_sectionNote rt g section projectName) w)
    as (v & ops & H).
  destruct (fst (reconcileShape _ _ _ _ _ _ w)) as [verdict|e].
  - destruct H as (os' & -> & Hcase). cbn.
    destruct Hcase as [(-> & -> & n & Hl & Hs)
                      |(_ & _ & note & (stamp & ->) & ->)].
    + repeat split; auto. now exists n.
    + repeat split; auto.
      * intros q Hq. unfold ObsidianState.getSectionNote. cbn.
        apply get_set_other; [apply value_key_decides|].
        apply value_key_neq. congruence.
      * eexists. split.
        -- unfold ObsidianState.getSectionNote. cbn.
           apply get_set_same, value_key_refl.
        -- apply generated_section_fresh.
  - rewrite H. cbn. repeat split; auto.
Qed.

(** What a task step does. *)
Lemma task_step (task : TodoistTask) (projectName sectionName : option string)
      (w : World.t) :
  let res := reconcileTask rt task projectName sectionName w in
  SameEngine w (snd res)
  /\ ObsidianState.projectNotes (obsidianState (snd res))
     = ObsidianState.projectNotes (obsidianState w)
  /\ ObsidianState.sectionNotes (obsidianState (snd res))
     = ObsidianState.sectionNotes (obsidianState w)
  /\ (forall q, q <> task_id task ->
                ObsidianState.getTaskNote (VStr q) (obsidianState (snd res))
                = ObsidianState.getTaskNote (VStr q) (obsidianState w))
  /\ match fst res with
     | Throws _ => decisionLog (snd res) = decisionLog w
     | Returns v =>
         decisionLog (snd res)
         = (decisionLog w ++ [verdictOf KTask (task_id task) v])%list
         /\ (DateFaithful rt (clock w) -> NotLaterThan rt (clock w) task ->
             TaskSettled rt (obsidianState (snd res)) task)
     end.
Proof.
  intros res. subst res. rewrite reconcileTask_shape.
  destruct (shape_outcome
              (ObsidianState.getTaskNote (VStr (task_id task)))
              (taskStale rt task)
              (fun g o =>
                 FileGenerator.createOrUpdateTaskNote rt g task projectName
                   sectionName (option_map tn_filePath o))
              (ObsidianState.setTaskNote (VStr (task_id task)))
              KTask (task_id task)
              (fun g o c n => exists stamp,
                   n = taskNoteOf rt g c task projectName sectionName
                         (option_map tn_filePath o) stamp)
              (fun g o => mat_taskNote rt g task projectName sectionName
                            (option_map tn_filePath o)) w)
    as (v & ops & H).
  destruct (fst (reconcileShape _ _ _ _ _ _ w)) as [verdict|e].
  - destruct H as (os' & -> & Hcase). cbn.
    destruct Hcase as [(-> & -> & n & Hl & Hs)
                      |(_ & _ & note & (stamp & ->) & ->)].
    + repeat split; auto. intros _ _. now exists n.
    + repeat split; auto.
      * intros q Hq. unfold ObsidianState.getTaskNote. cbn.
        apply get_set_other; [apply value_key_decides|].
        apply value_key_neq. congruence.
      * intros Hdate Hlate. eexists. split.
        -- unfold ObsidianState.getTaskNote. cbn.
           apply get_set_same, value_key_refl.
        -- now apply generated_task_fresh.
  - rewrite H. cbn. repeat split; auto.
Qed.

Lemma project_first (project : TodoistProject) (w : World.t) (v : Verdict) :
  ObsidianState.getProjectNote (VStr (project_id project)) (obsidianState w)
  = None ->
  fst (reconcileProject rt project w) = Returns v -> v = Created.
Proof. rewrite reconcileProject_shape. apply shape_created. Qed.

Lemma section_first (section : TodoistSection) (projectName : string)
      (w : World.t) (v : Verdict) :
  ObsidianState.getSectionNote (VStr (section_id section)) (obsidianState w)
  = None ->
  fst (reconcileSection rt section projectName w) = Returns v -> v = Created.
Proof. rewrite reconcileSection_shape. apply shape_created. Qed.

Lemma task_first (task : TodoistTask) (projectName sectionName : option string)
      (w : World.t) (v : Verdict) :
  ObsidianState.getTaskNote (VStr (task_id task)) (obsidianState w) = None ->
  fst (reconcileTask rt task projectName sectionName w) = Returns v ->
  v = Created.
Proof. rewrite reconcileTask_shape. apply shape_created. Qed.

End StepFacts.

(** ** The loops of a reconcile pass *)

Section LoopFacts.
Import World SyncEngine.
Variable rt : JsRuntime.

Lemma prefix_nil {A : Type} (l : list A) : Prefix [] l.
Proof. now exists l. Qed.

Lemma prefix_cons {A : Type} (x : A) (l1 l2 : list A) :
  Prefix l1 l2 -> Prefix (x :: l1) (x :: l2).
Proof. intros [rest ->]. now exists rest. Qed.

Lemma prefix_in {A : Type} (l1 l2 : list A) (x : A) :
  Prefix l1 l2 -> In x l1 -> In x l2.
Proof. intros [rest ->] Hin. apply in_or_app. now left. Qed.

(** A verdict among those of a prefix of [xs] is about one of [xs]. *)
Lemma keyed_decision_in {E : Type} (k : Kind) (idf : E -> string)
      (ds : list Decision) (xs : list E) (d : Decision) :
  Prefix (map keyOf ds) (map (fun x => (k, idf x)) xs) ->
  In d ds -> In (d_id d) (map idf xs).
Proof.
  intros Hpre Hd. apply (in_map keyOf) in Hd.
  apply (prefix_in _ _ _ Hpre) in Hd. apply in_map_iff in Hd.
  destruct Hd as (x & Hx & Hin). apply in_map_iff. exists x.
  split; [|exact Hin]. unfold keyOf in Hx. congruence.
Qed.

Lemma sameEngine_refl (w : World.t) : SameEngine w w.
Proof. now repeat split. Qed.

Lemma sameEngine_trans (w1 w2 w3 : World.t) :
  SameEngine w1 w2 -> SameEngine w2 w3 -> SameEngine w1 w3.
Proof.
  intros (Ht & Hg & Hc) (Ht' & Hg' & Hc'). repeat split; congruence.
Qed.

(** The project loop: the verdicts it records are those of a prefix of
    the projects, of all of them when it returns; it leaves the task and
    section notes alone, and the notes of projects it does not meet. *)
Lemma projects_trace (ps : list TodoistProject) :
  forall (stats : Stats) (pm : StrMap string) (w : World.t),
    let res := reconcileProjects rt ps stats pm w in
    exists ds,
      SameEngine w (snd res)
      /\ ObsidianState.taskNotes (obsidianState (snd res))
         = ObsidianState.taskNotes (obsidianState w)
      /\ ObsidianState.sectionNotes (obsidianState (snd res))
         = ObsidianState.sectionNotes (obsidianState w)
      /\ (forall q, ~ In q (map project_id ps) ->
                    ObsidianState.getProjectNote (VStr q)
                      (obsidianState (snd res))
                    = ObsidianState.getProjectNote (VStr q)
                        (obsidianState w))
      /\ decisionLog (snd res) = (decisionLog w ++ ds)%list
      /\ Prefix (map keyOf ds) (map projectKey ps)
      /\ (forall out, fst res = Returns out ->
                      map keyOf ds = map projectKey ps
                      /\ out = (tally ds stats, projectMapAfter ps pm))
      /\ (NoDup (map project_id ps) ->
          forall d, In d ds ->
                    ObsidianState.getProjectNote (VStr (d_id d))
                      (obsidianState w) = None ->
                    d_verdict d = Created).
Proof.
  induction ps as [|p ps IH]; intros stats pm w; cbn zeta.
  - exists []. cbn. rewrite app_nil_r.
    do 6 (split; [now auto using prefix_nil, sameEngine_refl|]).
    split; [now intros out [= <-] | intros _ d []].
  - cbn [reconcileProjects]. unfold bind.
    pose proof (project_step rt p w) as Hstep. cbn zeta in Hstep.
    pose proof (project_first rt p w) as Hfirst.
    destruct (reconcileProject rt p w) as [[v|e] w1]; cbn [fst snd] in *.
    + destruct Hstep as (Hsame & Ht & Hs & Hq & Hlog & _).
      destruct (IH (count KProject v stats)
                  (JsMap.set String.eqb (project_id p) (project_name p) pm)
                  w1)
        as (ds & Hsame' & Ht' & Hs' & Hq' & Hlog' & Hpre & Hout & Hnew).
      exists (verdictOf KProject (project_id p) v :: ds).
      split; [eapply sameEngine_trans; eauto|].
      split; [now rewrite Ht'|]. split; [now rewrite Hs'|].
      split.
      { intros q Hin. cbn in Hin. rewrite Hq' by tauto. apply Hq.
        intros ->. tauto. }
      split; [rewrite Hlog', Hlog, <- app_assoc; reflexivity|].
      split; [now apply prefix_cons|].
      split.
      { intros out Hret. destruct (Hout out Hret) as [Hk ->].
        split; [cbn; now rewrite Hk | reflexivity]. }
      intros Hnd d [<-|Hd] Hnone; [exact (Hfirst v Hnone eq_refl)|].
      inversion Hnd as [|? ? Hnot Hnd']; subst.
      apply (Hnew Hnd' d Hd). rewrite Hq; [exact Hnone|].
      intros Heq. apply Hnot. rewrite <- Heq.
      apply (keyed_decision_in KProject project_id _ _ _ Hpre Hd).
    + destruct Hstep as (Hsame & Ht & Hs & Hq & Hlog).
      exists []. rewrite app_nil_r.
      do 3 (split; [assumption|]).
      split; [intros q Hin; apply Hq; intros ->; apply Hin; now left|].
      split; [assumption|]. split; [apply prefix_nil|].
      split; [discriminate | intros _ d []].
Qed.

(** When it returns, every project it met is settled. *)
Lemma projects_settle (ps : list TodoistProject) :
  NoDup (map project_id ps) ->
  forall (stats : Stats) (pm : StrMap string) (w : World.t) out,
    fst (reconcileProjects rt ps stats pm w) = Returns out ->
    forall p, In p ps ->
              ProjectSettled
                (obsidianState (snd (reconcileProjects rt ps stats pm w))) p.
Proof.
  induction ps as [|p ps IH]; intros Hnd stats pm w out Hret q Hin;
    [destruct Hin|].
  inversion Hnd as [|? ? Hnot Hnd']; subst.
  cbn [reconcileProjects] in *. unfold bind in *.
  pose proof (project_step rt p w) as Hstep. cbn zeta in Hstep.
  destruct (reconcileProject rt p w) as [[v|e] w1]; cbn [fst snd] in *;
    [|discriminate].
  destruct Hstep as (_ & _ & _ & _ & _ & Hsettled).
  destruct Hin as [<-|Hin]; [|now apply (IH Hnd' _ _ _ out)].
  destruct (projects_trace ps (count KProject v stats)
              (JsMap.set String.eqb (project_id p) (project_name p) pm) w1)
    as (ds & _ & _ & _ & Hq & _).
  destruct Hsettled as (n & Hl & Hs). exists n. split; [|exact Hs].
  now rewrite Hq.
Qed.

(** Over settled projects the loop skips each and writes nothing. *)
Lemma projects_skip (ps : list TodoistProject) :
  forall (stats : Stats) (pm : StrMap string) (w : World.t),
    (forall p, In p ps -> ProjectSettled (obsidianState w) p) ->
    let ds := map (fun p => verdictOf KProject (project_id p) Skipped) ps in
    reconcileProjects rt ps stats pm w
    = (Returns (tally ds stats, projectMapAfter ps pm), appendDecisions ds w).
Proof.
  induction ps as [|p ps IH]; intros stats pm w Hall; [reflexivity|].
  cbn zeta. cbn [reconcileProjects]. unfold bind at 1.
  destruct (Hall p (or_introl eq_refl)) as (n & Hl & Hs).
  rewrite reconcileProject_shape.
  rewrite (shape_skip _ _ _ _ _ _ w n Hl Hs).
  rewrite IH; [reflexivity|].
  intros q Hq. apply Hall. now right.
Qed.

Lemma reconciled_cons (pm : StrMap string) (s : TodoistSection)
      (ss : list TodoistSection) :
  reconciled pm (s :: ss)
  = if isResolved pm (section_project_id s)
    then s :: reconciled pm ss else reconciled pm ss.
Proof. reflexivity. Qed.

Lemma reconciled_in (pm : StrMap string) (ss : list TodoistSection)
      (s : TodoistSection) :
  In s (reconciled pm ss) -> In s ss.
Proof. unfold reconciled. rewrite filter_In. tauto. Qed.

(** A section is reconciled under the name its project resolves to, and
    passed over when there is none. *)
Lemma sections_unfold (s : TodoistSection) (ss : list TodoistSection)
      (pm : StrMap string) (stats : Stats) (sm : StrMap string) :
  reconcileSections rt (s :: ss) pm stats sm
  = match resolvedName pm (section_project_id s) with
    | Some name =>
        bind (reconcileSection rt s name)
          (fun result =>
             reconcileSections rt ss pm (count KSection result stats)
               (JsMap.set String.eqb (section_id s) (section_name s) sm))
    | None => reconcileSections rt ss pm stats sm
    end.
Proof.
  cbn [reconcileSections]. unfold resolvedName.
  destruct (JsMap.get String.eqb (section_project_id s) pm) as [name|];
    [|reflexivity].
  now destruct (isEmpty name).
Qed.

(** The section loop: as the project loop, over the sections whose project
    resolves. *)
Lemma sections_trace (ss : list TodoistSection) (pm : StrMap string) :
  forall (stats : Stats) (sm : StrMap string) (w : World.t),
    let res := reconcileSections rt ss pm stats sm w in
    exists ds,
      SameEngine w (snd res)
      /\ ObsidianState.taskNotes (obsidianState (snd res))
         = ObsidianState.taskNotes (obsidianState w)
      /\ ObsidianState.projectNotes (obsidianState (snd res))
         = ObsidianState.projectNotes (obsidianState w)
      /\ (forall q, ~ In q (map section_id (reconciled pm ss)) ->
                    ObsidianState.getSectionNote (VStr q)
                      (obsidianState (snd res))
                    = ObsidianState.getSectionNote (VStr q)
                        (obsidianState w))
      /\ decisionLog (snd res) = (decisionLog w ++ ds)%list
      /\ Prefix (map keyOf ds) (map sectionKey (reconciled pm ss))
      /\ (forall out, fst res = Returns out ->
                      map keyOf ds = map sectionKey (reconciled pm ss)
                      /\ out = (tally ds stats,
                                sectionMapAfter (reconciled pm ss) sm))
      /\ (NoDup (map section_id (reconciled pm ss)) ->
          forall d, In d ds ->
                    ObsidianState.getSectionNote (VStr (d_id d))
                      (obsidianState w) = None ->
                    d_verdict d = Created).
Proof.
  induction ss as [|s ss IH]; intros stats sm w; cbn zeta.
  - exists []. cbn. rewrite app_nil_r.
    do 6 (split; [now auto using prefix_nil, sameEngine_refl|]).
    split; [now intros out [= <-] | intros _ d []].
  - rewrite sections_unfold, reconciled_cons. unfold isResolved.
    destruct (resolvedName pm (section_project_id s)) as [name|];
      [|apply IH].
    unfold bind.
    pose proof (section_step rt s name w) as Hstep. cbn zeta in Hstep.
    pose proof (section_first rt s name w) as Hfirst.
    destruct (reconcileSection rt s name w) as [[v|e] w1];
      cbn [fst snd] in *.
    + destruct Hstep as (Hsame & Ht & Hp & Hq & Hlog & _).
      destruct (IH (count KSection v stats)
                  (JsMap.set String.eqb (section_id s) (section_name s) sm)
                  w1)
        as (ds & Hsame' & Ht' & Hp' & Hq' & Hlog' & Hpre & Hout & Hnew).
      exists (verdictOf KSection (section_id s) v :: ds).
      split; [eapply sameEngine_trans; eauto|].
      split; [now rewrite Ht'|]. split; [now rewrite Hp'|].
      split.
      { intros q Hin. cbn in Hin. rewrite Hq' by tauto. apply Hq.
        intros ->. tauto. }
      split; [rewrite Hlog', Hlog, <- app_assoc; reflexivity|].
      split; [now apply prefix_cons|].
      split.
      { intros out Hret. destruct (Hout out Hret) as [Hk ->].
        split; [cbn; now rewrite Hk | reflexivity]. }
      intros Hnd d [<-|Hd] Hnone; [exact (Hfirst v Hnone eq_refl)|].
      inversion Hnd as [|? ? Hnot Hnd']; subst.
      apply (Hnew Hnd' d Hd). rewrite Hq; [exact Hnone|].
      intros Heq. apply Hnot. rewrite <- Heq.
      apply (keyed_decision_in KSection section_id _ _ _ Hpre Hd).
    + destruct Hstep as (Hsame & Ht & Hp & Hq & Hlog).
      exists []. rewrite app_nil_r.
      do 3 (split; [assumption|]).
      split; [intros q Hin; apply Hq; intros ->; apply Hin; now left|].
      split; [assumption|]. split; [apply prefix_nil|].
      split; [discriminate | intros _ d []].
Qed.

Lemma sections_settle (ss : list TodoistSection) (pm : StrMap string) :
  NoDup (map section_id ss) ->
  forall (stats : Stats) (sm : StrMap string) (w : World.t) out,
    fst (reconcileSections rt ss pm stats sm w) = Returns out ->
    forall s, In s (reconciled pm ss) ->
              SectionSettled
                (obsidianState (snd (reconcileSections rt ss pm stats sm w)))
                s.
Proof.
  induction ss as [|s ss IH]; intros Hnd stats sm w out Hret q Hin;
    [destruct Hin|].
  inversion Hnd as [|? ? Hnot Hnd']; subst.
  rewrite sections_unfold in *. rewrite reconciled_cons in Hin.
  unfold isResolved in Hin.
  destruct (resolvedName pm (section_project_id s)) as [name|];
    [|now apply (IH Hnd' _ _ _ out)].
  unfold bind in *.
  pose proof (section_step rt s name w) as Hstep. cbn zeta in Hstep.
  destruct (reconcileSection rt s name w) as [[v|e] w1]; cbn [fst snd] in *;
    [|discriminate].
  destruct Hstep as (_ & _ & _ & _ & _ & Hsettled).
  destruct Hin as [<-|Hin]; [|now apply (IH Hnd' _ _ _ out)].
  destruct (sections_trace ss pm (count KSection v stats)
              (JsMap.set String.eqb (section_id s) (section_name s) sm) w1)
    as (ds & _ & _ & _ & Hq & _).
  destruct Hsettled as (n & Hl & Hs). exists n. split; [|exact Hs].
  rewrite Hq; [exact Hl|].
  intros Hin. apply Hnot. apply in_map_iff in Hin.
  destruct Hin as (s' & Hid & Hin). apply in_map_iff. exists s'.
  split; [exact Hid|]. now apply reconciled_in in Hin.
Qed.

Lemma sections_skip (ss : list TodoistSection) (pm : StrMap string) :
  forall (stats : Stats) (sm : StrMap string) (w : World.t),
    (forall s, In s (reconciled pm ss) ->
               SectionSettled (obsidianState w) s) ->
    let ds := map (fun s => verdictOf KSection (section_id s) Skipped)
                (reconciled pm ss) in
    reconcileSections rt ss pm stats sm w
    = (Returns (tally ds stats, sectionMapAfter (reconciled pm ss) sm),
       appendDecisions ds w).
Proof.
  induction ss as [|s ss IH]; intros stats sm w Hall; [reflexivity|].
  cbn zeta. rewrite sections_unfold. rewrite reconciled_cons in *.
  unfold isResolved in *.
  destruct (resolvedName pm (section_project_id s)) as [name|];
    [|now apply IH].
  unfold bind at 1.
  destruct (Hall s (or_introl eq_refl)) as (n & Hl & Hs).
  rewrite reconcileSection_shape.
  rewrite (shape_skip _ _ _ _ _ _ w n Hl Hs).
  rewrite IH; [reflexivity|].
  intros q Hq. apply Hall. now right.
Qed.

(** The task loop meets every task, whatever its project resolves to. *)
Lemma tasks_trace (ts : list TodoistTask) (pm sm : StrMap string) :
  forall (stats : Stats) (w : World.t),
    let res := reconcileTasks rt ts pm sm stats w in
    exists ds,
      SameEngine w (snd res)
      /\ ObsidianState.projectNotes (obsidianState (snd res))
         = ObsidianState.projectNotes (obsidianState w)
      /\ ObsidianState.sectionNotes (obsidianState (snd res))
         = ObsidianState.sectionNotes (obsidianState w)
      /\ (forall q, ~ In q (map task_id ts) ->
                    ObsidianState.getTaskNote (VStr q)
                      (obsidianState (snd res))
                    = ObsidianState.getTaskNote (VStr q) (obsidianState w))
      /\ decisionLog (snd res) = (decisionLog w ++ ds)%list
      /\ Prefix (map keyOf ds) (map taskKey ts)
      /\ (forall out, fst res = Returns out ->
                      map keyOf ds = map taskKey ts
                      /\ out = tally ds stats)
      /\ (NoDup (map task_id ts) ->
          forall d, In d ds ->
                    ObsidianState.getTaskNote (VStr (d_id d))
                      (obsidianState w) = None ->
                    d_verdict d = Created).
Proof.
  induction ts as [|t ts IH]; intros stats w; cbn zeta.
  - exists []. cbn. rewrite app_nil_r.
    do 6 (split; [now auto using prefix_nil, sameEngine_refl|]).
    split; [now intros out [= <-] | intros _ d []].
  - cbn [reconcileTasks]. cbv zeta. unfold bind.
    match goal with
    | |- context [reconcileTask rt t ?pn ?sn w] =>
        pose proof (task_step rt t pn sn w) as Hstep;
        cbn zeta in Hstep;
        pose proof (task_first rt t pn sn w) as Hfirst;
        destruct (reconcileTask rt t pn sn w) as [[v|e] w1]
    end; cbn [fst snd] in *.
    + destruct Hstep as (Hsame & Hp & Hs & Hq & Hlog & _).
      destruct (IH (count KTask v stats) w1)
        as (ds & Hsame' & Hp' & Hs' & Hq' & Hlog' & Hpre & Hout & Hnew).
      exists (verdictOf KTask (task_id t) v :: ds).
      split; [eapply sameEngine_trans; eauto|].
      split; [now rewrite Hp'|]. split; [now rewrite Hs'|].
      split.
      { intros q Hin. cbn in Hin. rewrite Hq' by tauto. apply Hq.
        intros ->. tauto. }
      split; [rewrite Hlog', Hlog, <- app_assoc; reflexivity|].
      split; [now apply prefix_cons|].
      split.
      { intros out Hret. destruct (Hout out Hret) as [Hk ->].
        split; [cbn; now rewrite Hk | reflexivity]. }
      intros Hnd d [<-|Hd] Hnone; [exact (Hfirst v Hnone eq_refl)|].
      inversion Hnd as [|? ? Hnot Hnd']; subst.
      apply (Hnew Hnd' d Hd). rewrite Hq; [exact Hnone|].
      intros Heq. apply Hnot. rewrite <- Heq.
      apply (keyed_decision_in KTask task_id _ _ _ Hpre Hd).
    + destruct Hstep as (Hsame & Hp & Hs & Hq & Hlog).
      exists []. rewrite app_nil_r.
      do 3 (split; [assumption|]).
      split; [intros q Hin; apply Hq; intros ->; apply Hin; now left|].
      split; [assumption|]. split; [apply prefix_nil|].
      split; [discriminate | intros _ d []].
Qed.

Lemma tasks_settle (ts : list TodoistTask) (pm sm : StrMap string) :
  NoDup (map task_id ts) ->
  forall (stats : Stats) (w : World.t) out,
    DateFaithful rt (clock w) ->
    (forall t, In t ts -> NotLaterThan rt (clock w) t) ->
    fst (reconcileTasks rt ts pm sm stats w) = Returns out ->
    forall t, In t ts ->
              TaskSettled rt
                (obsidianState (snd (reconcileTasks rt ts pm sm stats w))) t.
Proof.
  induction ts as [|t ts IH]; intros Hnd stats w out Hdate Hall Hret q Hin;
    [destruct Hin|].
  inversion Hnd as [|? ? Hnot Hnd']; subst.
  cbn [reconcileTasks] in *. cbv zeta in *. unfold bind in *.
  match goal with
  | |- context [reconcileTask rt t ?pn ?sn w] =>
      pose proof (task_step rt t pn sn w) as Hstep;
      cbn zeta in Hstep;
      destruct (reconcileTask rt t pn sn w) as [[v|e] w1]
  end; cbn [fst snd] in *; [|discriminate].
  destruct Hstep as ((_ & _ & Hclock) & _ & _ & _ & _ & Hsettled).
  rewrite <- Hclock in Hdate, Hall.
  destruct Hin as [<-|Hin].
  - destruct (tasks_trace ts pm sm (count KTask v stats) w1)
      as (ds & _ & _ & _ & Hq & _).
    rewrite Hclock in Hdate, Hall.
    destruct (Hsettled Hdate (Hall t (or_introl eq_refl)))
      as (n & Hl & Hs).
    exists n. split; [|exact Hs]. now rewrite Hq.
  - apply (IH Hnd' _ _ out); auto.
    intros t' Hin'. apply Hall. now right.
Qed.

Lemma tasks_skip (ts : list TodoistTask) (pm sm : StrMap string) :
  forall (stats : Stats) (w : World.t),
    (forall t, In t ts -> TaskSettled rt (obsidianState w) t) ->
    let ds := map (fun t => verdictOf KTask (task_id t) Skipped) ts in
    reconcileTasks rt ts pm sm stats w
    = (Returns (tally ds stats), appendDecisions ds w).
Proof.
  induction ts as [|t ts IH]; intros stats w Hall; [reflexivity|].
  cbn zeta. cbn [reconcileTasks]. cbv zeta. unfold bind at 1.
  destruct (Hall t (or_introl eq_refl)) as (n & Hl & Hs).
  rewrite reconcileTask_shape.
  rewrite (shape_skip _ _ _ _ _ _ w n Hl Hs).
  rewrite IH; [reflexivity|].
  intros q Hq. apply Hall. now right.
Qed.

End LoopFacts.

(** ** A reconcile pass *)

Section PassFacts.
Import World SyncEngine.
Variable rt : JsRuntime.

Lemma prefix_app_l {A : Type} (l a b : list A) :
  Prefix l a -> Prefix l (a ++ b).
Proof. intros [rest ->]. exists (rest ++ b)%list. now rewrite app_assoc. Qed.

Lemma prefix_app_r {A : Type} (a l b : list A) :
  Prefix l b -> Prefix (a ++ l) (a ++ b).
Proof. intros [rest ->]. exists rest. now rewrite app_assoc. Qed.

Lemma tally_app (ds1 ds2 : list Decision) (s : Stats) :
  tally (ds1 ++ ds2) s = tally ds2 (tally ds1 s).
Proof. apply fold_left_app. Qed.

Lemma appendDecisions_app (ds1 ds2 : list Decision) (w : World.t) :
  appendDecisions (ds1 ++ ds2) w = appendDecisions ds2 (appendDecisions ds1 w).
Proof. apply fold_left_app. Qed.

(** Recording verdicts changes the record of verdicts only. *)
Lemma appendDecisions_frame (ds : list Decision) :
  forall w,
    let w' := appendDecisions ds w in
    decisionLog w' = (decisionLog w ++ ds)%list
    /\ vault w' = vault w /\ vaultLog w' = vaultLog w
    /\ apiLog w' = apiLog w /\ obsidianState w' = obsidianState w
    /\ todoistState w' = todoistState w.
Proof.
  induction ds as [|d ds IH]; intros w; cbn zeta.
  - cbn. now rewrite app_nil_r.
  - change (appendDecisions (d :: ds) w)
      with (appendDecisions ds (logDecision d w)).
    destruct (IH (logDecision d w)) as (Hl & Hv & Hvl & Ha & Ho & Ht).
    rewrite Hl, Hv, Hvl, Ha, Ho, Ht. cbn. rewrite <- app_assoc.
    repeat split.
Qed.

(** The three loops of a pass, one after the other. *)
Lemma states_unfold (w : World.t) :
  reconcileStates rt w
  = match reconcileProjects rt
            (TodoistState.getAllProjects (todoistState w)) noStats [] w with
    | (Throws e, w1) => (Throws e, w1)
    | (Returns r1, w1) =>
        match reconcileSections rt
                (TodoistState.getAllSections (todoistState w1)) (snd r1)
                (fst r1) [] w1 with
        | (Throws e, w2) => (Throws e, w2)
        | (Returns r2, w2) =>
            reconcileTasks rt (TodoistState.getAllTasks (todoistState w2))
              (snd r1) (snd r2) (fst r2) w2
        end
    end.
Proof.
  unfold reconcileStates, bind, gets. cbv beta iota.
  destruct (reconcileProjects rt _ noStats [] w) as [[[stats pm]|e] w1];
    [|reflexivity].
  cbv beta iota. cbn [fst snd].
  destruct (reconcileSections rt _ pm stats [] w1) as [[[stats' sm]|e] w2];
    reflexivity.
Qed.

Lemma same_projects (os os' : ObsidianState.t) (q : Value) :
  ObsidianState.projectNotes os' = ObsidianState.projectNotes os ->
  ObsidianState.getProjectNote q os' = ObsidianState.getProjectNote q os.
Proof. unfold ObsidianState.getProjectNote. now intros ->. Qed.

Lemma same_sections (os os' : ObsidianState.t) (q : Value) :
  ObsidianState.sectionNotes os' = ObsidianState.sectionNotes os ->
  ObsidianState.getSectionNote q os' = ObsidianState.getSectionNote q os.
Proof. unfold ObsidianState.getSectionNote. now intros ->. Qed.

Lemma same_tasks (os os' : ObsidianState.t) (q : Value) :
  ObsidianState.taskNotes os' = ObsidianState.taskNotes os ->
  ObsidianState.getTaskNote q os' = ObsidianState.getTaskNote q os.
Proof. unfold ObsidianState.getTaskNote. now intros ->. Qed.

Lemma expectedKeys_parts (st : TodoistState.t) :
  expectedKeys st
  = (map projectKey (TodoistState.getAllProjects st)
     ++ map sectionKey
          (reconciled (projectNames st) (TodoistState.getAllSections st))
     ++ map taskKey (TodoistState.getAllTasks st))%list.
Proof. reflexivity. Qed.

Lemma keyed_decision_kind {E : Type} (k : Kind) (idf : E -> string)
      (ds : list Decision) (xs : list E) (d : Decision) :
  Prefix (map keyOf ds) (map (fun x => (k, idf x)) xs) ->
  In d ds -> d_kind d = k.
Proof.
  intros Hpre Hd. apply (in_map keyOf) in Hd.
  apply (prefix_in _ _ _ Hpre) in Hd. apply in_map_iff in Hd.
  destruct Hd as (x & Hx & _). unfold keyOf in Hx. congruence.
Qed.

Lemma hasNote_project (os : ObsidianState.t) (d : Decision) :
  d_kind d = KProject -> hasNote os (keyOf d) = false ->
  ObsidianState.getProjectNote (VStr (d_id d)) os = None.
Proof.
  unfold hasNote, keyOf. cbn [fst snd]. intros ->.
  now destruct (ObsidianState.getProjectNote _ os).
Qed.

Lemma hasNote_section (os : ObsidianState.t) (d : Decision) :
  d_kind d = KSection -> hasNote os (keyOf d) = false ->
  ObsidianState.getSectionNote (VStr (d_id d)) os = None.
Proof.
  unfold hasNote, keyOf. cbn [fst snd]. intros ->.
  now destruct (ObsidianState.getSectionNote _ os).
Qed.

Lemma hasNote_task (os : ObsidianState.t) (d : Decision) :
  d_kind d = KTask -> hasNote os (keyOf d) = false ->
  ObsidianState.getTaskNote (VStr (d_id d)) os = None.
Proof.
  unfold hasNote, keyOf. cbn [fst snd]. intros ->.
  now destruct (ObsidianState.getTaskNote _ os).
Qed.

Lemma reconciled_distinct (pm : StrMap string) (ss : list TodoistSection) :
  NoDup (map section_id ss) -> NoDup (map section_id (reconciled pm ss)).
Proof. apply nodup_images_filter. Qed.

(** The verdicts of a pass: those of a prefix of the projects, then of the
    sections whose project resolves, then of the tasks; of all of them when
    the pass returns, with the counters it returns; and created for every
    entity that had no note, when no id is there twice. *)
Lemma pass_trace (w : World.t) :
  let res := reconcileStates rt w in
  let st := todoistState w in
  exists ds,
    SameEngine w (snd res)
    /\ decisionLog (snd res) = (decisionLog w ++ ds)%list
    /\ Prefix (map keyOf ds) (expectedKeys st)
    /\ (forall stats, fst res = Returns stats ->
                      map keyOf ds = expectedKeys st
                      /\ stats = tally ds noStats)
    /\ (DistinctIds st ->
        forall d, In d ds -> hasNote (obsidianState w) (keyOf d) = false ->
                  d_verdict d = Created).
Proof.
  cbn zeta. rewrite states_unfold, expectedKeys_parts.
  set (st := todoistState w).
  destruct (projects_trace rt (TodoistState.getAllProjects st) noStats [] w)
    as (d1 & Hsame1 & Ht1 & Hs1 & _ & Hlog1 & Hpre1 & Hout1 & Hnew1).
  assert (Hc1 : DistinctIds st ->
                forall d, In d d1 ->
                          hasNote (obsidianState w) (keyOf d) = false ->
                          d_verdict d = Created).
  { intros (Hnd & _) d Hd Hnone. apply (Hnew1 Hnd d Hd).
    apply hasNote_project; [|exact Hnone].
    apply (keyed_decision_kind KProject project_id _ _ _ Hpre1 Hd). }
  clear Hnew1.
  destruct (reconcileProjects rt (TodoistState.getAllProjects st) noStats []
              w) as [[r1|e] w1]; cbn [fst snd] in *.
  2: { exists d1. split; [exact Hsame1|]. split; [exact Hlog1|].
       split; [now apply prefix_app_l|]. split; [discriminate | exact Hc1]. }
  destruct (Hout1 r1 eq_refl) as [Hk1 ->]. cbn [fst snd]. clear Hout1.
  pose proof Hsame1 as (Hst1 & _ & _). rewrite Hst1. fold st.
  change (projectMapAfter (TodoistState.getAllProjects st) [])
    with (projectNames st).
  destruct (sections_trace rt (TodoistState.getAllSections st)
              (projectNames st) (tally d1 noStats) [] w1)
    as (d2 & Hsame2 & Ht2 & Hp2 & _ & Hlog2 & Hpre2 & Hout2 & Hnew2).
  assert (Hc2 : DistinctIds st ->
                forall d, In d d2 ->
                          hasNote (obsidianState w) (keyOf d) = false ->
                          d_verdict d = Created).
  { intros (_ & Hnd & _) d Hd Hnone.
    apply (Hnew2 (reconciled_distinct _ _ Hnd) d Hd).
    rewrite (same_sections _ _ _ Hs1).
    apply hasNote_section; [|exact Hnone].
    apply (keyed_decision_kind KSection section_id _ _ _ Hpre2 Hd). }
  clear Hnew2.
  destruct (reconcileSections rt (TodoistState.getAllSections st)
              (projectNames st) (tally d1 noStats) [] w1)
    as [[r2|e] w2]; cbn [fst snd] in *.
  2: { exists (d1 ++ d2)%list.
       split; [eapply sameEngine_trans; eauto|].
       split; [now rewrite Hlog2, Hlog1, app_assoc|].
       split; [rewrite map_app, Hk1; apply prefix_app_r;
               now apply prefix_app_l|].
       split; [discriminate|].
       intros Hd d Hin. apply in_app_or in Hin. destruct Hin; eauto. }
  destruct (Hout2 r2 eq_refl) as [Hk2 ->]. cbn [fst snd]. clear Hout2.
  pose proof Hsame2 as (Hst2 & _ & _). rewrite Hst2, Hst1. fold st.
  match goal with
  | |- context [reconcileTasks rt ?ts ?pm ?sm ?stats w2] =>
      destruct (tasks_trace rt ts pm sm stats w2)
        as (d3 & Hsame3 & Hp3 & Hs3 & _ & Hlog3 & Hpre3 & Hout3 & Hnew3);
      destruct (reconcileTasks rt ts pm sm stats w2) as [[r3|e] w3]
  end; cbn [fst snd] in *.
  all: exists (d1 ++ d2 ++ d3)%list.
  all: split; [eapply sameEngine_trans; [|exact Hsame3];
               eapply sameEngine_trans; eauto|].
  all: split; [now rewrite Hlog3, Hlog2, Hlog1, <- !app_assoc|].
  all: split; [rewrite !map_app, Hk1, Hk2; now do 2 apply prefix_app_r|].
  all: split;
    [| intros Hd d Hin; apply in_app_or in Hin;
       destruct Hin as [Hin|Hin]; [eauto|];
       apply in_app_or in Hin; destruct Hin as [Hin|Hin]; [eauto|];
       intros Hnone; destruct Hd as (_ & _ & Hnd);
       apply (Hnew3 Hnd d Hin);
       rewrite (same_tasks _ _ _ Ht2), (same_tasks _ _ _ Ht1);
       apply hasNote_task; [|exact Hnone];
       apply (keyed_decision_kind KTask task_id _ _ _ Hpre3 Hin)].
  - intros stats [= <-]. destruct (Hout3 r3 eq_refl) as [Hk3 ->].
    split; [now rewrite !map_app, Hk1, Hk2, Hk3|].
    now rewrite !tally_app.
  - discriminate.
Qed.

Lemma settled_projects_kept (os os' : ObsidianState.t) (p : TodoistProject) :
  ObsidianState.projectNotes os' = ObsidianState.projectNotes os ->
  ProjectSettled os p -> ProjectSettled os' p.
Proof.
  intros Heq (n & Hl & Hs). exists n.
  now rewrite (same_projects _ _ _ Heq).
Qed.

Lemma settled_sections_kept (os os' : ObsidianState.t) (s : TodoistSection) :
  ObsidianState.sectionNotes os' = ObsidianState.sectionNotes os ->
  SectionSettled os s -> SectionSettled os' s.
Proof.
  intros Heq (n & Hl & Hs). exists n.
  now rewrite (same_sections _ _ _ Heq).
Qed.

(** After a pass that returns every entity it met is settled, the tasks
    provided the runtime reads back the stamps it prints and no task is
    stamped later than the clock. *)
Lemma pass_settles (w : World.t) (stats : Stats) :
  let res := reconcileStates rt w in
  let st := todoistState w in
  DistinctIds st ->
  DateFaithful rt (clock w) ->
  (forall t, In t (TodoistState.getAllTasks st) ->
             NotLaterThan rt (clock w) t) ->
  fst res = Returns stats ->
  AllSettled rt st (obsidianState (snd res)).
Proof.
  cbn zeta. rewrite states_unfold. set (st := todoistState w).
  intros (Hnd1 & Hnd2 & Hnd3) Hdate Hlate.
  destruct (projects_trace rt (TodoistState.getAllProjects st) noStats [] w)
    as (d1 & Hsame1 & _ & _ & _ & _ & _ & Hout1 & _).
  pose proof (projects_settle rt _ Hnd1 noStats [] w) as Hset1.
  destruct (reconcileProjects rt (TodoistState.getAllProjects st) noStats []
              w) as [[r1|e] w1]; cbn [fst snd] in *; [|discriminate].
  destruct (Hout1 r1 eq_refl) as [_ ->]. cbn [fst snd]. clear Hout1.
  specialize (Hset1 _ eq_refl).
  pose proof Hsame1 as (Hst1 & _ & Hclock1). rewrite Hst1. fold st.
  change (projectMapAfter (TodoistState.getAllProjects st) [])
    with (projectNames st).
  destruct (sections_trace rt (TodoistState.getAllSections st)
              (projectNames st) (tally d1 noStats) [] w1)
    as (d2 & Hsame2 & _ & Hp2 & _ & _ & _ & Hout2 & _).
  pose proof (sections_settle rt _ (projectNames st) Hnd2
                (tally d1 noStats) [] w1) as Hset2.
  destruct (reconcileSections rt (TodoistState.getAllSections st)
              (projectNames st) (tally d1 noStats) [] w1)
    as [[r2|e] w2]; cbn [fst snd] in *; [|discriminate].
  destruct (Hout2 r2 eq_refl) as [_ ->]. cbn [fst snd]. clear Hout2.
  specialize (Hset2 _ eq_refl).
  pose proof Hsame2 as (Hst2 & _ & Hclock2). rewrite Hst2, Hst1. fold st.
  rewrite <- Hclock1, <- Hclock2 in Hdate, Hlate.
  match goal with
  | |- context [reconcileTasks rt ?ts ?pm ?sm ?stats0 w2] =>
      destruct (tasks_trace rt ts pm sm stats0 w2)
        as (d3 & _ & Hp3 & Hs3 & _);
      pose proof (tasks_settle rt ts pm sm Hnd3 stats0 w2) as Hset3;
      destruct (reconcileTasks rt ts pm sm stats0 w2) as [[r3|e] w3]
  end; cbn [fst snd] in *; [|discriminate].
  intros _. split; [|split].
  - intros p Hp. apply (settled_projects_kept _ _ _ Hp3).
    apply (settled_projects_kept _ _ _ Hp2). now apply Hset1.
  - intros s Hs. apply (settled_sections_kept _ _ _ Hs3). now apply Hset2.
  - intros t Ht. now apply (Hset3 r3 Hdate Hlate eq_refl).
Qed.

(** Over settled entities a pass skips all it meets and changes nothing but
    the record of verdicts. *)
Lemma pass_skips (w : World.t) :
  let st := todoistState w in
  AllSettled rt st (obsidianState w) ->
  reconcileStates rt w
  = (Returns (tally (allSkipped st) noStats),
     appendDecisions (allSkipped st) w).
Proof.
  cbn zeta. set (st := todoistState w). intros (Hp & Hs & Ht).
  rewrite states_unfold. fold st.
  rewrite (projects_skip rt _ noStats [] w Hp). cbn [fst snd].
  set (d1 := map (fun p => verdictOf KProject (project_id p) Skipped)
               (TodoistState.getAllProjects st)).
  destruct (appendDecisions_frame d1 w) as (_ & _ & _ & _ & Hos1 & Hst1).
  cbn zeta in Hos1, Hst1. rewrite Hst1. fold st.
  change (projectMapAfter (TodoistState.getAllProjects st) [])
    with (projectNames st).
  rewrite (sections_skip rt _ (projectNames st) (tally d1 noStats) []
             (appendDecisions d1 w)) by (now rewrite Hos1).
  cbn [fst snd].
  set (d2 := map (fun s => verdictOf KSection (section_id s) Skipped)
               (reconciled (projectNames st)
                  (TodoistState.getAllSections st))).
  destruct (appendDecisions_frame d2 (appendDecisions d1 w))
    as (_ & _ & _ & _ & Hos2 & Hst2).
  cbn zeta in Hos2, Hst2. rewrite Hst2, Hst1. fold st.
  rewrite tasks_skip by (now rewrite Hos2, Hos1).
  set (d3 := map (fun t => verdictOf KTask (task_id t) Skipped)
               (TodoistState.getAllTasks st)).
  assert (Hall : allSkipped st = (d1 ++ d2 ++ d3)%list).
  { unfold allSkipped. rewrite expectedKeys_parts, !map_app, !map_map.
    reflexivity. }
  now rewrite Hall, !tally_app, !appendDecisions_app.
Qed.

End PassFacts.

(** ** The order of a pass *)

Section OrderFacts.
Import World SyncEngine.

Lemma nodup_tagged {E : Type} (k : Kind) (idf : E -> string) (xs : list E) :
  NoDup (map idf xs) -> NoDup (map (fun x => (k, idf x)) xs).
Proof.
  induction xs as [|x xs IH]; cbn; intros Hnd; [constructor|].
  inversion Hnd as [|? ? Hnot Hnd']; subst. constructor; [|now apply IH].
  intros Hin. apply Hnot. apply in_map_iff in Hin.
  destruct Hin as (y & [= Hy] & Hin). rewrite <- Hy. now apply in_map.
Qed.

Lemma tagged_kind {E : Type} (k : Kind) (idf : E -> string) (xs : list E)
      (key : Kind * string) :
  In key (map (fun x => (k, idf x)) xs) -> fst key = k.
Proof.
  intros Hin. apply in_map_iff in Hin. now destruct Hin as (x & <- & _).
Qed.

(** No entity is met twice in a pass over distinct ids. *)
Lemma expectedKeys_distinct (st : TodoistState.t) :
  DistinctIds st -> NoDup (expectedKeys st).
Proof.
  intros (Hp & Hs & Ht). unfold expectedKeys.
  apply NoDup_app; [now apply nodup_tagged | apply NoDup_app|].
  - apply (nodup_tagged KSection section_id).
    now apply nodup_images_filter.
  - now apply nodup_tagged.
  - intros key H1 H2.
    apply (tagged_kind KSection section_id) in H1.
    apply (tagged_kind KTask task_id) in H2. congruence.
  - intros key H1 H2. apply (tagged_kind KProject project_id) in H1.
    apply in_app_or in H2. destruct H2 as [H2|H2].
    + apply (tagged_kind KSection section_id) in H2. congruence.
    + apply (tagged_kind KTask task_id) in H2. congruence.
Qed.

(** What comes before an element of the first part is in the first part. *)
Lemma before_in_first {A : Type} (x : A) (b l2 : list A) :
  ~ In x b ->
  forall (l1 a : list A),
    (a ++ b)%list = (l1 ++ x :: l2)%list -> forall y, In y l1 -> In y a.
Proof.
  intros Hx. induction l1 as [|y0 l1 IH]; intros a Heq y Hy; [destruct Hy|].
  destruct a as [|a0 a]; cbn in Heq.
  - exfalso. apply Hx. rewrite Heq. right. apply in_or_app. right. now left.
  - injection Heq as -> Heq. destruct Hy as [<-|Hy]; [now left|].
    right. now apply (IH a).
Qed.

Lemma nodup_others {A B : Type} (f : A -> B) (l1 l2 : list A) (x : A) :
  NoDup (map f (l1 ++ x :: l2)) ->
  forall d, In d (l1 ++ l2) -> f d <> f x.
Proof.
  rewrite map_app. cbn. intros Hnd d Hd Heq.
  apply NoDup_remove_2 in Hnd. apply Hnd. rewrite <- map_app, <- Heq.
  now apply in_map.
Qed.

Lemma decision_eta (d : Decision) (k : Kind) (id : string) (v : Verdict) :
  keyOf d = (k, id) -> d_verdict d = v -> d = verdictOf k id v.
Proof. destruct d. unfold keyOf, verdictOf. cbn. congruence. Qed.

(** The one verdict of an entity without a note, in a pass that returns. *)
Lemma created_once (st : TodoistState.t) (os : ObsidianState.t)
      (ds : list Decision) (key : Kind * string) :
  map keyOf ds = expectedKeys st ->
  (forall d, In d ds -> hasNote os (keyOf d) = false ->
             d_verdict d = Created) ->
  In key (expectedKeys st) -> hasNote os key = false ->
  In (verdictOf (fst key) (snd key) Created) ds.
Proof.
  intros Hkeys Hnew Hin Hnone. rewrite <- Hkeys in Hin.
  apply in_map_iff in Hin. destruct Hin as (d & Hd & Hin).
  rewrite <- Hd in Hnone.
  rewrite <- (decision_eta d (fst key) (snd key) Created); auto.
  rewrite Hd. now destruct key.
Qed.

End OrderFacts.

(** ** Where a pass puts the task documents *)

Section PlacementFacts.
Import World SyncEngine.
Variable rt : JsRuntime.

(** The step of a task without a note stores the note generated for it. *)
Lemma task_placed (task : TodoistTask) (projectName sectionName : option string)
      (w : World.t) (v : Verdict) :
  ObsidianState.getTaskNote (VStr (task_id task)) (obsidianState w) = None ->
  fst (reconcileTask rt task projectName sectionName w) = Returns v ->
  exists stamp,
    ObsidianState.getTaskNote (VStr (task_id task))
      (obsidianState (snd (reconcileTask rt task projectName sectionName w)))
    = Some (taskNoteOf rt (fileGenerator w) (clock w) task projectName
              sectionName None stamp).
Proof.
  intros Hnone. rewrite reconcileTask_shape.
  destruct (shape_outcome
              (ObsidianState.getTaskNote (VStr (task_id task)))
              (taskStale rt task)
              (fun g o =>
                 FileGenerator.createOrUpdateTaskNote rt g task projectName
                   sectionName (option_map tn_filePath o))
              (ObsidianState.setTaskNote (VStr (task_id task)))
              KTask (task_id task)
              (fun g o c n => exists stamp,
                   n = taskNoteOf rt g c task projectName sectionName
                         (option_map tn_filePath o) stamp)
              (fun g o => mat_taskNote rt g task projectName sectionName
                            (option_map tn_filePath o)) w)
    as (v0 & ops & H).
  destruct (fst (reconcileShape _ _ _ _ _ _ w)) as [verdict|e];
    [|discriminate].
  intros _. destruct H as (os' & -> & Hcase). cbn.
  destruct Hcase as [(_ & _ & n & Hl & _)
                    |(_ & _ & note & (stamp & ->) & ->)]; [congruence|].
  exists stamp. rewrite Hnone. unfold ObsidianState.getTaskNote. cbn.
  apply get_set_same, value_key_refl.
Qed.

Lemma tasks_unfold (t : TodoistTask) (ts : list TodoistTask)
      (pm sm : StrMap string) (stats : Stats) :
  reconcileTasks rt (t :: ts) pm sm stats
  = bind (reconcileTask rt t
            (JsMap.get String.eqb (task_project_id t) pm)
            (sectionNameFor sm t))
      (fun result => reconcileTasks rt ts pm sm (count KTask result stats)).
Proof. reflexivity. Qed.

(** A task loop that returns leaves, for every task that had no note, the
    note generated under the names its ids resolve to. *)
Lemma tasks_placed (ts : list TodoistTask) (pm sm : StrMap string) :
  NoDup (map task_id ts) ->
  forall (stats : Stats) (w : World.t) out,
    fst (reconcileTasks rt ts pm sm stats w) = Returns out ->
    forall t,
      In t ts ->
      ObsidianState.getTaskNote (VStr (task_id t)) (obsidianState w) = None ->
      exists stamp,
        ObsidianState.getTaskNote (VStr (task_id t))
          (obsidianState (snd (reconcileTasks rt ts pm sm stats w)))
        = Some (taskNoteOf rt (fileGenerator w) (clock w) t
                  (JsMap.get String.eqb (task_project_id t) pm)
                  (sectionNameFor sm t) None stamp).
Proof.
  induction ts as [|t ts IH]; intros Hnd stats w out Hret q Hin Hnone;
    [destruct Hin|].
  inversion Hnd as [|? ? Hnot Hnd']; subst.
  rewrite tasks_unfold in *. unfold bind in *.
  pose proof (task_step rt t (JsMap.get String.eqb (task_project_id t) pm)
                (sectionNameFor sm t) w) as Hstep.
  cbn zeta in Hstep.
  pose proof (task_placed t (JsMap.get String.eqb (task_project_id t) pm)
                (sectionNameFor sm t) w) as Hplaced.
  destruct (reconcileTask rt t _ _ w) as [[v|e] w1]; cbn [fst snd] in *;
    [|discriminate].
  destruct Hstep as ((_ & Hg & Hc) & _ & _ & Hq & _).
  destruct (tasks_trace rt ts pm sm (count KTask v stats) w1)
    as (ds & _ & _ & _ & Hq' & _).
  destruct Hin as [<-|Hin].
  - destruct (Hplaced v Hnone eq_refl) as (stamp & Hl). exists stamp.
    now rewrite Hq'.
  - rewrite <- Hg, <- Hc. apply (IH Hnd' _ _ out Hret q Hin).
    rewrite Hq; [exact Hnone|].
    intros Heq. apply Hnot. rewrite <- Heq. now apply in_map.
Qed.

(** Without a project name the document goes into the sync folder. *)
Lemma unresolved_at_root (g : Generator) (t : TodoistTask)
      (pm : StrMap string) (sectionName : option string) :
  isResolved pm (task_project_id t) = false ->
  taskFilePath g t (JsMap.get String.eqb (task_project_id t) pm) sectionName
    None
  = g_syncFolderPath g ++ "/" ++ Sanitizer.sanitizeFileName (taskTitle t)
    ++ ".md".
Proof.
  unfold isResolved, resolvedName, taskFilePath,
    FileGenerator.getTaskFolderPath.
  cbn [FileGenerator.given].
  destruct (JsMap.get String.eqb (task_project_id t) pm) as [name|];
    [|reflexivity].
  now destruct (isEmpty name).
Qed.

(** A pass that returns leaves, for every task that had no note, the note
    generated under the names the two maps of the pass give. *)
Lemma pass_places (w : World.t) (stats : Stats) :
  let res := reconcileStates rt w in
  let st := todoistState w in
  DistinctIds st ->
  fst res = Returns stats ->
  forall t,
    In t (TodoistState.getAllTasks st) ->
    hasNote (obsidianState w) (taskKey t) = false ->
    exists stamp,
      ObsidianState.getTaskNote (VStr (task_id t)) (obsidianState (snd res))
      = Some (taskNoteOf rt (fileGenerator w) (clock w) t
                (JsMap.get String.eqb (task_project_id t) (projectNames st))
                (sectionNameFor (sectionNames st) t) None stamp).
Proof.
  cbn zeta. rewrite states_unfold. set (st := todoistState w).
  intros (_ & _ & Hnd3).
  destruct (projects_trace rt (TodoistState.getAllProjects st) noStats [] w)
    as (d1 & Hsame1 & Ht1 & _ & _ & _ & _ & Hout1 & _).
  destruct (reconcileProjects rt (TodoistState.getAllProjects st) noStats []
              w) as [[r1|e] w1]; cbn [fst snd] in *; [|discriminate].
  destruct (Hout1 r1 eq_refl) as [_ ->]. cbn [fst snd]. clear Hout1.
  pose proof Hsame1 as (Hst1 & Hg1 & Hc1). rewrite Hst1. fold st.
  change (projectMapAfter (TodoistState.getAllProjects st) [])
    with (projectNames st).
  destruct (sections_trace rt (TodoistState.getAllSections st)
              (projectNames st) (tally d1 noStats) [] w1)
    as (d2 & Hsame2 & Ht2 & _ & _ & _ & _ & Hout2 & _).
  destruct (reconcileSections rt (TodoistState.getAllSections st)
              (projectNames st) (tally d1 noStats) [] w1)
    as [[r2|e] w2]; cbn [fst snd] in *; [|discriminate].
  destruct (Hout2 r2 eq_refl) as [_ ->]. cbn [fst snd]. clear Hout2.
  pose proof Hsame2 as (Hst2 & Hg2 & Hc2). rewrite Hst2, Hst1. fold st.
  change (sectionMapAfter
            (reconciled (projectNames st) (TodoistState.getAllSections st))
            []) with (sectionNames st).
  intros Hret t Hin Hnone.
  rewrite <- Hg1, <- Hg2, <- Hc1, <- Hc2.
  apply (tasks_placed _ _ _ Hnd3 _ _ stats Hret t Hin).
  rewrite (same_tasks _ _ _ Ht2), (same_tasks _ _ _ Ht1).
  unfold hasNote in Hnone. cbn [taskKey fst snd] in Hnone.
  now destruct (ObsidianState.getTaskNote _ (obsidianState w)).
Qed.

End PlacementFacts.

(** ** What the materializers ask of the vault *)

Section WriteFacts.
Import World FileGenerator.

Lemma writes_ret {A : Type} (a : A) : Writes (ret a) (fun ops => ops = []).
Proof. intros w b _. exists []. cbn. now rewrite app_nil_r. Qed.

Lemma writes_throw {A : Type} (e : string) (P : list Vault.Op -> Prop) :
  Writes (@throw A e) P.
Proof. intros w a. discriminate. Qed.

Lemma writes_gets {A : Type} (f : World.t -> A) :
  Writes (gets f) (fun ops => ops = []).
Proof. intros w b _. exists []. cbn. now rewrite app_nil_r. Qed.

Lemma writes_weaken {A : Type} (m : M A) (P P' : list Vault.Op -> Prop) :
  (forall ops, P ops -> P' ops) -> Writes m P -> Writes m P'.
Proof.
  intros HP Hm w a Hret. destruct (Hm w a Hret) as (ops & Hl & Hp).
  exists ops. auto.
Qed.

Lemma writes_bind {A B : Type} (m : M A) (k : A -> M B)
      (P1 P2 P : list Vault.Op -> Prop) :
  Writes m P1 -> (forall a, Writes (k a) P2) ->
  (forall o1 o2, P1 o1 -> P2 o2 -> P (o1 ++ o2)%list) ->
  Writes (bind m k) P.
Proof.
  intros Hm Hk HP w b. unfold bind.
  pose proof (Hm w) as Hmw.
  destruct (m w) as [[a|e] w1]; cbn [fst snd] in *; [|discriminate].
  destruct (Hmw a eq_refl) as (o1 & Hl1 & Hp1). intros Hret.
  destruct (Hk a w1 b Hret) as (o2 & Hl2 & Hp2).
  exists (o1 ++ o2)%list. split; [|now apply HP].
  now rewrite Hl2, Hl1, app_assoc.
Qed.

Lemma onlyFolders_nil : OnlyFolders [].
Proof. reflexivity. Qed.

Lemma onlyFolders_app (o1 o2 : list Vault.Op) :
  OnlyFolders o1 -> OnlyFolders o2 -> OnlyFolders (o1 ++ o2).
Proof. unfold OnlyFolders. rewrite forallb_app. now intros -> ->. Qed.

Lemma oneDocument_after (o1 o2 : list Vault.Op) (p : string) :
  OnlyFolders o1 -> OneDocument p o2 -> OneDocument p (o1 ++ o2).
Proof.
  intros H1 (folders & op & -> & Hf & Hop).
  exists (o1 ++ folders)%list, op. rewrite app_assoc.
  split; [reflexivity|]. split; [now apply onlyFolders_app | exact Hop].
Qed.

(** Steps that create folders at most, before one that ends with the
    document. *)
Lemma writes_after_folders {A B : Type} (m : M A) (k : A -> M B)
      (p : string) :
  Writes m OnlyFolders -> (forall a, Writes (k a) (OneDocument p)) ->
  Writes (bind m k) (OneDocument p).
Proof.
  intros Hm Hk. apply (writes_bind m k OnlyFolders (OneDocument p)); auto.
  intros o1 o2. apply oneDocument_after.
Qed.

Lemma writes_lookup (p : string) :
  Writes (getAbstractFileByPath p) OnlyFolders.
Proof.
  apply (writes_weaken _ (fun ops => ops = [])); [now intros ops ->|].
  apply writes_gets.
Qed.

Lemma writes_now : Writes now OnlyFolders.
Proof.
  apply (writes_weaken _ (fun ops => ops = [])); [now intros ops ->|].
  apply writes_gets.
Qed.

Lemma writes_createFolder (p : string) : Writes (createFolder p) OnlyFolders.
Proof.
  intros w a. unfold createFolder, bind, getAbstractFileByPath, gets, modify,
    throw, storageWrite. cbn.
  destruct (Vault.getAbstractFileByPath p (vault w)); [discriminate|].
  destruct (storageFails w (Vault.CreateFolder p)); [discriminate|].
  intros _. now exists [Vault.CreateFolder p].
Qed.

Lemma writes_ensure (p : string) (folder : option Vault.AbstractFile) :
  Writes
    (match folder with
     | None => createFolder p
     | Some _ => ret tt
     end)
    OnlyFolders.
Proof.
  destruct folder; [|apply writes_createFolder].
  apply (writes_weaken _ (fun ops => ops = [])); [now intros ops ->|].
  apply writes_ret.
Qed.

Lemma writes_ensureSyncFolder (g : Generator) :
  Writes (ensureSyncFolder g) OnlyFolders.
Proof.
  unfold ensureSyncFolder.
  apply (writes_bind _ _ OnlyFolders OnlyFolders);
    [apply writes_lookup | intros; apply writes_ensure
     | apply onlyFolders_app].
Qed.

Lemma found_file_path (p : string) (v : Vault.t) (f : Vault.TFile) :
  Vault.getAbstractFileByPath p v = Some (Vault.IsFile f) ->
  Vault.path f = p.
Proof.
  unfold Vault.getAbstractFileByPath.
  destruct (Vault.findFile p (Vault.files v)) as [f'|] eqn:Hf.
  - intros [= <-]. induction (Vault.files v) as [|x fs IH]; cbn in Hf;
      [discriminate|].
    destruct (String.eqb_spec (Vault.path x) p) as [Hx|_]; [|now apply IH].
    now injection Hf as <-.
  - destruct (Vault.hasFolder p v); discriminate.
Qed.

(** Outside a dry run the last step of the materializers asks for one
    write, that of the document. *)
Lemma writes_writeNote (g : Generator) (p data : string) :
  g_dryRun g = false -> Writes (writeNote g p data) (OneWrite p).
Proof.
  intros Hdry w a. unfold writeNote, bind, getAbstractFileByPath, gets.
  cbn. rewrite Hdry.
  destruct (Vault.getAbstractFileByPath p (vault w)) as [[f|q]|] eqn:El.
  - unfold modifyFile, storageWrite. cbn.
    destruct (storageFails w (Vault.Modify (Vault.path f) data));
      [discriminate|]. cbn.
    destruct (Vault.getAbstractFileByPath p
                (Vault.writeFile (Vault.path f) data (clock w) (vault w)))
      as [[f'|q']|]; try discriminate.
    intros _. exists [Vault.Modify (Vault.path f) data].
    split; [reflexivity|]. eexists. split; [reflexivity|]. cbn.
    rewrite (found_file_path _ _ _ El). apply String.eqb_refl.
  - unfold create, bind, getAbstractFileByPath, gets, modify, throw. cbn.
    rewrite El. discriminate.
  - unfold create, bind, getAbstractFileByPath, gets, storageWrite. cbn.
    rewrite El.
    destruct (storageFails w (Vault.Create p data)); [discriminate|]. cbn.
    destruct (Vault.getAbstractFileByPath p
                (Vault.addFile p data (clock w) (vault w)))
      as [[f'|q']|]; try discriminate.
    intros _. exists [Vault.Create p data].
    split; [reflexivity|]. eexists. split; [reflexivity|]. cbn.
    apply String.eqb_refl.
Qed.

Lemma oneWrite_document (p : string) (ops : list Vault.Op) :
  OneWrite p ops -> OneDocument p (ops ++ []).
Proof.
  intros (op & -> & Hop). now exists [], op.
Qed.

Ltac written_tail :=
  apply writes_after_folders; [apply writes_lookup|]; intros ?;
  apply writes_after_folders; [apply writes_ensure|]; intros _;
  apply writes_after_folders; [apply writes_now|]; intros ?;
  eapply (writes_bind _ _ (OneWrite _) (fun ops => ops = []));
  [ apply writes_writeNote; assumption
  | intros ?; apply writes_ret
  | intros ? ? ? ->; now apply oneWrite_document ].

Variable rt : JsRuntime.

Lemma writes_projectNote (g : Generator) (project : TodoistProject) :
  g_dryRun g = false ->
  Writes (createOrUpdateProjectNote rt g project)
    (OneDocument (projectFilePath g project)).
Proof.
  intros Hdry. unfold createOrUpdateProjectNote, projectFilePath.
  apply writes_after_folders; [apply writes_ensureSyncFolder|]. intros _.
  written_tail.
Qed.

Lemma writes_sectionNote (g : Generator) (section : TodoistSection)
      (projectName : string) :
  g_dryRun g = false ->
  Writes (createOrUpdateSectionNote rt g section projectName)
    (OneDocument (sectionFilePath g section projectName)).
Proof.
  intros Hdry. unfold createOrUpdateSectionNote, sectionFilePath.
  apply writes_after_folders; [apply writes_ensureSyncFolder|]. intros _.
  written_tail.
Qed.

Lemma writes_taskNote (g : Generator) (task : TodoistTask)
      (projectName sectionName existingFilePath : option string) :
  g_dryRun g = false ->
  Writes
    (createOrUpdateTaskNote rt g task projectName sectionName
       existingFilePath)
    (OneDocument
       (taskFilePath g task projectName sectionName existingFilePath)).
Proof.
  intros Hdry. unfold createOrUpdateTaskNote, taskFilePath, taskTitle, given.
  apply writes_after_folders; [apply writes_ensureSyncFolder|]. intros _.
  destruct existingFilePath as [existing|];
    [destruct (isEmpty existing)|]; cbn [negb]; written_tail.
Qed.

End WriteFacts.

(** ** What a pass asks of the vault *)

Section ShapeWrites.
Import World SyncEngine.
Context {N : Type}
        (lookup : ObsidianState.t -> option N) (stale : N -> bool)
        (generate : Generator -> option N -> M N)
        (store : N -> ObsidianState.t -> ObsidianState.t)
        (k : Kind) (id : string)
        (pathOf : Generator -> option N -> string).
Hypothesis generate_writes :
  forall g o,
    g_dryRun g = false -> Writes (generate g o) (OneDocument (pathOf g o)).

(** Outside a dry run a step that answers created or updated has written
    one document, that of its note; one that answers skipped has written
    nothing. *)
Lemma shape_writes (w : World.t) (v : Verdict) :
  g_dryRun (fileGenerator w) = false ->
  fst (reconcileShape lookup stale generate store k id w) = Returns v ->
  exists ops,
    vaultLog (snd (reconcileShape lookup stale generate store k id w))
    = (vaultLog w ++ ops)%list
    /\ if acted (verdictOf k id v)
       then OneDocument (pathOf (fileGenerator w) (lookup (obsidianState w)))
              ops
       else ops = [].
Proof.
  intros Hdry. unfold reconcileShape, bind, gets, decide, modify, ret.
  cbn. destruct (lookup (obsidianState w)) as [existing|];
    [destruct (stale existing)|].
  - pose proof (generate_writes _ (Some existing) Hdry w) as Hg.
    destruct (generate (fileGenerator w) (Some existing) w)
      as [[note|e] w1]; cbn in *; [|discriminate].
    destruct (Hg note eq_refl) as (ops & Hl & Hp).
    intros [= <-]. now exists ops.
  - intros [= <-]. exists []. cbn. now rewrite app_nil_r.
  - pose proof (generate_writes _ None Hdry w) as Hg.
    destruct (generate (fileGenerator w) None w) as [[note|e] w1];
      cbn in *; [|discriminate].
    destruct (Hg note eq_refl) as (ops & Hl & Hp).
    intros [= <-]. now exists ops.
Qed.

End ShapeWrites.

Section PassWrites.
Import World SyncEngine.
Variable rt : JsRuntime.

Lemma project_writes (project : TodoistProject) (w : World.t) (v : Verdict) :
  g_dryRun (fileGenerator w) = false ->
  fst (reconcileProject rt project w) = Returns v ->
  exists ops,
    vaultLog (snd (reconcileProject rt project w)) = (vaultLog w ++ ops)%list
    /\ if acted (verdictOf KProject (project_id project) v)
       then OneDocument (projectFilePath (fileGenerator w) project) ops
       else ops = [].
Proof.
  rewrite reconcileProject_shape.
  apply (shape_writes _ _ _ _ _ _
           (fun g _ => projectFilePath g project)).
  intros g o. apply writes_projectNote.
Qed.

Lemma section_writes (section : TodoistSection) (projectName : string)
      (w : World.t) (v : Verdict) :
  g_dryRun (fileGenerator w) = false ->
  fst (reconcileSection rt section projectName w) = Returns v ->
  exists ops,
    vaultLog (snd (reconcileSection rt section projectName w))
    = (vaultLog w ++ ops)%list
    /\ if acted (verdictOf KSection (section_id section) v)
       then OneDocument
              (sectionFilePath (fileGenerator w) section projectName) ops
       else ops = [].
Proof.
  rewrite reconcileSection_shape.
  apply (shape_writes _ _ _ _ _ _
           (fun g _ => sectionFilePath g section projectName)).
  intros g o. apply writes_sectionNote.
Qed.

Lemma task_writes (task : TodoistTask) (projectName sectionName : option string)
      (w : World.t) (v : Verdict) :
  g_dryRun (fileGenerator w) = false ->
  fst (reconcileTask rt task projectName sectionName w) = Returns v ->
  exists ops,
    vaultLog (snd (reconcileTask rt task projectName sectionName w))
    = (vaultLog w ++ ops)%list
    /\ if acted (verdictOf KTask (task_id task) v)
       then OneDocument
              (taskFilePath (fileGenerator w) task projectName sectionName
                 (option_map tn_filePath
                    (ObsidianState.getTaskNote (VStr (task_id task))
                       (obsidianState w))))
              ops
       else ops = [].
Proof.
  rewrite reconcileTask_shape.
  apply (shape_writes _ _ _ _ _ _
           (fun g o => taskFilePath g task projectName sectionName
                         (option_map tn_filePath o))).
  intros g o. apply writes_taskNote.
Qed.

Lemma skipn_exact {A : Type} (l x : list A) : skipn (length l) (l ++ x) = x.
Proof. induction l; [reflexivity | assumption]. Qed.

(** What was added since an earlier record, in two steps. *)
Lemma added_trans {A : Type} (l l1 l2 o1 : list A) :
  l1 = (l ++ o1)%list ->
  l2 = (l1 ++ skipn (length l1) l2)%list ->
  skipn (length l) l2 = (o1 ++ skipn (length l1) l2)%list
  /\ l2 = (l ++ skipn (length l) l2)%list.
Proof.
  intros H1 H2.
  assert (H : l2 = (l ++ o1 ++ skipn (length l1) l2)%list).
  { rewrite H2 at 1. rewrite H1 at 1. now rewrite <- app_assoc. }
  assert (Hs : skipn (length l) l2 = (o1 ++ skipn (length l1) l2)%list).
  { rewrite H at 1. apply skipn_exact. }
  split; [exact Hs|]. rewrite Hs. exact H.
Qed.

Lemma added_nil {A : Type} (l : list A) :
  l = (l ++ skipn (length l) l)%list /\ skipn (length l) l = [].
Proof.
  assert (H : skipn (length l) l = []) by apply skipn_all.
  rewrite H, app_nil_r. now split.
Qed.

Lemma oneDocument_count (p : string) (ops : list Vault.Op) :
  OneDocument p ops -> length (documentWrites ops) = 1.
Proof.
  intros (folders & op & -> & Hf & Hop). unfold documentWrites.
  rewrite filter_app, length_app.
  assert (Hnone : filter isDocumentWrite folders = []).
  { unfold OnlyFolders in Hf.
    induction folders as [|f fs IH]; [reflexivity|]. cbn in *.
    apply andb_prop in Hf as [Hf1 Hf2]. destruct f; try discriminate.
    now apply IH. }
  rewrite Hnone. cbn. destruct op; cbn in *; try discriminate; reflexivity.
Qed.

Lemma oneDocument_split (p : string) (ops : list Vault.Op) :
  OneDocument p ops ->
  exists a op, ops = (a ++ [op])%list /\ isWriteAt p op = true.
Proof. intros (folders & op & -> & _ & Hop). now exists folders, op. Qed.

(** The document writes of a step are as many as its verdict counts. *)
Lemma step_count (p : string) (d : Decision) (ops : list Vault.Op) :
  (if acted d then OneDocument p ops else ops = []) ->
  length (documentWrites ops) = length (filter acted [d]).
Proof.
  cbn. destruct (acted d); [apply oneDocument_count | now intros ->].
Qed.

(** One more step in front of a run whose writes and verdicts are
    counted. *)
Lemma counted_step (w w1 w2 : World.t) (ops : list Vault.Op) (d : Decision) :
  vaultLog w1 = (vaultLog w ++ ops)%list ->
  decisionLog w1 = (decisionLog w ++ [d])%list ->
  length (documentWrites ops) = length (filter acted [d]) ->
  vaultLog w2 = (vaultLog w1 ++ newOps w1 w2)%list ->
  decisionLog w2 = (decisionLog w1 ++ newDecisions w1 w2)%list ->
  length (documentWrites (newOps w1 w2))
  = length (filter acted (newDecisions w1 w2)) ->
  newOps w w2 = (ops ++ newOps w1 w2)%list
  /\ vaultLog w2 = (vaultLog w ++ newOps w w2)%list
  /\ decisionLog w2 = (decisionLog w ++ newDecisions w w2)%list
  /\ length (documentWrites (newOps w w2))
     = length (filter acted (newDecisions w w2)).
Proof.
  intros Hv Hd Hc Hv2 Hd2 Hc2.
  destruct (added_trans _ _ _ _ Hv Hv2) as [Hn He].
  destruct (added_trans _ _ _ _ Hd Hd2) as [Hn' He'].
  fold (newOps w w2) in Hn, He. fold (newDecisions w w2) in Hn', He'.
  fold (newOps w1 w2) in Hn. fold (newDecisions w1 w2) in Hn'.
  do 3 (split; [assumption|]).
  rewrite Hn, Hn'. unfold documentWrites in *.
  rewrite !filter_app, !length_app. now rewrite Hc, Hc2.
Qed.

Lemma counted_none (w : World.t) :
  vaultLog w = (vaultLog w ++ newOps w w)%list
  /\ decisionLog w = (decisionLog w ++ newDecisions w w)%list
  /\ length (documentWrites (newOps w w))
     = length (filter acted (newDecisions w w)).
Proof.
  destruct (added_nil (vaultLog w)) as [H1 H2].
  destruct (added_nil (decisionLog w)) as [H3 H4].
  unfold newOps, newDecisions. rewrite H2, H4.
  repeat split; now rewrite app_nil_r.
Qed.

(** Outside a dry run a project loop that returns has written as many
    documents as it counts created and updated, and the document of every
    project that had no note. *)
Lemma projects_writes (ps : list TodoistProject) :
  forall (stats : Stats) (pm : StrMap string) (w : World.t) out,
    g_dryRun (fileGenerator w) = false ->
    fst (reconcileProjects rt ps stats pm w) = Returns out ->
    let w' := snd (reconcileProjects rt ps stats pm w) in
    vaultLog w' = (vaultLog w ++ newOps w w')%list
    /\ decisionLog w' = (decisionLog w ++ newDecisions w w')%list
    /\ length (documentWrites (newOps w w'))
       = length (filter acted (newDecisions w w'))
    /\ (NoDup (map project_id ps) ->
        forall p,
          In p ps ->
          ObsidianState.getProjectNote (VStr (project_id p)) (obsidianState w)
          = None ->
          exists a op b,
            newOps w w' = (a ++ op :: b)%list
            /\ isWriteAt (projectFilePath (fileGenerator w) p) op = true).
Proof.
  induction ps as [|p ps IH]; intros stats pm w out Hdry Hret; cbn zeta.
  - cbn [reconcileProjects ret snd].
    destruct (counted_none w) as (H1 & H2 & H3).
    do 3 (split; [assumption|]). intros _ q [].
  - cbn [reconcileProjects] in *. unfold bind in *.
    pose proof (project_step rt p w) as Hstep. cbn zeta in Hstep.
    pose proof (project_writes p w) as Hwrites.
    pose proof (project_first rt p w) as Hfirst.
    destruct (reconcileProject rt p w) as [[v|e] w1]; cbn [fst snd] in *;
      [|discriminate].
    destruct Hstep as ((_ & Hg & _) & _ & _ & Hq & Hlog & _).
    destruct (Hwrites v Hdry eq_refl) as (ops & Hv & Hif).
    rewrite <- Hg in Hdry.
    destruct (IH _ _ w1 out Hdry Hret) as (Hv2 & Hd2 & Hc2 & Hw2).
    destruct (counted_step w w1 _ ops _ Hv Hlog (step_count _ _ _ Hif)
                Hv2 Hd2 Hc2) as (Hn & He & He' & Hc).
    do 3 (split; [assumption|]).
    intros Hnd q Hin Hnone. inversion Hnd as [|? ? Hnot Hnd']; subst.
    rewrite Hn. destruct Hin as [<-|Hin].
    + rewrite (Hfirst v Hnone eq_refl) in Hif. cbn in Hif.
      destruct (oneDocument_split _ _ Hif) as (a & op & -> & Hop).
      exists a, op, (newOps w1 (snd (reconcileProjects rt ps
                                      (count KProject Created stats)
                                      (JsMap.set String.eqb (project_id p)
                                         (project_name p) pm) w1))).
      rewrite (Hfirst v Hnone eq_refl), <- app_assoc. now split.
    + destruct (Hw2 Hnd' q Hin) as (a & op & b & Hsplit & Hop).
      { rewrite Hq; [exact Hnone|]. intros Heq. apply Hnot.
        rewrite <- Heq. now apply in_map. }
      exists (ops ++ a)%list, op, b. rewrite Hsplit, <- app_assoc.
      rewrite <- Hg. now split.
Qed.

(** The same count for the section loop. *)
Lemma sections_writes (ss : list TodoistSection) (pm : StrMap string) :
  forall (stats : Stats) (sm : StrMap string) (w : World.t) out,
    g_dryRun (fileGenerator w) = false ->
    fst (reconcileSections rt ss pm stats sm w) = Returns out ->
    let w' := snd (reconcileSections rt ss pm stats sm w) in
    vaultLog w' = (vaultLog w ++ newOps w w')%list
    /\ decisionLog w' = (decisionLog w ++ newDecisions w w')%list
    /\ length (documentWrites (newOps w w'))
       = length (filter acted (newDecisions w w')).
Proof.
  induction ss as [|s ss IH]; intros stats sm w out Hdry Hret; cbn zeta.
  - cbn [reconcileSections ret snd]. apply counted_none.
  - rewrite sections_unfold in *.
    destruct (resolvedName pm (section_project_id s)) as [name|];
      [|now apply (IH _ _ _ out)].
    unfold bind in *.
    pose proof (section_step rt s name w) as Hstep. cbn zeta in Hstep.
    pose proof (section_writes s name w) as Hwrites.
    destruct (reconcileSection rt s name w) as [[v|e] w1];
      cbn [fst snd] in *; [|discriminate].
    destruct Hstep as ((_ & Hg & _) & _ & _ & _ & Hlog & _).
    destruct (Hwrites v Hdry eq_refl) as (ops & Hv & Hif).
    rewrite <- Hg in Hdry.
    destruct (IH _ _ w1 out Hdry Hret) as (Hv2 & Hd2 & Hc2).
    destruct (counted_step w w1 _ ops _ Hv Hlog (step_count _ _ _ Hif)
                Hv2 Hd2 Hc2) as (Hn & He & He' & Hc).
    now repeat split.
Qed.

(** The task loop: the count, and the document of every task that had no
    note, at the path the names of the pass give. *)
Lemma tasks_writes (ts : list TodoistTask) (pm sm : StrMap string) :
  forall (stats : Stats) (w : World.t) out,
    g_dryRun (fileGenerator w) = false ->
    fst (reconcileTasks rt ts pm sm stats w) = Returns out ->
    let w' := snd (reconcileTasks rt ts pm sm stats w) in
    vaultLog w' = (vaultLog w ++ newOps w w')%list
    /\ decisionLog w' = (decisionLog w ++ newDecisions w w')%list
    /\ length (documentWrites (newOps w w'))
       = length (filter acted (newDecisions w w'))
    /\ (NoDup (map task_id ts) ->
        forall t,
          In t ts ->
          ObsidianState.getTaskNote (VStr (task_id t)) (obsidianState w)
          = None ->
          exists a op b,
            newOps w w' = (a ++ op :: b)%list
            /\ isWriteAt
                 (taskFilePath (fileGenerator w) t
                    (JsMap.get String.eqb (task_project_id t) pm)
                    (sectionNameFor sm t) None) op = true).
Proof.
  induction ts as [|t ts IH]; intros stats w out Hdry Hret; cbn zeta.
  - cbn [reconcileTasks ret snd].
    destruct (counted_none w) as (H1 & H2 & H3).
    do 3 (split; [assumption|]). intros _ q [].
  - rewrite tasks_unfold in *. unfold bind in *.
    pose proof (task_step rt t (JsMap.get String.eqb (task_project_id t) pm)
                  (sectionNameFor sm t) w) as Hstep.
    cbn zeta in Hstep.
    pose proof (task_writes t (JsMap.get String.eqb (task_project_id t) pm)
                  (sectionNameFor sm t) w) as Hwrites.
    pose proof (task_first rt t (JsMap.get String.eqb (task_project_id t) pm)
                  (sectionNameFor sm t) w) as Hfirst.
    destruct (reconcileTask rt t _ _ w) as [[v|e] w1]; cbn [fst snd] in *;
      [|discriminate].
    destruct Hstep as ((_ & Hg & _) & _ & _ & Hq & Hlog & _).
    destruct (Hwrites v Hdry eq_refl) as (ops & Hv & Hif).
    rewrite <- Hg in Hdry.
    destruct (IH _ w1 out Hdry Hret) as (Hv2 & Hd2 & Hc2 & Hw2).
    destruct (counted_step w w1 _ ops _ Hv Hlog (step_count _ _ _ Hif)
                Hv2 Hd2 Hc2) as (Hn & He & He' & Hc).
    do 3 (split; [assumption|]).
    intros Hnd q Hin Hnone. inversion Hnd as [|? ? Hnot Hnd']; subst.
    rewrite Hn. destruct Hin as [<-|Hin].
    + rewrite (Hfirst v Hnone eq_refl), Hnone in Hif. cbn in Hif.
      destruct (oneDocument_split _ _ Hif) as (a & op & -> & Hop).
      exists a, op, (newOps w1 (snd (reconcileTasks rt ts pm sm
                                      (count KTask Created stats) w1))).
      rewrite (Hfirst v Hnone eq_refl), <- app_assoc. now split.
    + destruct (Hw2 Hnd' q Hin) as (a & op & b & Hsplit & Hop).
      { rewrite Hq; [exact Hnone|]. intros Heq. apply Hnot.
        rewrite <- Heq. now apply in_map. }
      exists (ops ++ a)%list, op, b. rewrite Hsplit, <- app_assoc.
      rewrite <- Hg. now split.
Qed.

(** Two runs in a row whose writes and verdicts are counted. *)
Lemma counted_trans (w w1 w2 : World.t) :
  vaultLog w1 = (vaultLog w ++ newOps w w1)%list ->
  decisionLog w1 = (decisionLog w ++ newDecisions w w1)%list ->
  length (documentWrites (newOps w w1))
  = length (filter acted (newDecisions w w1)) ->
  vaultLog w2 = (vaultLog w1 ++ newOps w1 w2)%list ->
  decisionLog w2 = (decisionLog w1 ++ newDecisions w1 w2)%list ->
  length (documentWrites (newOps w1 w2))
  = length (filter acted (newDecisions w1 w2)) ->
  newOps w w2 = (newOps w w1 ++ newOps w1 w2)%list
  /\ vaultLog w2 = (vaultLog w ++ newOps w w2)%list
  /\ decisionLog w2 = (decisionLog w ++ newDecisions w w2)%list
  /\ length (documentWrites (newOps w w2))
     = length (filter acted (newDecisions w w2)).
Proof.
  intros Hv Hd Hc Hv2 Hd2 Hc2.
  destruct (added_trans _ _ _ _ Hv Hv2) as [Hn He].
  destruct (added_trans _ _ _ _ Hd Hd2) as [Hn' He'].
  fold (newOps w w2) in Hn, He. fold (newDecisions w w2) in Hn', He'.
  fold (newOps w1 w2) in Hn. fold (newDecisions w1 w2) in Hn'.
  do 3 (split; [assumption|]).
  rewrite Hn, Hn'. unfold documentWrites in *.
  rewrite !filter_app, !length_app. now rewrite Hc, Hc2.
Qed.

Lemma projectMapAfter_other (ps : list TodoistProject) (k : string) :
  forall pm,
    ~ In k (map project_id ps) ->
    JsMap.get String.eqb k (projectMapAfter ps pm) = JsMap.get String.eqb k pm.
Proof.
  induction ps as [|p ps IH]; intros pm Hnot; [reflexivity|].
  cbn in Hnot. unfold projectMapAfter. cbn [fold_left].
  fold (projectMapAfter ps
          (JsMap.set String.eqb (project_id p) (project_name p) pm)).
  rewrite IH by tauto.
  apply get_set_other; [apply string_decides|].
  apply String.eqb_neq. tauto.
Qed.

(** The map of the project loop gives every project its name, when no id
    is there twice. *)
Lemma projectMapAfter_get (ps : list TodoistProject) :
  NoDup (map project_id ps) ->
  forall pm p,
    In p ps ->
    JsMap.get String.eqb (project_id p) (projectMapAfter ps pm)
    = Some (project_name p).
Proof.
  induction ps as [|q ps IH]; intros Hnd pm p Hin; [destruct Hin|].
  inversion Hnd as [|? ? Hnot Hnd']; subst.
  unfold projectMapAfter. cbn [fold_left].
  fold (projectMapAfter ps
          (JsMap.set String.eqb (project_id q) (project_name q) pm)).
  destruct Hin as [<-|Hin]; [|now apply IH].
  rewrite projectMapAfter_other by exact Hnot.
  apply get_set_same, String.eqb_refl.
Qed.

(** Outside a dry run a pass that returns has written as many documents
    as it counts created and updated; it has written the document of
    every task that had no note, and before it that of every project that
    had none. *)
Lemma pass_writes (w : World.t) (stats : Stats) :
  let res := reconcileStates rt w in
  let st := todoistState w in
  let g := fileGenerator w in
  g_dryRun g = false ->
  fst res = Returns stats ->
  vaultLog (snd res) = (vaultLog w ++ newOps w (snd res))%list
  /\ decisionLog (snd res) = (decisionLog w ++ newDecisions w (snd res))%list
  /\ length (documentWrites (newOps w (snd res)))
     = length (filter acted (newDecisions w (snd res)))
  /\ (DistinctIds st ->
      forall T,
        In T (TodoistState.getAllTasks st) ->
        hasNote (obsidianState w) (taskKey T) = false ->
        exists earlier opT later,
          newOps w (snd res) = (earlier ++ opT :: later)%list
          /\ isWriteAt
               (taskFilePath g T
                  (JsMap.get String.eqb (task_project_id T) (projectNames st))
                  (sectionNameFor (sectionNames st) T) None) opT = true
          /\ forall P,
              In P (TodoistState.getAllProjects st) ->
              hasNote (obsidianState w) (projectKey P) = false ->
              exists a opP b,
                earlier = (a ++ opP :: b)%list
                /\ isWriteAt (projectFilePath g P) opP = true).
Proof.
  cbn zeta. rewrite states_unfold. set (st := todoistState w).
  intros Hdry.
  destruct (projects_trace rt (TodoistState.getAllProjects st) noStats [] w)
    as (d1 & Hsame1 & Ht1 & _ & _ & _ & _ & Hout1 & _).
  pose proof (projects_writes (TodoistState.getAllProjects st) noStats [] w)
    as Hw1.
  destruct (reconcileProjects rt (TodoistState.getAllProjects st) noStats []
              w) as [[r1|e] w1]; cbn [fst snd] in *; [|discriminate].
  destruct (Hout1 r1 eq_refl) as [_ ->]. cbn [fst snd]. clear Hout1.
  destruct (Hw1 _ Hdry eq_refl) as (Hv1 & Hd1 & Hc1 & Hwritten1). clear Hw1.
  pose proof Hsame1 as (Hst1 & Hg1 & _). rewrite Hst1. fold st.
  change (projectMapAfter (TodoistState.getAllProjects st) [])
    with (projectNames st).
  destruct (sections_trace rt (TodoistState.getAllSections st)
              (projectNames st) (tally d1 noStats) [] w1)
    as (d2 & Hsame2 & Ht2 & _ & _ & _ & _ & Hout2 & _).
  pose proof (sections_writes (TodoistState.getAllSections st)
                (projectNames st) (tally d1 noStats) [] w1) as Hw2.
  destruct (reconcileSections rt (TodoistState.getAllSections st)
              (projectNames st) (tally d1 noStats) [] w1)
    as [[r2|e] w2]; cbn [fst snd] in *; [|discriminate].
  destruct (Hout2 r2 eq_refl) as [_ ->]. cbn [fst snd]. clear Hout2.
  rewrite <- Hg1 in Hdry.
  destruct (Hw2 _ Hdry eq_refl) as (Hv2 & Hd2 & Hc2). clear Hw2.
  pose proof Hsame2 as (Hst2 & Hg2 & _). rewrite Hst2, Hst1. fold st.
  change (sectionMapAfter
            (reconciled (projectNames st) (TodoistState.getAllSections st))
            []) with (sectionNames st).
  rewrite <- Hg2 in Hdry.
  intros Hret.
  destruct (tasks_writes (TodoistState.getAllTasks st) (projectNames st)
              (sectionNames st) _ w2 stats Hdry Hret)
    as (Hv3 & Hd3 & Hc3 & Hwritten3).
  destruct (counted_trans w w1 w2 Hv1 Hd1 Hc1 Hv2 Hd2 Hc2)
    as (Hn12 & Hv12 & Hd12 & Hc12).
  destruct (counted_trans w w2 _ Hv12 Hd12 Hc12 Hv3 Hd3 Hc3)
    as (Hn & Hv & Hd & Hc).
  do 3 (split; [assumption|]).
  intros (Hnd1 & _ & Hnd3) T HT HnT.
  destruct (Hwritten3 Hnd3 T HT) as (c & opT & d & HsT & HopT).
  { rewrite (same_tasks _ _ _ Ht2), (same_tasks _ _ _ Ht1).
    unfold hasNote in HnT. cbn [taskKey fst snd] in HnT.
    now destruct (ObsidianState.getTaskNote _ (obsidianState w)). }
  exists (newOps w w1 ++ newOps w1 w2 ++ c)%list, opT, d.
  rewrite Hg2, Hg1 in HopT.
  split; [|split; [exact HopT|]].
  { rewrite Hn, Hn12, HsT. now rewrite <- !app_assoc. }
  intros P HP HnP.
  destruct (Hwritten1 Hnd1 P HP) as (a & opP & b & HsP & HopP).
  { unfold hasNote in HnP. cbn [projectKey fst snd] in HnP.
    now destruct (ObsidianState.getProjectNote _ (obsidianState w)). }
  exists a, opP, (b ++ newOps w1 w2 ++ c)%list.
  split; [|exact HopP]. rewrite HsP, <- app_assoc. reflexivity.
Qed.

End PassWrites.

(** ** A pass over one project and its task, on fresh paths *)

Section PairPass.
Import World FileGenerator SyncEngine.
Variable rt : JsRuntime.

Lemma ensure_runs (p : string) (w : World.t) :
  Reliable w ->
  bind (getAbstractFileByPath p)
    (fun folder =>
       match folder with
       | None => createFolder p
       | Some _ => ret tt
       end) w
  = (Returns tt, folderEnsured p w).
Proof.
  intros Hok. unfold bind, getAbstractFileByPath, gets, folderEnsured.
  destruct (Vault.getAbstractFileByPath p (vault w)) eqn:Hl; [reflexivity|].
  unfold createFolder, bind, getAbstractFileByPath, gets. rewrite Hl.
  unfold storageWrite. cbn [storageFails logVaultOp]. now rewrite Hok.
Qed.

Lemma ensure_then {A : Type} (p : string) (k : unit -> M A) (w : World.t) :
  Reliable w ->
  bind (getAbstractFileByPath p)
    (fun folder =>
       bind (match folder with
             | None => createFolder p
             | Some _ => ret tt
             end) k) w
  = k tt (folderEnsured p w).
Proof.
  intros Hok. pose proof (ensure_runs p w Hok) as Hrun.
  unfold bind, getAbstractFileByPath, gets in *.
  destruct (Vault.getAbstractFileByPath p (vault w)); now rewrite Hrun.
Qed.

Lemma folderEnsured_frame (p : string) (w : World.t) :
  storageFails (folderEnsured p w) = storageFails w
  /\ clock (folderEnsured p w) = clock w
  /\ obsidianState (folderEnsured p w) = obsidianState w
  /\ todoistState (folderEnsured p w) = todoistState w
  /\ fileGenerator (folderEnsured p w) = fileGenerator w
  /\ decisionLog (folderEnsured p w) = decisionLog w
  /\ Vault.files (vault (folderEnsured p w)) = Vault.files (vault w)
  /\ exists folders,
       vaultLog (folderEnsured p w) = (vaultLog w ++ folders)%list
       /\ OnlyFolders folders.
Proof.
  unfold folderEnsured. destruct (Vault.getAbstractFileByPath p (vault w));
    cbn; repeat split; auto.
  - exists []. now rewrite app_nil_r.
  - now exists [Vault.CreateFolder p].
Qed.

Lemma folderEnsured_lookup (p q : string) (w : World.t) :
  q <> p ->
  Vault.getAbstractFileByPath q (vault (folderEnsured p w))
  = Vault.getAbstractFileByPath q (vault w).
Proof.
  intros Hne. unfold folderEnsured.
  destruct (Vault.getAbstractFileByPath p (vault w)); [reflexivity|].
  cbn. unfold Vault.getAbstractFileByPath, Vault.hasFolder. cbn.
  rewrite existsb_app. cbn. apply String.eqb_neq in Hne. rewrite Hne.
  now rewrite !orb_false_r.
Qed.

Lemma absent_file (p : string) (v : Vault.t) :
  Vault.getAbstractFileByPath p v = None ->
  Vault.findFile p (Vault.files v) = None.
Proof.
  unfold Vault.getAbstractFileByPath.
  destruct (Vault.findFile p (Vault.files v)); [discriminate | reflexivity].
Qed.

Lemma findFile_last (q : string) (f : Vault.TFile) (fs : list Vault.TFile) :
  Vault.findFile q (fs ++ [f])
  = match Vault.findFile q fs with
    | Some x => Some x
    | None => if String.eqb (Vault.path f) q then Some f else None
    end.
Proof.
  induction fs as [|x fs IH]; cbn; [reflexivity|].
  destruct (String.eqb (Vault.path x) q); [reflexivity | exact IH].
Qed.

Lemma writeNote_fresh (g : Generator) (p data : string) (w : World.t) :
  Reliable w -> g_dryRun g = false ->
  Vault.getAbstractFileByPath p (vault w) = None ->
  writeNote g p data w = (Returns (clock w), documentCreated p data w).
Proof.
  intros Hok Hdry Hl.
  unfold writeNote, bind, getAbstractFileByPath, gets. rewrite Hl, Hdry.
  unfold create, bind, getAbstractFileByPath, gets. rewrite Hl.
  unfold storageWrite. cbn [storageFails logVaultOp]. rewrite Hok.
  unfold Vault.getAbstractFileByPath.
  cbn [vault withVault clock logVaultOp Vault.files Vault.addFile].
  rewrite findFile_last, (absent_file p _ Hl). cbn [Vault.path].
  rewrite String.eqb_refl. reflexivity.
Qed.

Lemma documentCreated_lookup (p q data : string) (w : World.t) :
  q <> p ->
  Vault.getAbstractFileByPath q (vault (documentCreated p data w))
  = Vault.getAbstractFileByPath q (vault w).
Proof.
  intros Hne. unfold documentCreated. cbn [vault withVault logVaultOp clock].
  unfold Vault.getAbstractFileByPath.
  cbn [Vault.files Vault.addFile].
  rewrite findFile_last. cbn [Vault.path].
  assert (Hpq : String.eqb p q = false) by (apply String.eqb_neq; congruence).
  rewrite Hpq. unfold Vault.hasFolder. cbn [Vault.folders].
  now destruct (Vault.findFile q (Vault.files (vault w))).
Qed.

Lemma documentCreated_file (p q data : string) (w : World.t) :
  Vault.findFile q (Vault.files (vault (documentCreated p data w)))
  = match Vault.findFile q (Vault.files (vault w)) with
    | Some x => Some x
    | None =>
        if String.eqb p q then Some (documentAt p data (clock w)) else None
    end.
Proof.
  unfold documentCreated. cbn [vault withVault logVaultOp clock].
  cbn [Vault.files Vault.addFile]. now rewrite findFile_last.
Qed.

(** *** Paths that cannot meet *)

Lemma length_append (a b : string) :
  String.length (a ++ b) = String.length a + String.length b.
Proof. induction a as [|c a IH]; cbn; [reflexivity | now rewrite IH]. Qed.

Lemma longer_differs (a b : string) : b <> EmptyString -> a ++ b <> a.
Proof.
  intros Hb H. apply (f_equal String.length) in H.
  rewrite length_append in H. destruct b; [congruence | cbn in H; lia].
Qed.

Lemma append_cancel (a b c : string) : a ++ b = a ++ c -> b = c.
Proof. induction a as [|x a IH]; cbn; [auto | intros [= H]; auto]. Qed.

(** The project step on a fresh path. *)
Lemma projectNote_fresh (g : Generator) (project : TodoistProject)
      (w : World.t) :
  let folder :=
    g_syncFolderPath g ++ "/" ++ Sanitizer.sanitizeFileName (project_name project) in
  let text :=
    buildContent (buildProjectFrontmatter rt (clock w) project) in
  Reliable w -> g_dryRun g = false ->
  Vault.getAbstractFileByPath (projectFilePath g project) (vault w) = None ->
  createOrUpdateProjectNote rt g project w
  = (Returns (projectNoteOf rt g (clock w) project (clock w)),
     documentCreated (projectFilePath g project) text
       (folderEnsured folder (folderEnsured (g_syncFolderPath g) w))).
Proof.
  intros folder text Hok Hdry Hl.
  unfold createOrUpdateProjectNote, ensureSyncFolder.
  unfold bind at 1. rewrite (ensure_runs (g_syncFolderPath g) w Hok).
  fold folder.
  destruct (folderEnsured_frame (g_syncFolderPath g) w)
    as (Hf1 & Hc1 & _).
  assert (Hok1 : Reliable (folderEnsured (g_syncFolderPath g) w)).
  { intros op. now rewrite Hf1. }
  rewrite (ensure_then folder _ _ Hok1).
  destruct (folderEnsured_frame folder (folderEnsured (g_syncFolderPath g) w))
    as (Hf2 & Hc2 & _).
  assert (Hok2 : Reliable (folderEnsured folder (folderEnsured (g_syncFolderPath g) w))).
  { intros op. now rewrite Hf2. }
  unfold bind at 1, now, gets. unfold bind at 1.
  rewrite Hc2, Hc1.
  change (g_syncFolderPath g ++ "/"
          ++ Sanitizer.sanitizeFileName (project_name project)
          ++ "/_project.md") with (projectFilePath g project).
  rewrite writeNote_fresh; [|exact Hok2 | exact Hdry |].
  - unfold ret. rewrite Hc2, Hc1. reflexivity.
  - rewrite !folderEnsured_lookup; [exact Hl | |].
    + unfold projectFilePath. apply longer_differs. discriminate.
    + unfold projectFilePath, folder.
      replace (g_syncFolderPath g ++ "/"
               ++ Sanitizer.sanitizeFileName (project_name project)
               ++ "/_project.md")
        with ((g_syncFolderPath g ++ "/"
               ++ Sanitizer.sanitizeFileName (project_name project))
              ++ "/_project.md")
        by (now rewrite !append_assoc).
      apply longer_differs. discriminate.
Qed.


Lemma taskFolder_prefix (g : Generator) (projectName sectionName : option string) :
  exists tail, getTaskFolderPath g projectName sectionName
               = g_syncFolderPath g ++ tail.
Proof.
  unfold getTaskFolderPath.
  destruct projectName as [p|]; [destruct (isEmpty p)|];
    try (exists EmptyString; now rewrite append_empty_r).
  destruct sectionName as [s|]; [destruct (isEmpty s)|];
    eexists; rewrite ?append_assoc; reflexivity.
Qed.

(** The task step on a fresh path. *)
Lemma taskNote_fresh (g : Generator) (task : TodoistTask)
      (projectName : option string) (w : World.t) :
  let folder := getTaskFolderPath g projectName None in
  let path := taskFilePath g task projectName None None in
  let text :=
    buildContent (buildTaskFrontmatter rt g (clock w) task projectName None) in
  Reliable w -> g_dryRun g = false ->
  Vault.getAbstractFileByPath path (vault w) = None ->
  createOrUpdateTaskNote rt g task projectName None None w
  = (Returns (taskNoteOf rt g (clock w) task projectName None None (clock w)),
     documentCreated path text (folderEnsured folder (folderEnsured (g_syncFolderPath g) w))).
Proof.
  intros folder path text Hok Hdry Hl.
  unfold createOrUpdateTaskNote, ensureSyncFolder.
  unfold bind at 1. rewrite (ensure_runs (g_syncFolderPath g) w Hok).
  fold folder.
  destruct (folderEnsured_frame (g_syncFolderPath g) w) as (Hf1 & Hc1 & _).
  assert (Hok1 : Reliable (folderEnsured (g_syncFolderPath g) w)).
  { intros op. now rewrite Hf1. }
  rewrite (ensure_then folder _ _ Hok1).
  destruct (folderEnsured_frame folder (folderEnsured (g_syncFolderPath g) w))
    as (Hf2 & Hc2 & _).
  assert (Hok2 : Reliable (folderEnsured folder (folderEnsured (g_syncFolderPath g) w))).
  { intros op. now rewrite Hf2. }
  unfold bind at 1, now, gets. unfold bind at 1.
  rewrite Hc2, Hc1.
  assert (Hpath : folder ++ "/"
                  ++ Sanitizer.sanitizeFileName
                       (if isEmpty (task_content task)
                        then "Task " ++ task_id task else task_content task)
                  ++ ".md" = path) by reflexivity.
  rewrite Hpath.
  rewrite writeNote_fresh; [|exact Hok2 | exact Hdry |].
  - unfold ret. rewrite Hc2, Hc1. reflexivity.
  - rewrite !folderEnsured_lookup; [exact Hl | |].
    + rewrite <- Hpath. destruct (taskFolder_prefix g projectName None)
        as [tail Htail]. fold folder in Htail. rewrite Htail, append_assoc.
      apply longer_differs. destruct tail; discriminate.
    + rewrite <- Hpath. apply longer_differs. discriminate.
Qed.


Lemma generatedAt_frame (g : Generator) (folder path text : string)
      (w : World.t) :
  let w' := generatedAt g folder path text w in
  storageFails w' = storageFails w
  /\ clock w' = clock w
  /\ obsidianState w' = obsidianState w
  /\ todoistState w' = todoistState w
  /\ fileGenerator w' = fileGenerator w
  /\ decisionLog w' = decisionLog w
  /\ (exists folders,
        vaultLog w' = (vaultLog w ++ folders ++ [Vault.Create path text])%list
        /\ OnlyFolders folders)
  /\ (forall q,
        Vault.findFile q (Vault.files (vault w'))
        = match Vault.findFile q (Vault.files (vault w)) with
          | Some x => Some x
          | None =>
              if String.eqb path q
              then Some (documentAt path text (clock w)) else None
          end)
  /\ (forall q, q <> path -> q <> folder -> q <> g_syncFolderPath g ->
                Vault.getAbstractFileByPath q (vault w')
                = Vault.getAbstractFileByPath q (vault w))
  /\ Vault.files (vault w')
     = (Vault.files (vault w) ++ [documentAt path text (clock w)])%list.
Proof.
  cbn zeta. unfold generatedAt.
  destruct (folderEnsured_frame (g_syncFolderPath g) w)
    as (Hf1 & Hc1 & Ho1 & Ht1 & Hg1 & Hd1 & Hfiles1 & f1 & Hlog1 & Hfs1).
  destruct (folderEnsured_frame folder (folderEnsured (g_syncFolderPath g) w))
    as (Hf2 & Hc2 & Ho2 & Ht2 & Hg2 & Hd2 & Hfiles2 & f2 & Hlog2 & Hfs2).
  split; [cbn; congruence|]. split; [cbn; congruence|].
  split; [cbn; congruence|]. split; [cbn; congruence|].
  split; [cbn; congruence|]. split; [cbn; congruence|].
  split; [|split; [|split]].
  - exists (f1 ++ f2)%list. split.
    + unfold documentCreated. cbn [vaultLog withVault logVaultOp].
      rewrite Hlog2, Hlog1. now rewrite <- !app_assoc.
    + unfold OnlyFolders in *. rewrite forallb_app. now rewrite Hfs1, Hfs2.
  - intros q. rewrite documentCreated_file, Hfiles2, Hfiles1, Hc2, Hc1. reflexivity.
  - intros q Hq1 Hq2 Hq3.
    now rewrite documentCreated_lookup, !folderEnsured_lookup by assumption.
  - unfold documentCreated.
    cbn [vault withVault logVaultOp clock Vault.files Vault.addFile].
    rewrite Hfiles2, Hfiles1, Hc2, Hc1. reflexivity.
Qed.

Lemma project_created (project : TodoistProject) (w : World.t) :
  let g := fileGenerator w in
  let folder :=
    g_syncFolderPath g ++ "/"
    ++ Sanitizer.sanitizeFileName (project_name project) in
  let text :=
    buildContent (buildProjectFrontmatter rt (clock w) project) in
  let w' := generatedAt g folder (projectFilePath g project) text w in
  Reliable w -> g_dryRun g = false ->
  ObsidianState.getProjectNote (VStr (project_id project)) (obsidianState w)
  = None ->
  Vault.getAbstractFileByPath (projectFilePath g project) (vault w) = None ->
  reconcileProject rt project w
  = (Returns Created,
     logDecision (verdictOf KProject (project_id project) Created)
       (withObsidianState
          (ObsidianState.setProjectNote (VStr (project_id project))
             (projectNoteOf rt g (clock w) project (clock w))
             (obsidianState w')) w')).
Proof.
  intros g folder text w' Hok Hdry Hnote Hl.
  unfold reconcileProject. unfold bind at 1, gets. rewrite Hnote.
  unfold bind at 1. fold g. unfold bind at 1.
  rewrite (projectNote_fresh g project w Hok Hdry Hl).
  reflexivity.
Qed.

Lemma task_created (task : TodoistTask) (projectName : option string)
      (w : World.t) :
  let g := fileGenerator w in
  let folder := getTaskFolderPath g projectName None in
  let path := taskFilePath g task projectName None None in
  let text :=
    buildContent (buildTaskFrontmatter rt g (clock w) task projectName None) in
  let w' := generatedAt g folder path text w in
  Reliable w -> g_dryRun g = false ->
  ObsidianState.getTaskNote (VStr (task_id task)) (obsidianState w) = None ->
  Vault.getAbstractFileByPath path (vault w) = None ->
  reconcileTask rt task projectName None w
  = (Returns Created,
     logDecision (verdictOf KTask (task_id task) Created)
       (withObsidianState
          (ObsidianState.setTaskNote (VStr (task_id task))
             (taskNoteOf rt g (clock w) task projectName None None (clock w))
             (obsidianState w')) w')).
Proof.
  intros g folder path text w' Hok Hdry Hnote Hl.
  unfold reconcileTask. unfold bind at 1, gets. rewrite Hnote.
  unfold bind at 1. fold g. unfold bind at 1.
  rewrite (taskNote_fresh g task projectName w Hok Hdry Hl).
  reflexivity.
Qed.


Lemma taskPath_not_folder (g : Generator) (task : TodoistTask)
      (project : TodoistProject) :
  let path := taskFilePath g task (Some (project_name project)) None None in
  path <> g_syncFolderPath g
  /\ path <> g_syncFolderPath g ++ "/"
             ++ Sanitizer.sanitizeFileName (project_name project).
Proof.
  cbn zeta. unfold taskFilePath. cbn [given negb].
  split.
  - destruct (taskFolder_prefix g (Some (project_name project)) None)
      as [tail ->].
    rewrite append_assoc. apply longer_differs. destruct tail; discriminate.
  - unfold getTaskFolderPath.
    destruct (project_name project) as [|c name]; cbn [isEmpty].
    + intros H. apply append_cancel in H.
      change (Sanitizer.sanitizeFileName EmptyString) with "untitled" in H.
      injection H as H. apply (f_equal (includesChar ".")) in H.
      rewrite includesChar_app in H. cbn in H.
      rewrite orb_true_r in H. discriminate.
    + replace ((g_syncFolderPath g ++ "/"
                ++ Sanitizer.sanitizeFileName (String c name)) ++ "/"
               ++ Sanitizer.sanitizeFileName (taskTitle task) ++ ".md")
        with ((g_syncFolderPath g ++ "/"
               ++ Sanitizer.sanitizeFileName (String c name))
              ++ ("/" ++ Sanitizer.sanitizeFileName (taskTitle task)
                  ++ ".md")) by reflexivity.
      apply longer_differs. discriminate.
Qed.

Lemma pair_pass (w : World.t) (P1 : TodoistProject) (T1 : TodoistTask) :
  let g := fileGenerator w in
  let st := todoistState w in
  let res := reconcileStates rt w in
  let pathP := projectFilePath g P1 in
  let pathT := taskFilePath g T1 (Some (project_name P1)) None None in
  let textP := buildContent (buildProjectFrontmatter rt (clock w) P1) in
  let textT :=
    buildContent
      (buildTaskFrontmatter rt g (clock w) T1 (Some (project_name P1))
         None) in
  TodoistState.getAllProjects st = [P1] ->
  TodoistState.getAllSections st = [] ->
  TodoistState.getAllTasks st = [T1] ->
  task_project_id T1 = project_id P1 ->
  hasNote (obsidianState w) (projectKey P1) = false ->
  hasNote (obsidianState w) (taskKey T1) = false ->
  g_dryRun g = false ->
  Reliable w ->
  Vault.getAbstractFileByPath pathP (vault w) = None ->
  Vault.getAbstractFileByPath pathT (vault w) = None ->
  pathT <> pathP ->
  fst res = Returns onePair
  /\ decisionLog (snd res)
     = (decisionLog w
        ++ [verdictOf KProject (project_id P1) Created;
            verdictOf KTask (task_id T1) Created])%list
  /\ (exists foldersP foldersT,
        vaultLog (snd res)
        = (vaultLog w ++ foldersP ++ Vault.Create pathP textP
           :: foldersT ++ [Vault.Create pathT textT])%list
        /\ OnlyFolders foldersP /\ OnlyFolders foldersT)
  /\ Vault.files (vault (snd res))
     = (Vault.files (vault w)
        ++ [documentAt pathP textP (clock w);
            documentAt pathT textT (clock w)])%list
  /\ Vault.findFile pathP (Vault.files (vault (snd res)))
     = Some (documentAt pathP textP (clock w))
  /\ Vault.findFile pathT (Vault.files (vault (snd res)))
     = Some (documentAt pathT textT (clock w)).
Proof.
  intros g st res pathP pathT textP textT HP HS HT Hof HnP HnT Hdry Hok
    HlP HlT Hdiff.
  assert (HnoteP : ObsidianState.getProjectNote (VStr (project_id P1))
                     (obsidianState w) = None).
  { unfold hasNote in HnP. cbn [projectKey fst snd] in HnP.
    now destruct (ObsidianState.getProjectNote _ _). }
  assert (HnoteT : ObsidianState.getTaskNote (VStr (task_id T1))
                     (obsidianState w) = None).
  { unfold hasNote in HnT. cbn [taskKey fst snd] in HnT.
    now destruct (ObsidianState.getTaskNote _ _). }
  destruct (taskPath_not_folder g T1 P1) as [HTsync HTfolder].
  fold pathT in HTsync, HTfolder.
  pose proof (project_created P1 w Hok Hdry HnoteP HlP) as HstepP.
  cbn zeta in HstepP. fold g pathP textP in HstepP.
  set (folderP := g_syncFolderPath g ++ "/"
                  ++ Sanitizer.sanitizeFileName (project_name P1)) in *.
  set (w1 := generatedAt g folderP pathP textP w) in *.
  destruct (generatedAt_frame g folderP pathP textP w)
    as (Hf1 & Hc1 & Ho1 & Ht1 & Hg1 & Hd1 & (fP & Hlog1 & HfP) & Hfile1
        & Hlook1 & Hall1).
  fold w1 in Hf1, Hc1, Ho1, Ht1, Hg1, Hd1, Hlog1, Hfile1, Hlook1, Hall1.
  set (w2 := logDecision (verdictOf KProject (project_id P1) Created)
               (withObsidianState
                  (ObsidianState.setProjectNote (VStr (project_id P1))
                     (projectNoteOf rt g (clock w) P1 (clock w))
                     (obsidianState w1)) w1)) in *.
  assert (Hok2 : Reliable w2).
  { intros op. unfold w2. cbn [storageFails logDecision withObsidianState].
    rewrite Hf1. apply Hok. }
  assert (Hg2 : fileGenerator w2 = g) by exact Hg1.
  assert (Hc2 : clock w2 = clock w) by exact Hc1.
  assert (HnoteT2 : ObsidianState.getTaskNote (VStr (task_id T1))
                      (obsidianState w2) = None).
  { unfold w2. cbn [obsidianState logDecision withObsidianState].
    unfold ObsidianState.getTaskNote in *.
    cbn [ObsidianState.taskNotes ObsidianState.setProjectNote].
    now rewrite Ho1. }
  assert (HlT2 : Vault.getAbstractFileByPath
                   (taskFilePath (fileGenerator w2) T1
                      (Some (project_name P1)) None None) (vault w2) = None).
  { rewrite Hg2. fold pathT. unfold w2.
    cbn [vault logDecision withObsidianState]. now rewrite Hlook1. }
  assert (Hdry2 : g_dryRun (fileGenerator w2) = false)
    by (now rewrite Hg2).
  pose proof (task_created T1 (Some (project_name P1)) w2 Hok2 Hdry2
                HnoteT2 HlT2) as HstepT.
  cbn zeta in HstepT. rewrite Hg2, Hc2 in HstepT. fold pathT textT in HstepT.
  set (folderT := getTaskFolderPath g (Some (project_name P1)) None) in *.
  set (w3 := generatedAt g folderT pathT textT w2) in *.
  destruct (generatedAt_frame g folderT pathT textT w2)
    as (Hf3 & Hc3 & Ho3 & Ht3 & Hg3 & Hd3 & (fT & Hlog3 & HfT) & Hfile3 & _
        & Hall3).
  fold w3 in Hf3, Hc3, Ho3, Ht3, Hg3, Hd3, Hlog3, Hfile3, Hall3.
  assert (Hrun :
    reconcileStates rt w
    = (Returns onePair,
       logDecision (verdictOf KTask (task_id T1) Created)
         (withObsidianState
            (ObsidianState.setTaskNote (VStr (task_id T1))
               (taskNoteOf rt g (clock w) T1 (Some (project_name P1)) None
                  None (clock w))
               (obsidianState w3)) w3))).
  { unfold reconcileStates. unfold bind at 1, gets. fold st. rewrite HP.
    cbn [reconcileProjects]. unfold bind at 1. unfold bind at 1.
    rewrite HstepP. unfold ret at 1. cbn iota beta.
    unfold bind at 1. cbn iota beta.
    replace (todoistState w2) with st by (symmetry; exact Ht1).
    rewrite HS. cbn [reconcileSections]. unfold bind at 1, ret at 1.
    cbn iota beta. unfold bind at 1. cbn iota beta.
    replace (todoistState w2) with st by (symmetry; exact Ht1).
    rewrite HT. cbn [reconcileTasks]. rewrite Hof.
    cbn [JsMap.set JsMap.get]. rewrite String.eqb_refl.
    assert (Hsection :
              match task_section_id T1 with
              | Some sid => if isEmpty sid then None else None
              | None => None
              end = @None string).
    { destruct (task_section_id T1) as [sid|]; [|reflexivity].
      now destruct (isEmpty sid). }
    rewrite Hsection. unfold bind at 1. rewrite HstepT. reflexivity. }
  subst res. rewrite Hrun. cbn [fst snd].
  split; [reflexivity|]. split; [|split; [|split; [|split]]].
  - cbn [decisionLog logDecision withObsidianState]. rewrite Hd3.
    unfold w2. cbn [decisionLog logDecision withObsidianState].
    rewrite Hd1. now rewrite <- app_assoc.
  - exists fP, fT. split; [|now split].
    cbn [vaultLog logDecision withObsidianState]. rewrite Hlog3.
    unfold w2. cbn [vaultLog logDecision withObsidianState]. rewrite Hlog1.
    now rewrite <- !app_assoc.
  - cbn [vault logDecision withObsidianState]. rewrite Hall3.
    unfold w2 at 1. cbn [vault logDecision withObsidianState].
    rewrite Hall1, Hc2. now rewrite <- app_assoc.
  - cbn [vault logDecision withObsidianState]. rewrite Hfile3.
    unfold w2 at 1. cbn [vault logDecision withObsidianState].
    rewrite Hfile1.
    rewrite (absent_file pathP _ HlP), String.eqb_refl. reflexivity.
  - cbn [vault logDecision withObsidianState]. rewrite Hfile3.
    unfold w2 at 1. cbn [vault logDecision withObsidianState].
    rewrite Hfile1.
    rewrite (absent_file pathT _ HlT).
    assert (Hpq : String.eqb pathP pathT = false)
      by (apply String.eqb_neq; congruence).
    rewrite Hpq, String.eqb_refl, Hc2. reflexivity.
Qed.

End PairPass.

(** ** Claims about a reconcile pass *)

(** C6 (amended).  Every reconcile pass records its verdicts in the order
    projects (those neither deleted nor archived), then sections (those
    whose project resolves; the loop passes over the others), then tasks:
    what it records is a prefix of that list, and all of it, counted as
    the pass reports it, when the pass returns.  When no id is there
    twice, a pass that returns over a remote state holding a project P1
    and a task T1 of P1, neither with a local note, records created for
    P1, later created for T1, and no other verdict for either; and outside
    a dry run it has written one document for each verdict of created or
    updated, among them the document of P1 and, later, under the folder of
    P1, the document of T1.  When P1 and T1 are all the remote state
    holds, the store carries out every write, nothing is in the vault at
    the path of either document and the two paths differ, the pass
    returns, counts one project and one task created, and creates two
    documents and no more: after folders at most, the document of the
    project with the frontmatter of P1, then, after folders at most, that
    of the task with the frontmatter of T1; both are in the vault
    afterwards.  The pass over the project Garden and its task Water on an
    empty vault writes the two texts spelled out in [gardenProjectText]
    and [gardenTaskText]. *)
Theorem C6_projects_then_sections_then_tasks (rt : JsRuntime) (w : World.t) :
  let res := SyncEngine.reconcileStates rt w in
  let st := World.todoistState w in
  let g := World.fileGenerator w in
  (exists ds,
    World.decisionLog (snd res) = (World.decisionLog w ++ ds)%list
    /\ Prefix (map keyOf ds) (expectedKeys st)
    /\ (forall stats,
           fst res = World.Returns stats ->
           map keyOf ds = expectedKeys st
           /\ stats = tally ds SyncEngine.noStats)
    /\ (forall stats P1 T1,
           fst res = World.Returns stats ->
           DistinctIds st ->
           In P1 (TodoistState.getAllProjects st) ->
           In T1 (TodoistState.getAllTasks st) ->
           task_project_id T1 = project_id P1 ->
           hasNote (World.obsidianState w) (projectKey P1) = false ->
           hasNote (World.obsidianState w) (taskKey T1) = false ->
           (exists before between after,
               ds = (before
                     ++ verdictOf World.KProject (project_id P1) World.Created
                     :: between
                     ++ verdictOf World.KTask (task_id T1) World.Created
                     :: after)%list
               /\ forall d, In d (before ++ between ++ after)%list ->
                            keyOf d <> projectKey P1
                            /\ keyOf d <> taskKey T1)
           /\ (World.g_dryRun g = false ->
               exists ops,
                 World.vaultLog (snd res) = (World.vaultLog w ++ ops)%list
                 /\ length (documentWrites ops) = length (filter acted ds)
                 /\ exists a opP b opT c,
                     ops = (a ++ opP :: b ++ opT :: c)%list
                     /\ isWriteAt (projectFilePath g P1) opP = true
                     /\ isWriteAt
                          (taskFilePath g T1 (Some (project_name P1))
                             (sectionNameFor (sectionNames st) T1) None)
                          opT = true)))
  /\ (forall P1 T1,
        let pathP := projectFilePath g P1 in
        let pathT := taskFilePath g T1 (Some (project_name P1)) None None in
        let textP :=
          FileGenerator.buildContent
            (FileGenerator.buildProjectFrontmatter rt (World.clock w) P1) in
        let textT :=
          FileGenerator.buildContent
            (FileGenerator.buildTaskFrontmatter rt g (World.clock w) T1
               (Some (project_name P1)) None) in
        TodoistState.getAllProjects st = [P1] ->
        TodoistState.getAllSections st = [] ->
        TodoistState.getAllTasks st = [T1] ->
        task_project_id T1 = project_id P1 ->
        hasNote (World.obsidianState w) (projectKey P1) = false ->
        hasNote (World.obsidianState w) (taskKey T1) = false ->
        World.g_dryRun g = false ->
        Reliable w ->
        Vault.getAbstractFileByPath pathP (World.vault w) = None ->
        Vault.getAbstractFileByPath pathT (World.vault w) = None ->
        pathT <> pathP ->
        fst res = World.Returns onePair
        /\ World.decisionLog (snd res)
           = (World.decisionLog w
              ++ [verdictOf World.KProject (project_id P1) World.Created;
                  verdictOf World.KTask (task_id T1) World.Created])%list
        /\ (exists foldersP foldersT,
              World.vaultLog (snd res)
              = (World.vaultLog w ++ foldersP ++ Vault.Create pathP textP
                 :: foldersT ++ [Vault.Create pathT textT])%list
              /\ OnlyFolders foldersP /\ OnlyFolders foldersT)
        /\ Vault.files (World.vault (snd res))
           = (Vault.files (World.vault w)
              ++ [documentAt pathP textP (World.clock w);
                  documentAt pathT textT (World.clock w)])%list
        /\ Vault.findFile pathP (Vault.files (World.vault (snd res)))
           = Some (documentAt pathP textP (World.clock w))
        /\ Vault.findFile pathT (Vault.files (World.vault (snd res)))
           = Some (documentAt pathT textT (World.clock w)))
  /\ SyncEngine.reconcileStates RefRuntime.runtime
       (gardenWorld false 1710000000000)
     = (World.Returns onePair,
        World.withObsidianState
          (World.obsidianState
             (snd (SyncEngine.reconcileStates RefRuntime.runtime
                     (gardenWorld false 1710000000000))))
          (World.withStore
             {| Vault.folders := ["Todoist"; "Todoist/Garden"];
                Vault.files :=
                  [documentAt "Todoist/Garden/_project.md" gardenProjectText
                     1710000000000;
                   documentAt "Todoist/Garden/Water.md" gardenTaskText
                     1710000000000] |}
             [Vault.CreateFolder "Todoist";
              Vault.CreateFolder "Todoist/Garden";
              Vault.Create "Todoist/Garden/_project.md" gardenProjectText;
              Vault.Create "Todoist/Garden/Water.md" gardenTaskText]
             (appendDecisions
                [verdictOf World.KProject "p1" World.Created;
                 verdictOf World.KTask "t1" World.Created]
                (gardenWorld false 1710000000000)))).
Proof.
  cbn zeta. split; [|split].
  2:{ intros P1 T1. exact (pair_pass rt w P1 T1). }
  2:{ vm_compute. reflexivity. }
  destruct (pass_trace rt w) as (ds & _ & Hlog & Hpre & Hret & Hnew).
  exists ds. do 3 (split; [assumption|]).
  intros stats P1 T1 Hr Hd HP HT Hof HnP HnT.
  destruct (Hret stats Hr) as [Hkeys _].
  pose proof (expectedKeys_distinct _ Hd) as Hnd. rewrite <- Hkeys in Hnd.
  assert (HkP : In (projectKey P1) (expectedKeys (World.todoistState w))).
  { unfold expectedKeys. apply in_or_app. left.
    now apply (in_map (fun p => (World.KProject, project_id p))). }
  assert (HkT : In (taskKey T1) (expectedKeys (World.todoistState w))).
  { unfold expectedKeys. apply in_or_app. right. apply in_or_app. right.
    now apply (in_map (fun t => (World.KTask, task_id t))). }
  pose proof (created_once _ _ ds _ Hkeys (Hnew Hd) HkP HnP) as HdP.
  pose proof (created_once _ _ ds _ Hkeys (Hnew Hd) HkT HnT) as HdT.
  cbn [projectKey taskKey fst snd] in HdP, HdT.
  split.
  - destruct (in_split _ _ HdP) as (l1 & l2 & Hds).
    rewrite Hds in HdT. apply in_app_or in HdT.
    destruct HdT as [HdT|[HdT|HdT]]; [exfalso| discriminate HdT |].
    + rewrite Hds, map_app in Hkeys. cbn [map] in Hkeys.
      rewrite expectedKeys_parts in Hkeys. symmetry in Hkeys.
      apply (in_map keyOf) in HdT.
      assert (Hnot : ~ In (keyOf (verdictOf World.KProject (project_id P1)
                                    World.Created))
                       (map sectionKey
                          (reconciled (projectNames (World.todoistState w))
                             (TodoistState.getAllSections
                                (World.todoistState w)))
                        ++ map taskKey
                             (TodoistState.getAllTasks
                                (World.todoistState w)))).
      { intros Hin. apply in_app_or in Hin. destruct Hin as [Hin|Hin].
        - apply (tagged_kind World.KSection section_id) in Hin.
          discriminate.
        - apply (tagged_kind World.KTask task_id) in Hin. discriminate. }
      pose proof (before_in_first _ _ _ Hnot _ _ Hkeys _ HdT) as Hin.
      apply (tagged_kind World.KProject project_id) in Hin. discriminate.
    + destruct (in_split _ _ HdT) as (l3 & l4 & Hl2). subst l2.
      exists l1, l3, l4. split; [exact Hds|].
      intros d Hin. split.
      * rewrite Hds in Hnd.
        apply (nodup_others keyOf _ _ _ Hnd).
        rewrite !in_app_iff in *. cbn. tauto.
      * replace ds
          with ((l1 ++ verdictOf World.KProject (project_id P1)
                         World.Created :: l3)
                ++ verdictOf World.KTask (task_id T1) World.Created
                :: l4)%list
          in Hnd by (now rewrite Hds, <- app_assoc).
        apply (nodup_others keyOf _ _ _ Hnd).
        rewrite !in_app_iff in *. cbn. tauto.
  - intros Hdry.
    destruct (pass_writes rt w stats Hdry Hr) as (Hv & Hdl & Hc & Hw).
    cbn zeta in Hw.
    rewrite Hlog in Hdl. apply app_inv_head in Hdl.
    exists (newOps w (snd (SyncEngine.reconcileStates rt w))).
    split; [exact Hv|]. split; [now rewrite Hdl|].
    destruct (Hw Hd T1 HT HnT) as (earlier & opT & c & Hsplit & HopT & Hps).
    destruct (Hps P1 HP HnP) as (a & opP & b & -> & HopP).
    exists a, opP, b, opT, c.
    split; [now rewrite Hsplit, <- app_assoc|]. split; [exact HopP|].
    rewrite Hof in HopT. destruct Hd as (HndP & _).
    unfold projectNames in HopT.
    fold (projectMapAfter
            (TodoistState.getAllProjects (World.todoistState w)) [])
      in HopT.
    now rewrite (projectMapAfter_get _ HndP [] P1 HP) in HopT.
Qed.

(** A pass over one project and its task, on an empty vault: the
    hypotheses of the two scenes hold, the pass records the two verdicts
    and nothing else, and it creates two documents, that of the project,
    then that of the task, with the texts spelled out. *)
Lemma C6_garden_witness :
  TodoistState.getAllProjects gardenState = [gardenProject]
  /\ TodoistState.getAllSections gardenState = []
  /\ TodoistState.getAllTasks gardenState = [keptTask]
  /\ DistinctIds gardenState
  /\ Reliable (gardenWorld false 1710000000000)
  /\ fst (SyncEngine.reconcileStates RefRuntime.runtime
            (gardenWorld false 1710000000000))
     = World.Returns onePair
  /\ World.decisionLog
       (snd (SyncEngine.reconcileStates RefRuntime.runtime
               (gardenWorld false 1710000000000)))
     = [verdictOf World.KProject "p1" World.Created;
        verdictOf World.KTask "t1" World.Created]
  /\ (exists foldersP foldersT,
        World.vaultLog
          (snd (SyncEngine.reconcileStates RefRuntime.runtime
                  (gardenWorld false 1710000000000)))
        = (foldersP
           ++ Vault.Create "Todoist/Garden/_project.md" gardenProjectText
           :: foldersT
           ++ [Vault.Create "Todoist/Garden/Water.md" gardenTaskText])%list
        /\ OnlyFolders foldersP /\ OnlyFolders foldersT)
  /\ Vault.files
       (World.vault
          (snd (SyncEngine.reconcileStates RefRuntime.runtime
                  (gardenWorld false 1710000000000))))
     = [documentAt "Todoist/Garden/_project.md" gardenProjectText
          1710000000000;
        documentAt "Todoist/Garden/Water.md" gardenTaskText 1710000000000]
  /\ (exists a opP b opT c,
         World.vaultLog
           (snd (SyncEngine.reconcileStates RefRuntime.runtime
                   (gardenWorld false 1710000000000)))
         = (a ++ opP :: b ++ opT :: c)%list
         /\ isWriteAt "Todoist/Garden/_project.md" opP = true
         /\ isWriteAt "Todoist/Garden/Water.md" opT = true).
Proof.
  assert (Hd : DistinctIds gardenState).
  { vm_compute. repeat split; repeat constructor; simpl; tauto. }
  assert (Hok : Reliable (gardenWorld false 1710000000000))
    by (intros op; reflexivity).
  destruct (C6_projects_then_sections_then_tasks RefRuntime.runtime
              (gardenWorld false 1710000000000))
    as ((ds & Hlog & _ & _ & Hscene) & Hpair & _).
  destruct (Hpair gardenProject keptTask eq_refl eq_refl eq_refl eq_refl
              eq_refl eq_refl eq_refl Hok eq_refl eq_refl
              ltac:(discriminate))
    as (Hret & Hds & Hops & Hfiles & _).
  destruct (Hscene _ gardenProject keptTask Hret Hd
              ltac:(now left) ltac:(now left) eq_refl eq_refl eq_refl)
    as (_ & Hwritten).
  split; [reflexivity|]. split; [reflexivity|]. split; [reflexivity|].
  split; [exact Hd|]. split; [exact Hok|]. split; [exact Hret|].
  split; [exact Hds|]. split; [exact Hops|]. split; [exact Hfiles|].
  destruct (Hwritten eq_refl)
    as (ops & Hv & _ & a & opP & b & opT & c & Hsplit & HopP & HopT).
  exists a, opP, b, opT, c. rewrite Hv, Hsplit.
  split; [reflexivity|]. split; [exact HopP | exact HopT].
Defined.

(** C6 as stated fails when the task is titled as the project document is
    named.  For the project Garden and a task of it with the title
    [_project], neither with a note, on an empty vault, the two paths are
    one; the pass counts one project and one task created, but it creates
    one document, that of the project, and then modifies it with the note
    of the task: one document is in the vault afterwards, the task's, and
    none of the project. *)
Lemma C6_same_path_counterexample :
  TodoistState.getAllProjects namesakeState = [gardenProject]
  /\ TodoistState.getAllSections namesakeState = []
  /\ TodoistState.getAllTasks namesakeState = [namesakeTask]
  /\ task_project_id namesakeTask = project_id gardenProject
  /\ hasNote (World.obsidianState namesakeWorld) (projectKey gardenProject)
     = false
  /\ hasNote (World.obsidianState namesakeWorld) (taskKey namesakeTask)
     = false
  /\ World.vault namesakeWorld = Vault.empty
  /\ projectFilePath (World.fileGenerator namesakeWorld) gardenProject
     = "Todoist/Garden/_project.md"
  /\ taskFilePath (World.fileGenerator namesakeWorld) namesakeTask
       (Some "Garden") None None
     = "Todoist/Garden/_project.md"
  /\ fst (SyncEngine.reconcileStates RefRuntime.runtime namesakeWorld)
     = World.Returns onePair
  /\ World.vaultLog
       (snd (SyncEngine.reconcileStates RefRuntime.runtime namesakeWorld))
     = [Vault.CreateFolder "Todoist"; Vault.CreateFolder "Todoist/Garden";
        Vault.Create "Todoist/Garden/_project.md" gardenProjectText;
        Vault.Modify "Todoist/Garden/_project.md" namesakeText]
  /\ Vault.files
       (World.vault
          (snd (SyncEngine.reconcileStates RefRuntime.runtime
                  namesakeWorld)))
     = [documentAt "Todoist/Garden/_project.md" namesakeText
          1710000000000].
Proof. repeat split; vm_compute; reflexivity. Qed.


Lemma nodup_images_inj {A B : Type} (f : A -> B) (xs : list A) :
  NoDup (map f xs) ->
  forall x y, In x xs -> In y xs -> f x = f y -> x = y.
Proof.
  induction xs as [|a xs IH]; cbn; intros Hnd x y Hx Hy Heq; [tauto|].
  inversion Hnd as [|? ? Hnot Hnd']; subst.
  destruct Hx as [<-|Hx], Hy as [<-|Hy]; auto.
  - exfalso. apply Hnot. rewrite Heq. now apply in_map.
  - exfalso. apply Hnot. rewrite <- Heq. now apply in_map.
Qed.

(** C2 (amended).  The pass skips no task for its project: in a pass that
    returns, over a remote state in which no id is there twice, every task
    gets exactly one verdict; a task that had no note gets created, and
    when its project id resolves to no name its note is filed directly in
    the sync folder, under its sanitized title, where outside a dry run
    the pass has written its document.  What the pass passes over for an
    unresolved project is a section: it gets no verdict. *)
Theorem C2_unresolved_project_files_task_at_root
        (rt : JsRuntime) (w : World.t) (stats : SyncEngine.Stats) :
  let res := SyncEngine.reconcileStates rt w in
  let st := World.todoistState w in
  DistinctIds st ->
  fst res = World.Returns stats ->
  exists ds,
    World.decisionLog (snd res) = (World.decisionLog w ++ ds)%list
    /\ (forall t,
           In t (TodoistState.getAllTasks st) ->
           (exists v before after,
               ds = (before ++ verdictOf World.KTask (task_id t) v :: after)%list
               /\ forall d, In d (before ++ after)%list ->
                            keyOf d <> taskKey t)
           /\ (hasNote (World.obsidianState w) (taskKey t) = false ->
               In (verdictOf World.KTask (task_id t) World.Created) ds
               /\ (isResolved (projectNames st) (task_project_id t) = false ->
                   (exists n,
                       ObsidianState.getTaskNote (VStr (task_id t))
                         (World.obsidianState (snd res)) = Some n
                       /\ tn_filePath n
                          = World.g_syncFolderPath (World.fileGenerator w)
                            ++ "/" ++ Sanitizer.sanitizeFileName (taskTitle t)
                            ++ ".md")
                   /\ (World.g_dryRun (World.fileGenerator w) = false ->
                       exists a op b,
                         World.vaultLog (snd res)
                         = (World.vaultLog w ++ a ++ op :: b)%list
                         /\ isWriteAt
                              (World.g_syncFolderPath (World.fileGenerator w)
                               ++ "/"
                               ++ Sanitizer.sanitizeFileName (taskTitle t)
                               ++ ".md") op = true))))
    /\ (forall s,
           In s (TodoistState.getAllSections st) ->
           isResolved (projectNames st) (section_project_id s) = false ->
           forall d, In d ds -> keyOf d <> sectionKey s).
Proof.
  cbn zeta. intros Hd Hr.
  destruct (pass_trace rt w) as (ds & _ & Hlog & _ & Hret & Hnew).
  destruct (Hret stats Hr) as [Hkeys _].
  pose proof (expectedKeys_distinct _ Hd) as Hnd. rewrite <- Hkeys in Hnd.
  exists ds. split; [exact Hlog|]. split.
  - intros t Ht.
    assert (Hk : In (taskKey t) (expectedKeys (World.todoistState w))).
    { unfold expectedKeys. apply in_or_app. right. apply in_or_app. right.
      now apply (in_map (fun t => (World.KTask, task_id t))). }
    split.
    + pose proof Hk as Hin. rewrite <- Hkeys in Hin.
      apply in_map_iff in Hin. destruct Hin as (d & Hkd & Hin).
      rewrite (decision_eta d World.KTask (task_id t) (World.d_verdict d)
                 Hkd eq_refl) in Hin.
      destruct (in_split _ _ Hin) as (before & after & Hds).
      exists (World.d_verdict d), before, after. split; [exact Hds|].
      rewrite Hds in Hnd. apply (nodup_others keyOf _ _ _ Hnd).
    + intros Hnone. split.
      * apply (created_once _ _ ds _ Hkeys (Hnew Hd) Hk Hnone).
      * intros Hun. split.
        -- destruct (pass_places rt w stats Hd Hr t Ht Hnone)
             as (stamp & Hl).
           eexists. split; [exact Hl|]. cbn [tn_filePath taskNoteOf].
           now apply unresolved_at_root.
        -- intros Hdry.
           destruct (pass_writes rt w stats Hdry Hr) as (Hv & _ & _ & Hw).
           destruct (Hw Hd t Ht Hnone) as (a & op & b & Hsplit & Hop & _).
           exists a, op, b. rewrite Hv, Hsplit. split; [reflexivity|].
           now rewrite unresolved_at_root in Hop.
  - intros s Hs Hun d Hin Hkd.
    apply (in_map keyOf) in Hin. rewrite Hkeys, Hkd in Hin.
    rewrite expectedKeys_parts in Hin.
    apply in_app_or in Hin. destruct Hin as [Hin|Hin];
      [apply (tagged_kind World.KProject project_id) in Hin; discriminate|].
    apply in_app_or in Hin. destruct Hin as [Hin|Hin];
      [|apply (tagged_kind World.KTask task_id) in Hin; discriminate].
    apply in_map_iff in Hin. destruct Hin as (s' & [= Hid] & Hin').
    unfold reconciled in Hin'. apply filter_In in Hin'.
    destruct Hin' as [Hin' Hres]. destruct Hd as (_ & Hnds & _).
    rewrite (nodup_images_inj section_id _ Hnds s' s Hin' Hs Hid) in Hres.
    congruence.
Qed.

(** A task of a project the remote state does not hold: the hypotheses
    hold, and the pass files its note in the sync folder. *)
Lemma C2_orphan_witness :
  DistinctIds orphanState
  /\ isResolved (projectNames orphanState) (task_project_id orphanTask)
     = false
  /\ exists n,
      ObsidianState.getTaskNote (VStr "t7")
        (World.obsidianState
           (snd (SyncEngine.reconcileStates RefRuntime.runtime orphanWorld)))
      = Some n
      /\ tn_filePath n = "Todoist/Stray.md".
Proof.
  assert (Hd : DistinctIds orphanState).
  { vm_compute. repeat split; repeat constructor; simpl; tauto. }
  split; [exact Hd|]. split; [reflexivity|].
  destruct (C2_unresolved_project_files_task_at_root RefRuntime.runtime
              orphanWorld _ Hd ltac:(vm_compute; reflexivity))
    as (ds & _ & Htasks & _).
  destruct (Htasks orphanTask ltac:(now left)) as (_ & Hplace).
  destruct (Hplace eq_refl) as (_ & Hroot).
  destruct (Hroot eq_refl) as ((n & Hl & Hp) & _).
  exists n. split; [exact Hl|]. rewrite Hp. reflexivity.
Defined.

(** C2 as stated fails: the project id of the one task of the remote state
    resolves to no name, and the pass records created for the task and
    writes its document. *)
Lemma C2_orphan_counterexample :
  TodoistState.getAllTasks orphanState = [orphanTask]
  /\ isResolved (projectNames orphanState) (task_project_id orphanTask)
     = false
  /\ World.decisionLog
       (snd (SyncEngine.reconcileStates RefRuntime.runtime orphanWorld))
     = [verdictOf World.KTask "t7" World.Created]
  /\ outline
       (World.vaultLog
          (snd (SyncEngine.reconcileStates RefRuntime.runtime orphanWorld)))
     = [Vault.CreateFolder "Todoist";
        Vault.Create "Todoist/Stray.md" EmptyString].
Proof. vm_compute. repeat split. Qed.

(** ** Two passes in a row *)

Section IdempotenceFacts.
Import World SyncEngine.

(** The remote states a run can meet hold no id twice. *)
Lemma reachable_distinct (st : TodoistState.t) :
  Reachable st -> DistinctIds st.
Proof.
  intros Hst. destruct (reachable_keyed st Hst) as (Ht & Hp & Hs & _).
  unfold DistinctIds, TodoistState.getAllProjects,
    TodoistState.getAllSections, TodoistState.getAllTasks.
  repeat split; apply nodup_images_filter.
  - rewrite (keyed_ids project_id _ Hp). apply Hp.
  - rewrite (keyed_ids section_id _ Hs). apply Hs.
  - rewrite (keyed_ids task_id _ Ht). apply Ht.
Qed.

(** Verdicts of skipped count neither as created nor as updated. *)
Lemma tally_skipped (keys : list (Kind * string)) :
  forall s,
    created (tally (map (fun key => verdictOf (fst key) (snd key) Skipped)
                      keys) s) = created s
    /\ updated (tally (map (fun key => verdictOf (fst key) (snd key) Skipped)
                         keys) s) = updated s.
Proof.
  induction keys as [|key keys IH]; intros s; [now split|].
  cbn [map]. unfold tally. cbn [fold_left]. fold (tally
    (map (fun key => verdictOf (fst key) (snd key) Skipped) keys)
    (count (d_kind (verdictOf (fst key) (snd key) Skipped))
       (d_verdict (verdictOf (fst key) (snd key) Skipped)) s)).
  destruct (IH (count (d_kind (verdictOf (fst key) (snd key) Skipped))
                  (d_verdict (verdictOf (fst key) (snd key) Skipped)) s))
    as [Hc Hu].
  now rewrite Hc, Hu.
Qed.

End IdempotenceFacts.

(** C5 (amended).  Take a remote state in which no id is there twice, a
    runtime that reads back the stamp it prints for the time of the
    clock, and tasks none of which is stamped later than the clock.  If a
    reconcile pass returns, a second pass right after it returns too,
    records skipped for every entity it meets and nothing else, counts
    nothing as created or updated, and writes nothing. *)
Theorem C5_second_pass_skips_all
        (rt : JsRuntime) (w : World.t) (stats : SyncEngine.Stats) :
  let st := World.todoistState w in
  let w1 := snd (SyncEngine.reconcileStates rt w) in
  DistinctIds st ->
  DateFaithful rt (World.clock w) ->
  (forall t, In t (TodoistState.getAllTasks st) ->
             NotLaterThan rt (World.clock w) t) ->
  fst (SyncEngine.reconcileStates rt w) = World.Returns stats ->
  let second := SyncEngine.reconcileStates rt w1 in
  fst second = World.Returns (tally (allSkipped st) SyncEngine.noStats)
  /\ SyncEngine.created (tally (allSkipped st) SyncEngine.noStats)
     = SyncEngine.noCounts
  /\ SyncEngine.updated (tally (allSkipped st) SyncEngine.noStats)
     = SyncEngine.noCounts
  /\ World.decisionLog (snd second)
     = (World.decisionLog w1 ++ allSkipped st)%list
  /\ World.vaultLog (snd second) = World.vaultLog w1
  /\ World.vault (snd second) = World.vault w1
  /\ World.obsidianState (snd second) = World.obsidianState w1.
Proof.
  cbn zeta. intros Hd Hdate Hlate Hr.
  pose proof (pass_settles rt w stats Hd Hdate Hlate Hr) as Hset.
  destruct (pass_trace rt w) as (ds & (Hst & _ & _) & _).
  cbn zeta in Hset. rewrite <- Hst in Hset.
  rewrite (pass_skips rt _ Hset), Hst. cbn [fst snd].
  destruct (appendDecisions_frame (allSkipped (World.todoistState w))
              (snd (SyncEngine.reconcileStates rt w)))
    as (Hl & Hv & Hvl & _ & Hos & _).
  destruct (tally_skipped (expectedKeys (World.todoistState w))
              SyncEngine.noStats) as [Hc Hu].
  repeat split; assumption.
Qed.

(** One project and its task, reconciled after the task was stamped: the
    hypotheses hold, and the second pass records two verdicts of
    skipped. *)
Lemma C5_garden_witness :
  DistinctIds gardenState
  /\ DateFaithful RefRuntime.runtime 1710000000000
  /\ NotLaterThan RefRuntime.runtime 1710000000000 keptTask
  /\ World.decisionLog
       (snd (SyncEngine.reconcileStates RefRuntime.runtime
               (snd (SyncEngine.reconcileStates RefRuntime.runtime
                       (gardenWorld false 1710000000000)))))
     = [verdictOf World.KProject "p1" World.Created;
        verdictOf World.KTask "t1" World.Created;
        verdictOf World.KProject "p1" World.Skipped;
        verdictOf World.KTask "t1" World.Skipped].
Proof.
  assert (Hd : DistinctIds gardenState).
  { vm_compute. repeat split; repeat constructor; simpl; tauto. }
  assert (Hdate : DateFaithful RefRuntime.runtime 1710000000000).
  { split; [vm_compute; discriminate | vm_compute; reflexivity]. }
  assert (Hlate : forall t,
             In t (TodoistState.getAllTasks gardenState) ->
             NotLaterThan RefRuntime.runtime 1710000000000 t).
  { intros t [<-|[]]. vm_compute. reflexivity. }
  split; [exact Hd|]. split; [exact Hdate|].
  split; [apply Hlate; now left|].
  destruct (C5_second_pass_skips_all RefRuntime.runtime
              (gardenWorld false 1710000000000) _ Hd Hdate Hlate
              ltac:(vm_compute; reflexivity))
    as (_ & _ & _ & Hlog & _).
  rewrite Hlog. vm_compute. reflexivity.
Defined.

(** C5 as stated fails: the task of this remote state is stamped later
    than the clock reads; the first pass returns, nothing changes, and
    the second pass records updated for the task. *)
Lemma C5_later_stamp_counterexample :
  fst (SyncEngine.reconcileStates RefRuntime.runtime
         (gardenWorld false 1700000000000))
  = World.Returns
      (tally [verdictOf World.KProject "p1" World.Created;
              verdictOf World.KTask "t1" World.Created] SyncEngine.noStats)
  /\ World.decisionLog
       (snd (SyncEngine.reconcileStates RefRuntime.runtime
               (snd (SyncEngine.reconcileStates RefRuntime.runtime
                       (gardenWorld false 1700000000000)))))
     = [verdictOf World.KProject "p1" World.Created;
        verdictOf World.KTask "t1" World.Created;
        verdictOf World.KProject "p1" World.Skipped;
        verdictOf World.KTask "t1" World.Updated]
  /\ fst (SyncEngine.reconcileStates RefRuntime.runtime
            (snd (SyncEngine.reconcileStates RefRuntime.runtime
                    (gardenWorld false 1700000000000))))
     = World.Returns
         (tally [verdictOf World.KProject "p1" World.Skipped;
                 verdictOf World.KTask "t1" World.Updated]
            SyncEngine.noStats).
Proof. vm_compute. repeat split. Qed.

(** ** Dry runs and renamed entities *)

Section MaterializerFacts.
Import World FileGenerator.

(** Under dry-run the last step of the materializers writes nothing. *)
Lemma writeNote_dry (g : Generator) (p data : string) (w : World.t) :
  g_dryRun g = true ->
  writeNote g p data w = (Returns (clock w), w).
Proof. intros Hdry. unfold writeNote, bind. cbn. now rewrite Hdry. Qed.

(** A task materialized again keeps the path of its document. *)
Lemma task_path_reused (rt : JsRuntime) (g : Generator) (c : Z)
      (task : TodoistTask) (projectName sectionName : option string)
      (existing : string) (stamp : Z) :
  isEmpty existing = false ->
  tn_filePath
    (taskNoteOf rt g c task projectName sectionName (Some existing) stamp)
  = existing.
Proof.
  intros Hne. cbn [taskNoteOf tn_filePath]. unfold taskFilePath, given.
  now rewrite Hne.
Qed.

(** Outside a dry run the step of a task that has a note with a path
    writes one document, at that path, whatever the names resolve to. *)
Lemma task_rewritten_in_place (rt : JsRuntime) (task : TodoistTask)
      (projectName sectionName : option string) (w : World.t)
      (note : ObsidianTaskNote) :
  g_dryRun (fileGenerator w) = false ->
  ObsidianState.getTaskNote (VStr (task_id task)) (obsidianState w)
  = Some note ->
  isEmpty (tn_filePath note) = false ->
  fst (SyncEngine.reconcileTask rt task projectName sectionName w)
  = Returns Updated ->
  exists ops,
    vaultLog (snd (SyncEngine.reconcileTask rt task projectName sectionName
                     w))
    = (vaultLog w ++ ops)%list
    /\ OneDocument (tn_filePath note) ops.
Proof.
  intros Hdry Hnote Hpath Hret.
  destruct (task_writes rt task projectName sectionName w Updated Hdry Hret)
    as (ops & Hv & Hdoc).
  exists ops. split; [exact Hv|]. cbn in Hdoc. rewrite Hnote in Hdoc.
  cbn in Hdoc. unfold taskFilePath, given in Hdoc.
  now rewrite Hpath in Hdoc.
Qed.

End MaterializerFacts.

(** ** What a dry run asks of the vault *)

Section DryRunFacts.
Import World FileGenerator SyncEngine.

Lemma logs_nothing {A : Type} (m : M A) (Q : Vault.Op -> bool) :
  (forall w, snd (m w) = w) -> Logs m Q.
Proof. intros H w. exists []. now rewrite H, app_nil_r. Qed.

Lemma logs_bind {A B : Type} (m : M A) (k : A -> M B) (Q : Vault.Op -> bool) :
  Logs m Q -> (forall a, Logs (k a) Q) -> Logs (bind m k) Q.
Proof.
  intros Hm Hk w. unfold bind. destruct (Hm w) as (o1 & Hl1 & Hq1).
  destruct (m w) as [[a|e] w1]; cbn [fst snd] in *.
  - destruct (Hk a w1) as (o2 & Hl2 & Hq2). exists (o1 ++ o2)%list.
    rewrite Hl2, Hl1, app_assoc, forallb_app, Hq1, Hq2. now split.
  - now exists o1.
Qed.

Lemma logs_createFolder (p : string) : Logs (createFolder p) isFolderCreation.
Proof.
  intros w. unfold createFolder, bind, getAbstractFileByPath, gets, modify,
    throw, storageWrite. cbn.
  destruct (Vault.getAbstractFileByPath p (vault w));
    [now exists [Vault.CreateFolder p]|].
  destruct (storageFails w (Vault.CreateFolder p));
    now exists [Vault.CreateFolder p].
Qed.

Lemma logs_ensure (p : string) (folder : option Vault.AbstractFile) :
  Logs
    (match folder with
     | None => createFolder p
     | Some _ => ret tt
     end)
    isFolderCreation.
Proof.
  destruct folder; [now apply logs_nothing | apply logs_createFolder].
Qed.

Lemma logs_ensureSyncFolder (g : Generator) :
  Logs (ensureSyncFolder g) isFolderCreation.
Proof.
  unfold ensureSyncFolder. apply logs_bind; [now apply logs_nothing|].
  intros folder. apply logs_ensure.
Qed.

(** In a dry run the last step of the materializers asks for nothing. *)
Lemma logs_writeNote_dry (g : Generator) (p data : string)
      (Q : Vault.Op -> bool) :
  g_dryRun g = true -> Logs (writeNote g p data) Q.
Proof.
  intros Hdry. apply logs_nothing. intros w.
  now rewrite (writeNote_dry g p data w Hdry).
Qed.

Ltac dry_tail :=
  apply logs_bind; [now apply logs_nothing|]; intros ?;
  apply logs_bind; [apply logs_ensure|]; intros _;
  apply logs_bind; [now apply logs_nothing|]; intros ?;
  apply logs_bind; [now apply logs_writeNote_dry|]; intros ?;
  now apply logs_nothing.

Variable rt : JsRuntime.

Lemma logs_projectNote (g : Generator) (project : TodoistProject) :
  g_dryRun g = true ->
  Logs (createOrUpdateProjectNote rt g project) isFolderCreation.
Proof.
  intros Hdry. unfold createOrUpdateProjectNote.
  apply logs_bind; [apply logs_ensureSyncFolder|]. intros _. dry_tail.
Qed.

Lemma logs_sectionNote (g : Generator) (section : TodoistSection)
      (projectName : string) :
  g_dryRun g = true ->
  Logs (createOrUpdateSectionNote rt g section projectName) isFolderCreation.
Proof.
  intros Hdry. unfold createOrUpdateSectionNote.
  apply logs_bind; [apply logs_ensureSyncFolder|]. intros _. dry_tail.
Qed.

Lemma logs_taskNote (g : Generator) (task : TodoistTask)
      (projectName sectionName existingFilePath : option string) :
  g_dryRun g = true ->
  Logs
    (createOrUpdateTaskNote rt g task projectName sectionName
       existingFilePath)
    isFolderCreation.
Proof.
  intros Hdry. unfold createOrUpdateTaskNote.
  apply logs_bind; [apply logs_ensureSyncFolder|]. intros _.
  destruct existingFilePath as [existing|];
    [destruct (isEmpty existing)|]; dry_tail.
Qed.

(** A step of a dry run creates folders at most. *)
Lemma shape_dry {N : Type}
      (lookup : ObsidianState.t -> option N) (stale : N -> bool)
      (generate : Generator -> option N -> M N)
      (store : N -> ObsidianState.t -> ObsidianState.t)
      (k : Kind) (id : string) (w : World.t) :
  (forall g o, g_dryRun g = true -> Logs (generate g o) isFolderCreation) ->
  g_dryRun (fileGenerator w) = true ->
  exists ops,
    vaultLog (snd (reconcileShape lookup stale generate store k id w))
    = (vaultLog w ++ ops)%list
    /\ forallb isFolderCreation ops = true.
Proof.
  intros Hgen Hdry. unfold reconcileShape, bind, gets, decide, modify, ret.
  cbn. destruct (lookup (obsidianState w)) as [existing|];
    [destruct (stale existing)|].
  - destruct (Hgen _ (Some existing) Hdry w) as (ops & Hl & Hq).
    exists ops. split; [|exact Hq].
    now destruct (generate (fileGenerator w) (Some existing) w)
      as [[note|e] w1].
  - exists []. cbn. now rewrite app_nil_r.
  - destruct (Hgen _ None Hdry w) as (ops & Hl & Hq).
    exists ops. split; [|exact Hq].
    now destruct (generate (fileGenerator w) None w) as [[note|e] w1].
Qed.

Lemma projects_dry (ps : list TodoistProject) :
  forall (stats : Stats) (pm : StrMap string) (w : World.t),
    g_dryRun (fileGenerator w) = true ->
    exists ops,
      vaultLog (snd (reconcileProjects rt ps stats pm w))
      = (vaultLog w ++ ops)%list
      /\ forallb isFolderCreation ops = true.
Proof.
  induction ps as [|p ps IH]; intros stats pm w Hdry.
  - exists []. cbn. now rewrite app_nil_r.
  - cbn [reconcileProjects]. unfold bind.
    pose proof (project_step rt p w) as Hstep. cbn zeta in Hstep.
    destruct (shape_dry
                (ObsidianState.getProjectNote (VStr (project_id p)))
                (projectStale p)
                (fun g _ => createOrUpdateProjectNote rt g p)
                (ObsidianState.setProjectNote (VStr (project_id p)))
                KProject (project_id p) w
                (fun g _ => logs_projectNote g p) Hdry) as (o1 & Hl1 & Hq1).
    rewrite <- reconcileProject_shape in Hl1.
    destruct (reconcileProject rt p w) as [[v|e] w1]; cbn [fst snd] in *;
      [|now exists o1].
    destruct Hstep as ((_ & Hg & _) & _). rewrite <- Hg in Hdry.
    destruct (IH (count KProject v stats)
                (JsMap.set String.eqb (project_id p) (project_name p) pm)
                w1 Hdry) as (o2 & Hl2 & Hq2).
    exists (o1 ++ o2)%list.
    rewrite Hl2, Hl1, app_assoc, forallb_app, Hq1, Hq2. now split.
Qed.

Lemma sections_dry (ss : list TodoistSection) (pm : StrMap string) :
  forall (stats : Stats) (sm : StrMap string) (w : World.t),
    g_dryRun (fileGenerator w) = true ->
    exists ops,
      vaultLog (snd (reconcileSections rt ss pm stats sm w))
      = (vaultLog w ++ ops)%list
      /\ forallb isFolderCreation ops = true.
Proof.
  induction ss as [|s ss IH]; intros stats sm w Hdry.
  - exists []. cbn. now rewrite app_nil_r.
  - rewrite sections_unfold.
    destruct (resolvedName pm (section_project_id s)) as [name|];
      [|now apply IH].
    unfold bind.
    pose proof (section_step rt s name w) as Hstep. cbn zeta in Hstep.
    destruct (shape_dry
                (ObsidianState.getSectionNote (VStr (section_id s)))
                (sectionStale s)
                (fun g _ => createOrUpdateSectionNote rt g s name)
                (ObsidianState.setSectionNote (VStr (section_id s)))
                KSection (section_id s) w
                (fun g _ => logs_sectionNote g s name) Hdry)
      as (o1 & Hl1 & Hq1).
    rewrite <- reconcileSection_shape in Hl1.
    destruct (reconcileSection rt s name w) as [[v|e] w1];
      cbn [fst snd] in *; [|now exists o1].
    destruct Hstep as ((_ & Hg & _) & _). rewrite <- Hg in Hdry.
    destruct (IH (count KSection v stats)
                (JsMap.set String.eqb (section_id s) (section_name s) sm)
                w1 Hdry) as (o2 & Hl2 & Hq2).
    exists (o1 ++ o2)%list.
    rewrite Hl2, Hl1, app_assoc, forallb_app, Hq1, Hq2. now split.
Qed.

Lemma tasks_dry (ts : list TodoistTask) (pm sm : StrMap string) :
  forall (stats : Stats) (w : World.t),
    g_dryRun (fileGenerator w) = true ->
    exists ops,
      vaultLog (snd (reconcileTasks rt ts pm sm stats w))
      = (vaultLog w ++ ops)%list
      /\ forallb isFolderCreation ops = true.
Proof.
  induction ts as [|t ts IH]; intros stats w Hdry.
  - exists []. cbn. now rewrite app_nil_r.
  - rewrite tasks_unfold. unfold bind.
    pose proof (task_step rt t (JsMap.get String.eqb (task_project_id t) pm)
                  (sectionNameFor sm t) w) as Hstep.
    cbn zeta in Hstep.
    destruct (shape_dry
                (ObsidianState.getTaskNote (VStr (task_id t)))
                (taskStale rt t)
                (fun g o =>
                   createOrUpdateTaskNote rt g t
                     (JsMap.get String.eqb (task_project_id t) pm)
                     (sectionNameFor sm t) (option_map tn_filePath o))
                (ObsidianState.setTaskNote (VStr (task_id t)))
                KTask (task_id t) w
                (fun g o => logs_taskNote g t _ _ _) Hdry)
      as (o1 & Hl1 & Hq1).
    rewrite <- reconcileTask_shape in Hl1.
    destruct (reconcileTask rt t _ _ w) as [[v|e] w1]; cbn [fst snd] in *;
      [|now exists o1].
    destruct Hstep as ((_ & Hg & _) & _). rewrite <- Hg in Hdry.
    destruct (IH (count KTask v stats) w1 Hdry) as (o2 & Hl2 & Hq2).
    exists (o1 ++ o2)%list.
    rewrite Hl2, Hl1, app_assoc, forallb_app, Hq1, Hq2. now split.
Qed.

(** A reconcile pass of a dry run, however it ends, creates folders at
    most: it creates, modifies and deletes no document. *)
Lemma pass_dry (w : World.t) :
  g_dryRun (fileGenerator w) = true ->
  exists ops,
    vaultLog (snd (reconcileStates rt w)) = (vaultLog w ++ ops)%list
    /\ forallb isFolderCreation ops = true.
Proof.
  intros Hdry. rewrite states_unfold.
  destruct (projects_trace rt
              (TodoistState.getAllProjects (todoistState w)) noStats [] w)
    as (d1 & (_ & Hg1 & _) & _).
  destruct (projects_dry (TodoistState.getAllProjects (todoistState w))
              noStats [] w Hdry) as (o1 & Hl1 & Hq1).
  destruct (reconcileProjects rt _ noStats [] w) as [[r1|e] w1];
    cbn [fst snd] in *; [|now exists o1].
  rewrite <- Hg1 in Hdry.
  destruct (sections_trace rt
              (TodoistState.getAllSections (todoistState w1)) (snd r1)
              (fst r1) [] w1) as (d2 & (_ & Hg2 & _) & _).
  destruct (sections_dry (TodoistState.getAllSections (todoistState w1))
              (snd r1) (fst r1) [] w1 Hdry) as (o2 & Hl2 & Hq2).
  destruct (reconcileSections rt _ (snd r1) (fst r1) [] w1)
    as [[r2|e] w2]; cbn [fst snd] in *.
  - rewrite <- Hg2 in Hdry.
    destruct (tasks_dry (TodoistState.getAllTasks (todoistState w2))
                (snd r1) (snd r2) (fst r2) w2 Hdry) as (o3 & Hl3 & Hq3).
    exists (o1 ++ o2 ++ o3)%list.
    rewrite Hl3, Hl2, Hl1, <- !app_assoc, !forallb_app, Hq1, Hq2, Hq3.
    now split.
  - exists (o1 ++ o2)%list.
    rewrite Hl2, Hl1, <- app_assoc, forallb_app, Hq1, Hq2. now split.
Qed.

Lemma onlyFolders_documents (ops : list Vault.Op) :
  OnlyFolders ops -> documentWrites ops = [].
Proof.
  unfold OnlyFolders, documentWrites.
  induction ops as [|op ops IH]; [reflexivity|]. cbn. intros H.
  apply andb_prop in H as [H1 H2]. destruct op; try discriminate.
  now apply IH.
Qed.

End DryRunFacts.


(** C1, at a failing input.  Of a dry run this much holds: its reconcile
    pass, however it ends, creates, modifies and deletes no document.  It
    does create folders.  A dry run of [performSync] over an empty vault,
    for a remote service with one project and its task: the run succeeds
    with the verdicts of a real run and calls the service for reading
    only, and it creates two folders in the vault; on a store that refuses
    to create folders the dry run fails with the error of the store. *)
Theorem C1_dry_run_creates_folders :
  (forall (rt : JsRuntime) (w : World.t),
      World.g_dryRun (World.fileGenerator w) = true ->
      exists ops,
        World.vaultLog (snd (SyncEngine.reconcileStates rt w))
        = (World.vaultLog w ++ ops)%list
        /\ OnlyFolders ops /\ documentWrites ops = [])
  /\ World.dryRunMode (World.settings (freshEngine true neverFails)) = true
  /\ World.g_dryRun (World.fileGenerator (freshEngine true neverFails))
     = true
  /\ World.vault (freshEngine true neverFails) = Vault.empty
  /\ fst (SyncEngine.performSync RefRuntime.runtime
            (freshEngine true neverFails))
     = World.Returns
         {| SyncEngine.success := true;
            SyncEngine.message := "Sync completed successfully" |}
  /\ World.decisionLog
       (snd (SyncEngine.performSync RefRuntime.runtime
               (freshEngine true neverFails)))
     = World.decisionLog
         (snd (SyncEngine.performSync RefRuntime.runtime
                 (freshEngine false neverFails)))
  /\ filter World.isMutation
       (World.apiLog
          (snd (SyncEngine.performSync RefRuntime.runtime
                  (freshEngine true neverFails)))) = []
  /\ World.vaultLog
       (snd (SyncEngine.performSync RefRuntime.runtime
               (freshEngine true neverFails)))
     = [Vault.CreateFolder "Todoist"; Vault.CreateFolder "Todoist/Garden"]
  /\ Vault.folders
       (World.vault
          (snd (SyncEngine.performSync RefRuntime.runtime
                  (freshEngine true neverFails))))
     = ["Todoist"; "Todoist/Garden"]
  /\ fst (SyncEngine.performSync RefRuntime.runtime
            (freshEngine true noNewFolders))
     = World.Returns
         {| SyncEngine.success := false;
            SyncEngine.message := "Sync failed: EACCES: permission denied" |}.
Proof.
  split.
  - intros rt w Hdry. destruct (pass_dry rt w Hdry) as (ops & Hl & Hq).
    exists ops. split; [exact Hl|]. split; [exact Hq|].
    now apply onlyFolders_documents.
  - vm_compute. repeat split.
Qed.

(** C3, at a failing input.  Of tasks the property holds: outside a dry
    run the step that updates a task whose note has a path writes one
    document, at that path.  Of projects it does not.  The local state
    records the document of project p1 and that of its task t1; both are
    renamed upstream.  The next pass records updated for both.  The task
    is written to the path it had; the project gets a second document
    under its new name, and the first one stays in the vault. *)
Theorem C3_renamed_project_gets_second_file :
  (forall (rt : JsRuntime) (task : TodoistTask)
          (projectName sectionName : option string) (w : World.t)
          (note : ObsidianTaskNote),
      World.g_dryRun (World.fileGenerator w) = false ->
      ObsidianState.getTaskNote (VStr (task_id task)) (World.obsidianState w)
      = Some note ->
      isEmpty (tn_filePath note) = false ->
      fst (SyncEngine.reconcileTask rt task projectName sectionName w)
      = World.Returns World.Updated ->
      exists ops,
        World.vaultLog
          (snd (SyncEngine.reconcileTask rt task projectName sectionName w))
        = (World.vaultLog w ++ ops)%list
        /\ OneDocument (tn_filePath note) ops)
  /\ option_map pn_filePath
       (ObsidianState.getProjectNote (VStr "p1")
          (World.obsidianState afterRename))
     = Some "Todoist/Garden/_project.md"
  /\ option_map tn_filePath
       (ObsidianState.getTaskNote (VStr "t1")
          (World.obsidianState afterRename))
     = Some "Todoist/Garden/Water.md"
  /\ map Vault.path (Vault.files (World.vault afterRename))
     = ["Todoist/Garden/_project.md"; "Todoist/Garden/Water.md"]
  /\ TodoistState.getAllProjects (World.todoistState afterRename)
     = [renamedProject]
  /\ TodoistState.getAllTasks (World.todoistState afterRename)
     = [renamedTask]
  /\ World.decisionLog (snd renamePass)
     = (World.decisionLog afterRename
        ++ [verdictOf World.KProject "p1" World.Updated;
            verdictOf World.KTask "t1" World.Updated])%list
  /\ outline (World.vaultLog (snd renamePass))
     = (outline (World.vaultLog afterRename)
        ++ [Vault.CreateFolder "Todoist/Orchard";
            Vault.Create "Todoist/Orchard/_project.md" EmptyString;
            Vault.Modify "Todoist/Garden/Water.md" EmptyString])%list
  /\ map Vault.path (Vault.files (World.vault (snd renamePass)))
     = ["Todoist/Garden/_project.md"; "Todoist/Garden/Water.md";
        "Todoist/Orchard/_project.md"]
  /\ option_map pn_filePath
       (ObsidianState.getProjectNote (VStr "p1")
          (World.obsidianState (snd renamePass)))
     = Some "Todoist/Orchard/_project.md".
Proof.
  split; [exact task_rewritten_in_place | vm_compute; repeat split].
Qed.

(* ================================================================== *)
(** * The engine at large

    What the steps, the entry points and the file events of the engine do
    to the vault, to the remote service and to the two states, whatever
    the state they start from. *)
(* ================================================================== *)

(** ** Footprints *)

Section FootprintFacts.
Import World.

Lemma extends_refl {A : Type} (ok : A -> bool) (l : list A) : Extends ok l l.
Proof. exists []. now rewrite app_nil_r. Qed.

Lemma extends_trans {A : Type} (ok : A -> bool) (l1 l2 l3 : list A) :
  Extends ok l1 l2 -> Extends ok l2 l3 -> Extends ok l1 l3.
Proof.
  intros (n1 & -> & H1) (n2 & -> & H2). exists (n1 ++ n2)%list.
  now rewrite app_assoc, forallb_app, H1, H2.
Qed.

Lemma extends_one {A : Type} (ok : A -> bool) (l : list A) (x : A) :
  ok x = true -> Extends ok l (l ++ [x])%list.
Proof. intros Hx. exists [x]. cbn. now rewrite Hx. Qed.

Variable F : Footprint.

Lemma within_refl (w : World.t) : Within F w w.
Proof. repeat split; auto using extends_refl. Qed.

Lemma within_trans (w1 w2 w3 : World.t) :
  Within F w1 w2 -> Within F w2 w3 -> Within F w1 w3.
Proof.
  intros (Hs & Hg & Ho & Hc & Hf & Hn) (Hs' & Hg' & Ho' & Hc' & Hf' & Hn').
  repeat split; try congruence; eauto using extends_trans.
  - intros H. rewrite (Hf' H). auto.
  - intros H. rewrite (Hn' H). auto.
Qed.

(** A step that leaves the settings, the generator, both records and the
    states it has no leave to change. *)
Lemma within_touch (w w' : World.t) :
  settings w' = settings w ->
  fileGenerator w' = fileGenerator w ->
  vaultLog w' = vaultLog w ->
  apiLog w' = apiLog w ->
  (mayFetch F = false -> todoistState w' = todoistState w) ->
  (mayScan F = false -> obsidianState w' = obsidianState w) ->
  Within F w w'.
Proof.
  intros Hs Hg Ho Hc Hf Hn. repeat split; auto.
  - rewrite Ho. apply extends_refl.
  - rewrite Hc. apply extends_refl.
Qed.

Variable I : World.t -> Prop.
Hypothesis I_stable :
  forall w w',
    I w -> settings w' = settings w ->
    fileGenerator w' = fileGenerator w -> I w'.

Lemma within_keeps (w w' : World.t) : I w -> Within F w w' -> I w'.
Proof. intros HI (Hs & Hg & _). now apply (I_stable w). Qed.

Lemma keeps_same {A : Type} (m : M A) :
  (forall w, snd (m w) = w) -> Keeps I F m.
Proof. intros H w _. rewrite H. apply within_refl. Qed.

Lemma keeps_bind {A B : Type} (m : M A) (k : A -> M B) :
  Keeps I F m -> (forall a, Keeps I F (k a)) -> Keeps I F (bind m k).
Proof.
  intros Hm Hk w HI. unfold bind. specialize (Hm w HI).
  destruct (m w) as [[a|e] w1]; cbn [snd] in *; [|exact Hm].
  apply (within_trans w w1); [exact Hm|].
  apply Hk. now apply (within_keeps w).
Qed.

(** A reading of the world: what follows is run on a value read in a world
    of [I]. *)
Lemma keeps_bind_gets {A B : Type} (f : World.t -> A) (k : A -> M B) :
  (forall w0, I w0 -> Keeps I F (k (f w0))) -> Keeps I F (bind (gets f) k).
Proof. intros Hk w HI. unfold bind, gets. now apply Hk. Qed.

Lemma keeps_tryCatch {A : Type} (m : M A) (handler : string -> M A) :
  Keeps I F m -> (forall e, Keeps I F (handler e)) ->
  Keeps I F (tryCatch m handler).
Proof.
  intros Hm Hh w HI. unfold tryCatch. specialize (Hm w HI).
  destruct (m w) as [[a|e] w1]; cbn [snd] in *; [exact Hm|].
  apply (within_trans w w1); [exact Hm|].
  apply Hh. now apply (within_keeps w).
Qed.

Lemma keeps_finally {A : Type} (m : M A) (cleanup : World.t -> World.t) :
  Keeps I F m -> (forall w, Within F w (cleanup w)) ->
  Keeps I F (finally m cleanup).
Proof.
  intros Hm Hc w HI. unfold finally. specialize (Hm w HI).
  destruct (m w) as [r w1]; cbn [snd] in *.
  now apply (within_trans w w1).
Qed.

Lemma keeps_forEach {A : Type} (xs : list A) (body : A -> M unit) :
  (forall x, Keeps I F (body x)) -> Keeps I F (forEach xs body).
Proof.
  intros Hb. induction xs as [|x xs IH]; cbn [forEach].
  - now apply keeps_same.
  - apply keeps_bind; [apply Hb | intros _; exact IH].
Qed.

Lemma keeps_when (b : bool) (m : M unit) :
  (b = true -> Keeps I F m) -> Keeps I F (when b m).
Proof.
  intros Hm. unfold when. destruct b; [now apply Hm | now apply keeps_same].
Qed.

Lemma keeps_modify (f : World.t -> World.t) :
  (forall w, Within F w (f w)) -> Keeps I F (modify f).
Proof. intros Hf w _. apply Hf. Qed.

Lemma within_logVaultOp (op : Vault.Op) (w : World.t) :
  okOp F op = true -> Within F w (logVaultOp op w).
Proof.
  intros Hop. repeat split; auto using extends_refl.
  now apply extends_one.
Qed.

Lemma keeps_storageWrite (op : Vault.Op)
      (apply : Z -> Vault.t -> Vault.t) :
  okOp F op = true -> Keeps I F (storageWrite op apply).
Proof.
  intros Hop w _. unfold storageWrite. cbn.
  destruct (storageFails w op); cbn [snd].
  - now apply within_logVaultOp.
  - apply (within_trans _ (logVaultOp op w));
      [now apply within_logVaultOp|].
    now apply within_touch.
Qed.

Lemma keeps_call (c : ApiCall) :
  okCall F c = true -> Keeps I F (call c).
Proof.
  intros Hc w _. repeat split; auto using extends_refl.
  now apply extends_one.
Qed.

End FootprintFacts.

(** ** The reconcile pass within a footprint *)

Section StepFootprints.
Import World FileGenerator SyncEngine.

Variable F : Footprint.
Variable I : World.t -> Prop.
Hypothesis I_stable :
  forall w w',
    I w -> settings w' = settings w ->
    fileGenerator w' = fileGenerator w -> I w'.
Variable rt : JsRuntime.

Ltac same := now apply keeps_same.
Ltac kbind := apply (keeps_bind F I I_stable); [|intros ?].
Ltac kgets := apply (keeps_bind_gets F I); intros ? ?.
Ltac ktouch := apply keeps_modify; intros ?; now apply within_touch.

(** *** The materializer and the reconcile step *)

Hypothesis Hfolders : AllowsFolders F.

Lemma keeps_createFolder (p : string) : Keeps I F (createFolder p).
Proof.
  unfold createFolder. kgets. destruct (Vault.getAbstractFileByPath _ _).
  - kbind; [|same]. apply keeps_modify. intros w.
    apply within_logVaultOp, Hfolders.
  - apply keeps_storageWrite, Hfolders.
Qed.

Lemma keeps_ensure (p : string) (folder : option Vault.AbstractFile) :
  Keeps I F
    (match folder with
     | None => createFolder p
     | Some _ => ret tt
     end).
Proof. destruct folder; [same | apply keeps_createFolder]. Qed.

Lemma keeps_ensureSyncFolder (g : Generator) :
  Keeps I F (ensureSyncFolder g).
Proof. unfold ensureSyncFolder. kgets. apply keeps_ensure. Qed.

Lemma keeps_create (p data : string) :
  okOp F (Vault.Create p data) = true -> Keeps I F (create p data).
Proof.
  intros Hop. unfold create. kgets.
  destruct (Vault.getAbstractFileByPath _ _).
  - kbind; [|same]. apply keeps_modify. intros w.
    now apply within_logVaultOp.
  - now apply keeps_storageWrite.
Qed.

Lemma keeps_writeNote (g : Generator) (p data : string) :
  AllowsWrites F g -> Keeps I F (writeNote g p data).
Proof.
  intros Hg. unfold writeNote. kgets.
  destruct (g_dryRun g) eqn:Hdry; [same|].
  destruct (Hg Hdry p data) as [Hc _].
  kbind.
  - destruct (Vault.getAbstractFileByPath _ _) as [[f|q]|];
      try now apply keeps_create.
    apply keeps_storageWrite. apply (Hg Hdry).
  - kgets. destruct (Vault.getAbstractFileByPath _ _) as [[f|q]|]; same.
Qed.

Ltac note_tail Hg :=
  kgets; kbind; [apply keeps_ensure|];
  unfold now; kgets;
  kbind; [now apply keeps_writeNote|]; same.

Lemma keeps_projectNote (g : Generator) (project : TodoistProject) :
  AllowsWrites F g -> Keeps I F (createOrUpdateProjectNote rt g project).
Proof.
  intros Hg. unfold createOrUpdateProjectNote.
  kbind; [apply keeps_ensureSyncFolder|]. note_tail Hg.
Qed.

Lemma keeps_sectionNote (g : Generator) (section : TodoistSection)
      (projectName : string) :
  AllowsWrites F g ->
  Keeps I F (createOrUpdateSectionNote rt g section projectName).
Proof.
  intros Hg. unfold createOrUpdateSectionNote.
  kbind; [apply keeps_ensureSyncFolder|]. note_tail Hg.
Qed.

Lemma keeps_taskNote (g : Generator) (task : TodoistTask)
      (projectName sectionName existingFilePath : option string) :
  AllowsWrites F g ->
  Keeps I F
    (createOrUpdateTaskNote rt g task projectName sectionName
       existingFilePath).
Proof.
  intros Hg. unfold createOrUpdateTaskNote.
  kbind; [apply keeps_ensureSyncFolder|].
  destruct existingFilePath as [existing|];
    [destruct (isEmpty existing)|]; note_tail Hg.
Qed.

Hypothesis Hwrites : forall w, I w -> AllowsWrites F (fileGenerator w).
Hypothesis Hscan : mayScan F = true.

Lemma keeps_decide (k : Kind) (id : string) (v : Verdict) :
  Keeps I F (decide k id v).
Proof. unfold decide. kbind; [ktouch | same]. Qed.

Ltac store_tail :=
  kbind;
  [apply keeps_modify; intros ?; apply within_touch; try reflexivity;
   rewrite Hscan; discriminate
  |apply keeps_decide].

Lemma keeps_reconcileProject (project : TodoistProject) :
  Keeps I F (reconcileProject rt project).
Proof.
  unfold reconcileProject. kgets. kgets.
  destruct (ObsidianState.getProjectNote _ _) as [existing|].
  - match goal with |- Keeps _ _ (if ?c then _ else _) => destruct c end;
      [|apply keeps_decide].
    kbind; [apply keeps_projectNote; auto | store_tail].
  - kbind; [apply keeps_projectNote; auto | store_tail].
Qed.

Lemma keeps_reconcileSection (section : TodoistSection)
      (projectName : string) :
  Keeps I F (reconcileSection rt section projectName).
Proof.
  unfold reconcileSection. kgets. kgets.
  destruct (ObsidianState.getSectionNote _ _) as [existing|].
  - match goal with |- Keeps _ _ (if ?c then _ else _) => destruct c end;
      [|apply keeps_decide].
    kbind; [apply keeps_sectionNote; auto | store_tail].
  - kbind; [apply keeps_sectionNote; auto | store_tail].
Qed.

Lemma keeps_reconcileTask (task : TodoistTask)
      (projectName sectionName : option string) :
  Keeps I F (reconcileTask rt task projectName sectionName).
Proof.
  unfold reconcileTask. kgets. kgets.
  destruct (ObsidianState.getTaskNote _ _) as [existing|].
  - match goal with |- Keeps _ _ (if ?c then _ else _) => destruct c end;
      [|apply keeps_decide].
    kbind; [apply keeps_taskNote; auto | store_tail].
  - kbind; [apply keeps_taskNote; auto | store_tail].
Qed.

Lemma keeps_reconcileProjects (ps : list TodoistProject) :
  forall stats pm, Keeps I F (reconcileProjects rt ps stats pm).
Proof.
  induction ps as [|p ps IH]; intros stats pm; cbn [reconcileProjects];
    [same|].
  kbind; [apply keeps_reconcileProject | apply IH].
Qed.

Lemma keeps_reconcileSections (ss : list TodoistSection)
      (pm : StrMap string) :
  forall stats sm, Keeps I F (reconcileSections rt ss pm stats sm).
Proof.
  induction ss as [|s ss IH]; intros stats sm; cbn [reconcileSections];
    [same|].
  destruct (JsMap.get String.eqb (section_project_id s) pm) as [name|];
    [|apply IH].
  destruct (isEmpty name); [apply IH|].
  kbind; [apply keeps_reconcileSection | apply IH].
Qed.

Lemma keeps_reconcileTasks (ts : list TodoistTask) (pm sm : StrMap string) :
  forall stats, Keeps I F (reconcileTasks rt ts pm sm stats).
Proof.
  induction ts as [|t ts IH]; intros stats; cbn [reconcileTasks]; [same|].
  kbind; [apply keeps_reconcileTask | apply IH].
Qed.

Lemma keeps_reconcileStates : Keeps I F (reconcileStates rt).
Proof.
  unfold reconcileStates. kgets.
  kbind; [apply keeps_reconcileProjects|]. destruct a as [stats pm].
  kgets. kbind; [apply keeps_reconcileSections|].
  destruct a as [stats' sm]. kgets. apply keeps_reconcileTasks.
Qed.

Lemma keeps_scanObsidianChanges : Keeps I F scanObsidianChanges.
Proof.
  unfold scanObsidianChanges. apply keeps_modify. intros w.
  apply within_touch; try reflexivity. rewrite Hscan. discriminate.
Qed.

End StepFootprints.

(** ** The push, the fetch and the entry points within a footprint *)

Section RunFootprints.
Import World FileGenerator SyncEngine.

Variable F : Footprint.
Variable I : World.t -> Prop.
Hypothesis I_stable :
  forall w w',
    I w -> settings w' = settings w ->
    fileGenerator w' = fileGenerator w -> I w'.
Variable rt : JsRuntime.

Ltac same := now apply keeps_same.
Ltac kbind := apply (keeps_bind F I I_stable); [|intros ?].
Ltac kgets := apply (keeps_bind_gets F I); intros ? ?.
Ltac kcatch := apply (keeps_tryCatch F I I_stable); [|intros ?; same].

(** *** The push *)

Lemma keeps_readFile (file : option Vault.TFile) :
  Keeps I F (readFile file).
Proof.
  unfold readFile. destruct file as [f|]; [|same]. kgets.
  destruct (Vault.findFile _ _); same.
Qed.

Lemma keeps_updateFileSyncTimestamp (file : option Vault.TFile) :
  (forall p data, okOp F (Vault.Modify p data) = true) ->
  Keeps I F (updateFileSyncTimestamp rt file).
Proof.
  intros Hop. unfold updateFileSyncTimestamp. kcatch.
  kbind; [apply keeps_readFile|].
  destruct (Frontmatter.parseFrontmatter rt _) as [[fm body]|]; [|same].
  unfold now. kgets. apply keeps_storageWrite, Hop.
Qed.

Hypothesis Hpush : forall w, I w -> AllowsPush F (dryRunMode (settings w)).

Lemma when_live (a dry : bool) : a && negb dry = true -> dry = false.
Proof. destruct a, dry; auto; discriminate. Qed.

Lemma keeps_syncTaskChangesToTodoist (todoistId : Value)
      (changes : Extract.Changes) (file : option Vault.TFile) :
  Keeps I F (syncTaskChangesToTodoist rt todoistId changes file).
Proof.
  unfold syncTaskChangesToTodoist. kgets.
  destruct (TodoistState.getTaskByValue _ _) as [existing|]; [|same].
  destruct todoistId as [| |id| | |]; try same.
  kcatch. apply (keeps_bind_gets F I). intros w1 Hw1. kgets.
  pose proof (Hpush w1 Hw1) as Hlive.
  kbind; [|kbind].
  - apply keeps_when. intros Hb. apply when_live in Hb.
    destruct (Hlive Hb) as [_ Hcalls].
    destruct (truthy _); now apply keeps_call, Hcalls.
  - apply keeps_when. intros Hb. apply when_live in Hb.
    destruct (Hlive Hb) as [_ Hcalls].
    kbind; [now apply keeps_call, Hcalls | same].
  - apply keeps_when. intros Hb. apply when_live in Hb.
    destruct (Hlive Hb) as [Hops _].
    now apply keeps_updateFileSyncTimestamp.
Qed.

Lemma keeps_syncProjectChangesToTodoist (todoistId : Value)
      (changes : Extract.Changes) :
  Keeps I F (syncProjectChangesToTodoist todoistId changes).
Proof.
  unfold syncProjectChangesToTodoist. kgets.
  destruct (TodoistState.getProjectByValue _ _) as [existing|]; [|same].
  destruct todoistId as [| |id| | |]; try same.
  kcatch. apply (keeps_bind_gets F I). intros w1 Hw1. kgets.
  pose proof (Hpush w1 Hw1) as Hlive.
  apply keeps_when. intros Hb. apply when_live in Hb.
  destruct (Hlive Hb) as [_ Hcalls].
  kbind; [now apply keeps_call, Hcalls | same].
Qed.

Lemma keeps_processFileChange (filePath : string) :
  Keeps I F (processFileChange rt filePath).
Proof.
  unfold processFileChange. kgets.
  destruct (Vault.getAbstractFileByPath _ _) as [[f|q]|]; try same.
  kcatch. destruct (negb (Extract.isInSyncScope rt _)); [same|].
  destruct (truthy _); [apply keeps_syncTaskChangesToTodoist|].
  destruct (truthy _); [apply keeps_syncProjectChangesToTodoist | same].
Qed.

Lemma keeps_processPendingChanges : Keeps I F (processPendingChanges rt).
Proof.
  unfold processPendingChanges. kgets.
  destruct (Nat.eqb _ 0); [same|]. kbind.
  - apply (keeps_forEach F I I_stable). intros filePath. kcatch.
    apply keeps_processFileChange.
  - apply keeps_modify. intros w. now apply within_touch.
Qed.

Lemma keeps_scanAndSyncToTodoist : Keeps I F (scanAndSyncToTodoist rt).
Proof.
  unfold scanAndSyncToTodoist. kgets. kgets.
  destruct (Vault.getAbstractFileByPath _ _) as [[f|q]|]; try same.
  kgets. apply (keeps_forEach F I I_stable). intros file. kcatch.
  apply keeps_processFileChange.
Qed.

Lemma keeps_syncTaskToTodoist (taskNote : ObsidianTaskNote) :
  Keeps I F (syncTaskToTodoist rt taskNote).
Proof.
  unfold syncTaskToTodoist. kcatch.
  kbind; [apply keeps_syncTaskChangesToTodoist | same].
Qed.

Lemma keeps_syncToTodoist : Keeps I F (syncToTodoist rt).
Proof.
  unfold syncToTodoist. kcatch.
  kbind; [apply keeps_processPendingChanges|]. kgets. kgets.
  destruct (ObsidianState.getModifiedSince _ _) as [[ts ps] ss].
  match goal with |- Keeps _ _ (if ?c then _ else _) => destruct c end;
    [same|].
  kbind.
  - apply (keeps_forEach F I I_stable). intros taskNote.
    kbind; [apply keeps_syncTaskToTodoist | same].
  - apply (keeps_forEach F I I_stable). intros projectNote.
    apply keeps_syncProjectChangesToTodoist.
Qed.

(** *** The fetch *)

Hypothesis Hreads : AllowsReads F.
Hypothesis Hfetch : mayFetch F = true.

Ltac kreplace :=
  apply keeps_modify; intros ?; apply within_touch; try reflexivity;
  rewrite Hfetch; discriminate.

Lemma keeps_syncFromTodoist : Keeps I F (syncFromTodoist).
Proof.
  unfold syncFromTodoist, now. kgets. kgets. kgets. kgets. kbind.
  - kcatch.
    match goal with |- Keeps _ _ (if ?c then _ else _) => destruct c end;
      [|same].
    kbind; [now apply keeps_call, Hreads|].
    kbind; [same|]. kbind; [kreplace | same].
  - destruct a; [same|].
    do 4 (kbind; [now apply keeps_call, Hreads|]).
    kbind; [same|]. kbind; [same|]. kreplace.
Qed.

(** *** The entry points *)

Lemma keeps_guardedRun (needsToken : bool) (steps : M unit)
      (done failed : string) :
  Keeps I F steps -> Keeps I F (guardedRun needsToken steps done failed).
Proof.
  intros Hsteps. unfold guardedRun. kgets.
  destruct (isRunning w0); [same|]. kgets.
  match goal with |- Keeps _ _ (if ?c then _ else _) => destruct c end;
    [same|].
  kbind; [apply keeps_modify; intros w; now apply within_touch|].
  apply (keeps_finally F I); [|intros w; now apply within_touch].
  kcatch. kbind; [exact Hsteps|]. unfold now. kgets.
  kbind; [apply keeps_modify; intros w; now apply within_touch | same].
Qed.

Hypothesis Hfolders : AllowsFolders F.
Hypothesis Hwrites : forall w, I w -> AllowsWrites F (fileGenerator w).
Hypothesis Hscan : mayScan F = true.

Lemma keeps_pull : Keeps I F (pull rt).
Proof.
  apply keeps_guardedRun.
  kbind; [apply keeps_syncFromTodoist|].
  kbind; [now apply keeps_scanObsidianChanges|].
  kbind; [now apply keeps_reconcileStates | same].
Qed.

Lemma keeps_performSync : Keeps I F (performSync rt).
Proof.
  apply keeps_guardedRun.
  kbind; [now apply keeps_call, Hreads|]. kgets.
  kbind; [destruct (answerTestConnection _); same|].
  kbind; [apply keeps_syncFromTodoist|].
  kbind; [now apply keeps_scanObsidianChanges|].
  kbind; [apply keeps_syncToTodoist|].
  kbind; [now apply keeps_reconcileStates | same].
Qed.

End RunFootprints.
(** ** What a run does and never does *)

Section RunFacts.
Import World FileGenerator SyncEngine.

Lemma dryRun_stable (w w' : World.t) :
  DryRun w -> settings w' = settings w ->
  fileGenerator w' = fileGenerator w -> DryRun w'.
Proof. unfold DryRun. intros [H1 H2] -> ->. now split. Qed.

Lemma any_stable (w w' : World.t) :
  AnyWorld w -> settings w' = settings w ->
  fileGenerator w' = fileGenerator w -> AnyWorld w'.
Proof. intros; exact I. Qed.

Lemma dry_allows_writes (F : Footprint) (w : World.t) :
  DryRun w -> AllowsWrites F (fileGenerator w).
Proof. intros [_ Hg] Hdry. congruence. Qed.

Lemma dry_allows_push (F : Footprint) (w : World.t) :
  dryRunMode (settings w) = true -> AllowsPush F (dryRunMode (settings w)).
Proof. intros Hs Hdry. congruence. Qed.

Lemma reads_are_reads : AllowsReads dryFootprint.
Proof. intros c Hc. cbn. unfold isRead. now rewrite Hc. Qed.

Lemma dry_performSync (rt : JsRuntime) (w : World.t) :
  DryRun w -> Within dryFootprint w (snd (performSync rt w)).
Proof.
  apply (keeps_performSync dryFootprint DryRun dryRun_stable rt); auto.
  - intros w0 [H0 _]. now apply dry_allows_push.
  - exact reads_are_reads.
  - intros p. reflexivity.
  - intros w0. apply dry_allows_writes.
Qed.

Lemma dry_pull (rt : JsRuntime) (w : World.t) :
  DryRun w -> Within dryFootprint w (snd (pull rt w)).
Proof.
  apply (keeps_pull dryFootprint DryRun dryRun_stable rt); auto.
  - exact reads_are_reads.
  - intros p. reflexivity.
  - intros w0. apply dry_allows_writes.
Qed.

(** X1.  In dry-run mode a full sync and a pull, however they end, ask the
    vault for the creation of folders at most and the remote service for
    reading at most: no document is created, modified or deleted and no
    task is updated, closed or reopened.  The settings and the generator
    are as before. *)
Theorem dry_run_changes_no_document_and_no_task (rt : JsRuntime)
        (w : World.t) :
  dryRunMode (settings w) = true ->
  g_dryRun (fileGenerator w) = true ->
  Within dryFootprint w (snd (performSync rt w))
  /\ Within dryFootprint w (snd (pull rt w)).
Proof.
  intros Hs Hg. assert (Hdry : DryRun w) by now split.
  split; [now apply dry_performSync | now apply dry_pull].
Qed.

Lemma dry_run_witness :
  Within dryFootprint (freshEngine true neverFails)
    (snd (performSync RefRuntime.runtime (freshEngine true neverFails)))
  /\ Within dryFootprint (freshEngine true neverFails)
       (snd (pull RefRuntime.runtime (freshEngine true neverFails))).
Proof.
  apply (dry_run_changes_no_document_and_no_task RefRuntime.runtime
           (freshEngine true neverFails)); reflexivity.
Defined.

Lemma drySettings_stable (w w' : World.t) :
  DrySettings w -> settings w' = settings w ->
  fileGenerator w' = fileGenerator w -> DrySettings w'.
Proof. unfold DrySettings. now intros H ->. Qed.

(** X2.  With dry-run mode in the settings the three ways into the push
    (the push step of a run, the queue of pending changes and the scan of
    the sync folder) ask nothing of the vault or of the remote service and
    change neither state. *)
Theorem dry_push_is_idle (rt : JsRuntime) (w : World.t) :
  dryRunMode (settings w) = true ->
  Within idleFootprint w (snd (syncToTodoist rt w))
  /\ Within idleFootprint w (snd (processPendingChanges rt w))
  /\ Within idleFootprint w (snd (scanAndSyncToTodoist rt w)).
Proof.
  intros Hs.
  assert (Hp : forall w0, DrySettings w0 ->
                 AllowsPush idleFootprint (dryRunMode (settings w0)))
    by (intros w0 H0; now apply dry_allows_push).
  split; [|split].
  - now apply (keeps_syncToTodoist idleFootprint DrySettings
                 drySettings_stable rt Hp).
  - now apply (keeps_processPendingChanges idleFootprint DrySettings
                 drySettings_stable rt Hp).
  - now apply (keeps_scanAndSyncToTodoist idleFootprint DrySettings
                 drySettings_stable rt Hp).
Qed.


Lemma dry_push_witness :
  Within idleFootprint (freshEngine true neverFails)
    (snd (syncToTodoist RefRuntime.runtime (freshEngine true neverFails)))
  /\ Within idleFootprint (freshEngine true neverFails)
       (snd (processPendingChanges RefRuntime.runtime
               (freshEngine true neverFails)))
  /\ Within idleFootprint (freshEngine true neverFails)
       (snd (scanAndSyncToTodoist RefRuntime.runtime
               (freshEngine true neverFails))).
Proof.
  apply (dry_push_is_idle RefRuntime.runtime (freshEngine true neverFails)).
  reflexivity.
Defined.

Lemma guardedRun_ends (needsToken : bool) (steps : M unit)
      (done failed : string) :
  EndsCleanly (guardedRun needsToken steps done failed).
Proof.
  intros w. unfold guardedRun, bind, gets, finally, tryCatch, modify, ret,
    now.
  destruct (isRunning w) eqn:Hrun.
  - exists alreadyRunning. cbn. now repeat split.
  - destruct (needsToken && isEmpty (todoistApiToken (settings w))).
    + exists notConfigured. cbn. now repeat split.
    + destruct (steps (withRunning true w)) as [[[]|e] w1]; cbn.
      * now eexists.
      * eexists. repeat split. discriminate.
Qed.

Lemma performSync_ends (rt : JsRuntime) : EndsCleanly (performSync rt).
Proof. apply guardedRun_ends. Qed.

Lemma withDryRunMode_same (s : SyncEngineSettings) :
  Plugin.withDryRunMode (dryRunMode s) s = s.
Proof. now destruct s. Qed.

(** X3.  The preview command of the plugin, from any world and for any
    settings of the plugin: it ends with the settings of the plugin and of
    the engine as the plugin had them, dry-run mode included, and with the
    generator built from them; in between the vault was asked for folders
    at most and the remote service for reading at most. *)
Theorem preview_command_is_dry_and_restores_the_mode (rt : JsRuntime)
        (pluginSettings : SyncEngineSettings) (w : World.t) :
  let r := Plugin.performDryRunSync rt pluginSettings w in
  fst r = Returns pluginSettings
  /\ settings (snd r) = pluginSettings
  /\ fileGenerator (snd r) = generatorOf pluginSettings
  /\ Extends isFolderCreation (vaultLog w) (vaultLog (snd r))
  /\ Extends isRead (apiLog w) (apiLog (snd r)).
Proof.
  cbv zeta. unfold Plugin.performDryRunSync, tryCatch, bind, modify, ret.
  set (w1 := updateSettings (Plugin.withDryRunMode true pluginSettings) w).
  assert (Hdry : DryRun w1) by now split.
  destruct (performSync_ends rt w1) as (r & Hr & _).
  pose proof (dry_performSync rt w1 Hdry) as (_ & _ & Ho & Hc & _).
  destruct (performSync rt w1) as [[r'|e] w2]; cbn [fst snd] in *;
    [|discriminate].
  rewrite withDryRunMode_same. now repeat split.
Qed.

(** *** Every mode *)

Lemma run_allows_push (dry : bool) : AllowsPush runFootprint dry.
Proof. intros _. now split. Qed.

Lemma run_allows_writes (g : Generator) : AllowsWrites runFootprint g.
Proof. intros _ p data. now split. Qed.

Lemma run_allows_reads : AllowsReads runFootprint.
Proof. now intros c _. Qed.

Lemma run_allows_folders : AllowsFolders runFootprint.
Proof. now intros p. Qed.

Lemma run_pushes (w : World.t) :
  AnyWorld w -> AllowsPush runFootprint (dryRunMode (settings w)).
Proof. intros _. apply run_allows_push. Qed.

Lemma run_writes (w : World.t) :
  AnyWorld w -> AllowsWrites runFootprint (fileGenerator w).
Proof. intros _. apply run_allows_writes. Qed.

Lemma performSync_run (rt : JsRuntime) (w : World.t) :
  Within runFootprint w (snd (performSync rt w)).
Proof.
  now apply (keeps_performSync runFootprint AnyWorld any_stable rt
               run_pushes run_allows_reads eq_refl run_allows_folders
               run_writes eq_refl).
Qed.

Lemma pull_run (rt : JsRuntime) (w : World.t) :
  Within runFootprint w (snd (pull rt w)).
Proof.
  now apply (keeps_pull runFootprint AnyWorld any_stable rt
               run_allows_reads eq_refl run_allows_folders run_writes
               eq_refl).
Qed.

Lemma fetch_run (w : World.t) :
  Within runFootprint w (snd (fetchFromTodoist w)).
Proof.
  apply (keeps_guardedRun runFootprint AnyWorld any_stable); [|exact I].
  now apply (keeps_syncFromTodoist runFootprint AnyWorld any_stable
               run_allows_reads eq_refl).
Qed.

Lemma scan_run (w : World.t) : Within runFootprint w (snd (scan w)).
Proof.
  apply (keeps_guardedRun runFootprint AnyWorld any_stable); [|exact I].
  now apply (keeps_scanObsidianChanges runFootprint AnyWorld).
Qed.

Lemma pending_run (rt : JsRuntime) (w : World.t) :
  Within runFootprint w (snd (processPendingChanges rt w)).
Proof.
  now apply (keeps_processPendingChanges runFootprint AnyWorld any_stable
               rt run_pushes).
Qed.

Lemma folder_push_run (rt : JsRuntime) (w : World.t) :
  Within runFootprint w (snd (scanAndSyncToTodoist rt w)).
Proof.
  now apply (keeps_scanAndSyncToTodoist runFootprint AnyWorld any_stable
               rt run_pushes).
Qed.

(** X4.  No way into the engine ever asks the vault to delete anything,
    in any mode and however the run ends: not a full sync, a pull, a fetch
    or a scan, and not the two pushes the plugin starts on its own.  The
    note of an entity that was deleted upstream stays in the vault.  None
    of them changes the settings or the generator either. *)
Theorem engine_never_deletes (rt : JsRuntime) (w : World.t) :
  Within runFootprint w (snd (performSync rt w))
  /\ Within runFootprint w (snd (pull rt w))
  /\ Within runFootprint w (snd (fetchFromTodoist w))
  /\ Within runFootprint w (snd (scan w))
  /\ Within runFootprint w (snd (processPendingChanges rt w))
  /\ Within runFootprint w (snd (scanAndSyncToTodoist rt w)).
Proof.
  split; [apply performSync_run|]. split; [apply pull_run|].
  split; [apply fetch_run|]. split; [apply scan_run|].
  split; [apply pending_run | apply folder_push_run].
Qed.

Lemma coherent_within (F : Footprint) (w w' : World.t) :
  Within F w w' -> Coherent w -> Coherent w'.
Proof. unfold Coherent. intros (Hs & Hg & _) Hw. now rewrite Hs, Hg. Qed.

(** X29.  The generator always mirrors the settings.  A constructed engine
    has the generator built from its settings, dry-run flag included, and
    so has an engine after [updateSettings]; every way into the engine and
    every file event keeps it so, however a run ends.  Dry-run mode in the
    settings is therefore dry-run mode in the generator. *)
Theorem generator_mirrors_the_settings (rt : JsRuntime) :
  (forall s v service fails time,
      Coherent (construct s v service fails time))
  /\ (forall s w, Coherent (updateSettings s w))
  /\ (forall w,
         Coherent w ->
         g_dryRun (fileGenerator w) = dryRunMode (settings w)
         /\ Coherent (snd (performSync rt w))
         /\ Coherent (snd (pull rt w))
         /\ Coherent (snd (fetchFromTodoist w))
         /\ Coherent (snd (scan w))
         /\ Coherent (snd (processPendingChanges rt w))
         /\ Coherent (snd (scanAndSyncToTodoist rt w))
         /\ (forall filePath,
                Coherent (onFileModified filePath w)
                /\ Coherent (onFileDeleted filePath w))
         /\ Coherent (startFileWatching w)
         /\ Coherent (stopFileWatching w)).
Proof.
  split; [reflexivity|]. split; [reflexivity|]. intros w Hw.
  split; [now rewrite Hw|].
  split; [exact (coherent_within _ _ _ (performSync_run rt w) Hw)|].
  split; [exact (coherent_within _ _ _ (pull_run rt w) Hw)|].
  split; [exact (coherent_within _ _ _ (fetch_run w) Hw)|].
  split; [exact (coherent_within _ _ _ (scan_run w) Hw)|].
  split; [exact (coherent_within _ _ _ (pending_run rt w) Hw)|].
  split; [exact (coherent_within _ _ _ (folder_push_run rt w) Hw)|].
  split; [|now split].
  intros filePath. unfold onFileModified, onFileDeleted. split.
  - destruct (negb (isWatchingFiles w)); [exact Hw|].
    now destruct (negb (String.prefix (syncFolderPath (settings w)) filePath)).
  - destruct (ObsidianState.getTodoistIdForPath filePath (obsidianState w))
      as [id|]; [|exact Hw].
    now destruct (truthy id).
Qed.

Lemma fetch_lane (w : World.t) :
  Within fetchFootprint w (snd (syncFromTodoist w)).
Proof.
  apply (keeps_syncFromTodoist fetchFootprint AnyWorld any_stable);
    [|reflexivity|exact I].
  intros c Hc. cbn. unfold isRead. now rewrite Hc.
Qed.

Lemma scan_lane (w : World.t) :
  Within scanFootprint w (snd (scanObsidianChanges w)).
Proof. now apply (keeps_scanObsidianChanges scanFootprint AnyWorld). Qed.

Lemma push_lane (rt : JsRuntime) (w : World.t) :
  Within pushFootprint w (snd (syncToTodoist rt w)).
Proof.
  apply (keeps_syncToTodoist pushFootprint AnyWorld any_stable rt);
    [|exact I].
  intros w0 _ _. now split.
Qed.

Lemma reconcile_lane (rt : JsRuntime) (w : World.t) :
  Within reconcileFootprint w (snd (reconcileStates rt w)).
Proof.
  apply (keeps_reconcileStates reconcileFootprint AnyWorld any_stable rt);
    [now intros p| |reflexivity|exact I].
  intros w0 _ _ p data. now split.
Qed.

(** X5.  Each of the four steps of a run keeps to its part, in any mode
    and however it ends.  The fetch asks nothing of the vault, makes
    reading calls only and leaves the local state.  The scan asks nothing
    of the vault or of the service and leaves the remote state.  The push
    asks the vault for modifications only, makes changing calls only and
    leaves both states.  The reconcile pass makes no call, asks for no
    deletion and leaves the remote state. *)
Theorem steps_keep_to_their_part (rt : JsRuntime) (w : World.t) :
  Within fetchFootprint w (snd (syncFromTodoist w))
  /\ Within scanFootprint w (snd (scanObsidianChanges w))
  /\ Within pushFootprint w (snd (syncToTodoist rt w))
  /\ Within reconcileFootprint w (snd (reconcileStates rt w)).
Proof.
  split; [apply fetch_lane|].
  split; [apply scan_lane|].
  split; [apply push_lane | apply reconcile_lane].
Qed.

(** X6.  The four entry points never throw: each ends in a result
    whatever its steps do, leaves the running flag as it found it (down,
    unless another run is in flight), and on success has set the time of
    the last sync to the time of completion. *)
Theorem entry_points_end_cleanly (rt : JsRuntime) :
  EndsCleanly (performSync rt)
  /\ EndsCleanly fetchFromTodoist
  /\ EndsCleanly scan
  /\ EndsCleanly (pull rt).
Proof. repeat split; apply guardedRun_ends. Qed.

(** X7.  Without an API token in the settings a full sync, a fetch and a
    pull of an idle engine return the failure outcome for a missing token
    and leave the world as it is: no call, no write, the flag untouched.
    The scan needs no token: it succeeds. *)
Theorem no_token_no_remote_run (rt : JsRuntime) (w : World.t) :
  isRunning w = false ->
  todoistApiToken (settings w) = EmptyString ->
  performSync rt w = (Returns notConfigured, w)
  /\ fetchFromTodoist w = (Returns notConfigured, w)
  /\ pull rt w = (Returns notConfigured, w)
  /\ fst (scan w) = Returns scanned.
Proof.
  intros Hrun Htoken.
  unfold performSync, fetchFromTodoist, pull, scan, guardedRun, bind, gets.
  rewrite Hrun, Htoken. now repeat split.
Qed.

Lemma no_token_witness :
  performSync RefRuntime.runtime tokenlessEngine
  = (Returns notConfigured, tokenlessEngine)
  /\ fetchFromTodoist tokenlessEngine = (Returns notConfigured, tokenlessEngine)
  /\ pull RefRuntime.runtime tokenlessEngine
     = (Returns notConfigured, tokenlessEngine)
  /\ fst (scan tokenlessEngine) = Returns scanned.
Proof.
  apply (no_token_no_remote_run RefRuntime.runtime tokenlessEngine);
    reflexivity.
Defined.

(** X8.  A full sync of an idle engine with a token whose connection test
    fails returns the failure outcome of the test; the test is the only
    call, and nothing else in the world has changed: no fetch, no scan, no
    write, the time of the last sync as before. *)
Theorem failed_connection_stops_the_sync (rt : JsRuntime) (w : World.t) :
  isRunning w = false ->
  isEmpty (todoistApiToken (settings w)) = false ->
  answerTestConnection (remote w) = false ->
  performSync rt w
  = (Returns connectionFailed, logApiCall CallTestConnection w).
Proof.
  intros Hrun Htoken Htest.
  unfold performSync, guardedRun, bind, gets, finally, tryCatch, modify,
    call, throw, ret.
  rewrite Hrun, Htoken. cbn. rewrite Htest. cbn.
  f_equal. destruct w. cbn in *. now subst.
Qed.

Lemma failed_connection_witness :
  performSync RefRuntime.runtime offlineEngine
  = (Returns connectionFailed, logApiCall CallTestConnection offlineEngine).
Proof.
  apply (failed_connection_stops_the_sync RefRuntime.runtime offlineEngine);
    reflexivity.
Defined.

End RunFacts.
(** ** The fetch *)

Section FetchFacts.
Import World SyncEngine TodoistState.

Lemma replayAll_values {E : Type} (id : E -> string) (deleted : E -> bool)
      (es : list E) :
  forall (m : StrMap E) (x : E),
    In x (JsMap.values (replayAll id deleted m es)) ->
    In x (JsMap.values m) \/ In x es.
Proof.
  unfold replayAll. induction es as [|e es IH]; intros m x; cbn [fold_left];
    [now left|].
  intros Hin. destruct (IH _ _ Hin) as [Hm|Hes]; [|right; now right].
  unfold replayEntity in Hm. destruct (deleted e).
  - left. now apply in_delete_values in Hm.
  - apply in_set_values in Hm as [->|Hm]; [right; now left | now left].
Qed.

(** The fetch when the state asks for a full sync: the four requests of
    the REST endpoints, then the replay of the mock response. *)
Lemma fetch_full (w : World.t) :
  needsFullSync (clock w) (todoistState w) = true ->
  syncFromTodoist w
  = (call CallGetProjects ;;;
     call CallGetTasks ;;;
     call CallGetSections ;;;
     call CallGetLabels ;;;
     fetchedSections <- ofOutcome (answerGetSections (remote w)) ;;
     fetchedLabels <- ofOutcome (answerGetLabels (remote w)) ;;
     modify (fun w' =>
               withTodoistState
                 (updateFromSync (clock w)
                    {| sync_token := restToken (clock w);
                       full_sync := true;
                       resp_projects := answerGetProjects (remote w);
                       resp_items :=
                         DataValidator.filterValidTasks
                           (answerGetTasks (remote w));
                       resp_sections := fetchedSections;
                       resp_labels := fetchedLabels |}
                    (todoistState w')) w'))%world w.
Proof.
  intros Hfull. unfold syncFromTodoist, now, bind at 1 2 3 4 5, gets.
  rewrite Hfull. reflexivity.
Qed.

(** X9.  A fetch that throws has not touched the remote state: the
    collections and the sync token are as before, whichever endpoint
    failed. *)
Theorem failed_fetch_leaves_the_state (w : World.t) (e : string) :
  fst (syncFromTodoist w) = Throws e ->
  todoistState (snd (syncFromTodoist w)) = todoistState w.
Proof.
  unfold syncFromTodoist, now, bind, gets, tryCatch, call, modify,
    ofOutcome, ret.
  destruct (negb (needsFullSync (clock w) (todoistState w))
            && negb (String.eqb
                       (syncToken (getSyncState (todoistState w))) "*")).
  - cbn. destruct (answerSync (remote w) _) as [r|e1]; cbn;
      [discriminate|].
    destruct (answerGetSections (remote w)) as [ss|e2]; cbn; [|reflexivity].
    destruct (answerGetLabels (remote w)) as [ls|e3]; cbn;
      [discriminate | reflexivity].
  - cbn. destruct (answerGetSections (remote w)) as [ss|e2]; cbn;
      [|reflexivity].
    destruct (answerGetLabels (remote w)) as [ls|e3]; cbn;
      [discriminate | reflexivity].
Qed.

Lemma failed_fetch_witness :
  fst (syncFromTodoist offlineEngine) = Throws "offline"
  /\ todoistState (snd (syncFromTodoist offlineEngine))
     = todoistState offlineEngine.
Proof.
  split; [reflexivity|].
  apply (failed_fetch_leaves_the_state offlineEngine "offline").
  reflexivity.
Defined.

(** What a full fetch that returns leaves in the state. *)
Lemma fetch_full_state (w : World.t) :
  needsFullSync (clock w) (todoistState w) = true ->
  fst (syncFromTodoist w) = Returns tt ->
  exists ss ls,
    todoistState (snd (syncFromTodoist w))
    = updateFromSync (clock w)
        {| sync_token := restToken (clock w);
           full_sync := true;
           resp_projects := answerGetProjects (remote w);
           resp_items :=
             DataValidator.filterValidTasks (answerGetTasks (remote w));
           resp_sections := ss;
           resp_labels := ls |}
        (todoistState w).
Proof.
  intros Hfull. rewrite (fetch_full w Hfull).
  unfold bind, call, modify, ofOutcome. cbn.
  destruct (answerGetSections (remote w)) as [ss|e2]; cbn; [|discriminate].
  destruct (answerGetLabels (remote w)) as [ls|e3]; cbn; [|discriminate].
  intros _. now exists ss, ls.
Qed.

(** X10.  After a full fetch that returns, every task the remote state
    holds has passed the validator: a task with an empty id, an empty
    content or a priority outside 1 to 4 never enters the state on this
    path. *)
Theorem full_fetch_keeps_valid_tasks_only (w : World.t) (task : TodoistTask) :
  needsFullSync (clock w) (todoistState w) = true ->
  fst (syncFromTodoist w) = Returns tt ->
  In task (getAllTasks (todoistState (snd (syncFromTodoist w)))) ->
  DataValidator.validateTask task = true.
Proof.
  intros Hfull Hret Hin.
  destruct (fetch_full_state w Hfull Hret) as (ss & ls & Hst).
  rewrite Hst in Hin. unfold getAllTasks in Hin. apply filter_In in Hin as [Hin _].
  cbn in Hin. apply replayAll_values in Hin as [[]|Hin].
  now apply filter_In in Hin.
Qed.

Lemma full_fetch_witness :
  needsFullSync (clock (freshEngine false neverFails))
    (todoistState (freshEngine false neverFails)) = true
  /\ fst (syncFromTodoist (freshEngine false neverFails)) = Returns tt
  /\ In keptTask
       (getAllTasks
          (todoistState (snd (syncFromTodoist (freshEngine false neverFails)))))
  /\ DataValidator.validateTask keptTask = true.
Proof.
  split; [reflexivity|]. split; [reflexivity|]. split; [now left|].
  apply (full_fetch_keeps_valid_tasks_only (freshEngine false neverFails)
           keptTask); [reflexivity | reflexivity | now left].
Defined.

Lemma restToken_not_star (t : Z) : String.eqb (restToken t) "*" = false.
Proof. reflexivity. Qed.

(** X11.  The token a full fetch makes up is sent to the sync endpoint by
    the next fetch.  After a full fetch that returns at a time other than
    zero the state holds the token ["rest_"] followed by that time; a
    fetch from that state within a day opens with the incremental sync
    request, carrying the made-up token. *)
Theorem made_up_token_is_sent_to_the_sync_endpoint (w w' : World.t) :
  needsFullSync (clock w) (todoistState w) = true ->
  fst (syncFromTodoist w) = Returns tt ->
  clock w <> 0%Z ->
  (clock w' - clock w <= dayMillis)%Z ->
  todoistState w' = todoistState (snd (syncFromTodoist w)) ->
  syncToken (getSyncState (todoistState w')) = restToken (clock w)
  /\ Extends anyCall (apiLog w' ++ [CallSync (restToken (clock w))])%list
       (apiLog (snd (syncFromTodoist w'))).
Proof.
  intros Hfull Hret Hnz Hday Hw'.
  destruct (fetch_full_state w Hfull Hret) as (ss & ls & Hst).
  rewrite Hst in Hw'. split; [now rewrite Hw'|].
  assert (Hlater : needsFullSync (clock w') (todoistState w') = false).
  { rewrite Hw'. unfold needsFullSync. cbn.
    apply Z.eqb_neq in Hnz. rewrite Hnz. cbn.
    apply Z.ltb_ge. exact Hday. }
  unfold syncFromTodoist, now, bind at 1 2 3 4, gets.
  rewrite Hlater, Hw'.
  cbn [negb andb getSyncState syncState updateFromSync syncToken
         sync_token].
  rewrite restToken_not_star. cbn [negb].
  unfold bind, tryCatch, call, modify, ofOutcome, ret. cbn.
  destruct (answerSync (remote w') _) as [r|e1]; cbn.
  - apply extends_refl.
  - destruct (answerGetSections (remote w')) as [ss'|e2]; cbn;
      [destruct (answerGetLabels (remote w')) as [ls'|e3]; cbn|].
    + now exists [CallGetProjects; CallGetTasks; CallGetSections;
                  CallGetLabels]; rewrite <- !app_assoc.
    + now exists [CallGetProjects; CallGetTasks; CallGetSections;
                  CallGetLabels]; rewrite <- !app_assoc.
    + now exists [CallGetProjects; CallGetTasks; CallGetSections;
                  CallGetLabels]; rewrite <- !app_assoc.
Qed.

Lemma made_up_token_witness :
  let w := freshEngine false neverFails in
  let w' :=
    laterWorld (todoistState (snd (syncFromTodoist w))) (clock w + 1000) w in
  syncToken (getSyncState (todoistState w')) = restToken (clock w)
  /\ Extends anyCall (apiLog w' ++ [CallSync (restToken (clock w))])%list
       (apiLog (snd (syncFromTodoist w'))).
Proof.
  cbv zeta.
  apply (made_up_token_is_sent_to_the_sync_endpoint
           (freshEngine false neverFails)
           (laterWorld
              (todoistState (snd (syncFromTodoist
                                    (freshEngine false neverFails))))
              (clock (freshEngine false neverFails) + 1000)
              (freshEngine false neverFails)));
    try reflexivity; [discriminate | vm_compute; discriminate].
Defined.

(** *** The remote state stays reachable *)

Lemma fetch_state_cases (w : World.t) :
  todoistState (snd (syncFromTodoist w)) = todoistState w
  \/ exists t r,
       todoistState (snd (syncFromTodoist w))
       = updateFromSync t r (todoistState w).
Proof.
  unfold syncFromTodoist, now, bind, gets, tryCatch, call, modify,
    ofOutcome, ret.
  destruct (negb (needsFullSync (clock w) (todoistState w))
            && negb (String.eqb
                       (syncToken (getSyncState (todoistState w))) "*")).
  - cbn. destruct (answerSync (remote w) _) as [r|e1]; cbn;
      [right; now eexists _, _|].
    destruct (answerGetSections (remote w)) as [ss|e2]; cbn; [|now left].
    destruct (answerGetLabels (remote w)) as [ls|e3]; cbn;
      [right; now eexists _, _ | now left].
  - cbn. destruct (answerGetSections (remote w)) as [ss|e2]; cbn;
      [|now left].
    destruct (answerGetLabels (remote w)) as [ls|e3]; cbn;
      [right; now eexists _, _ | now left].
Qed.

Section Preservation.
Variable P : World.t -> Prop.

Lemma preserves_same {A : Type} (m : M A) :
  (forall w, snd (m w) = w) -> Preserves P m.
Proof. intros H w Hw. now rewrite H. Qed.

Lemma preserves_bind {A B : Type} (m : M A) (k : A -> M B) :
  Preserves P m -> (forall a, Preserves P (k a)) -> Preserves P (bind m k).
Proof.
  intros Hm Hk w Hw. unfold bind. specialize (Hm w Hw).
  destruct (m w) as [[a|e] w1]; cbn [snd] in *; [now apply Hk | exact Hm].
Qed.

Hypothesis P_fields :
  forall w w',
    todoistState w' = todoistState w ->
    obsidianState w' = obsidianState w ->
    pendingChanges w' = pendingChanges w -> P w -> P w'.

Lemma preserves_guardedRun (needsToken : bool) (steps : M unit)
      (done failed : string) :
  Preserves P steps ->
  Preserves P (guardedRun needsToken steps done failed).
Proof.
  intros Hsteps w Hw.
  unfold guardedRun, bind, gets, finally, tryCatch, modify, ret, now.
  destruct (isRunning w); [exact Hw|].
  destruct (needsToken && isEmpty (todoistApiToken (settings w)));
    [exact Hw|].
  assert (H1 : P (withRunning true w)) by now apply (P_fields w).
  specialize (Hsteps _ H1).
  destruct (steps (withRunning true w)) as [[[]|e] w1]; cbn [snd] in *;
    now apply (P_fields w1).
Qed.

End Preservation.

Lemma reachable_ext (w w' : World.t) :
  todoistState w' = todoistState w ->
  obsidianState w' = obsidianState w ->
  pendingChanges w' = pendingChanges w ->
  RemoteReachable w -> RemoteReachable w'.
Proof. unfold RemoteReachable. now intros ->. Qed.

Lemma reachable_within (F : Footprint) (w w' : World.t) :
  mayFetch F = false -> Within F w w' ->
  RemoteReachable w -> RemoteReachable w'.
Proof.
  unfold RemoteReachable. intros HF (_ & _ & _ & _ & Hst & _).
  now rewrite (Hst HF).
Qed.

Lemma reachable_fetch : Preserves RemoteReachable syncFromTodoist.
Proof.
  intros w Hw. unfold RemoteReachable in *.
  destruct (fetch_state_cases w) as [->|(t & r & ->)];
    [exact Hw | now constructor].
Qed.

End FetchFacts.

(** ** The remote state through a run *)

Section ReachableFacts.
Import World SyncEngine TodoistState.

Lemma pending_lane (rt : JsRuntime) (w : World.t) :
  Within pushFootprint w (snd (processPendingChanges rt w)).
Proof.
  apply (keeps_processPendingChanges pushFootprint AnyWorld any_stable rt);
    [|exact I].
  intros w0 _ _. now split.
Qed.

Lemma folder_push_lane (rt : JsRuntime) (w : World.t) :
  Within pushFootprint w (snd (scanAndSyncToTodoist rt w)).
Proof.
  apply (keeps_scanAndSyncToTodoist pushFootprint AnyWorld any_stable rt);
    [|exact I].
  intros w0 _ _. now split.
Qed.

Lemma reachable_scan : Preserves RemoteReachable scanObsidianChanges.
Proof.
  intros w. now apply (reachable_within scanFootprint w _ eq_refl
                         (scan_lane w)).
Qed.

Lemma reachable_push (rt : JsRuntime) :
  Preserves RemoteReachable (syncToTodoist rt).
Proof.
  intros w. now apply (reachable_within pushFootprint w _ eq_refl
                         (push_lane rt w)).
Qed.

Lemma reachable_reconcile (rt : JsRuntime) :
  Preserves RemoteReachable
    (bind (reconcileStates rt) (fun _ => ret tt)).
Proof.
  apply preserves_bind; [|intros; now apply preserves_same].
  intros w. now apply (reachable_within reconcileFootprint w _ eq_refl
                         (reconcile_lane rt w)).
Qed.

(** X12.  The engine changes the remote state by replaying payloads only:
    from a state a run can meet, a full sync, a pull, a fetch, a scan and
    the two pushes of the plugin all end, whatever happens on the way, in
    a state a run can meet. *)
Theorem remote_state_stays_reachable (rt : JsRuntime) (w : World.t) :
  Reachable (todoistState w) ->
  Reachable (todoistState (snd (performSync rt w)))
  /\ Reachable (todoistState (snd (pull rt w)))
  /\ Reachable (todoistState (snd (fetchFromTodoist w)))
  /\ Reachable (todoistState (snd (scan w)))
  /\ Reachable (todoistState (snd (processPendingChanges rt w)))
  /\ Reachable (todoistState (snd (scanAndSyncToTodoist rt w))).
Proof.
  intros Hw. change (RemoteReachable w) in Hw.
  split; [|split; [|split; [|split; [|split]]]].
  - apply (preserves_guardedRun RemoteReachable reachable_ext); [|exact Hw].
    apply preserves_bind;
      [intros w0 H0; now apply (reachable_ext w0)|]. intros _.
    apply preserves_bind; [now apply preserves_same|]. intros valid.
    apply preserves_bind; [destruct valid; now apply preserves_same|].
    intros _. apply preserves_bind; [apply reachable_fetch|]. intros _.
    apply preserves_bind; [apply reachable_scan|]. intros _.
    apply preserves_bind; [apply reachable_push|]. intros _.
    apply reachable_reconcile.
  - apply (preserves_guardedRun RemoteReachable reachable_ext); [|exact Hw].
    apply preserves_bind; [apply reachable_fetch|]. intros _.
    apply preserves_bind; [apply reachable_scan|]. intros _.
    apply reachable_reconcile.
  - apply (preserves_guardedRun RemoteReachable reachable_ext); [|exact Hw].
    apply reachable_fetch.
  - apply (preserves_guardedRun RemoteReachable reachable_ext); [|exact Hw].
    apply reachable_scan.
  - now apply (reachable_within pushFootprint w _ eq_refl
                 (pending_lane rt w)).
  - now apply (reachable_within pushFootprint w _ eq_refl
                 (folder_push_lane rt w)).
Qed.

Lemma remote_state_witness :
  Reachable
    (todoistState
       (snd (performSync RefRuntime.runtime (freshEngine false neverFails)))).
Proof.
  apply (remote_state_stays_reachable RefRuntime.runtime
           (freshEngine false neverFails)).
  constructor.
Defined.

(** *** Lookups by id *)

Lemma replayAll_live {E : Type} (id : E -> string) (deleted : E -> bool)
      (es : list E) :
  forall m,
    Forall (fun kv => deleted (snd kv) = false) m ->
    Forall (fun kv => deleted (snd kv) = false) (replayAll id deleted m es).
Proof.
  unfold replayAll. induction es as [|e es IH]; intros m Hm; cbn [fold_left];
    [exact Hm|].
  apply IH. unfold replayEntity. destruct (deleted e) eqn:Hd.
  - clear IH. induction m as [|[k v] m IHm]; cbn; [constructor|].
    inversion Hm; subst. destruct (String.eqb k (id e)); auto.
  - clear IH. induction m as [|[k v] m IHm]; cbn.
    + now repeat constructor.
    + inversion Hm; subst. destruct (String.eqb k (id e)); constructor; auto.
Qed.

Lemma cleared_live {E : Type} (deleted : E -> bool) (full : bool)
      (m : StrMap E) :
  Forall (fun kv => deleted (snd kv) = false) m ->
  Forall (fun kv => deleted (snd kv) = false) (if full then [] else m).
Proof. destruct full; [constructor | auto]. Qed.

Lemma reachable_live (st : TodoistState.t) :
  Reachable st ->
  Forall (fun kv => task_is_deleted (snd kv) = false) (tasks st)
  /\ Forall (fun kv => project_is_deleted (snd kv) = false) (projects st)
  /\ Forall (fun kv => section_is_deleted (snd kv) = false) (sections st).
Proof.
  induction 1 as [|now r st _ (Ht & Hp & Hs)].
  - repeat split; constructor.
  - cbn. repeat split; apply replayAll_live; now apply cleared_live.
Qed.

Lemma get_in_entries {V : Type} (k : string) (v : V) (m : StrMap V) :
  JsMap.get String.eqb k m = Some v -> exists k', In (k', v) m /\ k' = k.
Proof.
  induction m as [|[k' v'] m IH]; cbn; [discriminate|].
  destruct (String.eqb_spec k' k) as [->|Hne].
  - intros [= ->]. exists k. split; [now left | reflexivity].
  - intros H. destruct (IH H) as (k2 & Hin & Hk). exists k2.
    split; [now right | exact Hk].
Qed.

(** What a lookup by id finds in a collection of a reachable state. *)
Lemma lookup_found {E : Type} (id : E -> string) (deleted : E -> bool)
      (m : StrMap E) (k : string) (e : E) :
  Keyed id m ->
  Forall (fun kv => deleted (snd kv) = false) m ->
  JsMap.get String.eqb k m = Some e ->
  id e = k /\ deleted e = false /\ In e (JsMap.values m).
Proof.
  intros [_ Hkeys] Hlive Hget.
  destruct (get_in_entries k e m Hget) as (k' & Hin & ->).
  rewrite Forall_forall in Hkeys, Hlive.
  specialize (Hkeys _ Hin). specialize (Hlive _ Hin). cbn in *.
  repeat split; auto. now apply (get_some_in String.eqb k).
Qed.

(** X13.  In a state a run can meet, a lookup by id agrees with the
    listing: the task, project or section found under an id carries that
    id and is not deleted; a task or a section found is among those the
    listing returns, and so is a project unless it is archived, which the
    lookup finds and the listing hides. *)
Theorem lookups_agree_with_listings (st : TodoistState.t) :
  Reachable st ->
  (forall id task,
      getTask id st = Some task ->
      task_id task = id /\ task_is_deleted task = false
      /\ In task (getAllTasks st))
  /\ (forall id section,
         getSection id st = Some section ->
         section_id section = id /\ section_is_deleted section = false
         /\ In section (getAllSections st))
  /\ (forall id project,
         getProject id st = Some project ->
         project_id project = id /\ project_is_deleted project = false
         /\ (In project (getAllProjects st)
             <-> project_is_archived project = false)).
Proof.
  intros Hst.
  destruct (reachable_keyed st Hst) as (Kt & Kp & Ks & _).
  destruct (reachable_live st Hst) as (Lt & Lp & Ls).
  split; [|split].
  - intros id task Hget.
    destruct (lookup_found task_id task_is_deleted _ id task Kt Lt Hget)
      as (Hid & Hd & Hin).
    repeat split; auto. apply filter_In. now rewrite Hd.
  - intros id section Hget.
    destruct (lookup_found section_id section_is_deleted _ id section
                Ks Ls Hget) as (Hid & Hd & Hin).
    repeat split; auto. apply filter_In. now rewrite Hd.
  - intros id project Hget.
    destruct (lookup_found project_id project_is_deleted _ id project
                Kp Lp Hget) as (Hid & Hd & Hin).
    repeat split; auto.
    + intros Hall. apply filter_In in Hall as [_ Hf].
      rewrite Hd in Hf. now destruct (project_is_archived project).
    + intros Ha. apply filter_In. now rewrite Hd, Ha.
Qed.

Lemma lookups_witness :
  Reachable gardenState
  /\ getTask "t1" gardenState = Some keptTask
  /\ task_id keptTask = "t1" /\ task_is_deleted keptTask = false
  /\ In keptTask (getAllTasks gardenState).
Proof.
  assert (Hreach : Reachable gardenState) by repeat constructor.
  split; [exact Hreach|]. split; [reflexivity|].
  destruct (lookups_agree_with_listings gardenState Hreach) as (Htasks & _).
  now apply Htasks.
Defined.

(** X14.  What a payload does not mention: an id that no task record of the
    payload carries is looked up after an incremental update as before it,
    and is gone after a full one; the same for projects and sections. *)
Theorem update_keeps_or_drops_what_the_payload_leaves_out
        (now : Z) (r : TodoistSyncResponse) (st : TodoistState.t)
        (id : string) :
  Forall (fun task => task_id task <> id) (resp_items r) ->
  Forall (fun project => project_id project <> id) (resp_projects r) ->
  Forall (fun section => section_id section <> id) (resp_sections r) ->
  let st' := updateFromSync now r st in
  getTask id st' = (if full_sync r then None else getTask id st)
  /\ getProject id st' = (if full_sync r then None else getProject id st)
  /\ getSection id st' = (if full_sync r then None else getSection id st).
Proof.
  intros Ht Hp Hs. cbv zeta. unfold getTask, getProject, getSection. cbn.
  rewrite (replayAll_get_other task_id task_is_deleted _ id Ht).
  rewrite (replayAll_get_other project_id project_is_deleted _ id Hp).
  rewrite (replayAll_get_other section_id section_is_deleted _ id Hs).
  now destruct (full_sync r).
Qed.

Lemma payload_gap_witness :
  full_sync mixedPayload = false
  /\ getProject "p1" gardenState = Some gardenProject.
Proof.
  split; [reflexivity|].
  pose proof (update_keeps_or_drops_what_the_payload_leaves_out 2000
                mixedPayload
                (updateFromSync 1000 gardenSnapshot TodoistState.initial)
                "p1") as H.
  cbv zeta in H. destruct H as (_ & Hp & _).
  - repeat constructor; discriminate.
  - constructor.
  - constructor.
  - unfold gardenState. rewrite Hp. reflexivity.
Defined.

End ReachableFacts.
(** ** The local state *)

Section LocalStateFacts.
Import World SyncEngine ObsidianState.

Lemma sameValueZero_eq (a b : Value) : sameValueZero a b = true -> a = b.
Proof.
  destruct a as [| |x|[|x|x]|x|x], b as [| |y|[|y|y]|y|y]; cbn;
    try discriminate; try reflexivity.
  - intros H. apply String.eqb_eq in H. now subst.
  - intros H. apply Z.eqb_eq in H. now subst.
  - intros H. apply String.eqb_eq in H. now subst.
  - intros H. apply Bool.eqb_prop in H. now subst.
Qed.

(** A key that equals itself is told apart from every other key: every
    value but an array. *)
Lemma sameValueZero_decides (id : Value) :
  sameValueZero id id = true -> DecidesKey sameValueZero id.
Proof.
  intros Hid k'. split; [apply sameValueZero_eq | now intros ->].
Qed.

(** X15.  What is stored under an id is what a lookup of that id finds:
    after [setTaskNote], [setProjectNote] or [setSectionNote] under an id
    that is not an array, the lookup of the id in that collection returns
    the note, the path of the note leads to the id, a lookup of another id
    is as before, and so are the other two collections. *)
Theorem stored_note_is_found (st : ObsidianState.t) (id other : Value)
        (task : ObsidianTaskNote) (project : ObsidianProjectNote)
        (section : ObsidianSectionNote) :
  sameValueZero id id = true ->
  sameValueZero id other = false ->
  (getTaskNote id (setTaskNote id task st) = Some task
   /\ getTodoistIdForPath (tn_filePath task) (setTaskNote id task st)
      = Some id
   /\ getTaskNote other (setTaskNote id task st) = getTaskNote other st
   /\ projectNotes (setTaskNote id task st) = projectNotes st
   /\ sectionNotes (setTaskNote id task st) = sectionNotes st)
  /\ (getProjectNote id (setProjectNote id project st) = Some project
      /\ getTodoistIdForPath (pn_filePath project)
           (setProjectNote id project st) = Some id
      /\ getProjectNote other (setProjectNote id project st)
         = getProjectNote other st
      /\ taskNotes (setProjectNote id project st) = taskNotes st
      /\ sectionNotes (setProjectNote id project st) = sectionNotes st)
  /\ (getSectionNote id (setSectionNote id section st) = Some section
      /\ getTodoistIdForPath (sn_filePath section)
           (setSectionNote id section st) = Some id
      /\ getSectionNote other (setSectionNote id section st)
         = getSectionNote other st
      /\ taskNotes (setSectionNote id section st) = taskNotes st
      /\ projectNotes (setSectionNote id section st) = projectNotes st).
Proof.
  intros Hid Hother.
  pose proof (sameValueZero_decides id Hid) as Hdec.
  unfold getTaskNote, getProjectNote, getSectionNote, getTodoistIdForPath.
  cbn.
  repeat split;
    first [ now apply get_set_same
          | apply get_set_same; apply String.eqb_refl
          | now apply get_set_other ].
Qed.

Lemma stored_note_witness :
  getTaskNote (VStr "t1")
    (setTaskNote (VStr "t1")
       (taskNoteOfFile
          {| Vault.path := "Todoist/Water.md"; Vault.content := "body";
             Vault.mtime := 7; Vault.cache := None |} (taskCache "t1"))
       ObsidianState.empty)
  = Some (taskNoteOfFile
            {| Vault.path := "Todoist/Water.md"; Vault.content := "body";
               Vault.mtime := 7; Vault.cache := None |} (taskCache "t1")).
Proof.
  apply (stored_note_is_found ObsidianState.empty (VStr "t1") (VStr "t2")
           (taskNoteOfFile
              {| Vault.path := "Todoist/Water.md"; Vault.content := "body";
                 Vault.mtime := 7; Vault.cache := None |} (taskCache "t1"))
           {| pn_filePath := "p"; pn_todoistId := VStr "t1";
              pn_name := VStr "n"; pn_frontmatter := [];
              pn_lastModified := 0 |}
           {| sn_filePath := "s"; sn_todoistId := VStr "t1";
              sn_name := VStr "n"; sn_projectId := VStr "p";
              sn_frontmatter := []; sn_lastModified := 0 |});
    reflexivity.
Defined.

(** *** The scan *)

Lemma processFile_tasks (root : string) (v : Vault.t) (file : Vault.TFile)
      (st : ObsidianState.t) (note : ObsidianTaskNote) :
  In file (Vault.files v) ->
  Vault.isBelow root (Vault.path file) = true ->
  Vault.extension (Vault.path file) = "md" ->
  In note (getAllTaskNotes (processFile file st)) ->
  In note (getAllTaskNotes st)
  \/ exists frontmatter,
       Scanned root v file frontmatter
       /\ note = taskNoteOfFile file frontmatter.
Proof.
  intros Hin Hbelow Hext. unfold processFile, getAllTaskNotes.
  destruct (Vault.cache file) as [fm|] eqn:Hcache; [|now left].
  destruct (truthy (objGet "todoist_id" fm)) eqn:Hid; cbn [negb];
    [|now left].
  destruct (strictEq (objGet "todoist_type" fm) (VStr "project"));
    [now left|].
  destruct (strictEq (objGet "todoist_type" fm) (VStr "section"));
    [now left|].
  cbn. intros Hnote. apply in_set_values in Hnote as [->|Hnote];
    [right | now left].
  exists fm. split; [|reflexivity]. now repeat split.
Qed.

Lemma scan_fold_tasks (root : string) (v : Vault.t) (files : list Vault.TFile) :
  forall st note,
    incl files (Vault.files v) ->
    In note
      (getAllTaskNotes
         (fold_left
            (fun st file =>
               if Vault.isBelow root (Vault.path file)
                  && String.eqb (Vault.extension (Vault.path file)) "md"
               then processFile file st else st)
            files st)) ->
    In note (getAllTaskNotes st)
    \/ exists file frontmatter,
         Scanned root v file frontmatter
         /\ note = taskNoteOfFile file frontmatter.
Proof.
  induction files as [|f files IH]; intros st note Hincl; cbn [fold_left];
    [now left|].
  intros Hnote.
  apply IH in Hnote; [|intros x Hx; apply Hincl; now right].
  destruct Hnote as [Hnote|Hnote]; [|now right].
  destruct (Vault.isBelow root (Vault.path f)) eqn:Hbelow; cbn [andb] in *;
    [|now left].
  destruct (String.eqb_spec (Vault.extension (Vault.path f)) "md")
    as [Hext|Hext]; [|now left].
  apply (processFile_tasks root v) in Hnote; auto;
    [|apply Hincl; now left].
  destruct Hnote as [Hnote|(fm & Hs & ->)]; [now left | right].
  now exists f, fm.
Qed.

(** X16.  The scan reads the vault and nothing else.  Every task note of
    the state it builds is the note of a markdown file below the sync
    folder whose cached frontmatter holds a truthy [todoist_id]: its
    path, text, frontmatter and modification time are those of the file.
    When the sync folder is missing, or is a file, the state is empty. *)
Theorem scan_holds_notes_of_files_only (root : string) (v : Vault.t) :
  (forall note,
      In note (getAllTaskNotes (scanVault root v)) ->
      exists file frontmatter,
        Scanned root v file frontmatter
        /\ note = taskNoteOfFile file frontmatter)
  /\ (Vault.hasFolder root v = false -> scanVault root v = ObsidianState.empty)
  /\ (forall file,
         Vault.findFile root (Vault.files v) = Some file ->
         scanVault root v = ObsidianState.empty).
Proof.
  split; [|split].
  - intros note. unfold scanVault.
    destruct (Vault.getAbstractFileByPath root v) as [[f|p]|];
      try (intros []).
    intros Hnote.
    apply (scan_fold_tasks root v) in Hnote; [|apply incl_refl].
    now destruct Hnote as [[]|Hnote].
  - intros Hno. unfold scanVault, Vault.getAbstractFileByPath.
    rewrite Hno. now destruct (Vault.findFile root (Vault.files v)).
  - intros file Hfile. unfold scanVault, Vault.getAbstractFileByPath.
    now rewrite Hfile.
Qed.

Lemma scan_holds_witness :
  exists file frontmatter,
    Scanned "Todoist" scanVaultExample file frontmatter
    /\ taskNoteOfFile
         {| Vault.path := "Todoist/Water.md"; Vault.content := "body";
            Vault.mtime := 7; Vault.cache := Some (taskCache "t1") |}
         (taskCache "t1")
       = taskNoteOfFile file frontmatter.
Proof.
  destruct (scan_holds_notes_of_files_only "Todoist" scanVaultExample)
    as (H & _).
  apply H. vm_compute. now left.
Defined.

End LocalStateFacts.
(** ** The push *)

Section PushFacts.
Import World SyncEngine.

Lemma caught_returns (m : M unit) (w : World.t) :
  fst (tryCatch m (fun _ => ret tt) w) = Returns tt.
Proof. unfold tryCatch, ret. now destruct (m w) as [[[]|e] w1]. Qed.

Lemma forEach_returns {A : Type} (body : A -> M unit) (xs : list A) :
  (forall x w, fst (body x w) = Returns tt) ->
  forall w, fst (forEach xs body w) = Returns tt.
Proof.
  intros Hb. induction xs as [|x xs IH]; intros w; cbn [forEach];
    [reflexivity|].
  unfold bind. specialize (Hb x w).
  destruct (body x w) as [[[]|e] w1]; cbn in Hb; [apply IH | discriminate].
Qed.

Variable rt : JsRuntime.

Lemma processFileChange_returns (filePath : string) (w : World.t) :
  fst (processFileChange rt filePath w) = Returns tt.
Proof.
  unfold processFileChange, bind, getAbstractFileByPath, gets.
  destruct (Vault.getAbstractFileByPath _ _) as [[f|q]|]; try reflexivity.
  apply caught_returns.
Qed.

Lemma processPending_unfold (w : World.t) :
  processPendingChanges rt w
  = if Nat.eqb (JsMap.size (pendingChanges w)) 0 then (Returns tt, w)
    else
      bind
        (forEach (JsMap.keys (pendingChanges w))
           (fun filePath =>
              tryCatch (processFileChange rt filePath) (fun _ => ret tt)))
        (fun _ => modify (withPendingChanges [])) w.
Proof.
  unfold processPendingChanges, bind at 1, gets.
  now destruct (Nat.eqb (JsMap.size (pendingChanges w)) 0).
Qed.

Lemma processPending_returns (w : World.t) :
  fst (processPendingChanges rt w) = Returns tt
  /\ pendingChanges (snd (processPendingChanges rt w)) = [].
Proof.
  rewrite processPending_unfold.
  destruct (pendingChanges w) as [|kv pending] eqn:Hp;
    [split; [reflexivity | exact Hp]|].
  cbn [JsMap.size length Nat.eqb]. unfold bind, modify.
  pose proof (forEach_returns
                (fun filePath =>
                   tryCatch (processFileChange rt filePath)
                     (fun _ => ret tt))
                (JsMap.keys (kv :: pending))
                (fun x w0 => caught_returns _ w0) w) as Hall.
  destruct (forEach _ _ w) as [[[]|e] w1]; cbn in *;
    [now split | discriminate].
Qed.

(** X17.  The push never throws, whatever the remote service and the
    store do: a change of a file, the queue of pending changes, the scan
    of the sync folder and the push step of a run all end in a result.
    The queue is empty afterwards: a change whose push failed is dropped
    with the others, not tried again. *)
Theorem push_never_throws_and_empties_the_queue :
  (forall filePath, NeverThrows (processFileChange rt filePath))
  /\ NeverThrows (processPendingChanges rt)
  /\ NeverThrows (scanAndSyncToTodoist rt)
  /\ NeverThrows (syncToTodoist rt)
  /\ forall w, pendingChanges (snd (processPendingChanges rt w)) = [].
Proof.
  split; [|split; [|split; [|split]]].
  - intros filePath w. exists tt. apply processFileChange_returns.
  - intros w. exists tt. apply processPending_returns.
  - intros w. exists tt.
    unfold scanAndSyncToTodoist, bind at 1 2, getAbstractFileByPath, gets.
    destruct (Vault.getAbstractFileByPath _ _) as [[f|q]|]; try reflexivity.
    unfold bind, gets. apply forEach_returns.
    intros x w0. apply caught_returns.
  - intros w. exists tt. apply caught_returns.
  - intros w. apply processPending_returns.
Qed.

(** *** What the push ignores *)

Lemma not_string_lookup (id : Value) (st : TodoistState.t) :
  (forall s, id <> VStr s) ->
  TodoistState.getTaskByValue id st = None
  /\ TodoistState.getProjectByValue id st = None.
Proof. destruct id; try (now split). intros H. now destruct (H s). Qed.

Lemma syncTaskChanges_not_string (id : Value) (changes : Extract.Changes)
      (file : option Vault.TFile) (w : World.t) :
  (forall s, id <> VStr s) ->
  syncTaskChangesToTodoist rt id changes file w = (Returns tt, w).
Proof.
  intros Hid. unfold syncTaskChangesToTodoist, bind, gets.
  now rewrite (proj1 (not_string_lookup id _ Hid)).
Qed.

Lemma syncProjectChanges_not_string (id : Value) (changes : Extract.Changes)
      (w : World.t) :
  (forall s, id <> VStr s) ->
  syncProjectChangesToTodoist id changes w = (Returns tt, w).
Proof.
  intros Hid. unfold syncProjectChangesToTodoist, bind, gets.
  now rewrite (proj2 (not_string_lookup id _ Hid)).
Qed.

(** X18.  The push has nothing to do with a text that has no frontmatter,
    with a note whose [todoist_id] is not a string (absent, a number, a
    boolean, a list) and with the note of a section: a change of such a
    file makes no call, asks nothing of the vault and leaves the world as
    it is, in any mode.  A note the generator writes for an entity whose
    id is a decimal numeral is such a note: the parser reads the id back
    as a number. *)
Theorem push_ignores_what_it_cannot_look_up (w : World.t)
        (filePath : string) (file : Vault.TFile) :
  Vault.getAbstractFileByPath filePath (vault w)
  = Some (Vault.IsFile file) ->
  Ignored rt (Vault.content file) ->
  processFileChange rt filePath w = (Returns tt, w).
Proof.
  intros Hfile Hign.
  unfold processFileChange, bind, getAbstractFileByPath, gets.
  rewrite Hfile. unfold tryCatch.
  unfold Ignored in Hign.
  unfold Extract.isInSyncScope, Extract.extractTaskChanges,
    Extract.extractProjectChanges.
  destruct (Frontmatter.parseFrontmatter rt (Vault.content file))
    as [[fm body]|]; [|reflexivity].
  destruct (strictEq (objGet "todoist_id" fm) VUndefined); [reflexivity|].
  cbn [negb].
  destruct Hign as [Hid|Hsection].
  - destruct (negb (truthy (objGet "todoist_id" fm))
              || strictEq (objGet "todoist_type" fm) (VStr "project")
              || strictEq (objGet "todoist_type" fm) (VStr "section"))
      eqn:Hkind; cbn.
    + destruct (negb (strictEq (objGet "todoist_type" fm) (VStr "project")));
        cbn; [reflexivity|].
      destruct (truthy (objGet "todoist_id" fm)); [|reflexivity].
      now rewrite (syncProjectChanges_not_string _ _ w Hid).
    + apply orb_false_iff in Hkind as [Hkind _].
      apply orb_false_iff in Hkind as [Hkind _].
      apply negb_false_iff in Hkind. rewrite Hkind.
      now rewrite (syncTaskChanges_not_string _ _ _ w Hid).
  - rewrite Hsection. cbn. rewrite orb_true_r. reflexivity.
Qed.

End PushFacts.

Lemma push_ignores_witness :
  Vault.getAbstractFileByPath "Todoist/Call.md" (World.vault numberedWorld)
  = Some (Vault.IsFile
            {| Vault.path := "Todoist/Call.md";
               Vault.content := numberedNote;
               Vault.mtime := 1710000000000; Vault.cache := None |})
  /\ option_map
       (fun parsed => objGet "todoist_id" (fst parsed))
       (Frontmatter.parseFrontmatter RefRuntime.runtime numberedNote)
     = Some (VNum (JInt 8675309))
  /\ option_map task_content
       (TodoistState.getTask "8675309" (World.todoistState numberedWorld))
     = Some "Call back"
  /\ SyncEngine.processFileChange RefRuntime.runtime "Todoist/Call.md"
       numberedWorld
     = (World.Returns tt, numberedWorld).
Proof.
  split; [reflexivity|]. split; [vm_compute; reflexivity|].
  split; [reflexivity|].
  apply (push_ignores_what_it_cannot_look_up RefRuntime.runtime
           numberedWorld "Todoist/Call.md"
           {| Vault.path := "Todoist/Call.md";
              Vault.content := numberedNote;
              Vault.mtime := 1710000000000; Vault.cache := None |});
    [reflexivity|].
  vm_compute. left. intros s. discriminate.
Defined.
Section TaskPushFacts.
Import World SyncEngine.
Variable rt : JsRuntime.

(** A change of a file that holds the note of a task goes to the push of
    a task, with the completion read off the body and the title read off
    the frontmatter or the first heading. *)
Lemma processFileChange_task (w : World.t) (filePath : string)
      (file : Vault.TFile) (fm : Bag) (body id : string) :
  Vault.getAbstractFileByPath filePath (vault w)
  = Some (Vault.IsFile file) ->
  TaskNoteText rt (Vault.content file) fm body id ->
  processFileChange rt filePath w
  = tryCatch
      (syncTaskChangesToTodoist rt (VStr id)
         {| Extract.ch_frontmatter := Some fm;
            Extract.ch_completed := VBool (Extract.extractCheckboxStatus body);
            Extract.ch_title := noteTitle fm body |}
         (Some file))
      (fun _ => ret tt) w.
Proof.
  intros Hfile (Hparse & Hid & Hne & Hproject & Hsection).
  unfold processFileChange, bind, getAbstractFileByPath, gets.
  rewrite Hfile.
  unfold Extract.isInSyncScope, Extract.extractTaskChanges.
  rewrite Hparse, Hid, Hproject, Hsection.
  cbn [strictEq negb truthy orb Extract.ch_frontmatter]. rewrite Hne.
  cbn [negb orb Extract.ch_frontmatter]. rewrite Hid.
  cbn [truthy]. rewrite Hne. reflexivity.
Qed.

Lemma strictEq_refl_str (s : string) : strictEq (VStr s) (VStr s) = true.
Proof. apply String.eqb_refl. Qed.

Lemma in_step_no_updates (task : TodoistTask) (fm : Bag) (body : string) :
  InStep task fm body ->
  (negb (strictEq (VBool (Extract.extractCheckboxStatus body)) VUndefined)
   && negb (strictEq (VBool (Extract.extractCheckboxStatus body))
              (VBool (task_checked task)))) = false
  /\ (truthy (noteTitle fm body)
      && negb (strictEq (noteTitle fm body) (VStr (task_content task))))
     = false
  /\ (negb (strictEq (objGet "priority" fm) VUndefined)
      && negb (strictEq (objGet "priority" fm)
                 (VNum (JInt (task_priority task))))) = false.
Proof.
  intros (Hc & Ht & Hp). split; [|split].
  - rewrite Hc. cbn. now rewrite Bool.eqb_reflx.
  - destruct Ht as [Ht|Ht]; rewrite Ht; [reflexivity|].
    rewrite strictEq_refl_str. apply andb_false_r.
  - destruct Hp as [Hp|Hp]; rewrite Hp; [reflexivity|].
    cbn. now rewrite Z.eqb_refl.
Qed.

(** X19.  A note that says of its task what the remote state says is not
    pushed: when the checkbox of the body, the title and the priority of
    the note agree with the task of that id (or the note states no title
    or no priority), a change of the file makes no call, asks nothing of
    the vault and leaves the world as it is, in any mode. *)
Theorem note_in_step_is_not_pushed (w : World.t) (filePath : string)
        (file : Vault.TFile) (fm : Bag) (body id : string)
        (task : TodoistTask) :
  Vault.getAbstractFileByPath filePath (vault w)
  = Some (Vault.IsFile file) ->
  TaskNoteText rt (Vault.content file) fm body id ->
  TodoistState.getTask id (todoistState w) = Some task ->
  InStep task fm body ->
  processFileChange rt filePath w = (Returns tt, w).
Proof.
  intros Hfile Hnote Htask Hstep.
  rewrite (processFileChange_task w filePath file fm body id Hfile Hnote).
  destruct (in_step_no_updates task fm body Hstep) as (Hc & Ht & Hp).
  unfold syncTaskChangesToTodoist, bind, gets, tryCatch.
  cbn [TodoistState.getTaskByValue]. rewrite Htask.
  cbn [Extract.ch_completed Extract.ch_title Extract.ch_frontmatter].
  rewrite Hc, Ht, Hp. reflexivity.
Qed.

Lemma findFile_path (p : string) (files : list Vault.TFile)
      (file : Vault.TFile) :
  Vault.findFile p files = Some file -> Vault.path file = p.
Proof.
  induction files as [|f files IH]; cbn; [discriminate|].
  destruct (String.eqb_spec (Vault.path f) p) as [Heq|Hne]; [|exact IH].
  now intros [= <-].
Qed.

Lemma file_at_path (p : string) (v : Vault.t) (file : Vault.TFile) :
  Vault.getAbstractFileByPath p v = Some (Vault.IsFile file) ->
  Vault.findFile (Vault.path file) (Vault.files v) = Some file.
Proof.
  unfold Vault.getAbstractFileByPath.
  destruct (Vault.findFile p (Vault.files v)) as [f|] eqn:Hf.
  - intros [= ->]. now rewrite (findFile_path p _ file Hf).
  - destruct (Vault.hasFolder p v); discriminate.
Qed.

(** The stamp of a note whose file is in the vault: one modification of
    the file, asked for whether the store carries it out or not. *)
Lemma stamp_log (w : World.t) (file : Vault.TFile) (fm : Bag)
      (body : string) :
  Vault.findFile (Vault.path file) (Vault.files (vault w)) = Some file ->
  Frontmatter.parseFrontmatter rt (Vault.content file) = Some (fm, body) ->
  fst (updateFileSyncTimestamp rt (Some file) w) = Returns tt
  /\ vaultLog (snd (updateFileSyncTimestamp rt (Some file) w))
     = (vaultLog w
        ++ [Vault.Modify (Vault.path file) (stamped rt (clock w) fm body)])%list
  /\ apiLog (snd (updateFileSyncTimestamp rt (Some file) w)) = apiLog w.
Proof.
  intros Hfile Hparse.
  unfold updateFileSyncTimestamp, readFile, now, tryCatch, bind, gets, ret.
  rewrite Hfile. cbn beta iota. rewrite Hparse.
  unfold modifyFile, storageWrite, stamped. cbn.
  destruct (storageFails _ _); now repeat split.
Qed.

(** X20.  An edited title is pushed and the note is stamped.  Outside
    dry-run mode, when the note of a task differs from the task of the
    remote state in its title only and the service accepts the update, a
    change of the file makes one call, the update of that task with the
    title of the note as its content, and asks the vault for one write,
    the modification of the file with the stamped frontmatter before the
    body it had. *)
Theorem edited_title_is_pushed_and_stamped (w : World.t)
        (filePath : string) (file : Vault.TFile) (fm : Bag)
        (body id title : string) (task : TodoistTask) :
  Vault.getAbstractFileByPath filePath (vault w)
  = Some (Vault.IsFile file) ->
  TaskNoteText rt (Vault.content file) fm body id ->
  TodoistState.getTask id (todoistState w) = Some task ->
  dryRunMode (settings w) = false ->
  TitleEdited task fm body title ->
  answerUpdateTask (remote w) id [("content", VStr title)] = Returns tt ->
  apiLog (snd (processFileChange rt filePath w))
  = (apiLog w ++ [CallUpdateTask id [("content", VStr title)]])%list
  /\ vaultLog (snd (processFileChange rt filePath w))
     = (vaultLog w
        ++ [Vault.Modify (Vault.path file)
              (stamped rt (clock w) fm body)])%list.
Proof.
  intros Hfile Hnote Htask Hdry (Hc & Ht & Hne & Hdiff & Hp) Hanswer.
  rewrite (processFileChange_task w filePath file fm body id Hfile Hnote).
  destruct Hnote as (Hparse & _).
  apply file_at_path in Hfile.
  assert (Hcc :
    (negb (strictEq (VBool (Extract.extractCheckboxStatus body)) VUndefined)
     && negb (strictEq (VBool (Extract.extractCheckboxStatus body))
                (VBool (task_checked task)))) = false).
  { rewrite Hc. cbn. now rewrite Bool.eqb_reflx. }
  assert (Hpp :
    (negb (strictEq (objGet "priority" fm) VUndefined)
     && negb (strictEq (objGet "priority" fm)
                (VNum (JInt (task_priority task))))) = false).
  { destruct Hp as [Hp|Hp]; rewrite Hp; [reflexivity|].
    cbn. now rewrite Z.eqb_refl. }
  assert (Htt :
    (truthy (VStr title)
     && negb (strictEq (VStr title) (VStr (task_content task)))) = true).
  { cbn. rewrite Hne. cbn. apply String.eqb_neq in Hdiff. now rewrite Hdiff. }
  assert (Hrun :
    tryCatch
      (syncTaskChangesToTodoist rt (VStr id)
         {| Extract.ch_frontmatter := Some fm;
            Extract.ch_completed := VBool (Extract.extractCheckboxStatus body);
            Extract.ch_title := noteTitle fm body |}
         (Some file))
      (fun _ => ret tt) w
    = tryCatch
        (tryCatch (updateFileSyncTimestamp rt (Some file))
           (fun _ => ret tt))
        (fun _ => ret tt)
        (logApiCall (CallUpdateTask id [("content", VStr title)]) w)).
  { unfold syncTaskChangesToTodoist, bind at 1, gets, tryCatch.
    cbn [TodoistState.getTaskByValue]. rewrite Htask.
    unfold bind at 1 2. rewrite Hdry.
    cbn [Extract.ch_completed Extract.ch_title Extract.ch_frontmatter].
    rewrite Hcc, Hpp, Ht, Htt.
    cbn [objSet objHas objInsert length Nat.ltb Nat.leb andb orb negb when].
    unfold bind, call, modify, ofOutcome, ret. rewrite Hanswer.
    reflexivity. }
  rewrite Hrun. clear Hrun.
  destruct (stamp_log (logApiCall
                         (CallUpdateTask id [("content", VStr title)]) w)
              file fm body Hfile Hparse) as (Hr & Hv & Ha).
  unfold tryCatch.
  destruct (updateFileSyncTimestamp rt (Some file) _) as [[[]|e] w1];
    cbn [fst snd] in *; [|discriminate].
  now split.
Qed.

(** X21.  A note without a checked box reopens a completed task.  Outside
    dry-run mode, when the task of the note is completed in the remote
    state and the body of the note holds no checked box (the generator
    writes none), the first call a change of the file makes is the
    reopening of the task. *)
Theorem note_without_checked_box_reopens_the_task (w : World.t)
        (filePath : string) (file : Vault.TFile) (fm : Bag)
        (body id : string) (task : TodoistTask) :
  Vault.getAbstractFileByPath filePath (vault w)
  = Some (Vault.IsFile file) ->
  TaskNoteText rt (Vault.content file) fm body id ->
  TodoistState.getTask id (todoistState w) = Some task ->
  dryRunMode (settings w) = false ->
  task_checked task = true ->
  Extract.extractCheckboxStatus body = false ->
  Extends anyCall (apiLog w ++ [CallReopenTask id])%list
    (apiLog (snd (processFileChange rt filePath w))).
Proof.
  intros Hfile Hnote Htask Hdry Hchecked Hbox.
  rewrite (processFileChange_task w filePath file fm body id Hfile Hnote).
  assert (Hrun : exists rest,
    (forall x, Keeps AnyWorld runFootprint (rest x))
    /\ tryCatch
         (syncTaskChangesToTodoist rt (VStr id)
            {| Extract.ch_frontmatter := Some fm;
               Extract.ch_completed :=
                 VBool (Extract.extractCheckboxStatus body);
               Extract.ch_title := noteTitle fm body |}
            (Some file))
         (fun _ => ret tt) w
       = tryCatch
           (tryCatch (bind (call (CallReopenTask id)) rest)
              (fun _ => ret tt))
           (fun _ => ret tt) w).
  { eexists. split; cycle 1.
    - unfold syncTaskChangesToTodoist, bind at 1, gets, tryCatch.
      cbn [TodoistState.getTaskByValue]. rewrite Htask.
      unfold bind at 1 2. rewrite Hdry.
      cbn [Extract.ch_completed Extract.ch_title Extract.ch_frontmatter].
      rewrite Hbox, Hchecked.
      cbn [strictEq Bool.eqb negb andb truthy when]. cbn beta iota.
      reflexivity.
    - intros x. apply (keeps_bind runFootprint AnyWorld any_stable).
      + apply keeps_when. intros _.
        apply (keeps_bind runFootprint AnyWorld any_stable);
          [now apply keeps_call | intros _; now apply keeps_same].
      + intros _. apply keeps_when. intros _.
        now apply (keeps_updateFileSyncTimestamp runFootprint AnyWorld
                     any_stable). }
  destruct Hrun as (rest & Hrest & ->).
  unfold tryCatch, bind, call, modify, ret.
  destruct (Hrest tt (logApiCall (CallReopenTask id) w) I)
    as (_ & _ & _ & Hcalls & _).
  now destruct (rest tt (logApiCall (CallReopenTask id) w)) as [[[]|e] w1].
Qed.

End TaskPushFacts.

(** The three statements above, on notes the generator wrote. *)

Section TaskPushExamples.
Import World SyncEngine.

Lemma note_in_step_witness :
  Vault.getAbstractFileByPath "Todoist/Sow.md" (vault inStepWorld)
  = Some (Vault.IsFile namedFile)
  /\ TaskNoteText RefRuntime.runtime namedNote namedFrontmatter
       EmptyString "t7"
  /\ TodoistState.getTask "t7" (todoistState inStepWorld) = Some namedTask
  /\ InStep namedTask namedFrontmatter EmptyString
  /\ processFileChange RefRuntime.runtime "Todoist/Sow.md" inStepWorld
     = (Returns tt, inStepWorld).
Proof.
  assert (Hnote : TaskNoteText RefRuntime.runtime namedNote namedFrontmatter
                    EmptyString "t7") by (vm_compute; now repeat split).
  assert (Hstep : InStep namedTask namedFrontmatter EmptyString)
    by (vm_compute; repeat split; now right).
  split; [reflexivity|]. split; [exact Hnote|]. split; [reflexivity|].
  split; [exact Hstep|].
  exact (note_in_step_is_not_pushed RefRuntime.runtime inStepWorld
           "Todoist/Sow.md" namedFile namedFrontmatter EmptyString "t7"
           namedTask eq_refl Hnote eq_refl Hstep).
Defined.

Lemma edited_title_witness :
  Vault.getAbstractFileByPath "Todoist/Sow.md" (vault indexedWorld)
  = Some (Vault.IsFile indexedFile)
  /\ TaskNoteText RefRuntime.runtime indexedNote indexedFrontmatter
       EmptyString "t7"
  /\ TodoistState.getTask "t7" (todoistState indexedWorld)
     = Some (retitled "Sow beans" namedTask)
  /\ TitleEdited (retitled "Sow beans" namedTask) indexedFrontmatter
       EmptyString "Sow"
  /\ stamped RefRuntime.runtime 1710000000000 indexedFrontmatter EmptyString
     = indexedStamped
  /\ apiLog (snd (processFileChange RefRuntime.runtime "Todoist/Sow.md"
                    indexedWorld))
     = [CallUpdateTask "t7" [("content", VStr "Sow")]]
  /\ vaultLog (snd (processFileChange RefRuntime.runtime "Todoist/Sow.md"
                      indexedWorld))
     = [Vault.Modify "Todoist/Sow.md"
          (stamped RefRuntime.runtime 1710000000000 indexedFrontmatter
             EmptyString)].
Proof.
  assert (Hnote : TaskNoteText RefRuntime.runtime indexedNote
                    indexedFrontmatter EmptyString "t7")
    by (vm_compute; now repeat split).
  assert (Hedit : TitleEdited (retitled "Sow beans" namedTask)
                    indexedFrontmatter EmptyString "Sow").
  { vm_compute. repeat split; try discriminate. now left. }
  split; [reflexivity|]. split; [exact Hnote|]. split; [reflexivity|].
  split; [exact Hedit|]. split; [vm_compute; reflexivity|].
  exact (edited_title_is_pushed_and_stamped RefRuntime.runtime indexedWorld
           "Todoist/Sow.md" indexedFile indexedFrontmatter EmptyString "t7"
           "Sow" (retitled "Sow beans" namedTask) eq_refl Hnote eq_refl
           eq_refl Hedit eq_refl).
Defined.

Lemma reopened_task_witness :
  TaskNoteText RefRuntime.runtime doneNote doneFrontmatter EmptyString "t8"
  /\ TodoistState.getTask "t8" (todoistState doneWorld) = Some doneTask
  /\ Extends anyCall [CallReopenTask "t8"]
       (apiLog (snd (processFileChange RefRuntime.runtime "Todoist/Reap.md"
                       doneWorld))).
Proof.
  assert (Hnote : TaskNoteText RefRuntime.runtime doneNote doneFrontmatter
                    EmptyString "t8") by (vm_compute; now repeat split).
  split; [exact Hnote|]. split; [reflexivity|].
  exact (note_without_checked_box_reopens_the_task RefRuntime.runtime
           doneWorld "Todoist/Reap.md" doneFile doneFrontmatter EmptyString
           "t8" doneTask eq_refl Hnote eq_refl eq_refl eq_refl eq_refl).
Defined.

End TaskPushExamples.
(** ** Names and paths of the generated notes *)

Section NameFacts.
Import Sanitizer NameRules.

Lemma allChars_list (p : ascii -> bool) (s : string) :
  allChars p s = forallb p (list_ascii_of_string s).
Proof. induction s as [|c s IH]; cbn; [reflexivity | now rewrite IH]. Qed.

Lemma allChars_of_list (p : ascii -> bool) (l : list ascii) :
  allChars p (string_of_list_ascii l) = forallb p l.
Proof. now rewrite allChars_list, list_of_string_of. Qed.

Lemma forallb_incl {A : Type} (p : A -> bool) (l l' : list A) :
  incl l' l -> forallb p l = true -> forallb p l' = true.
Proof.
  intros Hincl Hall. rewrite forallb_forall in *. auto.
Qed.

Lemma dropWhile_incl (p : ascii -> bool) (l : list ascii) :
  incl (dropWhile p l) l.
Proof.
  induction l as [|c l IH]; cbn; [apply incl_refl|].
  destruct (p c); [now apply incl_tl | apply incl_refl].
Qed.

Lemma allChars_trim (p : ascii -> bool) (s : string) :
  allChars p s = true -> allChars p (ruleTrim s) = true.
Proof.
  rewrite allChars_list. unfold ruleTrim. rewrite allChars_of_list.
  apply forallb_incl. intros c Hc. apply In_rev in Hc.
  apply dropWhile_incl in Hc. apply In_rev in Hc.
  now apply dropWhile_incl in Hc.
Qed.

Lemma allChars_truncate (p : ascii -> bool) (s : string) :
  allChars p s = true -> allChars p (ruleTruncate s) = true.
Proof.
  rewrite allChars_list. unfold ruleTruncate. rewrite allChars_of_list.
  apply forallb_incl. intros c Hc.
  rewrite <- (firstn_skipn 100 (list_ascii_of_string s)).
  apply in_or_app. now left.
Qed.

Lemma length_of_list (l : list ascii) :
  String.length (string_of_list_ascii l) = length l.
Proof. induction l as [|c l IH]; cbn; [reflexivity | now rewrite IH]. Qed.

Lemma length_truncate (s : string) : String.length (ruleTruncate s) <= 100.
Proof.
  unfold ruleTruncate. rewrite length_of_list. apply firstn_le_length.
Qed.

Lemma allChars_collapse (p : ascii -> bool) (s : string) :
  allChars p s = true -> allChars p (ruleCollapseUnderscores s) = true.
Proof.
  induction s as [|c s IH]; [reflexivity|]. intros H.
  cbn [allChars] in H. apply andb_prop in H as [Hc Hs].
  rewrite collapse_cons.
  destruct (isUnderscore c && startsWithChar "_" s); [now apply IH|].
  cbn [allChars]. now rewrite Hc, IH.
Qed.

Lemma length_collapse (s : string) :
  String.length (ruleCollapseUnderscores s) <= String.length s.
Proof.
  induction s as [|c s IH]; [cbn; lia|]. rewrite collapse_cons.
  destruct (isUnderscore c && startsWithChar "_" s);
    cbn [String.length]; lia.
Qed.

Lemma collapse_head (s : string) :
  startsWithChar "_" (ruleCollapseUnderscores s) = startsWithChar "_" s.
Proof.
  induction s as [|c s IH]; [reflexivity|].
  rewrite collapse_cons.
  destruct (isUnderscore c) eqn:Hc; cbn [andb]; [|reflexivity].
  destruct (startsWithChar "_" s) eqn:Hs; [|reflexivity].
  rewrite IH. cbn. unfold isUnderscore in Hc. now rewrite Hc.
Qed.

Lemma collapse_no_double (s : string) :
  hasDoubleUnderscore (ruleCollapseUnderscores s) = false.
Proof.
  induction s as [|c s IH]; [reflexivity|].
  rewrite collapse_cons.
  destruct (isUnderscore c && startsWithChar "_" s) eqn:Hrun; [exact IH|].
  cbn [hasDoubleUnderscore]. now rewrite collapse_head, Hrun, IH.
Qed.

Lemma replaced_chars (s : string) :
  allChars isFileChar (ruleReplaceDots (ruleReplaceUnsafe s)) = true.
Proof.
  unfold ruleReplaceDots, ruleReplaceUnsafe.
  induction s as [|c s IH]; cbn [mapStr allChars]; [reflexivity|].
  rewrite IH, andb_true_r, unsafe_class. unfold isFileChar.
  destruct (isUnsafeChar c) eqn:Hu; [reflexivity|].
  destruct (Ascii.eqb c ".") eqn:Hd; [reflexivity|].
  now rewrite Hu, Hd.
Qed.

Lemma sanitized_facts (name : string) :
  isEmpty (sanitizeFileName name) = false
  /\ String.length (sanitizeFileName name) <= 100
  /\ allChars isFileChar (sanitizeFileName name) = true
  /\ hasDoubleUnderscore (sanitizeFileName name) = false.
Proof.
  rewrite sanitize_refines. unfold sanitizeBySpec.
  set (cut := ruleTruncate
                (ruleTrim
                   (ruleReplaceDots
                      (ruleReplaceUnsafe (ruleCollapseLinks name))))).
  assert (Hchars : allChars isFileChar (ruleCollapseUnderscores cut) = true).
  { apply allChars_collapse, allChars_truncate, allChars_trim,
      replaced_chars. }
  assert (Hlen : String.length (ruleCollapseUnderscores cut) <= 100).
  { pose proof (length_collapse cut) as Hshorter.
    pose proof (length_truncate
                  (ruleTrim
                     (ruleReplaceDots
                        (ruleReplaceUnsafe (ruleCollapseLinks name)))))
      as Hcut.
    fold cut in Hcut. lia. }
  pose proof (collapse_no_double cut) as Hdouble.
  unfold ruleFallback.
  destruct (ruleCollapseUnderscores cut) as [|c s]; cbn [isEmpty].
  - repeat split; cbn; lia.
  - now repeat split.
Qed.

(** X22.  Whatever the title, the sanitized name can stand as one
    component of a path: it is not empty, it is at most 100 code units
    long, it holds no code unit of the unsafe class (no slash and no
    backslash among them) and no dot, and no two underscores in a row. *)
Theorem sanitized_name_is_one_path_component (title : string) :
  isEmpty (sanitizeFileName title) = false
  /\ String.length (sanitizeFileName title) <= 100
  /\ allChars isFileChar (sanitizeFileName title) = true
  /\ includesChar "/" (sanitizeFileName title) = false
  /\ includesChar "." (sanitizeFileName title) = false
  /\ hasDoubleUnderscore (sanitizeFileName title) = false.
Proof.
  destruct (sanitized_facts title) as (Hne & Hlen & Hchars & Hdouble).
  repeat split; auto.
  - apply includesChar_allChars.
    apply (allChars_weaken isFileChar); [|exact Hchars].
    intros c Hc. unfold isFileChar, isUnsafeChar in Hc.
    destruct (Ascii.eqb c "/"); [|reflexivity].
    rewrite !orb_true_r in Hc. discriminate.
  - apply includesChar_allChars.
    apply (allChars_weaken isFileChar); [|exact Hchars].
    intros c Hc. unfold isFileChar in Hc.
    destruct (Ascii.eqb c "."); [|reflexivity].
    rewrite andb_false_r in Hc. discriminate.
Qed.

End NameFacts.

Section PathFacts.
Import World FileGenerator Sanitizer NameRules.

Lemma prefix_append (a b : string) : String.prefix a (a ++ b) = true.
Proof.
  induction a as [|c a IH]; cbn; [now destruct b|].
  now destruct (ascii_dec c c).
Qed.

Lemma includesChar_append_r (c : ascii) (a b : string) :
  includesChar c b = true -> includesChar c (a ++ b) = true.
Proof.
  intros Hb. destruct (includesChar c (a ++ b)) eqn:E; [reflexivity|].
  apply includesChar_allChars in E. rewrite allChars_app in E.
  apply andb_prop in E as [_ E]. apply includesChar_allChars in E.
  congruence.
Qed.

Lemma includesChar_head (c : ascii) (s : string) :
  includesChar c (String c s) = true.
Proof. unfold includesChar. cbn. now rewrite Ascii.eqb_refl. Qed.

(** What follows the last [c] of a text that ends in [c] and a text
    without [c]. *)
Lemma afterLast_append (c : ascii) (a b : string) :
  includesChar c b = false ->
  Vault.afterLast c (a ++ String c b) = b.
Proof.
  intros Hb. induction a as [|d a IH]; cbn [append Vault.afterLast].
  - now rewrite Hb, Ascii.eqb_refl.
  - now rewrite (includesChar_append_r c a _ (includesChar_head c b)).
Qed.

Lemma extension_of (folder name : string) :
  includesChar "/" name = false ->
  includesChar "." name = false ->
  Vault.extension (folder ++ "/" ++ name ++ ".md") = "md".
Proof.
  intros Hslash Hdot. unfold Vault.extension, Vault.fileName.
  change (folder ++ "/" ++ name ++ ".md")
    with (folder ++ String "/" (name ++ ".md")).
  rewrite afterLast_append.
  - change (name ++ ".md") with (name ++ String "." "md").
    rewrite (includesChar_append_r "." name _ (includesChar_head "." "md")).
    now apply afterLast_append.
  - apply includesChar_allChars. rewrite allChars_app.
    apply includesChar_allChars in Hslash. now rewrite Hslash.
Qed.

Lemma below_root (root rest : string) :
  Vault.isBelow root (root ++ "/" ++ rest) = true.
Proof.
  unfold Vault.isBelow. rewrite <- append_assoc. apply prefix_append.
Qed.

Lemma marker_in_scope (root folder marker : string) :
  includesChar "/" marker = false ->
  includesChar "." marker = false ->
  inScanScope root ((root ++ "/" ++ folder) ++ "/" ++ marker ++ ".md") = true.
Proof.
  intros Hslash Hdot. unfold inScanScope.
  rewrite (extension_of _ marker Hslash Hdot).
  rewrite append_assoc. cbn [append].
  change (root ++ String "/" (folder ++ String "/" (marker ++ ".md")))
    with (root ++ "/" ++ (folder ++ String "/" (marker ++ ".md"))).
  now rewrite below_root.
Qed.

Lemma taskFolder_below (g : Generator) (projectName sectionName : option string)
      (name : string) :
  exists rest,
    getTaskFolderPath g projectName sectionName ++ "/" ++ name
    = g_syncFolderPath g ++ "/" ++ rest.
Proof.
  unfold getTaskFolderPath.
  destruct projectName as [p|]; [destruct (isEmpty p)|];
    try (now exists name).
  destruct sectionName as [s|]; [destruct (isEmpty s)|].
  - exists (sanitizeFileName p ++ "/" ++ name).
    now rewrite !append_assoc.
  - exists (sanitizeFileName p ++ "/" ++ sanitizeFileName s ++ "/" ++ name).
    now rewrite !append_assoc.
  - exists (sanitizeFileName p ++ "/" ++ name).
    now rewrite !append_assoc.
Qed.

Variable rt : JsRuntime.

(** X23.  The generator files its notes where the walk of the scan goes.
    The path of the note the generator returns for a project, for a
    section and for a task without an earlier note lies below the sync
    folder of the generator and ends in the extension [md], whatever the
    names of the entities: it passes the two tests the walk of the scan
    makes on a path before it hands the file to [processFile].  Whether
    [processFile] then takes the file for a note depends on the
    frontmatter the metadata cache holds for it, of which nothing is said
    here. *)
Theorem generated_paths_are_markdown_below_the_sync_folder (g : Generator)
        (w : World.t) :
  (forall project note,
      fst (createOrUpdateProjectNote rt g project w) = Returns note ->
      inScanScope (g_syncFolderPath g) (pn_filePath note) = true)
  /\ (forall section projectName note,
         fst (createOrUpdateSectionNote rt g section projectName w)
         = Returns note ->
         inScanScope (g_syncFolderPath g) (sn_filePath note) = true)
  /\ (forall task projectName sectionName note,
         fst (createOrUpdateTaskNote rt g task projectName sectionName
                None w) = Returns note ->
         inScanScope (g_syncFolderPath g) (tn_filePath note) = true).
Proof.
  split; [|split].
  - intros project note Hnote.
    destruct (mat_projectNote rt g project w) as [_ Hq].
    destruct (Hq note Hnote) as (stamp & ->).
    cbn [pn_filePath projectNoteOf].
    replace (projectFilePath g project)
      with ((g_syncFolderPath g ++ "/"
             ++ sanitizeFileName (project_name project))
            ++ "/" ++ "_project" ++ ".md")
      by (unfold projectFilePath; now rewrite !append_assoc).
    now apply marker_in_scope.
  - intros section projectName note Hnote.
    destruct (mat_sectionNote rt g section projectName w) as [_ Hq].
    destruct (Hq note Hnote) as (stamp & ->).
    cbn [sn_filePath sectionNoteOf].
    replace (sectionFilePath g section projectName)
      with ((g_syncFolderPath g ++ "/"
             ++ (sanitizeFileName projectName ++ "/"
                 ++ sanitizeFileName (section_name section)))
            ++ "/" ++ "_section" ++ ".md")
      by (unfold sectionFilePath; now rewrite !append_assoc).
    now apply marker_in_scope.
  - intros task projectName sectionName note Hnote.
    destruct (mat_taskNote rt g task projectName sectionName None w)
      as [_ Hq].
    destruct (Hq note Hnote) as (stamp & ->).
    cbn [tn_filePath taskNoteOf]. unfold taskFilePath. cbn [given].
    destruct (sanitized_facts (taskTitle task)) as (_ & _ & Hchars & _).
    unfold inScanScope. rewrite extension_of.
    + destruct (taskFolder_below g projectName sectionName
                  (sanitizeFileName (taskTitle task) ++ ".md"))
        as (rest & ->).
      now rewrite below_root.
    + apply includesChar_allChars.
      apply (allChars_weaken isFileChar); [|exact Hchars].
      intros c Hc. unfold isFileChar, isUnsafeChar in Hc.
      destruct (Ascii.eqb c "/"); [|reflexivity].
      rewrite !orb_true_r in Hc. discriminate.
    + apply includesChar_allChars.
      apply (allChars_weaken isFileChar); [|exact Hchars].
      intros c Hc. unfold isFileChar in Hc.
      destruct (Ascii.eqb c "."); [|reflexivity].
      rewrite andb_false_r in Hc. discriminate.
Qed.

End PathFacts.
(** ** Deletions and file events *)

Section EventFacts.
Import World FileGenerator SyncEngine ObsidianState.

Lemma findFile_removed (p : string) (files : list Vault.TFile) :
  Vault.findFile p
    (filter (fun f => negb (String.eqb (Vault.path f) p)) files) = None.
Proof.
  induction files as [|f files IH]; cbn; [reflexivity|].
  destruct (String.eqb (Vault.path f) p) eqn:E; cbn; [exact IH|].
  now rewrite E.
Qed.

Lemma findFile_kept (p q : string) (files : list Vault.TFile) :
  String.eqb q p = false ->
  Vault.findFile q
    (filter (fun f => negb (String.eqb (Vault.path f) p)) files)
  = Vault.findFile q files.
Proof.
  intros Hne. induction files as [|f files IH]; cbn; [reflexivity|].
  destruct (String.eqb (Vault.path f) p) eqn:E; cbn.
  - apply String.eqb_eq in E. rewrite E.
    rewrite String.eqb_sym, Hne. exact IH.
  - destruct (String.eqb (Vault.path f) q); [reflexivity | exact IH].
Qed.

Lemma deleteNote_unfold (g : Generator) (filePath : string) (w : World.t) :
  deleteNote g filePath w
  = if g_dryRun g then (Returns tt, w)
    else match Vault.getAbstractFileByPath filePath (vault w) with
         | Some (Vault.IsFile f) => deleteFile f w
         | _ => (Returns tt, w)
         end.
Proof.
  unfold deleteNote, bind, getAbstractFileByPath, gets.
  destruct (g_dryRun g); [reflexivity|].
  now destruct (Vault.getAbstractFileByPath filePath (vault w)) as [[f|q]|].
Qed.

(** X24.  [deleteNote] removes the file at the path and nothing else.  In
    dry-run mode, and when the path holds a folder or nothing, it asks
    nothing of the vault and leaves the world as it is.  Otherwise it asks
    for one deletion, of that path; when the store carries it out no file
    is left at the path and every other file is where it was. *)
Theorem deleteNote_removes_the_file_at_the_path (g : Generator)
        (filePath : string) (w : World.t) :
  (g_dryRun g = true -> deleteNote g filePath w = (Returns tt, w))
  /\ (forall folder,
         Vault.getAbstractFileByPath filePath (vault w)
         = Some (Vault.IsFolder folder) ->
         deleteNote g filePath w = (Returns tt, w))
  /\ (Vault.getAbstractFileByPath filePath (vault w) = None ->
      deleteNote g filePath w = (Returns tt, w))
  /\ (forall file,
         g_dryRun g = false ->
         Vault.getAbstractFileByPath filePath (vault w)
         = Some (Vault.IsFile file) ->
         storageFails w (Vault.Delete filePath) = None ->
         let w' := snd (deleteNote g filePath w) in
         fst (deleteNote g filePath w) = Returns tt
         /\ vaultLog w' = (vaultLog w ++ [Vault.Delete filePath])%list
         /\ Vault.findFile filePath (Vault.files (vault w')) = None
         /\ forall other,
              String.eqb other filePath = false ->
              Vault.findFile other (Vault.files (vault w'))
              = Vault.findFile other (Vault.files (vault w))).
Proof.
  rewrite deleteNote_unfold.
  split; [|split; [|split]].
  - now intros ->.
  - intros folder ->. now destruct (g_dryRun g).
  - intros ->. now destruct (g_dryRun g).
  - intros file -> Hfile Hstore. rewrite Hfile. cbv zeta.
    pose proof (file_at_path filePath (vault w) file Hfile) as Hat.
    assert (Hpath : Vault.path file = filePath).
    { unfold Vault.getAbstractFileByPath in Hfile.
      destruct (Vault.findFile filePath (Vault.files (vault w))) as [f|]
        eqn:Hf; [|destruct (Vault.hasFolder filePath (vault w));
                  discriminate].
      injection Hfile as ->. exact (findFile_path filePath _ file Hf). }
    unfold deleteFile, storageWrite. rewrite Hpath. cbn.
    rewrite Hstore. cbn. repeat split.
    + apply findFile_removed.
    + intros other Hother. now apply findFile_kept.
Qed.

(** X25.  A modification event is queued when the engine is watching and
    the path starts with the text of the sync folder path, and only then:
    otherwise the world is as it was.  A queued path is in the queue once
    however often it is reported, under the time of the last report, and
    the other paths of the queue are as they were.  To stop watching
    empties the queue. *)
Theorem modification_events_are_queued_once (filePath : string)
        (w : World.t) :
  (isWatchingFiles w = false -> onFileModified filePath w = w)
  /\ (String.prefix (syncFolderPath (settings w)) filePath = false ->
      onFileModified filePath w = w)
  /\ (isWatchingFiles w = true ->
      String.prefix (syncFolderPath (settings w)) filePath = true ->
      JsMap.get String.eqb filePath
        (pendingChanges (onFileModified filePath w)) = Some (clock w)
      /\ (NoDup (JsMap.keys (pendingChanges w)) ->
          NoDup (JsMap.keys (pendingChanges (onFileModified filePath w))))
      /\ (forall other,
             String.eqb filePath other = false ->
             JsMap.get String.eqb other
               (pendingChanges (onFileModified filePath w))
             = JsMap.get String.eqb other (pendingChanges w)))
  /\ pendingChanges (stopFileWatching w) = []
  /\ isWatchingFiles (stopFileWatching w) = false
  /\ onFileModified filePath (stopFileWatching w) = stopFileWatching w.
Proof.
  unfold onFileModified.
  split; [|split; [|split; [|split; [|split]]]]; try reflexivity.
  - now intros ->.
  - intros ->. now destruct (isWatchingFiles w).
  - intros -> ->. cbn. split; [|split].
    + apply get_set_same, String.eqb_refl.
    + apply nodup_set, string_decides.
    + intros other Hother. apply get_set_other; [apply string_decides|].
      exact Hother.
Qed.

Lemma dropped {N : Type} (id : Value) (found : option N) (m : ValMap N) :
  sameValueZero id id = true ->
  NoDup (JsMap.keys m) ->
  found = JsMap.get sameValueZero id m ->
  JsMap.get sameValueZero id
    (match found with
     | Some _ => JsMap.delete sameValueZero id m
     | None => m
     end) = None.
Proof.
  intros Hid Hnd ->. destruct (JsMap.get sameValueZero id m) eqn:Hget;
    [|exact Hget].
  apply get_delete_same; [now apply sameValueZero_decides | exact Hnd].
Qed.

(** X26.  The deletion of a file drops every note under its id and is
    never passed on.  When the path leads to a truthy id that is not an
    array, in a local state that holds no id twice, the state afterwards
    holds no task, project or section note under that id, whichever note
    the path belonged to; the vault, the remote state and the record of
    the calls are as they were.  A path that leads to no id leaves the
    world as it is. *)
Theorem deleted_file_drops_the_notes_of_its_id (filePath : string)
        (id : Value) (w : World.t) :
  getTodoistIdForPath filePath (obsidianState w) = Some id ->
  truthy id = true ->
  sameValueZero id id = true ->
  Tidy (obsidianState w) ->
  let w' := onFileDeleted filePath w in
  getTaskNote id (obsidianState w') = None
  /\ getProjectNote id (obsidianState w') = None
  /\ getSectionNote id (obsidianState w') = None
  /\ vault w' = vault w
  /\ vaultLog w' = vaultLog w
  /\ apiLog w' = apiLog w
  /\ todoistState w' = todoistState w.
Proof.
  intros Hpath Htruthy Hid (Ht & Hp & Hs). cbv zeta.
  unfold onFileDeleted. rewrite Hpath, Htruthy.
  unfold getTaskNote, getProjectNote, getSectionNote, removeNote.
  cbn. repeat split; now apply dropped.
Qed.

Lemma deleteNote_witness :
  g_dryRun (fileGenerator oneFileWorld) = false
  /\ fst (FileGenerator.deleteNote (fileGenerator oneFileWorld)
            "Todoist/Sow.md" oneFileWorld) = Returns tt
  /\ vaultLog (snd (FileGenerator.deleteNote (fileGenerator oneFileWorld)
                      "Todoist/Sow.md" oneFileWorld))
     = [Vault.Delete "Todoist/Sow.md"].
Proof.
  split; [reflexivity|].
  destruct (deleteNote_removes_the_file_at_the_path
              (fileGenerator oneFileWorld) "Todoist/Sow.md" oneFileWorld)
    as (_ & _ & _ & H).
  destruct (H {| Vault.path := "Todoist/Sow.md"; Vault.content := "text";
                 Vault.mtime := 1710000000000; Vault.cache := None |}
              eq_refl eq_refl eq_refl) as (Hr & Hl & _).
  split; [exact Hr | exact Hl].
Defined.

Lemma deleted_file_witness :
  ObsidianState.getTodoistIdForPath "Todoist/Water.md"
    (obsidianState oneNoteWorld) = Some (VStr "t1")
  /\ Tidy (obsidianState oneNoteWorld)
  /\ ObsidianState.getTaskNote (VStr "t1")
       (obsidianState (onFileDeleted "Todoist/Water.md" oneNoteWorld))
     = None.
Proof.
  assert (Htidy : Tidy (obsidianState oneNoteWorld)).
  { repeat split; cbn; repeat constructor. intros []. }
  split; [reflexivity|]. split; [exact Htidy|].
  apply (deleted_file_drops_the_notes_of_its_id "Todoist/Water.md"
           (VStr "t1") oneNoteWorld eq_refl eq_refl eq_refl Htidy).
Defined.

End EventFacts.
(** ** The frame of a note *)

Section FrameOfANote.
Import Frontmatter.

Lemma splitOn_nonempty (sep : ascii) (s : string) : splitOn sep s <> [].
Proof.
  induction s as [|c s IH]; cbn; [discriminate|].
  destruct (Ascii.eqb c sep); [discriminate|].
  now destruct (splitOn sep s).
Qed.

Lemma splitOn_append (sep : ascii) (a b : string) :
  splitOn sep (a ++ String sep b) = (splitOn sep a ++ splitOn sep b)%list.
Proof.
  induction a as [|c a IH]; cbn [append splitOn].
  - now rewrite Ascii.eqb_refl.
  - destruct (Ascii.eqb c sep); [now rewrite IH|].
    rewrite IH. pose proof (splitOn_nonempty sep a).
    now destruct (splitOn sep a).
Qed.

Lemma joinLines_head (c : ascii) (l : string) (ls : list string) :
  joinLines (String c l :: ls) = String c (joinLines (l :: ls)).
Proof. now destruct ls. Qed.

Lemma joinLines_splitLines (s : string) : joinLines (splitLines s) = s.
Proof.
  unfold splitLines. induction s as [|c s IH]; [reflexivity|].
  cbn [splitOn]. pose proof (splitOn_nonempty lf s) as Hne.
  destruct (Ascii.eqb c lf) eqn:Hc.
  - apply Ascii.eqb_eq in Hc. subst c.
    rewrite joinLines_cons by exact Hne. now rewrite IH.
  - destruct (splitOn lf s) as [|l ls]; [congruence|].
    now rewrite joinLines_head, IH.
Qed.

Lemma findDelimiter_none (ls : list string) :
  Forall (fun l => l <> delimiter) ls ->
  forall i, findDelimiter i ls = None.
Proof.
  induction 1 as [|l ls Hl _ IH]; intros i; cbn; [reflexivity|].
  apply String.eqb_neq in Hl. now rewrite Hl.
Qed.

Lemma findDelimiter_first (ls rest : list string) :
  Forall (fun l => l <> delimiter) ls ->
  forall i, findDelimiter i (ls ++ delimiter :: rest) = Some (i + length ls).
Proof.
  induction 1 as [|l ls Hl _ IH]; intros i; cbn.
  - f_equal. lia.
  - apply String.eqb_neq in Hl. rewrite Hl, IH. f_equal. lia.
Qed.

Variable rt : JsRuntime.

(** X27.  The parser needs both delimiter lines and returns the body as
    it is.  A text whose first line is not the three dashes has no
    frontmatter (a first line that ends in a carriage return is such a
    line); neither has a text without a second line of three dashes.  Of
    a text made of the delimiter line, YAML none of whose lines is the
    delimiter, the delimiter line and a body, the parser returns the
    properties of the YAML and the body unchanged, whatever the body
    holds. *)
Theorem parser_needs_both_delimiter_lines :
  (forall first rest,
      first <> delimiter -> includesChar lf first = false ->
      parseFrontmatter rt (first ++ newline ++ rest) = None)
  /\ (forall yaml,
         Forall (fun l => l <> delimiter) (splitLines yaml) ->
         parseFrontmatter rt (delimiter ++ newline ++ yaml) = None)
  /\ (forall yaml body,
         Forall (fun l => l <> delimiter) (splitLines yaml) ->
         parseFrontmatter rt
           (delimiter ++ newline ++ yaml ++ newline ++ delimiter ++ newline
            ++ body)
         = Some (parseYaml rt yaml, body)).
Proof.
  split; [|split].
  - intros first rest Hfirst Hlf. unfold parseFrontmatter, splitLines.
    change (first ++ newline ++ rest) with (first ++ String lf rest).
    rewrite splitOn_app_sep by exact Hlf.
    apply String.eqb_neq in Hfirst. now rewrite Hfirst.
  - intros yaml Hyaml. unfold parseFrontmatter, splitLines.
    change (delimiter ++ newline ++ yaml)
      with (delimiter ++ String lf yaml).
    rewrite splitOn_app_sep by reflexivity. cbn [String.eqb negb].
    rewrite String.eqb_refl. cbn [negb].
    now rewrite (findDelimiter_none _ Hyaml).
  - intros yaml body Hyaml. unfold parseFrontmatter, splitLines.
    change (delimiter ++ newline ++ yaml ++ newline ++ delimiter ++ newline
            ++ body)
      with (delimiter
            ++ String lf (yaml ++ String lf (delimiter ++ String lf body))).
    rewrite splitOn_app_sep by reflexivity.
    rewrite String.eqb_refl. cbn [negb].
    rewrite splitOn_append, (splitOn_app_sep lf delimiter body eq_refl).
    fold (splitLines yaml). fold (splitLines body).
    rewrite (findDelimiter_first _ _ Hyaml).
    replace (1 + length (splitLines yaml) - 1) with (length (splitLines yaml))
      by lia.
    rewrite firstn_app, firstn_all, Nat.sub_diag. cbn [firstn].
    rewrite app_nil_r, joinLines_splitLines.
    replace (1 + length (splitLines yaml))
      with (length (splitLines yaml) + 1) by lia.
    rewrite skipn_app, skipn_all2 by lia.
    replace (length (splitLines yaml) + 1 - length (splitLines yaml))
      with 1 by lia.
    cbn [skipn app]. now rewrite joinLines_splitLines.
Qed.

End FrameOfANote.

(** ** The scan finds the notes *)

Section ScanFinds.
Import ObsidianState.

Lemma processFile_task_found (file : Vault.TFile) (fm : Bag)
      (st : ObsidianState.t) :
  Vault.cache file = Some fm ->
  truthy (objGet "todoist_id" fm) = true ->
  sameValueZero (objGet "todoist_id" fm) (objGet "todoist_id" fm) = true ->
  strictEq (objGet "todoist_type" fm) (VStr "project") = false ->
  strictEq (objGet "todoist_type" fm) (VStr "section") = false ->
  getTaskNote (objGet "todoist_id" fm) (processFile file st)
  = Some (taskNoteOfFile file fm).
Proof.
  intros Hcache Hid Hself Hp Hs. unfold processFile, getTaskNote.
  rewrite Hcache, Hid, Hp, Hs. cbn. now apply get_set_same.
Qed.

Lemma processFile_task_kept (file : Vault.TFile) (id : Value)
      (st : ObsidianState.t) :
  (forall fm,
      Vault.cache file = Some fm ->
      truthy (objGet "todoist_id" fm) = true ->
      sameValueZero (objGet "todoist_id" fm) id = false) ->
  getTaskNote id (processFile file st) = getTaskNote id st.
Proof.
  intros Hother. unfold processFile, getTaskNote.
  destruct (Vault.cache file) as [fm|]; [|reflexivity].
  specialize (Hother fm eq_refl).
  destruct (truthy (objGet "todoist_id" fm)) eqn:Hid; [|reflexivity].
  specialize (Hother eq_refl). cbn [negb].
  destruct (strictEq (objGet "todoist_type" fm) (VStr "project"));
    [reflexivity|].
  destruct (strictEq (objGet "todoist_type" fm) (VStr "section"));
    [reflexivity|].
  cbn. destruct (sameValueZero (objGet "todoist_id" fm)
                   (objGet "todoist_id" fm)) eqn:Hself.
  - apply get_set_other; [now apply sameValueZero_decides | exact Hother].
  - clear - Hother. induction (taskNotes st) as [|[k v] m IH]; cbn.
    + now rewrite Hother.
    + destruct (sameValueZero k (objGet "todoist_id" fm)) eqn:E; cbn.
      * apply sameValueZero_eq in E. subst k. now rewrite Hother.
      * destruct (sameValueZero k id); [reflexivity | exact IH].
Qed.

(** X28.  The scan finds the note of a task document whose id no other
    document carries.  When the sync folder is a folder of the vault, a
    markdown file below it whose cached frontmatter holds a truthy
    [todoist_id] that is not an array, and a type other than project and
    section, is in the state the scan builds, under its id, as the note of
    that file, provided every other scanned file of the vault carries
    another id. *)
Theorem scan_finds_the_single_note_of_an_id (root : string) (v : Vault.t)
        (file : Vault.TFile) (fm : Bag) :
  Vault.getAbstractFileByPath root v = Some (Vault.IsFolder root) ->
  Scanned root v file fm ->
  sameValueZero (objGet "todoist_id" fm) (objGet "todoist_id" fm) = true ->
  strictEq (objGet "todoist_type" fm) (VStr "project") = false ->
  strictEq (objGet "todoist_type" fm) (VStr "section") = false ->
  (forall other fm',
      Scanned root v other fm' -> other <> file ->
      sameValueZero (objGet "todoist_id" fm') (objGet "todoist_id" fm)
      = false) ->
  getTaskNote (objGet "todoist_id" fm) (scanVault root v)
  = Some (taskNoteOfFile file fm).
Proof.
  intros Hroot (Hin & Hbelow & Hext & Hcache & Hid) Hself Hp Hs Hsingle.
  unfold scanVault. rewrite Hroot.
  set (step := fun (st : ObsidianState.t) (f : Vault.TFile) =>
                 if Vault.isBelow root (Vault.path f)
                    && String.eqb (Vault.extension (Vault.path f)) "md"
                 then processFile f st else st).
  assert (Hkeep : forall files,
             incl files (Vault.files v) ->
             forall st,
               getTaskNote (objGet "todoist_id" fm) st
               = Some (taskNoteOfFile file fm) ->
               getTaskNote (objGet "todoist_id" fm) (fold_left step files st)
               = Some (taskNoteOfFile file fm)).
  { induction files as [|f files IH]; intros Hincl st Hst; cbn [fold_left];
      [exact Hst|].
    apply IH; [intros x Hx; apply Hincl; now right|].
    unfold step.
    destruct (Vault.isBelow root (Vault.path f)) eqn:Hb; cbn [andb];
      [|exact Hst].
    destruct (String.eqb_spec (Vault.extension (Vault.path f)) "md")
      as [He|He]; [|exact Hst].
    assert (Hdec : {f = file} + {f <> file}).
    { clear. destruct f as [p c m o], file as [p' c' m' o'].
      repeat decide equality; try apply Z.eq_dec; try apply string_dec;
        try apply Ascii.ascii_dec; try apply Bool.bool_dec.
      all: try (decide equality; apply string_dec). }
    destruct Hdec as [->|Hne].
    - now apply processFile_task_found.
    - rewrite processFile_task_kept; [exact Hst|].
      intros fm' Hc' Hid'. apply (Hsingle f fm'); [|exact Hne].
      repeat split; auto. apply Hincl. now left. }
  apply in_split in Hin as (before & after & Hfiles).
  rewrite Hfiles, fold_left_app. cbn [fold_left].
  apply Hkeep.
  - intros x Hx. rewrite Hfiles. apply in_or_app. right. now right.
  - unfold step at 1. rewrite Hbelow, Hext. cbn.
    now apply processFile_task_found.
Qed.

Lemma scan_finds_witness :
  getTaskNote (VStr "t1") (scanVault "Todoist" scanVaultExample)
  = Some (taskNoteOfFile
            {| Vault.path := "Todoist/Water.md"; Vault.content := "body";
               Vault.mtime := 7; Vault.cache := Some (taskCache "t1") |}
            (taskCache "t1")).
Proof.
  apply (scan_finds_the_single_note_of_an_id "Todoist" scanVaultExample
           {| Vault.path := "Todoist/Water.md"; Vault.content := "body";
              Vault.mtime := 7; Vault.cache := Some (taskCache "t1") |}
           (taskCache "t1")); try reflexivity.
  - repeat split. now left.
  - intros other fm' (Hin & Hbelow & _ & Hcache & Hid) Hne.
    destruct Hin as [<-|[<-|[<-|[]]]].
    + now destruct Hne.
    + cbn in Hcache. injection Hcache as <-. discriminate.
    + discriminate.
Defined.

End ScanFinds.
